(* ===== verification/_CoqProject ===== *)
-Q . S2P
Prelude.v
PyTime.v
PyText.v
PyDecimal.v
Activity.v
Scheduling.v
Jobs.v
JobsContract.v
Hashing.v
HashingContract.v
Cards.v
Deck.v
DeckContract.v
Evidence.v
EvidenceContract.v
Interviews.v
InterviewsContract.v
Notifications.v
NotificationsContract.v
Operations.v
OperationsContract.v
Agents.v
AgentsContract.v
Memory.v
MemoryContract.v
