(* ===== verification/Prelude.v ===== *)
(** * TAM Forge: a verification library

    TAM Forge is a private learning workspace: a FastAPI backend under
    src/apps/backend, contracts it shares with a macOS app under
    src/packages/protocol, PostgreSQL for everything durable.  This library
    models the backend's own rules and the repositories that keep its state, in
    the form the Python code has, and proves what makes them correct.

    ** How the parts interact

    A learner works through study days.  The scheduler (Scheduling.v) builds a
    day within the time policy; an activity runs through its state machine
    under a timer (Activity.v).  What happens is announced in an outbox:
    deliveries turn outbox rows into notifications and a status stream
    (Notifications.v), and slow work is a durable job that workers lease, retry
    and finish (Jobs.v).  Model runs are bounded, their tools are authorised and
    audited, and what may be sent follows from what it cites (Agents.v);
    records of them are digests of a canonical JSON text (Hashing.v).  Scores
    become evidence, estimates and trends (Evidence.v); cards are scheduled by
    SM-2 (Cards.v) in a deck that logs every review (Deck.v).  What the system
    remembers of the learner passes a review and goes to a model in a packet
    (Memory.v).  Real interviews have their own permissions, redaction and
    release (Interviews.v).  Backups and deletions follow the rules of
    Operations.v.

    ** Files

    - Prelude.v: the error monad [res] (a Python [raise] is an [exn]), the
      state and error monad [action] for methods of mutable objects, stable
      sorting ([sorted(key=...)]), the tactics [bool_prop], [inv_ok] and
      [inv_ok_prop], lemmas on lists, sums and the order of texts.
    - PyTime.v, PyText.v, PyDecimal.v: the parts of Python's datetime, str, re
      and decimal the program uses.
    - Activity.v: learning/enums.py, state_machine.py, time_policy.py,
      timers.py, with their theorems.
    - Scheduling.v: learning/scheduling.py, with its theorems.
    - Jobs.v, JobsContract.v: jobs/policy.py, schemas.py, service.py,
      repository.py and the job rows of notifications/models.py.
    - Hashing.v, HashingContract.v: agents/hashing.py.
    - Cards.v: cards/scheduling.py, with its theorems.  Deck.v,
      DeckContract.v: cards/service.py, models.py, schemas.py and part of
      importing.py.
    - Evidence.v, EvidenceContract.v: the calculators of evidence/: scoring.py,
      qualification.py, trend.py, confidence.py, portfolio.py, and the parts of
      config_models.py they read.
    - Interviews.v, InterviewsContract.v: protocol's interviews.py and the
      backend's interviews/policy.py, redaction.py, timeline.py, recovery.py.
    - Notifications.v, NotificationsContract.v: notifications/policy.py,
      repository.py, service.py, sse.py and their rows.
    - Operations.v, OperationsContract.v: operations/backup_policy.py and
      retention.py.
    - Agents.v, AgentsContract.v: agents/contracts.py, classification.py,
      runtime.py, tools/registry.py.
    - Memory.v, MemoryContract.v: protocol's memory.py and the backend's
      memory/policy.py, service.py, context.py.

    A definition has the name of the function it translates where Rocq allows
    it; a constructor's validator is [new_<Class>].  A repository call is one
    transaction: a function from the content of the tables to the new content
    or an exception that leaves them as they were.  A file named after another
    with Contract at its end holds the theorems about it, the invariants they
    need and the concrete inputs they are tried on.

    ** What the theorems show

    - Refinement: every call of the job service is a sequence of moves of an
      abstract queue; a card is where its logged reviews put it.
    - Invariants over any history of calls: leases are exclusive, stored rows
      pass the checks of the model layer, attempts are bounded and finished jobs
      stay as they are; the memory ledger only grows and its histories are
      chains; a competency sits where its evidence puts it; a session of focus
      counts no more than the caps allow.
    - Safety: feedback comes after the self-review and a committed output stays
      committed; no memory is approved without its warrant; nothing is released
      without permission and approval of these very bytes; no deletion without
      consent; no event is published twice; required work gives way to
      interviews only.
    - Liveness and termination: enough deliveries drain the outbox; an agent
      run ends after one repair; a pending proposal can be decided.
    - Equivalences: decimal SM-2 equals exact SM-2; redaction from the right
      equals one pass from the left; the legacy numbering of study days is the
      general one; a canonical text determines its value.
    - Function: the job a claim takes, the disposition of a failure report, the
      decision on left-over work, the evidence an estimate reads and the weight
      each event has in it, the sources of a packet, the checks of a tool call.
    - Bounds: a day within its budget, estimates and scores on their scale.
    - Errors: which calls refuse, with which exception, and what is left; where
      the code does not do what it means to, a theorem or an example computes
      the failing case ([reclaim_recovers_one_lease],
      [replay_after_retry_conflicts], [inferred_episode_is_never_approved],
      [approved_inference_promotes_again], [expiry_before_start_is_stored],
      [oversized_assignment_is_skipped], [late_publication_is_skipped],
      [blank_question_is_an_outage]).

    ** The instances of a session

    The repositories share one SQLAlchemy session per call, and an attribute of
    an instance that [expire_all] expired cannot be read on an asynchronous
    session without raising [MissingGreenlet].  Jobs.v therefore says in the
    loop of [reclaim_expired], the one place of the modelled code that reads
    instances after such a call, which of them are still loaded.

    ** Bounds and fuel

    Loops over lists are folds and structural recursion.  Fuel appears in
    Hashing.v (66 levels: the code refuses a depth above 64) and in PyDecimal.v
    (the digits of the operands).  A string has characters below U+0100.

    ** Parameters

    The zone database, SHA-256, Python's JSON writer, the clock and fresh
    identifiers, the rows other transactions hold locked, and the transports,
    validators and handlers the agents are given.

    ** Not modelled

    - SQL as such: a query is modelled by the rows it selects, their order and
      its limit; the migrations under alembic/ and their triggers, and the
      failures of the database itself, are not modelled.
    - The year range of [datetime] in the sums of Jobs.v and Evidence.v: the
      cutoff of [has_recent_assessment] and the end of a lease are numbers,
      where Python raises [OverflowError] near the years 1 and 9999.
    - The text of messages that print a list, and pydantic's own error texts.
    - The rows and commands of the activities (learning/models.py, service.py),
      recordings, authentication, audit events and the provenance of model runs;
      the repositories and services of evidence/, roadmaps/, today/, reviews/,
      reports/, notes/ and speech/, which store and assemble rows around the
      rules modelled here; the release checklist, whose judges read files.
    - HTTP routes, configuration, observability, the object store, the workers'
      loops, the Agent SDK adapter; scripts, infrastructure, tests and the macOS
      app.
    - Floating-point arithmetic: a float the code only compares is its rational
      value; embeddings and speech metrics are left out.

    ** Plan

    Next: the rows of the activities and their commands, recordings,
    authentication with its audit events, and the provenance of model runs. *)

From stdpp Require Import prelude list sorting strings gmap.
From Stdlib Require Import ZArith Lia.

#[global] Open Scope Z_scope.

(** ** Exceptions and the error monad

    A Python [raise] is a value of [exn]: the exception class and its message.
    A call that may raise returns [res A]. *)

Record exn := Exn { exn_class : string; exn_message : string }.

#[export] Instance exn_eq_dec : EqDecision exn.
Proof. solve_decision. Defined.

Inductive res (A : Type) : Type :=
  | Ok (a : A)
  | Err (e : exn).
Arguments Ok {A} a.
Arguments Err {A} e.

Definition res_bind {A B} (m : res A) (k : A → res B) : res B :=
  match m with
  | Ok a => k a
  | Err e => Err e
  end.

(** [if b: raise e] *)
Definition raise_if (b : bool) (e : exn) : res unit :=
  if b then Err e else Ok tt.

Definition is_ok {A} (m : res A) : bool :=
  match m with Ok _ => true | Err _ => false end.

Definition ok_or {A} (d : A) (m : res A) : A :=
  match m with Ok a => a | Err _ => d end.

(** The exception that Python's own operators raise. *)
Definition TypeError (msg : string) : exn := Exn "TypeError" msg.
Definition OverflowError (msg : string) : exn := Exn "OverflowError" msg.

Declare Scope res_scope.
Delimit Scope res_scope with res.
Notation "'let*' x := m 'in' k" := (res_bind m (λ x, k))
  (at level 10, x binder, m at level 200, k at level 200) : res_scope.
Notation "m ;;; k" := (res_bind m (λ _, k))
  (at level 100, right associativity) : res_scope.
#[global] Open Scope res_scope.

(** A loop that may raise: the results of [f] in order, or the first exception. *)
Fixpoint res_map {A B} (f : A → res B) (l : list A) : res (list B) :=
  match l with
  | [] => Ok []
  | x :: l' => let* y := f x in let* ys := res_map f l' in Ok (y :: ys)
  end.

(** A loop that threads a state and may raise. *)
Fixpoint res_fold {A S} (f : S → A → res S) (s : S) (l : list A) : res S :=
  match l with
  | [] => Ok s
  | x :: l' => let* s' := f s x in res_fold f s' l'
  end.

Lemma res_bind_Ok {A B} (m : res A) (k : A → res B) b :
  res_bind m k = Ok b ↔ ∃ a, m = Ok a ∧ k a = Ok b.
Proof.
  destruct m as [a|e]; simpl; split.
  - eauto.
  - by intros (a' & [= ->] & ?).
  - done.
  - by intros (a' & ? & ?).
Qed.

Lemma raise_if_Ok b e u : raise_if b e = Ok u ↔ b = false.
Proof. destruct b, u; by split. Qed.

(** A guard followed by the rest of the body. *)
Lemma raise_if_bind_Ok {A} b e (k : res A) a :
  res_bind (raise_if b e) (λ _, k) = Ok a ↔ b = false ∧ k = Ok a.
Proof. destruct b; simpl; naive_solver. Qed.

(** ** Results of lists *)

Lemma is_ok_spec {A} (m : res A) : is_ok m = true ↔ ∃ a, m = Ok a.
Proof. destruct m; naive_solver. Qed.

Lemma res_map_map {A B C} (f : B → res C) (g : A → B) l : res_map f (map g l) = res_map (λ x, f (g x)) l.
Proof. induction l as [|x l IH]; simpl; [done|]. by rewrite IH. Qed.

Lemma res_map_ext {A B} (f g : A → res B) l : (∀ x, f x = g x) → res_map f l = res_map g l.
Proof. intros Hfg. induction l as [|x l IH]; simpl; [done|]. by rewrite Hfg, IH. Qed.

Lemma res_fold_app {A S} (f : S → A → res S) l1 l2 s :
  res_fold f s (l1 ++ l2) = (let* s' := res_fold f s l1 in res_fold f s' l2).
Proof. revert s; induction l1 as [|x l1 IH]; intros s; simpl; [done|]. destruct (f s x); simpl; [apply IH|done]. Qed.

(** ** Methods of a mutable object

    A call on an object of state [S] returns its new state and a value, or
    raises; what it had changed before it raised stays changed. *)

Definition action (S A : Type) : Type := S → S * res A.

#[export] Instance action_ret S : MRet (action S) := λ A a s, (s, Ok a).
#[export] Instance action_bind S : MBind (action S) := λ A B k m s,
  match m s with
  | (s', Ok a) => k a s'
  | (s', Err e) => (s', Err e)
  end.

Definition throw {S A} (e : exn) : action S A := λ s, (s, Err e).
Definition lift {S A} (m : res A) : action S A := λ s, (s, m).
Definition gets {S A} (f : S → A) : action S A := λ s, (s, Ok (f s)).
Definition modify {S} (f : S → S) : action S unit := λ s, (f s, Ok tt).

(** ** Tactics and hints *)

Create Rewrite HintDb pybool.
Create Rewrite HintDb pysum.
#[export] Hint Rewrite andb_true_iff andb_false_iff orb_true_iff orb_false_iff
  negb_true_iff negb_false_iff : pybool.
#[export] Hint Rewrite Z.leb_le Z.leb_gt Z.ltb_lt Z.ltb_ge Z.eqb_eq Z.eqb_neq
  Nat.leb_le Nat.leb_gt Nat.ltb_lt Nat.ltb_ge Nat.eqb_eq Nat.eqb_neq
  bool_decide_eq_true bool_decide_eq_false String.eqb_eq String.eqb_neq : pybool.

(** Turn boolean tests in the context into propositions. *)
Ltac bool_prop := autorewrite with pybool in *; destruct_and?.

(** Invert a successful run: every bind gives its intermediate value, every
    [raise_if] the negation of its guard, every [if] both branches. *)
Ltac inv_ok :=
  repeat (simplify_eq; simpl in *;
    match goal with
    | H : res_bind _ _ = Ok _ |- _ => apply res_bind_Ok in H as (? & ? & ?)
    | H : raise_if _ _ = Ok _ |- _ => apply raise_if_Ok in H
    | H : Ok _ = Ok _ |- _ => injection H as H
    | H : Err _ = Ok _ |- _ => discriminate H
    | H : (if ?b then _ else _) = Ok _ |- _ => destruct b eqn:?
    | H : match ?m with _ => _ end = Ok _ |- _ => destruct m eqn:?
    end); simplify_eq.

(** The same, with the tests read as propositions afterwards. *)
Ltac inv_ok_prop := inv_ok; bool_prop.

(** ** Stable sorting: [sorted(l, key=...)]

    [leb x y] says that the key of [x] is at most the key of [y]; equal keys
    keep the order of the input, as Python's sort does. *)
Section sorting.
Context {A : Type} (leb : A → A → bool).

Fixpoint insert_by (x : A) (l : list A) : list A :=
  match l with
  | [] => [x]
  | y :: l' => if leb x y then x :: y :: l' else y :: insert_by x l'
  end.

Definition sort_by (l : list A) : list A := foldr insert_by [] l.

Lemma insert_by_perm x l : insert_by x l ≡ₚ x :: l.
Proof.
  induction l as [|y l IH]; simpl; [done|]. case_match; [done|].
  rewrite IH. apply Permutation_swap.
Qed.

Lemma sort_by_perm l : sort_by l ≡ₚ l.
Proof. induction l as [|x l IH]; simpl; [done|]. by rewrite insert_by_perm, IH. Qed.

Lemma elem_of_sort_by x l : x ∈ sort_by l ↔ x ∈ l.
Proof. by rewrite sort_by_perm. Qed.

Lemma length_sort_by l : length (sort_by l) = length l.
Proof. by rewrite sort_by_perm. Qed.

Context (leb_total : ∀ x y, leb x y = true ∨ leb y x = true).
Context (leb_trans : ∀ x y z, leb x y = true → leb y z = true → leb x z = true).

Lemma insert_by_sorted x l :
  StronglySorted (λ x y, leb x y = true) l →
  StronglySorted (λ x y, leb x y = true) (insert_by x l).
Proof.
  induction 1 as [|y l Hl IH Hy]; simpl; [by repeat constructor|].
  destruct (leb x y) eqn:Hxy.
  - constructor; [by constructor|]. constructor; [done|].
    eapply Forall_impl; [exact Hy|]; eauto.
  - constructor; [done|]. rewrite insert_by_perm. constructor; [|done].
    destruct (leb_total x y); congruence.
Qed.

Lemma sort_by_id l : StronglySorted (λ x y, leb x y = true) l → sort_by l = l.
Proof.
  induction 1 as [|x l _ IH Hx]; simpl; [done|]. rewrite IH.
  destruct Hx as [|y l Hxy _]; simpl; [done|]. by rewrite Hxy.
Qed.

Lemma sort_by_sorted l : StronglySorted (λ x y, leb x y = true) (sort_by l).
Proof. induction l; simpl; [constructor|by apply insert_by_sorted]. Qed.

(** Nothing in the input is below the first element of the sorted list. *)
Lemma sort_by_head_least x l l' :
  sort_by l = x :: l' → x ∈ l ∧ ∀ y, y ∈ l → leb x y = true.
Proof.
  intros Hs. split; [rewrite <- elem_of_sort_by, Hs; by left|].
  intros y Hy. rewrite <- elem_of_sort_by, Hs in Hy.
  pose proof (sort_by_sorted l) as Hsorted. rewrite Hs in Hsorted.
  apply StronglySorted_inv in Hsorted as [_ Hall].
  apply elem_of_cons in Hy as [->|Hy]; [by destruct (leb_total x x)|].
  by eapply Forall_forall in Hall.
Qed.

(** [min(l, key=..., default=None)]: the first least element. *)
Definition min_by (l : list A) : option A := head (sort_by l).

Lemma min_by_Some x l :
  min_by l = Some x → x ∈ l ∧ ∀ y, y ∈ l → leb x y = true.
Proof.
  unfold min_by. destruct (sort_by l) as [|z l'] eqn:E; simpl; [done|].
  intros [= ->]. by eapply sort_by_head_least.
Qed.

Lemma min_by_None l : min_by l = None ↔ l = [].
Proof.
  unfold min_by. split; [|by intros ->].
  intros H. apply Permutation_nil_r. rewrite <- sort_by_perm.
  by destruct (sort_by l).
Qed.
End sorting.

(** Sorting commutes with a projection that keeps the order. *)
Lemma sort_by_map {A B} (leb : A → A → bool) (leb' : B → B → bool) (f : A → B) l :
  (∀ x y, leb' (f x) (f y) = leb x y) → sort_by leb' (map f l) = map f (sort_by leb l).
Proof.
  intros Hf. assert (∀ x l, insert_by leb' (f x) (map f l) = map f (insert_by leb x l)) as Hins.
  { intros x k. induction k as [|y k IH]; simpl; [done|]. rewrite Hf, IH. by destruct (leb x y). }
  induction l as [|x l IH]; simpl; [done|]. rewrite IH. apply Hins.
Qed.

(** *** Tuple keys

    Python compares tuples of integers lexicographically. *)
Fixpoint lex_leb (a b : list Z) : bool :=
  match a, b with
  | [], _ => true
  | _ :: _, [] => false
  | x :: a', y :: b' => (x <? y) || ((x =? y) && lex_leb a' b')
  end.

Lemma lex_leb_total a b : lex_leb a b = true ∨ lex_leb b a = true.
Proof.
  revert b; induction a as [|x a IH]; intros [|y b]; simpl; auto.
  destruct (Z.lt_trichotomy x y) as [H|[->|H]].
  - left. apply Z.ltb_lt in H. by rewrite H.
  - rewrite Z.eqb_refl, Z.ltb_irrefl. simpl. apply IH.
  - right. apply Z.ltb_lt in H. by rewrite H.
Qed.

Lemma lex_leb_cons x a y b :
  lex_leb (x :: a) (y :: b) = true ↔ x < y ∨ (x = y ∧ lex_leb a b = true).
Proof. simpl. by rewrite orb_true_iff, andb_true_iff, Z.ltb_lt, Z.eqb_eq. Qed.

Lemma lex_leb_trans a b c : lex_leb a b = true → lex_leb b c = true → lex_leb a c = true.
Proof.
  revert b c; induction a as [|x a IH]; [done|].
  intros [|y b] [|z c]; try done. rewrite !lex_leb_cons.
  intros [?|[-> ?]] [?|[-> ?]]; [left; lia|left; lia|left; lia|right; eauto].
Qed.

Section key_order.
Context {A : Type} (key : A → list Z).
(** [key=...] and [key=..., reverse=True] *)
Definition key_leb (x y : A) : bool := lex_leb (key x) (key y).
Definition key_geb (x y : A) : bool := lex_leb (key y) (key x).
Lemma key_leb_total x y : key_leb x y = true ∨ key_leb y x = true.
Proof. apply lex_leb_total. Qed.
Lemma key_leb_trans x y z : key_leb x y = true → key_leb y z = true → key_leb x z = true.
Proof. apply lex_leb_trans. Qed.
Lemma key_geb_total x y : key_geb x y = true ∨ key_geb y x = true.
Proof. apply lex_leb_total. Qed.
Lemma key_geb_trans x y z : key_geb x y = true → key_geb y z = true → key_geb x z = true.
Proof. unfold key_geb. intros. by eapply lex_leb_trans. Qed.
End key_order.
#[export] Hint Resolve key_leb_total key_leb_trans key_geb_total key_geb_trans : core.

(** ** Integer sums over lists *)

Definition sumZ (l : list Z) : Z := foldr Z.add 0 l.

Lemma sumZ_cons x l : sumZ (x :: l) = x + sumZ l.
Proof. done. Qed.

Lemma sumZ_app l1 l2 : sumZ (l1 ++ l2) = sumZ l1 + sumZ l2.
Proof. induction l1 as [|x l1 IH]; simpl; [done|]. unfold sumZ in *. lia. Qed.

#[global] Arguments sumZ : simpl never.

Lemma sumZ_nil : sumZ [] = 0.
Proof. done. Qed.

#[export] Instance sumZ_proper : Proper ((≡ₚ) ==> (=)) sumZ.
Proof. induction 1; rewrite ?sumZ_cons; lia. Qed.

Lemma sumZ_nonneg l : Forall (λ x, 0 ≤ x) l → 0 ≤ sumZ l.
Proof. induction 1; rewrite ?sumZ_nil, ?sumZ_cons; lia. Qed.

Lemma sumZ_map_nonneg {A} (f : A → Z) l : (∀ x, x ∈ l → 0 ≤ f x) → 0 ≤ sumZ (map f l).
Proof.
  intros H. apply sumZ_nonneg, Forall_forall. intros z Hz.
  apply list_elem_of_In, in_map_iff in Hz as (x & <- & Hx).
  by apply H, list_elem_of_In.
Qed.

#[export] Hint Rewrite sumZ_nil sumZ_cons sumZ_app : pysum.

(** A property of the consumed prefix and the accumulator that every turn of a
    loop keeps holds when the loop ends. *)
Lemma fold_left_prefix_invariant {A S} (P : list A → S → Prop) (f : S → A → S) l s :
  P [] s → (∀ pre x s', x ∈ l → P pre s' → P (pre ++ [x]) (f s' x)) → P l (fold_left f l s).
Proof.
  induction l as [|x l IH] using rev_ind; intros H0 Hstep; [done|].
  rewrite fold_left_app. simpl. apply Hstep; [set_solver|]. apply IH; [done|].
  intros pre y s' Hy. apply Hstep. set_solver.
Qed.

Lemma list_filter_all {A} (P : A → Prop) `{∀ x, Decision (P x)} (l : list A) :
  (∀ x, x ∈ l → P x) → filter P l = l.
Proof.
  induction l as [|x l IH]; intros Hall; [done|].
  rewrite filter_cons_True by (apply Hall; by left). f_equal. apply IH. intros. apply Hall. by right.
Qed.

Lemma list_filter_none {A} (P : A → Prop) `{∀ x, Decision (P x)} (l : list A) :
  (∀ x, x ∈ l → ¬ P x) → filter P l = [].
Proof.
  induction l as [|x l IH]; intros Hall; [done|].
  rewrite filter_cons_False by (apply Hall; by left). apply IH. intros. apply Hall. by right.
Qed.

(** Distinct keys identify the elements of a list. *)
Lemma NoDup_map_inj {A B} (f : A → B) (l : list A) x y :
  NoDup (map f l) → x ∈ l → y ∈ l → f x = f y → x = y.
Proof.
  induction l as [|z l IH]; simpl; intros Hnd Hx Hy Heq; [by apply elem_of_nil in Hx|].
  apply NoDup_cons in Hnd as [Hz Hnd].
  assert (∀ w, w ∈ l → f w ∈ map f l) as Hmap.
  { intros w Hw. apply list_elem_of_In, in_map, list_elem_of_In, Hw. }
  apply elem_of_cons in Hx as [->|Hx], Hy as [->|Hy]; auto.
  - exfalso. apply Hz. rewrite Heq. auto.
  - exfalso. apply Hz. rewrite <- Heq. auto.
Qed.

Lemma Forall2_elem_of_r {A B} (R : A → B → Prop) (l : list A) (k : list B) y :
  Forall2 R l k → y ∈ k → ∃ x, x ∈ l ∧ R x y.
Proof.
  induction 1 as [|x z l k Hxz _ IH]; intros Hy; [by apply elem_of_nil in Hy|].
  apply elem_of_cons in Hy as [->|Hy]; [exists x; split; [by left|done]|].
  destruct (IH Hy) as (w & ? & ?). exists w. split; [by right|done].
Qed.

Lemma StronglySorted_filter {A} (R : relation A) (P : A → Prop) `{∀ x, Decision (P x)} l :
  StronglySorted R l → StronglySorted R (filter P l).
Proof.
  induction 1 as [|x l Hl IH Hx]; [constructor|]. rewrite filter_cons. case_decide; [|done].
  constructor; [done|]. apply Forall_forall. intros y [_ Hy]%list_elem_of_filter.
  by eapply Forall_forall in Hx.
Qed.

Lemma StronglySorted_impl {A} (R S : relation A) l :
  (∀ x y, R x y → S x y) → StronglySorted R l → StronglySorted S l.
Proof.
  intros HRS. induction 1 as [|x l _ IH Hx]; constructor; [done|].
  eapply Forall_impl; [exact Hx|auto].
Qed.

(** Strictly increasing keys are distinct. *)
Lemma StronglySorted_NoDup_map {A} (f : A → Z) l :
  StronglySorted (λ x y, f x < f y) l → NoDup (map f l).
Proof.
  induction 1 as [|x l _ IH Hx]; simpl; [constructor|]. apply NoDup_cons. split; [|done].
  intros (y & Heq & Hy)%list_elem_of_fmap. rewrite Forall_forall in Hx. specialize (Hx y Hy). simpl in Hx. lia.
Qed.

Lemma StronglySorted_take_drop {A} (R : relation A) l n :
  StronglySorted R l → ∀ x y, x ∈ take n l → y ∈ drop n l → R x y.
Proof.
  intros Hl. revert n. induction Hl as [|z l Hl IH Hz]; intros [|n] x y; simpl.
  1-3: by intros ?%elem_of_nil.
  intros [->|Hx]%elem_of_cons Hy; [|by eapply IH].
  rewrite Forall_forall in Hz. apply Hz. apply list_elem_of_lookup.
  apply list_elem_of_lookup in Hy as [i Hi]. rewrite lookup_drop in Hi. eauto.
Qed.

(** Two different elements of a sorted list are related one way or the other. *)
Lemma StronglySorted_distinct {A} (R : relation A) l x y :
  StronglySorted R l → x ∈ l → y ∈ l → x ≠ y → R x y ∨ R y x.
Proof.
  induction 1 as [|z l _ IH Hz]; intros Hx Hy Hne; [by apply elem_of_nil in Hx|].
  rewrite Forall_forall in Hz. apply elem_of_cons in Hx as [->|Hx], Hy as [->|Hy]; auto; done.
Qed.

Lemma elem_of_drop_weaken {A} (x : A) n l : x ∈ drop n l → x ∈ l.
Proof. intros H. rewrite <- (take_drop n l). apply elem_of_app. by right. Qed.

(** ** Python text

    A [str] is a [string] of characters with code points below 256. The
    characters [str.isspace] accepts in that range are the ASCII controls
    U+0009..U+000D and U+001C..U+001F, the space, U+0085 and U+00A0. *)

Definition py_space (c : Ascii.ascii) : bool :=
  let n := Ascii.N_of_ascii c in
  ((9 <=? n) && (n <=? 13) || (28 <=? n) && (n <=? 32) || (n =? 133) || (n =? 160))%N.

(** [not s.strip()] *)
Fixpoint blank (s : string) : bool :=
  match s with
  | EmptyString => true
  | String c s' => py_space c && blank s'
  end.

(** Strings are ordered by code point, character by character. *)
Lemma Ascii_compare_spec (a b : Ascii.ascii) :
  Ascii.compare a b = (Ascii.N_of_ascii a ?= Ascii.N_of_ascii b)%N.
Proof. done. Qed.

Lemma String_leb_cons a s b t :
  String.leb (String a s) (String b t) = true ↔
  (Ascii.N_of_ascii a < Ascii.N_of_ascii b)%N ∨ (a = b ∧ String.leb s t = true).
Proof.
  unfold String.leb. simpl. rewrite Ascii_compare_spec.
  destruct (N.compare_spec (Ascii.N_of_ascii a) (Ascii.N_of_ascii b)) as [E|E|E].
  - apply (f_equal Ascii.ascii_of_N) in E. rewrite !Ascii.ascii_N_embedding in E. subst b.
    split; [by right|]. intros [?|[_ ?]]; [lia|done].
  - naive_solver.
  - split; [done|]. intros [?|[-> _]]; lia.
Qed.

Lemma String_leb_total s t : String.leb s t = true ∨ String.leb t s = true.
Proof. destruct (String.leb_total s t) as [H|H]; [by left|by right]. Qed.

Lemma String_leb_trans s t u :
  String.leb s t = true → String.leb t u = true → String.leb s u = true.
Proof.
  revert t u; induction s as [|a s IH]; intros [|b t] [|c u]; try done.
  rewrite !String_leb_cons. intros [?|[-> ?]] [?|[-> ?]]; [left; lia|by left|by left|right]. eauto.
Qed.

(** [x in (a, b, ...)] for texts. *)
Definition str_in (s : string) (l : list string) : bool := existsb (String.eqb s) l.

#[global] Arguments str_in : simpl never.

Lemma str_in_spec s l : str_in s l = true ↔ s ∈ l.
Proof.
  unfold str_in. rewrite existsb_exists. setoid_rewrite String.eqb_eq.
  setoid_rewrite <- list_elem_of_In. naive_solver.
Qed.
#[export] Hint Rewrite str_in_spec : pybool.
