(* ===== verification/PyTime.v ===== *)
(** * Calendar dates and datetimes

    The part of Python's [datetime] the program uses.  A [date] is its
    proleptic Gregorian ordinal, as [date.toordinal] numbers it; a [datetime]
    is a wall clock reading in microseconds with an optional UTC offset; a
    [timedelta] is a number of microseconds. *)

From stdpp Require Import prelude list strings pretty.
From Stdlib Require Import ZArith Lia.
From S2P Require Import Prelude.

(** ** Dates *)

Abbreviation date := Z (only parsing).
Definition date_min : date := 1.
Definition date_max : date := 3652059.

(** [date.weekday()]: Monday is 0 and Sunday is 6. *)
Definition weekday (d : date) : Z := (d + 6) `mod` 7.

(** [d + timedelta(days=n)], which raises outside the years 1 to 9999. *)
Definition date_add (d : date) (n : Z) : res date :=
  if (date_min <=? d + n) && (d + n <=? date_max) then Ok (d + n)
  else Err (OverflowError "date value out of range").

Lemma weekday_bounds d : 0 ≤ weekday d < 7.
Proof. unfold weekday. apply Z.mod_pos_bound. lia. Qed.

Lemma date_add_Ok d n d' :
  date_add d n = Ok d' ↔ d' = d + n ∧ date_min ≤ d + n ≤ date_max.
Proof.
  unfold date_add. destruct (_ && _) eqn:E; bool_prop.
  - split; [intros [= <-]; auto|intros [-> _]; auto].
  - split; [done|]. intros [-> ?]. destruct E; lia.
Qed.

(** *** Year, month and ISO week

    [date.fromordinal] splits an ordinal into 400, 100, 4 and 1 year cycles. *)

Definition is_leap (y : Z) : bool :=
  (y `mod` 4 =? 0) && (negb (y `mod` 100 =? 0) || (y `mod` 400 =? 0)).

(** The year of an ordinal and the day of that year, counted from zero. *)
Definition year_yday (d : date) : Z * Z :=
  let n := d - 1 in
  let n400 := n `div` 146097 in let n := n `mod` 146097 in
  let n100 := n `div` 36524 in let n := n `mod` 36524 in
  let n4 := n `div` 1461 in let n := n `mod` 1461 in
  let n1 := n `div` 365 in let n := n `mod` 365 in
  let year := n400 * 400 + 1 + n100 * 100 + n4 * 4 + n1 in
  if (n1 =? 4) || (n100 =? 4) then (year - 1, 365) else (year, n).

Definition date_year (d : date) : Z := fst (year_yday d).

Definition month_lengths (leap : bool) : list Z :=
  [31; if leap then 29 else 28; 31; 30; 31; 30; 31; 31; 30; 31; 30; 31].

(** The month in whose days the [yday]-th day of the year falls. *)
Fixpoint month_of (lengths : list Z) (yday month : Z) : Z :=
  match lengths with
  | [] => month
  | len :: rest => if yday <? len then month else month_of rest (yday - len) (month + 1)
  end.

Definition date_month (d : date) : Z :=
  let '(year, yday) := year_yday d in month_of (month_lengths (is_leap year)) yday 1.

(** [isocalendar()] numbers a week by the year its Thursday falls in. *)
Definition iso_year_week (d : date) : Z * Z :=
  let thursday := d - weekday d + 3 in
  let '(year, yday) := year_yday thursday in (year, yday `div` 7 + 1).

(** ** Timedeltas, in microseconds *)

Abbreviation timedelta := Z (only parsing).
Definition us_per_second : timedelta := 1000000.
Definition us_per_minute : timedelta := 60 * us_per_second.
Definition us_per_day : timedelta := 86400 * us_per_second.
Definition seconds (n : Z) : timedelta := n * us_per_second.
Definition minutes (n : Z) : timedelta := n * us_per_minute.
Definition days (n : Z) : timedelta := n * us_per_day.
(** [timedelta(days=n)] *)
Definition td_of_days (n : Z) : res timedelta :=
  raise_if (negb ((-999999999 <=? n) && (n <=? 999999999)))
    (OverflowError ("days=" +:+ pretty n +:+ "; must have magnitude <= 999999999")) ;;;
  Ok (days n).

(** ** Datetimes *)

Record datetime := DateTime {
  dt_wall : Z;            (** microseconds of the wall clock since ordinal 0 *)
  dt_offset : option Z;   (** [utcoffset()]; [None] is a naive datetime *)
}.

#[export] Instance datetime_eq_dec : EqDecision datetime.
Proof. solve_decision. Defined.

(** [value.tzinfo is not None and value.utcoffset() is not None] *)
Definition aware (t : datetime) : bool := bool_decide (is_Some (dt_offset t)).

(** The UTC instant of an aware datetime; a naive one is compared by its wall
    clock. *)
Definition instant (t : datetime) : Z := dt_wall t - default 0 (dt_offset t).

(** [t.date()] and [t.time()], read off the wall clock. *)
Definition dt_date (t : datetime) : date := dt_wall t `div` us_per_day.

(** [t + td] and [t - td] keep the offset. *)
Definition dt_add (t : datetime) (td : timedelta) : datetime :=
  DateTime (dt_wall t + td) (dt_offset t).

(** [t + td], which raises outside the years 1 to 9999. *)
Definition dt_plus (t : datetime) (td : timedelta) : res datetime :=
  raise_if (negb ((date_min <=? dt_date (dt_add t td)) && (dt_date (dt_add t td) <=? date_max)))
    (OverflowError "date value out of range") ;;;
  Ok (dt_add t td).

(** [a - b]: mixing a naive and an aware datetime is a [TypeError]. *)
Definition dt_sub (a b : datetime) : res timedelta :=
  if Bool.eqb (aware a) (aware b) then Ok (instant a - instant b)
  else Err (TypeError "can't subtract offset-naive and offset-aware datetimes").

(** [a < b] and [a <= b], with the same [TypeError]. *)
Definition dt_lt (a b : datetime) : res bool :=
  if Bool.eqb (aware a) (aware b) then Ok (instant a <? instant b)
  else Err (TypeError "can't compare offset-naive and offset-aware datetimes").
Definition dt_le (a b : datetime) : res bool :=
  if Bool.eqb (aware a) (aware b) then Ok (instant a <=? instant b)
  else Err (TypeError "can't compare offset-naive and offset-aware datetimes").

(** A datetime in UTC, at the given instant. *)
Definition utc (us : Z) : datetime := DateTime us (Some 0).

Lemma aware_utc us : aware (utc us) = true.
Proof. done. Qed.

Lemma instant_add t td : instant (dt_add t td) = instant t + td.
Proof. unfold instant, dt_add; simpl; lia. Qed.

Lemma aware_add t td : aware (dt_add t td) = aware t.
Proof. done. Qed.

Lemma dt_lt_aware a b : aware a = true → aware b = true → dt_lt a b = Ok (instant a <? instant b).
Proof. unfold dt_lt. by intros -> ->. Qed.

Lemma dt_le_aware a b : aware a = true → aware b = true → dt_le a b = Ok (instant a <=? instant b).
Proof. unfold dt_le. by intros -> ->. Qed.

Create HintDb pytime discriminated.
#[export] Hint Resolve weekday_bounds aware_utc : pytime.
