(* ===== verification/PyText.v ===== *)
(** * Text

    The part of Python's [str] and [re] the program uses, on characters with
    code points below 256: character classes, case folding of ASCII letters,
    and the matchers of the regular expressions that are alternations of
    literals. *)

From stdpp Require Import prelude list strings pretty.
From Stdlib Require Import ZArith Lia.
From S2P Require Import Prelude.

(** ** Character classes *)

Definition is_lower (c : Ascii.ascii) : bool :=
  let n := Ascii.N_of_ascii c in ((97 <=? n) && (n <=? 122))%N.
Definition is_upper (c : Ascii.ascii) : bool :=
  let n := Ascii.N_of_ascii c in ((65 <=? n) && (n <=? 90))%N.
Definition is_digit (c : Ascii.ascii) : bool :=
  let n := Ascii.N_of_ascii c in ((48 <=? n) && (n <=? 57))%N.
Definition char_in (c : Ascii.ascii) (l : list N) : bool :=
  existsb (N.eqb (Ascii.N_of_ascii c)) l.

Fixpoint all_chars (p : Ascii.ascii → bool) (s : string) : bool :=
  match s with EmptyString => true | String c s' => p c && all_chars p s' end.

(** The ASCII letter in lower case.  Under [re.IGNORECASE] no other character
    below U+0100 matches an ASCII letter. *)
Definition ascii_lower (c : Ascii.ascii) : Ascii.ascii :=
  if is_upper c then Ascii.ascii_of_N (Ascii.N_of_ascii c + 32) else c.

(** [\w]: letters, digits and numerics of Latin-1, and the underscore. *)
Definition word_char (c : Ascii.ascii) : bool :=
  let n := Ascii.N_of_ascii c in
  is_lower c || is_upper c || is_digit c ||
  char_in c [95; 170; 178; 179; 181; 185; 186; 188; 189; 190]%N ||
  ((192 <=? n) && (n <=? 255) && negb (n =? 215) && negb (n =? 247))%N.

(** The white space of the regular expressions in schema patterns, which
    leaves out the separators U+001C..U+001F. *)
Definition pattern_space (c : Ascii.ascii) : bool :=
  let n := Ascii.N_of_ascii c in
  ((9 <=? n) && (n <=? 13) || (n =? 32) || (n =? 133) || (n =? 160))%N.

(** [pattern=r"\S"]: some character is not white space. *)
Definition has_non_space (s : string) : bool := negb (all_chars pattern_space s).

(** [len(s)] *)
Definition str_len (s : string) : Z := Z.of_nat (String.length s).

(** ** Identifier patterns *)

(** [^<first><rest>{0,most}$] *)
Definition bounded_name (first rest : Ascii.ascii → bool) (most : Z) (s : string) : bool :=
  match s with
  | EmptyString => false
  | String c s' => first c && (str_len s' <=? most) && all_chars rest s'
  end.

(** ** Literal alternations *)

(** The rest of [s] after [lit], ignoring case; [lit] is in lower case. *)
Fixpoint strip_prefix_ci (lit s : string) : option string :=
  match lit, s with
  | EmptyString, _ => Some s
  | String a lit', String c s' =>
      if Ascii.eqb a (ascii_lower c) then strip_prefix_ci lit' s' else None
  | String _ _, EmptyString => None
  end.

Fixpoint drop_space (s : string) : string :=
  match s with
  | EmptyString => EmptyString
  | String c s' => if py_space c then drop_space s' else s
  end.

(** [text.strip()] *)
Fixpoint strip_right (s : string) : string :=
  match s with
  | EmptyString => EmptyString
  | String c s' => if blank s then EmptyString else String c (strip_right s')
  end.
Definition strip (s : string) : string := strip_right (drop_space s).

(** [\b] after a word character. *)
Definition word_ends (rest : string) : bool :=
  match rest with EmptyString => true | String c _ => negb (word_char c) end.

(** [re.compile(r"^\s*(lit|...)\b", re.IGNORECASE).search(s)], for literals
    that start and end with a letter. *)
Definition opens_with (lits : list string) (s : string) : bool :=
  existsb (λ lit, match strip_prefix_ci lit (drop_space s) with
                  | Some rest => word_ends rest
                  | None => false
                  end) lits.

(** [re.compile(r"\b(lit|...)\w*", re.IGNORECASE).search(s)]; [inside] says
    that a word character comes before [s]. *)
Fixpoint has_word_from (inside : bool) (lits : list string) (s : string) : bool :=
  match s with
  | EmptyString => false
  | String c s' =>
      (negb inside && existsb (λ lit, bool_decide (is_Some (strip_prefix_ci lit s))) lits)
      || has_word_from (word_char c) lits s'
  end.
Definition has_word (lits : list string) (s : string) : bool := has_word_from false lits s.

Lemma all_chars_weaken (p q : Ascii.ascii → bool) s :
  (∀ c, p c = true → q c = true) → all_chars p s = true → all_chars q s = true.
Proof. intros Hpq. induction s; simpl; [done|]. rewrite !andb_true_iff. naive_solver. Qed.

Lemma blank_all_chars s : blank s = all_chars py_space s.
Proof. induction s; simpl; congruence. Qed.

(** A text Python does not call blank passes the schema pattern. *)
Lemma not_blank_has_non_space s : blank s = false → has_non_space s = true.
Proof.
  rewrite blank_all_chars. unfold has_non_space. intros H. apply negb_true_iff.
  destruct (all_chars pattern_space s) eqn:E; [|done]. rewrite <- H. symmetry.
  eapply all_chars_weaken; [|exact E]. intros c. unfold pattern_space, py_space. cbv zeta. intros Hc.
  destruct (N.eqb_spec (Ascii.N_of_ascii c) 32) as [->|]; [reflexivity|].
  rewrite !orb_true_iff, !andb_true_iff in *. naive_solver.
Qed.

(** ** Decimal numerals *)

Definition digit_value (c : Ascii.ascii) : Z := Z.of_N (Ascii.N_of_ascii c) - 48.

(** The number a text of digits denotes, after the digits [acc] read so far. *)
Fixpoint digits_value (acc : Z) (s : string) : Z :=
  match s with
  | EmptyString => acc
  | String c s' => digits_value (10 * acc + digit_value c) s'
  end.

Lemma all_chars_app p a b : all_chars p (a +:+ b) = all_chars p a && all_chars p b.
Proof. induction a as [|c a IH]; simpl; [done|]. by rewrite IH, andb_assoc. Qed.

Lemma digits_value_app acc a b : digits_value acc (a +:+ b) = digits_value (digits_value acc a) b.
Proof. revert acc; induction a as [|c a IH]; intros acc; simpl; [done|]. apply IH. Qed.

Lemma string_app_assoc (a b c : string) : (a +:+ b) +:+ c = a +:+ (b +:+ c).
Proof. induction a as [|x a IH]; [done|]. change (String x ((a +:+ b) +:+ c) = String x (a +:+ (b +:+ c))). by f_equal. Qed.

Lemma string_app_nil_r (a : string) : a +:+ "" = a.
Proof. induction a as [|x a IH]; [done|]. change (String x (a +:+ "") = String x a). by f_equal. Qed.

Lemma pretty_N_char_spec x :
  (x < 10)%N → is_digit (pretty_N_char x) = true ∧ digit_value (pretty_N_char x) = Z.of_N x.
Proof.
  intros Hx. assert (x ∈ [0; 1; 2; 3; 4; 5; 6; 7; 8; 9]%N) as Hin by (rewrite !elem_of_cons; lia).
  repeat (apply elem_of_cons in Hin as [->|Hin]; [by split|]). by apply elem_of_nil in Hin.
Qed.

Lemma pretty_N_go_digits x s :
  ∃ p, pretty_N_go x s = p +:+ s ∧ all_chars is_digit p = true ∧
    ((0 < x)%N → p ≠ EmptyString) ∧ digits_value 0 p = Z.of_N x.
Proof.
  revert s. induction (N.lt_wf_0 x) as [x _ IH]. intros s.
  destruct (decide (x = 0)%N) as [->|Hx].
  - exists EmptyString. rewrite pretty_N_go_0. repeat split; lia.
  - rewrite pretty_N_go_step by lia.
    destruct (IH (x `div` 10)%N (N.div_lt x 10 ltac:(lia) ltac:(lia))
                (String (pretty_N_char (x `mod` 10)) s)) as (p & -> & Hp & _ & Hv).
    destruct (pretty_N_char_spec (x `mod` 10)) as [Hd Hc]; [apply N.mod_lt; lia|].
    exists (p +:+ String (pretty_N_char (x `mod` 10)) EmptyString).
    split; [by rewrite string_app_assoc|]. split; [by rewrite all_chars_app, Hp; simpl; rewrite Hd|].
    split; [by destruct p|]. rewrite digits_value_app, Hv. simpl. rewrite Hc.
    pose proof (N.div_mod x 10 ltac:(lia)). lia.
Qed.

(** The decimal text of a number that is not negative: digits, which denote it. *)
Lemma pretty_digits z :
  0 ≤ z → pretty z ≠ EmptyString ∧ all_chars is_digit (pretty z) = true ∧ digits_value 0 (pretty z) = z.
Proof.
  intros Hz. destruct z as [|p|p]; [by repeat split| |lia].
  change (pretty (Z.pos p)) with (pretty_N_go (N.pos p) "").
  destruct (pretty_N_go_digits (N.pos p) "") as (s & -> & Hs & Hne & Hv).
  rewrite string_app_nil_r.
  split; [by apply Hne|]. split; [done|]. by rewrite Hv.
Qed.

(** ** [int(text)] *)

(** The white space [int] takes off is [pattern_space]; a sign may follow, and
    then digits between which single underscores may stand; more than 4300
    digits are refused. *)
Fixpoint int_lstrip (s : string) : string :=
  match s with
  | EmptyString => EmptyString
  | String c s' => if pattern_space c then int_lstrip s' else s
  end.
Fixpoint int_rstrip (s : string) : string :=
  match s with
  | EmptyString => EmptyString
  | String c s' => if all_chars pattern_space s then EmptyString else String c (int_rstrip s')
  end.

Fixpoint int_digits (s : string) : option string :=
  match s with
  | String c s' =>
      if negb (is_digit c) then None
      else match s' with
           | EmptyString => Some (String c EmptyString)
           | String u s'' =>
               String c <$> (if char_in u [95%N] then int_digits s'' else int_digits s')
           end
  | EmptyString => None
  end.

Definition unsigned_int (s : string) : option Z :=
  match int_digits s with
  | Some digits => if 4300 <? str_len digits then None else Some (digits_value 0 digits)
  | None => None
  end.

Definition python_int (text : string) : option Z :=
  match int_rstrip (int_lstrip text) with
  | String c s =>
      if char_in c [43%N] then unsigned_int s
      else if char_in c [45%N] then Z.opp <$> unsigned_int s
      else unsigned_int (String c s)
  | EmptyString => None
  end.

Lemma digit_char c :
  is_digit c = true → pattern_space c = false ∧ char_in c [43%N] = false ∧ char_in c [45%N] = false ∧
  char_in c [95%N] = false ∧ char_in c [10%N] = false.
Proof.
  unfold is_digit, pattern_space, char_in. cbv zeta. simpl. generalize (Ascii.N_of_ascii c) as n. intros n.
  rewrite andb_true_iff, !N.leb_le. intros [H1 H2].
  assert (n ∈ [48; 49; 50; 51; 52; 53; 54; 55; 56; 57]%N) as Hin by (rewrite !elem_of_cons; lia).
  repeat (apply elem_of_cons in Hin as [->|Hin]; [by repeat split|]). by apply elem_of_nil in Hin.
Qed.

Lemma int_digits_all s : s ≠ EmptyString → all_chars is_digit s = true → int_digits s = Some s.
Proof.
  induction s as [|c s IH]; [done|]. intros _. simpl. rewrite andb_true_iff. intros [-> Hs]. simpl.
  destruct s as [|u s']; [done|]. pose proof Hs as Hu. simpl in Hu. apply andb_true_iff in Hu as [Hu _].
  apply digit_char in Hu as (_ & _ & _ & Hu & _). simpl in Hu. rewrite Hu. by rewrite IH.
Qed.

Lemma int_strip_digits s :
  s ≠ EmptyString → all_chars is_digit s = true → int_rstrip (int_lstrip s) = s.
Proof.
  intros Hne Hs. assert (int_lstrip s = s) as ->.
  { destruct s as [|c s]; [done|]. simpl in Hs |- *. apply andb_true_iff in Hs as [Hc _].
    by apply digit_char in Hc as [-> _]. }
  clear Hne. induction s as [|c s IH]; [done|]. simpl in Hs |- *. apply andb_true_iff in Hs as [Hc Hs].
  apply digit_char in Hc as [-> _]. simpl. by rewrite IH.
Qed.

Lemma length_pretty_N_go n x s :
  (x < 10 ^ N.of_nat n)%N → (String.length (pretty_N_go x s) ≤ n + String.length s)%nat.
Proof.
  revert x s. induction n as [|n IH]; intros x s Hx.
  - assert (x = 0)%N as -> by (rewrite N.pow_0_r in Hx; lia). by rewrite pretty_N_go_0.
  - destruct (base.decide (x = 0)%N) as [->|Hne]; [rewrite pretty_N_go_0; lia|].
    rewrite pretty_N_go_step by lia. etrans; [apply IH|simpl; lia].
    rewrite Nat2N.inj_succ, N.pow_succ_r in Hx by lia. by apply N.Div0.div_lt_upper_bound.
Qed.

Lemma length_pretty z : 0 ≤ z ≤ 2 ^ 63 - 1 → str_len (pretty z) ≤ 19.
Proof.
  intros Hz. unfold str_len. destruct z as [|p|p]; [by vm_compute| |lia].
  change (pretty (Z.pos p)) with (pretty_N_go (N.pos p) "").
  pose proof (length_pretty_N_go 19 (N.pos p) "") as Hl. simpl String.length in Hl.
  assert ((N.pos p < 10 ^ N.of_nat 19)%N) as Hp; [|specialize (Hl Hp); lia].
  assert (2 ^ 63 < 10 ^ 19) by (by vm_compute).
  change (10 ^ N.of_nat 19)%N with 10000000000000000000%N. change (10 ^ 19) with 10000000000000000000 in *. lia.
Qed.

Lemma python_int_pretty z : 0 ≤ z ≤ 2 ^ 63 - 1 → python_int (pretty z) = Some z.
Proof.
  intros Hz. pose proof (length_pretty z Hz) as Hlen.
  destruct (pretty_digits z ltac:(lia)) as (Hne & Hd & Hv). unfold python_int.
  rewrite int_strip_digits by done.
  assert (unsigned_int (pretty z) = Some z) as Hu.
  { unfold unsigned_int. rewrite int_digits_all by done.
    rewrite (proj2 (Z.ltb_ge _ _)) by lia. by rewrite Hv. }
  destruct (pretty z) as [|c s]; [done|]. simpl in Hd. apply andb_true_iff in Hd as [Hc _].
  by apply digit_char in Hc as (_ & -> & -> & _).
Qed.
