(* ===== verification/PyDecimal.v ===== *)
(** * Decimal arithmetic

    The part of Python's [decimal] the program uses, in the default context:
    28 significant digits, ROUND_HALF_EVEN, with the InvalidOperation and
    DivisionByZero traps enabled.  A finite [Decimal] is a signed coefficient
    and an exponent; the two zeros are one value, and the exponent limits of
    the context (a million digits) are never reached.

    [scaled k d] reads a decimal with at most [k] fractional digits as the
    integer number of [10^-k] units it is worth: comparisons and exact sums
    and products are integer arithmetic on it. *)

From stdpp Require Import prelude list strings pretty.
From Stdlib Require Import ZArith Lia Ascii.
From S2P Require Import Prelude.

Record decimal := Dec { coef : Z; expo : Z }.

#[export] Instance decimal_eq_dec : EqDecision decimal.
Proof. solve_decision. Defined.

Definition prec : Z := 28.

Definition InvalidOperation (msg : string) : exn := Exn "InvalidOperation" msg.
Definition DivisionByZero (msg : string) : exn := Exn "DivisionByZero" msg.

(** ** Digits and rounding *)

Fixpoint digits_fuel (fuel : nat) (n : Z) : Z :=
  match fuel with
  | O => 1
  | S fuel' => if n <? 10 then 1 else 1 + digits_fuel fuel' (n `div` 10)
  end.

(** The number of decimal digits of the coefficient; zero has one. *)
Definition ndigits (n : Z) : Z := digits_fuel (Z.to_nat (Z.log2 (Z.abs n))) (Z.abs n).

(** [n / d] for [0 < d], to the nearest integer, ties to even. *)
Definition div_half_even (n d : Z) : Z :=
  let q := n `div` d in
  let r := n `mod` d in
  if 2 * r <? d then q
  else if d <? 2 * r then q + 1
  else if Z.even q then q else q + 1.

(** The same with ties away from zero. *)
Definition div_half_up (n d : Z) : Z := Z.sgn n * ((2 * Z.abs n + d) `div` (2 * d)).

(** [_fix]: round to the precision of the context. *)
Definition fix_prec (d : decimal) : decimal :=
  let k := ndigits (coef d) - prec in
  if k <=? 0 then d
  else
    let c := div_half_even (coef d) (10 ^ k) in
    if ndigits c <=? prec then Dec c (expo d + k) else Dec (c `div` 10) (expo d + k + 1).

(** ** Operations *)

Definition of_int (n : Z) : decimal := Dec n 0.

Definition dec_add (a b : decimal) : decimal :=
  let e := Z.min (expo a) (expo b) in
  fix_prec (Dec (coef a * 10 ^ (expo a - e) + coef b * 10 ^ (expo b - e)) e).

Definition dec_neg (a : decimal) : decimal := fix_prec (Dec (- coef a) (expo a)).

Definition dec_sub (a b : decimal) : decimal := dec_add a (Dec (- coef b) (expo b)).

Definition dec_mul (a b : decimal) : decimal :=
  fix_prec (Dec (coef a * coef b) (expo a + expo b)).

(** Drop trailing zeros of an exact quotient up to the ideal exponent. *)
Fixpoint strip_zeros (fuel : nat) (c e ideal : Z) : Z * Z :=
  match fuel with
  | O => (c, e)
  | S fuel' =>
      if (e <? ideal) && (c `mod` 10 =? 0) then strip_zeros fuel' (c `div` 10) (e + 1) ideal
      else (c, e)
  end.

(** [a / b]: the quotient to [prec + 1] digits at least, the last of them made
    sticky when the division leaves a remainder, then rounded. *)
Definition dec_div (a b : decimal) : res decimal :=
  if coef b =? 0 then
    if coef a =? 0 then Err (InvalidOperation "0 / 0") else Err (DivisionByZero "x / 0")
  else if coef a =? 0 then Ok (Dec 0 (expo a - expo b))
  else
    let sign := Z.sgn (coef a) * Z.sgn (coef b) in
    let shift := ndigits (coef b) - ndigits (coef a) + prec + 1 in
    let e := expo a - expo b - shift in
    let n := if 0 <=? shift then Z.abs (coef a) * 10 ^ shift else Z.abs (coef a) in
    let d := if 0 <=? shift then Z.abs (coef b) else Z.abs (coef b) * 10 ^ (- shift) in
    let q := n `div` d in
    if n `mod` d =? 0 then
      let '(c, e') := strip_zeros (Z.to_nat (prec + 1 + ndigits (coef b))) q e (expo a - expo b) in
      Ok (fix_prec (Dec (sign * c) e'))
    else Ok (fix_prec (Dec (sign * (if q `mod` 5 =? 0 then q + 1 else q)) e)).

Inductive rounding := ROUND_HALF_EVEN | ROUND_HALF_UP.

Definition div_round (r : rounding) : Z → Z → Z :=
  match r with ROUND_HALF_EVEN => div_half_even | ROUND_HALF_UP => div_half_up end.

(** [a.quantize(Decimal((0, (1,), e)), rounding=r)] *)
Definition quantize (r : rounding) (e : Z) (a : decimal) : res decimal :=
  let c := if e <=? expo a then coef a * 10 ^ (expo a - e)
           else div_round r (coef a) (10 ^ (e - expo a)) in
  if ndigits c <=? prec then Ok (Dec c e)
  else Err (InvalidOperation "quantize result has too many digits for current context").

(** [int(d)] truncates towards zero. *)
Definition dec_int (d : decimal) : Z :=
  if 0 <=? expo d then coef d * 10 ^ expo d else Z.quot (coef d) (10 ^ (- expo d)).

(** [str(d)]: in full when the exponent is at most zero and the value is not
    below a millionth, with an exponent otherwise.  [zeros n] is [n] noughts. *)
Definition zeros (n : Z) : string := Nat.iter (Z.to_nat n) (String.String "0"%char) "".

Definition dec_str (d : decimal) : string :=
  let digits := pretty (Z.abs (coef d)) in
  let len := Z.of_nat (String.length digits) in
  let leftdigits := expo d + len in
  let dotplace := if (expo d <=? 0) && (-6 <? leftdigits) then leftdigits else 1 in
  let mantissa :=
    if dotplace <=? 0 then "0." +:+ zeros (- dotplace) +:+ digits
    else if len <=? dotplace then digits +:+ zeros (dotplace - len)
    else String.substring 0 (Z.to_nat dotplace) digits +:+ "."
         +:+ String.substring (Z.to_nat dotplace) (Z.to_nat (len - dotplace)) digits in
  (if coef d <? 0 then "-" else "") +:+ mantissa +:+
  (if leftdigits =? dotplace then ""
   else "E" +:+ (if 0 <=? leftdigits - dotplace then "+" else "") +:+ pretty (leftdigits - dotplace)).

Example dec_str_values :
  map dec_str [Dec 500 (-2); Dec 4 0; Dec 5 (-2); Dec (-12) (-7); Dec 1 (-7); Dec 2 1]
  = ["5.00"; "4"; "0.05"; "-0.0000012"; "1E-7"; "2E+1"]%string.
Proof. reflexivity. Qed.

(** ** Comparisons are by value *)

Definition dec_compare (a b : decimal) : comparison :=
  let e := Z.min (expo a) (expo b) in
  (coef a * 10 ^ (expo a - e) ?= coef b * 10 ^ (expo b - e)).
Definition dec_le (a b : decimal) : bool :=
  match dec_compare a b with Gt => false | _ => true end.
Definition dec_lt (a b : decimal) : bool :=
  match dec_compare a b with Lt => true | _ => false end.
Definition dec_eq (a b : decimal) : bool :=
  match dec_compare a b with Eq => true | _ => false end.

(** [max(a, b)] and [min(a, b)] keep [a] unless [b] is strictly better. *)
Definition dec_max (a b : decimal) : decimal := if dec_lt a b then b else a.
Definition dec_min (a b : decimal) : decimal := if dec_lt b a then b else a.

(** [sum(items, Decimal("0"))] *)
Definition dec_sum (l : list decimal) : decimal := fold_left dec_add l (Dec 0 0).

(** ** Digits *)

Lemma pow10_pos k : 0 ≤ k → 0 < 10 ^ k.
Proof. intros. by apply Z.pow_pos_nonneg. Qed.

Lemma pow10_split a b : 0 ≤ a → 0 ≤ b → 10 ^ (a + b) = 10 ^ a * 10 ^ b.
Proof. intros. by rewrite Z.pow_add_r. Qed.

(** [Z.pow_le_mono_r] and its strict inverse at base 10. *)
Lemma pow10_le a b : a ≤ b → 10 ^ a ≤ 10 ^ b.
Proof. intros. apply Z.pow_le_mono_r; lia. Qed.

Lemma pow10_lt_inv a b : 0 ≤ b → 10 ^ a < 10 ^ b → a < b.
Proof. intros. apply (Z.pow_lt_mono_r_iff 10); lia. Qed.

Lemma digits_fuel_spec fuel n :
  0 < n → n < 2 ^ (Z.of_nat fuel + 1) →
  1 ≤ digits_fuel fuel n ∧ 10 ^ (digits_fuel fuel n - 1) ≤ n < 10 ^ digits_fuel fuel n.
Proof.
  revert n; induction fuel as [|fuel IH]; intros n Hpos Hn.
  - assert (n = 1) as -> by (change (2 ^ (Z.of_nat 0 + 1)) with 2 in Hn; lia).
    cbn. lia.
  - cbn [digits_fuel]. destruct (Z.ltb_spec n 10) as [|Hge]; [cbn; lia|].
    rewrite Nat2Z.inj_succ in Hn.
    replace (Z.succ (Z.of_nat fuel) + 1) with (1 + (Z.of_nat fuel + 1)) in Hn by lia.
    rewrite Z.pow_add_r in Hn by lia. change (2 ^ 1) with 2 in Hn.
    pose proof (Z.div_mod n 10 ltac:(lia)). pose proof (Z.mod_pos_bound n 10 ltac:(lia)).
    destruct (IH (n `div` 10)) as (H1 & H2 & H3); [lia|lia|].
    set (k := digits_fuel fuel (n `div` 10)) in *.
    replace (1 + k - 1) with (1 + (k - 1)) by lia.
    rewrite !pow10_split by lia. change (10 ^ 1) with 10. lia.
Qed.

Lemma ndigits_spec n :
  n ≠ 0 → 1 ≤ ndigits n ∧ 10 ^ (ndigits n - 1) ≤ Z.abs n < 10 ^ ndigits n.
Proof.
  intros Hn. apply digits_fuel_spec; [lia|].
  rewrite Z2Nat.id by apply Z.log2_nonneg.
  pose proof (Z.log2_spec (Z.abs n) ltac:(lia)) as [_ H]. by rewrite Z.add_1_r.
Qed.

Lemma ndigits_0 : ndigits 0 = 1.
Proof. done. Qed.

Lemma ndigits_le n k : 1 ≤ k → Z.abs n < 10 ^ k → ndigits n ≤ k.
Proof.
  intros Hk Hn. destruct (decide (n = 0)) as [->|Hne]; [rewrite ndigits_0; lia|].
  apply ndigits_spec in Hne as (H1 & H2 & _).
  assert (ndigits n - 1 < k); [|lia]. apply pow10_lt_inv; lia.
Qed.

Lemma ndigits_le_inv n k : 1 ≤ k → ndigits n ≤ k → Z.abs n < 10 ^ k.
Proof.
  intros Hk Hn. destruct (decide (n = 0)) as [->|Hne]; [by apply pow10_pos; lia|].
  apply ndigits_spec in Hne as (_ & _ & H).
  eapply Z.lt_le_trans; [exact H|by apply pow10_le].
Qed.

(** ** Rounding keeps every integer bound *)

Lemma div_half_even_le n d m : 0 < d → n ≤ m * d → div_half_even n d ≤ m.
Proof.
  intros Hd Hn. unfold div_half_even.
  pose proof (Z.div_mod n d ltac:(lia)). pose proof (Z.mod_pos_bound n d Hd).
  assert (n `div` d ≤ m) by nia.
  assert (n `div` d = m → n `mod` d = 0) by nia.
  repeat case_match; bool_prop; nia.
Qed.

Lemma div_half_even_ge n d m : 0 < d → m * d ≤ n → m ≤ div_half_even n d.
Proof.
  intros Hd Hn. unfold div_half_even.
  pose proof (Z.div_mod n d ltac:(lia)). pose proof (Z.mod_pos_bound n d Hd).
  assert (m ≤ n `div` d) by nia.
  repeat case_match; bool_prop; nia.
Qed.

Lemma div_half_up_le n d m : 0 < d → n ≤ m * d → div_half_up n d ≤ m.
Proof.
  intros Hd Hn. unfold div_half_up.
  pose proof (Z.div_mod (2 * Z.abs n + d) (2 * d) ltac:(lia)).
  pose proof (Z.mod_pos_bound (2 * Z.abs n + d) (2 * d) ltac:(lia)).
  destruct (Z.lt_trichotomy n 0) as [Hneg|[->|Hpos]].
  - rewrite Z.sgn_neg, Z.abs_neq in * by lia. nia.
  - simpl in *. lia.
  - rewrite Z.sgn_pos, Z.abs_eq in * by lia. nia.
Qed.

Lemma div_half_up_opp n d : div_half_up (- n) d = - div_half_up n d.
Proof. unfold div_half_up. rewrite Z.sgn_opp, Z.abs_opp. lia. Qed.

Lemma div_half_up_ge n d m : 0 < d → m * d ≤ n → m ≤ div_half_up n d.
Proof.
  intros Hd Hn. pose proof (div_half_up_le (- n) d (- m) Hd) as H.
  rewrite div_half_up_opp in H. lia.
Qed.

Lemma div_round_le r n d m : 0 < d → n ≤ m * d → div_round r n d ≤ m.
Proof. destruct r; [apply div_half_even_le|apply div_half_up_le]. Qed.

Lemma div_round_ge r n d m : 0 < d → m * d ≤ n → m ≤ div_round r n d.
Proof. destruct r; [apply div_half_even_ge|apply div_half_up_ge]. Qed.

(** ** Fixed-point reading *)

(** At most [k] fractional digits. *)
Definition fixed (k : Z) (d : decimal) : Prop := - k ≤ expo d.

(** The number of [10^-k] units. *)
Definition scaled (k : Z) (d : decimal) : Z := coef d * 10 ^ (expo d + k).

Lemma scaled_compare k a b :
  fixed k a → fixed k b → dec_compare a b = (scaled k a ?= scaled k b).
Proof.
  unfold fixed, dec_compare, scaled. intros Ha Hb.
  set (e := Z.min (expo a) (expo b)).
  replace (expo a + k) with ((expo a - e) + (e + k)) by lia.
  replace (expo b + k) with ((expo b - e) + (e + k)) by lia.
  rewrite (pow10_split (expo a - e)), (pow10_split (expo b - e)), !Z.mul_assoc by lia.
  pose proof (pow10_pos (e + k) ltac:(lia)) as Hp.
  set (x := coef a * 10 ^ (expo a - e)). set (y := coef b * 10 ^ (expo b - e)).
  destruct (Z.compare_spec x y); symmetry;
    [apply Z.compare_eq_iff; congruence|apply Z.compare_lt_iff|apply Z.compare_gt_iff];
    apply Z.mul_lt_mono_pos_r; lia.
Qed.

Lemma dec_le_scaled k a b :
  fixed k a → fixed k b → dec_le a b = (scaled k a <=? scaled k b).
Proof. intros. unfold dec_le. by rewrite (scaled_compare k). Qed.

Lemma dec_lt_scaled k a b :
  fixed k a → fixed k b → dec_lt a b = (scaled k a <? scaled k b).
Proof. intros. unfold dec_lt. by rewrite (scaled_compare k). Qed.

Lemma scaled_abs_coef k d : fixed k d → Z.abs (coef d) ≤ Z.abs (scaled k d).
Proof.
  unfold fixed, scaled. intros. rewrite Z.abs_mul.
  pose proof (pow10_pos (expo d + k)). rewrite (Z.abs_eq (10 ^ _)) by lia. nia.
Qed.

(** A decimal of at most 28 digits is exact. *)
Lemma fix_prec_exact d : Z.abs (coef d) < 10 ^ prec → fix_prec d = d.
Proof.
  intros H. unfold fix_prec. pose proof (ndigits_le (coef d) prec).
  destruct (Z.leb_spec (ndigits (coef d) - prec) 0); [done|]. unfold prec in *. lia.
Qed.

Lemma fix_prec_exact_scaled k d :
  fixed k d → Z.abs (scaled k d) < 10 ^ prec → fix_prec d = d.
Proof. intros Hf H. apply fix_prec_exact. pose proof (scaled_abs_coef k d Hf). lia. Qed.

Lemma dec_add_exact k a b :
  fixed k a → fixed k b → Z.abs (scaled k a + scaled k b) < 10 ^ prec →
  fixed k (dec_add a b) ∧ scaled k (dec_add a b) = scaled k a + scaled k b.
Proof.
  intros Ha Hb H. unfold dec_add. set (e := Z.min (expo a) (expo b)).
  set (s := Dec _ e).
  assert (fixed k s) as Hs by (unfold fixed in *; simpl; lia).
  assert (scaled k s = scaled k a + scaled k b) as Hv.
  { unfold scaled, s, fixed in *. simpl.
    replace (expo a + k) with ((expo a - e) + (e + k)) by lia.
    replace (expo b + k) with ((expo b - e) + (e + k)) by lia.
    rewrite (pow10_split (expo a - e)), (pow10_split (expo b - e)) by lia. ring. }
  rewrite (fix_prec_exact_scaled k) by (rewrite ?Hv; done). done.
Qed.

Lemma dec_mul_exact ka kb a b :
  fixed ka a → fixed kb b → Z.abs (scaled ka a * scaled kb b) < 10 ^ prec →
  fixed (ka + kb) (dec_mul a b) ∧ scaled (ka + kb) (dec_mul a b) = scaled ka a * scaled kb b.
Proof.
  intros Ha Hb H. unfold dec_mul. set (p := Dec _ _).
  assert (fixed (ka + kb) p) as Hp by (unfold fixed in *; simpl; lia).
  assert (scaled (ka + kb) p = scaled ka a * scaled kb b) as Hv.
  { unfold scaled, p, fixed in *. simpl.
    replace (expo a + expo b + (ka + kb)) with ((expo a + ka) + (expo b + kb)) by lia.
    rewrite pow10_split by lia. ring. }
  rewrite (fix_prec_exact_scaled (ka + kb)) by (rewrite ?Hv; done). done.
Qed.

(** Rereading with more fractional digits multiplies by a power of ten. *)
Lemma scaled_weaken k k' d : fixed k d → k ≤ k' → scaled k' d = scaled k d * 10 ^ (k' - k).
Proof.
  unfold fixed, scaled. intros. replace (expo d + k') with (expo d + k + (k' - k)) by lia.
  rewrite pow10_split by lia. ring.
Qed.

Lemma fixed_weaken k k' d : fixed k d → k ≤ k' → fixed k' d.
Proof. unfold fixed. lia. Qed.

(** The sum of a list of nonnegative items that stays below [10^28] units. *)
Lemma dec_sum_exact k l :
  0 ≤ k → Forall (λ d, fixed k d ∧ 0 ≤ scaled k d) l → sumZ (map (scaled k) l) < 10 ^ prec →
  fixed k (dec_sum l) ∧ scaled k (dec_sum l) = sumZ (map (scaled k) l).
Proof.
  intros Hk Hl. unfold dec_sum.
  assert (∀ acc, fixed k acc → 0 ≤ scaled k acc →
    scaled k acc + sumZ (map (scaled k) l) < 10 ^ prec →
    fixed k (fold_left dec_add l acc) ∧
    scaled k (fold_left dec_add l acc) = scaled k acc + sumZ (map (scaled k) l)) as H.
  { induction Hl as [|d l [Hd Hd0] Hl IH]; intros acc Ha Ha0 Hsum; simpl in *; autorewrite with pysum in *.
    - split; [done|lia].
    -
      assert (0 ≤ sumZ (map (scaled k) l)).
      { apply sumZ_map_nonneg. intros x Hx. by eapply Forall_forall in Hx; [|exact Hl]; naive_solver. }
      destruct (dec_add_exact k acc d) as [Hf Hs]; [done..|lia|].
      destruct (IH (dec_add acc d)) as [? ->]; [done|lia|lia|]. split; [done|lia]. }
  intros Hsum. destruct (H (Dec 0 0)) as [? ->]; unfold fixed, scaled in *; simpl; lia || done.
Qed.

(** ** Quantizing *)

Lemma quantize_expo r e a q : quantize r e a = Ok q → expo q = e.
Proof. unfold quantize. intros H. inv_ok. done. Qed.

(** A bound with the quantum's exponent survives quantizing. *)
Lemma quantize_upper r e a q m :
  dec_le a (Dec m e) = true → quantize r e a = Ok q → coef q ≤ m.
Proof.
  unfold quantize. intros Hle H. inv_ok.
  rewrite (dec_le_scaled (Z.max (- e) (- expo a))) in Hle by (unfold fixed; simpl; lia).
  unfold scaled in Hle; simpl in Hle. bool_prop.
  destruct (Z.leb_spec e (expo a)).
  - replace (Z.max (- e) (- expo a)) with (- e) in Hle by lia.
    replace (e + - e) with 0 in Hle by lia. rewrite Z.pow_0_r in Hle.
    replace (expo a + - e) with (expo a - e) in Hle by lia. simpl. lia.
  - apply div_round_le; [apply pow10_pos; lia|].
    replace (Z.max (- e) (- expo a)) with (- expo a) in Hle by lia.
    replace (expo a + - expo a) with 0 in Hle by lia. rewrite Z.pow_0_r in Hle.
    replace (e + - expo a) with (e - expo a) in Hle by lia. lia.
Qed.

Lemma quantize_lower r e a q m :
  dec_le (Dec m e) a = true → quantize r e a = Ok q → m ≤ coef q.
Proof.
  unfold quantize. intros Hle H. inv_ok.
  rewrite (dec_le_scaled (Z.max (- e) (- expo a))) in Hle by (unfold fixed; simpl; lia).
  unfold scaled in Hle; simpl in Hle. bool_prop.
  destruct (Z.leb_spec e (expo a)).
  - replace (Z.max (- e) (- expo a)) with (- e) in Hle by lia.
    replace (e + - e) with 0 in Hle by lia. rewrite Z.pow_0_r in Hle.
    replace (expo a + - e) with (expo a - e) in Hle by lia. simpl. lia.
  - apply div_round_ge; [apply pow10_pos; lia|].
    replace (Z.max (- e) (- expo a)) with (- expo a) in Hle by lia.
    replace (expo a + - expo a) with 0 in Hle by lia. rewrite Z.pow_0_r in Hle.
    replace (e + - expo a) with (e - expo a) in Hle by lia. lia.
Qed.

Lemma quantize_total r e a m :
  dec_le (Dec (- m) e) a = true → dec_le a (Dec m e) = true → m < 10 ^ prec →
  ∃ q, quantize r e a = Ok q.
Proof.
  intros Hlo Hhi Hm. destruct (quantize r e a) as [q|er] eqn:E; [eauto|]. exfalso.
  set (c := if e <=? expo a then coef a * 10 ^ (expo a - e)
            else div_round r (coef a) (10 ^ (e - expo a))) in *.
  assert (- m ≤ c ≤ m) as Hc.
  { rewrite (dec_le_scaled (Z.max (- e) (- expo a))) in Hlo, Hhi by (unfold fixed; simpl; lia).
    unfold scaled in Hlo, Hhi; simpl in Hlo, Hhi. bool_prop. unfold c.
    destruct (Z.leb_spec e (expo a)).
    - replace (Z.max (- e) (- expo a)) with (- e) in * by lia.
      replace (e + - e) with 0 in * by lia. rewrite Z.pow_0_r in *.
      replace (expo a + - e) with (expo a - e) in * by lia. lia.
    - replace (Z.max (- e) (- expo a)) with (- expo a) in * by lia.
      replace (expo a + - expo a) with 0 in * by lia. rewrite Z.pow_0_r in *.
      replace (e + - expo a) with (e - expo a) in * by lia.
      split; [apply div_round_ge|apply div_round_le]; (apply pow10_pos + idtac); lia. }
  unfold quantize in E. fold c in E. pose proof (ndigits_le c prec).
  destruct (Z.leb_spec (ndigits c) prec); [done|]. unfold prec in *. lia.
Qed.

(** ** Division of nonnegative decimals by a positive one *)

(** The value of [c * 10 ^ e] is at most the integer [m]. *)
Definition at_most (m : Z) (d : decimal) : Prop :=
  if expo d <? 0 then coef d ≤ m * 10 ^ (- expo d) else coef d * 10 ^ expo d ≤ m.

Lemma at_most_dec_le m d : at_most m d ↔ dec_le d (of_int m) = true.
Proof.
  unfold at_most, of_int.
  rewrite (dec_le_scaled (Z.max 0 (- expo d))) by (unfold fixed; simpl; lia).
  unfold scaled; simpl. rewrite Z.leb_le.
  destruct (Z.ltb_spec (expo d) 0).
  - replace (Z.max 0 (- expo d)) with (- expo d) by lia.
    replace (expo d + - expo d) with 0 by lia. rewrite Z.pow_0_r, Z.add_0_l. lia.
  - replace (Z.max 0 (- expo d)) with 0 by lia. rewrite Z.add_0_r, Z.pow_0_r. lia.
Qed.

(** Rounding to 28 digits keeps an integer bound of up to 26 digits, and the sign. *)
Lemma fix_prec_bounds m d :
  0 ≤ m < 10 ^ 26 → 0 ≤ coef d → at_most m d → 0 ≤ coef (fix_prec d) ∧ at_most m (fix_prec d).
Proof.
  intros Hm Hc Hle. unfold fix_prec. set (k := ndigits (coef d) - prec).
  destruct (Z.leb_spec k 0) as [|Hk]; [done|].
  destruct (decide (coef d = 0)) as [H0|Hne].
  { unfold k in Hk. rewrite H0, ndigits_0 in Hk. unfold prec in Hk. lia. }
  apply ndigits_spec in Hne as (_ & Hlow & _). rewrite Z.abs_eq in Hlow by done.
  replace (ndigits (coef d) - 1) with (k + 27) in Hlow by (unfold k, prec; lia).
  pose proof (pow10_pos k ltac:(lia)) as Hpk.
  unfold at_most in *. destruct (Z.ltb_spec (expo d) 0) as [He|He].
  - assert (k + 27 < 26 - expo d) as Hsmall.
    { apply pow10_lt_inv; [lia|]. replace (26 - expo d) with (26 + - expo d) by lia.
      rewrite (pow10_split 26 (- expo d)) by lia. pose proof (pow10_pos (- expo d)). nia. }
    set (c := div_half_even (coef d) (10 ^ k)).
    assert (0 ≤ c) by (apply div_half_even_ge; lia).
    assert (c ≤ m * 10 ^ (- (expo d + k))) as Hcm.
    { apply div_half_even_le; [done|].
      rewrite <- Z.mul_assoc, <- pow10_split by lia.
      replace (- (expo d + k) + k) with (- expo d) by lia. done. }
    destruct (Z.leb_spec (ndigits c) prec); simpl.
    + destruct (Z.ltb_spec (expo d + k) 0); lia.
    + destruct (Z.ltb_spec (expo d + k + 1) 0); [|lia]. split; [by apply Z.div_pos|].
      apply Z.div_le_upper_bound; [lia|].
      replace (- (expo d + k)) with (1 + - (expo d + k + 1)) in Hcm by lia.
      rewrite (pow10_split 1) in Hcm by lia. lia.
  - pose proof (pow10_pos (expo d) He). pose proof (pow10_le 27 (k + 27) ltac:(lia)).
    assert (10 ^ 26 < 10 ^ 27) by done. nia.
Qed.

Lemma strip_zeros_spec fuel c e ideal c' e' :
  0 ≤ c → strip_zeros fuel c e ideal = (c', e') →
  e ≤ e' ∧ 0 ≤ c' ∧ c' * 10 ^ (e' - e) = c.
Proof.
  revert c e; induction fuel as [|fuel IH]; intros c e Hc; cbn [strip_zeros].
  - intros [= <- <-]. rewrite Z.sub_diag, Z.pow_0_r. lia.
  - destruct (_ && _) eqn:E.
    + bool_prop. intros Hs. apply IH in Hs as (H1 & H2 & H3); [|by apply Z.div_pos].
      split; [lia|]. split; [done|].
      replace (e' - e) with (1 + (e' - (e + 1))) by lia. rewrite (pow10_split 1) by lia.
      pose proof (Z.div_mod c 10 ltac:(lia)). lia.
    + intros [= <- <-]. rewrite Z.sub_diag, Z.pow_0_r. lia.
Qed.

(** The integer division inside [dec_div], against the values of its operands. *)
Lemma dec_div_quotient k a b m n d e shift :
  fixed k a → fixed k b → 0 < coef a → 0 < coef b → scaled k a ≤ m * scaled k b →
  e = expo a - expo b - shift →
  n = (if 0 <=? shift then coef a * 10 ^ shift else coef a) →
  d = (if 0 <=? shift then coef b else coef b * 10 ^ (- shift)) →
  0 < d ∧ (if e <? 0 then n ≤ m * 10 ^ (- e) * d else n * 10 ^ e ≤ m * d).
Proof.
  unfold fixed, scaled. intros Ha Hb Hpa Hpb Hle -> -> ->.
  pose proof (pow10_pos (expo a + k) ltac:(lia)) as P1.
  pose proof (pow10_pos (expo b + k) ltac:(lia)) as P2.
  split; [case_match; [done|]; bool_prop; pose proof (pow10_pos (- shift)); nia|].
  destruct (Z.leb_spec 0 shift), (Z.ltb_spec (expo a - expo b - shift) 0).
  - replace (- (expo a - expo b - shift)) with (shift + expo b - expo a) by lia.
    pose proof (pow10_pos (shift + expo b - expo a) ltac:(lia)).
    apply (Z.mul_le_mono_pos_r _ _ (10 ^ (expo b + k))); [done|].
    rewrite <- Z.mul_assoc, <- pow10_split by lia.
    replace (shift + (expo b + k)) with ((expo a + k) + (shift + expo b - expo a)) by lia.
    rewrite pow10_split by lia. nia.
  - pose proof (pow10_pos (expo a - expo b - shift) ltac:(lia)).
    apply (Z.mul_le_mono_pos_r _ _ (10 ^ (expo b + k))); [done|].
    rewrite <- !Z.mul_assoc, <- !pow10_split by lia.
    replace (shift + (expo a - expo b - shift + (expo b + k))) with (expo a + k) by lia. lia.
  - replace (- (expo a - expo b - shift)) with (shift + expo b - expo a) by lia.
    replace (m * 10 ^ (shift + expo b - expo a) * (coef b * 10 ^ (- shift)))
      with (m * coef b * (10 ^ (shift + expo b - expo a) * 10 ^ (- shift))) by ring.
    rewrite <- pow10_split by lia.
    replace (shift + expo b - expo a + - shift) with (expo b - expo a) by lia.
    apply (Z.mul_le_mono_pos_r _ _ (10 ^ (expo a + k))); [done|].
    rewrite <- Z.mul_assoc, <- pow10_split by lia.
    replace (expo b - expo a + (expo a + k)) with (expo b + k) by lia. lia.
  - pose proof (pow10_pos (- shift) ltac:(lia)).
    apply (Z.mul_le_mono_pos_r _ _ (10 ^ (expo b + k))); [done|].
    rewrite <- !Z.mul_assoc, <- !pow10_split by lia.
    replace (expo a - expo b - shift + (expo b + k)) with ((expo a + k) + - shift) by lia.
    replace (- shift + (expo b + k)) with ((expo b + k) + - shift) by lia.
    rewrite (pow10_split (expo a + k)), (pow10_split (expo b + k)) by lia. nia.
Qed.

(** The quotient has at least 29 digits, so it is not below [10 ^ 28]. *)
Lemma dec_div_digits a b shift n d :
  0 < a → 0 < b → shift = ndigits b - ndigits a + prec + 1 →
  n = (if 0 <=? shift then a * 10 ^ shift else a) →
  d = (if 0 <=? shift then b else b * 10 ^ (- shift)) →
  10 ^ 28 ≤ n `div` d.
Proof.
  intros Ha Hb -> -> ->. set (shift := _ + 1).
  destruct (ndigits_spec a ltac:(lia)) as (Ha1 & Ha2 & _).
  destruct (ndigits_spec b ltac:(lia)) as (Hb1 & _ & Hb2).
  rewrite Z.abs_eq in * by lia.
  apply Z.div_le_lower_bound; [case_match; [done|]; pose proof (pow10_pos (- shift)); bool_prop; nia|].
  destruct (Z.leb_spec 0 shift).
  - assert (b * 10 ^ 28 ≤ 10 ^ (ndigits b + 28)) by (rewrite pow10_split; lia).
    assert (10 ^ (ndigits b + 28) ≤ a * 10 ^ shift); [|lia].
    replace (ndigits b + 28) with (ndigits a - 1 + shift) by (unfold shift, prec; lia).
    rewrite pow10_split by lia. pose proof (pow10_pos shift). nia.
  - transitivity (10 ^ (ndigits a - 1)); [|lia].
    replace (ndigits a - 1) with (ndigits b + 28 + - shift) by (unfold shift, prec; lia).
    rewrite !pow10_split by lia. pose proof (pow10_pos (- shift)). nia.
Qed.

(** Dividing a nonnegative decimal by a positive one that is at least an
    [m]-th of it gives a decimal between 0 and [m], for one-digit [m]:
    neither the sticky digit nor the rounding escapes the bounds. *)
Lemma dec_div_bounds k m a b :
  0 ≤ m < 10 → fixed k a → fixed k b → 0 ≤ scaled k a → 0 < scaled k b →
  scaled k a ≤ m * scaled k b →
  ∃ q, dec_div a b = Ok q ∧ 0 ≤ coef q ∧ at_most m q.
Proof.
  intros Hm Ha Hb Ha0 Hb0 Hle.
  assert (0 ≤ coef a) as Hca.
  { unfold scaled, fixed in *. pose proof (pow10_pos (expo a + k)). nia. }
  assert (0 < coef b) as Hcb.
  { unfold scaled, fixed in *. pose proof (pow10_pos (expo b + k)). nia. }
  unfold dec_div. destruct (Z.eqb_spec (coef b) 0) as [|_]; [lia|].
  destruct (Z.eqb_spec (coef a) 0) as [Hz|Hnz].
  { eexists; split; [done|]. unfold at_most; simpl. case_match; lia. }
  rewrite !Z.abs_eq, !Z.sgn_pos by lia.
  set (shift := ndigits (coef b) - _ + _ + 1). set (e := expo a - expo b - shift).
  set (n := if 0 <=? shift then coef a * _ else _).
  set (d := if 0 <=? shift then coef b else _).
  destruct (dec_div_quotient k a b m n d e shift) as [Hd Hq]; try done; [lia|].
  pose proof (dec_div_digits (coef a) (coef b) shift n d) as Hbig.
  assert (10 ^ 28 ≤ n `div` d) as Hbig' by (apply Hbig; done || lia). clear Hbig.
  pose proof (Z.div_mod n d ltac:(lia)) as Hdm. pose proof (Z.mod_pos_bound n d Hd) as Hmod.
  assert (10 < 10 ^ 28) by done. assert (10 < 10 ^ 26) by done.
  destruct (Z.ltb_spec e 0) as [He|He].
  2: { pose proof (pow10_pos e He). exfalso. nia. }
  assert (n `div` d ≤ m * 10 ^ (- e)) as Hqm by nia.
  destruct (Z.eqb_spec (n `mod` d) 0) as [Hr|Hr].
  - destruct (strip_zeros _ _ _ _) as [c e'] eqn:Hs.
    apply strip_zeros_spec in Hs as (He' & Hc & Hce); [|lia].
    eexists; split; [done|]. rewrite !Z.mul_1_l. apply fix_prec_bounds; [lia|done|].
    unfold at_most; simpl. rewrite <- Hce in Hqm. destruct (Z.ltb_spec e' 0).
    + replace (- e) with (- e' + (e' - e)) in Hqm by lia.
      rewrite pow10_split in Hqm by lia. pose proof (pow10_pos (e' - e)). nia.
    + replace (e' - e) with (e' + - e) in Hqm by lia.
      rewrite pow10_split in Hqm by lia. pose proof (pow10_pos (- e)). nia.
  - eexists; split; [done|]. rewrite !Z.mul_1_l.
    assert (n `div` d < m * 10 ^ (- e)) by nia.
    apply fix_prec_bounds; [lia|..]; unfold at_most; simpl; repeat case_match; bool_prop; lia.
Qed.

(** *** Bounds through products, differences and quantizing *)

Lemma at_most_scaled k m d :
  0 ≤ k → fixed k d → at_most m d ↔ scaled k d ≤ m * 10 ^ k.
Proof.
  intros Hk Hf. rewrite at_most_dec_le, (dec_le_scaled k), Z.leb_le by (done || unfold fixed; simpl; lia).
  done.
Qed.

Lemma dec_mul_bounds ma mb a b :
  0 ≤ ma → 0 ≤ mb → ma * mb < 10 ^ 26 → 0 ≤ coef a → 0 ≤ coef b → at_most ma a → at_most mb b →
  0 ≤ coef (dec_mul a b) ∧ at_most (ma * mb) (dec_mul a b).
Proof.
  intros Hma Hmb Hm Ha Hb Hla Hlb. unfold dec_mul. apply fix_prec_bounds; simpl; [nia|nia|].
  set (ka := Z.max 0 (- expo a)). set (kb := Z.max 0 (- expo b)).
  rewrite (at_most_scaled ka) in Hla by (unfold fixed; lia).
  rewrite (at_most_scaled kb) in Hlb by (unfold fixed; lia).
  rewrite (at_most_scaled (ka + kb)) by (unfold fixed; simpl; lia).
  unfold scaled in *. simpl.
  replace (expo a + expo b + (ka + kb)) with ((expo a + ka) + (expo b + kb)) by lia.
  rewrite (pow10_split (expo a + ka)), (pow10_split ka kb) by lia.
  pose proof (pow10_pos (expo a + ka)). pose proof (pow10_pos (expo b + kb)).
  pose proof (pow10_pos ka). pose proof (pow10_pos kb).
  assert (0 ≤ coef a * 10 ^ (expo a + ka)) by nia. assert (0 ≤ coef b * 10 ^ (expo b + kb)) by nia.
  transitivity (coef a * 10 ^ (expo a + ka) * (coef b * 10 ^ (expo b + kb)));
    [apply Z.eq_le_incl; ring|].
  transitivity (ma * 10 ^ ka * (mb * 10 ^ kb)); [|apply Z.eq_le_incl; ring]. by apply Z.mul_le_mono_nonneg.
Qed.

Lemma at_most_quantum m e d : e ≤ 0 → at_most m d → dec_le d (Dec (m * 10 ^ (- e)) e) = true.
Proof.
  intros He H. set (k := Z.max (- e) (- expo d)).
  rewrite (at_most_scaled k) in H by (unfold fixed; lia).
  rewrite (dec_le_scaled k), Z.leb_le by (unfold fixed; simpl; lia).
  unfold scaled at 2. simpl. rewrite <- Z.mul_assoc, <- pow10_split by lia.
  by replace (- e + (e + k)) with k by lia.
Qed.

Lemma dec_le_opp a b : dec_le a b = dec_le (Dec (- coef b) (expo b)) (Dec (- coef a) (expo a)).
Proof.
  set (k := Z.max (- expo a) (- expo b)).
  rewrite !(dec_le_scaled k) by (unfold fixed; simpl; lia). unfold scaled; simpl.
  destruct (Z.leb_spec (coef a * 10 ^ (expo a + k)) (coef b * 10 ^ (expo b + k))); symmetry;
    [apply Z.leb_le|apply Z.leb_gt]; lia.
Qed.

Lemma dec_le_nonpos m e c y : 0 ≤ m → 0 ≤ c → dec_le (Dec (- c) y) (Dec m e) = true.
Proof.
  intros Hm Hc. set (k := Z.max (- e) (- y)).
  rewrite (dec_le_scaled k), Z.leb_le by (unfold fixed; simpl; lia). unfold scaled; simpl.
  pose proof (pow10_pos (e + k)). pose proof (pow10_pos (y + k)). nia.
Qed.

Lemma nonneg_quantum m e d : 0 ≤ m → 0 ≤ coef d → dec_le (Dec (- m) e) d = true.
Proof.
  intros Hm Hd. set (k := Z.max (- e) (- expo d)).
  rewrite (dec_le_scaled k), Z.leb_le by (unfold fixed; simpl; lia). unfold scaled; simpl.
  pose proof (pow10_pos (e + k)). pose proof (pow10_pos (expo d + k)). nia.
Qed.

(** Quantizing a value between 0 and [m]. *)
Lemma quantize_between r e m d :
  e ≤ 0 → 0 ≤ m → m * 10 ^ (- e) < 10 ^ prec → 0 ≤ coef d → at_most m d →
  ∃ c, quantize r e d = Ok (Dec c e) ∧ 0 ≤ c ≤ m * 10 ^ (- e).
Proof.
  intros He Hm Hp Hd Hle. pose proof (at_most_quantum m e d He Hle) as Hhi.
  pose proof (pow10_pos (- e) ltac:(lia)).
  pose proof (nonneg_quantum (m * 10 ^ (- e)) e d ltac:(nia) Hd) as Hlo.
  destruct (quantize_total r e d _ Hlo Hhi Hp) as [[c e'] Hq]. exists c.
  pose proof (quantize_expo _ _ _ _ Hq) as He'. simpl in He'. subst e'. split; [done|].
  split; [|by apply (quantize_upper _ _ _ _ _ Hhi Hq)].
  apply (quantize_lower _ _ _ _ 0 (nonneg_quantum 0 e d ltac:(lia) Hd) Hq).
Qed.

(** A mean on the scale from 0 to [m] stays on it when divided and quantized. *)
Lemma mean_between r e k m a b :
  e ≤ 0 → 0 ≤ m < 10 → m * 10 ^ (- e) < 10 ^ prec → fixed k a → fixed k b →
  0 ≤ scaled k a → 0 < scaled k b → scaled k a ≤ m * scaled k b →
  ∃ c, (let* q := dec_div a b in quantize r e q) = Ok (Dec c e) ∧ 0 ≤ c ≤ m * 10 ^ (- e).
Proof.
  intros He Hm Hp Ha Hb Ha0 Hb0 Hle.
  destruct (dec_div_bounds k m a b) as (q & -> & Hq & Hqm); [done..|]. simpl.
  apply quantize_between; done || lia.
Qed.

Lemma div_half_even_opp n d : 0 < d → div_half_even (- n) d = - div_half_even n d.
Proof.
  intros Hd. unfold div_half_even.
  pose proof (Z.div_mod n d ltac:(lia)) as Hn. pose proof (Z.mod_pos_bound n d Hd).
  destruct (decide (n `mod` d = 0)) as [Hz|Hz].
  - rewrite Z.mod_opp_l_z, Z.div_opp_l_z, Hz by lia.
    destruct (Z.ltb_spec (2 * 0) d); lia.
  - rewrite Z.mod_opp_l_nz, Z.div_opp_l_nz by lia. set (q := n `div` d) in *. set (t := n `mod` d) in *.
    replace (- q - 1) with (- (q + 1)) by lia.
    rewrite Z.even_opp, Z.add_1_r, Z.even_succ, <- Z.negb_even.
    destruct (Z.ltb_spec (2 * (d - t)) d), (Z.ltb_spec d (2 * (d - t))),
      (Z.ltb_spec (2 * t) d), (Z.ltb_spec d (2 * t)); try lia. destruct (Z.even q); simpl; lia.
Qed.

Lemma ndigits_opp n : ndigits (- n) = ndigits n.
Proof. unfold ndigits. by rewrite Z.abs_opp. Qed.

(** Rounding a nonnegative coefficient overflows its digits only at a power of ten. *)
Lemma fix_prec_carry c k :
  0 ≤ c → k = ndigits c - prec → 0 < k → prec < ndigits (div_half_even c (10 ^ k)) →
  div_half_even c (10 ^ k) = 10 ^ prec.
Proof.
  intros Hc Hk Hk0 Hd.
  assert (c ≠ 0) as Hne by (intros ->; rewrite ndigits_0 in Hk; unfold prec in *; lia).
  pose proof (ndigits_spec c Hne) as (_ & _ & Hhi). rewrite Z.abs_eq in Hhi by done.
  replace (ndigits c) with (prec + k) in Hhi by lia.
  rewrite pow10_split in Hhi by (unfold prec; lia).
  pose proof (div_half_even_le c (10 ^ k) (10 ^ prec) (pow10_pos k ltac:(lia)) ltac:(lia)) as Hle.
  pose proof (div_half_even_ge c (10 ^ k) 0 (pow10_pos k ltac:(lia)) ltac:(lia)) as Hge.
  destruct (decide (div_half_even c (10 ^ k) < 10 ^ prec)); [|lia].
  pose proof (ndigits_le (div_half_even c (10 ^ k)) prec). unfold prec in *. lia.
Qed.

Lemma fix_prec_opp_nonneg c e :
  0 ≤ c → fix_prec (Dec (- c) e) = Dec (- coef (fix_prec (Dec c e))) (expo (fix_prec (Dec c e))).
Proof.
  intros Hc. unfold fix_prec. simpl. rewrite ndigits_opp.
  destruct (Z.leb_spec (ndigits c - prec) 0) as [|Hk]; [done|].
  rewrite div_half_even_opp, ndigits_opp by (apply pow10_pos; lia).
  destruct (Z.leb_spec (ndigits (div_half_even c (10 ^ (ndigits c - prec)))) prec); [done|].
  rewrite (fix_prec_carry c) by done. done.
Qed.

(** The difference of two values between 0 and [m], quantized. *)
Lemma difference_between r e m a b :
  e ≤ 0 → 0 ≤ m < 10 ^ 26 → m * 10 ^ (- e) < 10 ^ prec →
  0 ≤ coef a → 0 ≤ coef b → at_most m a → at_most m b →
  ∃ c, quantize r e (dec_sub a b) = Ok (Dec c e) ∧ - (m * 10 ^ (- e)) ≤ c ≤ m * 10 ^ (- e).
Proof.
  intros He Hm Hp Ha Hb Hla Hlb. pose proof (pow10_pos (- e) ltac:(lia)) as Hpe.
  set (k := Z.max 0 (Z.max (- expo a) (- expo b))).
  rewrite (at_most_scaled k) in Hla, Hlb by (unfold fixed; lia). unfold scaled in Hla, Hlb.
  unfold dec_sub, dec_add. simpl. set (x := Z.min (expo a) (expo b)).
  assert (∀ d, x ≤ expo d → coef d * 10 ^ (expo d + k) = coef d * 10 ^ (expo d - x) * 10 ^ (x + k)) as Hsplit.
  { intros d Hd. replace (expo d + k) with ((expo d - x) + (x + k)) by lia.
    rewrite pow10_split by lia. lia. }
  rewrite Hsplit in Hla, Hlb by lia.
  pose proof (pow10_pos (expo a - x) ltac:(lia)). pose proof (pow10_pos (expo b - x) ltac:(lia)).
  pose proof (pow10_pos (x + k) ltac:(lia)).
  set (va := coef a * 10 ^ (expo a - x)) in *. set (vb := coef b * 10 ^ (expo b - x)) in *.
  assert (0 ≤ va) by (unfold va; nia). assert (0 ≤ vb) by (unfold vb; nia).
  replace (va + - coef b * 10 ^ (expo b - x)) with (va - vb) by (unfold vb; lia).
  assert (∀ v, 0 ≤ v → v * 10 ^ (x + k) ≤ m * 10 ^ k →
            0 ≤ coef (fix_prec (Dec v x)) ∧ at_most m (fix_prec (Dec v x))) as Hfix.
  { intros v Hv Hle. apply fix_prec_bounds; [done|done|].
    by rewrite (at_most_scaled k) by (unfold fixed; simpl; lia). }
  assert (∃ d, dec_le (Dec (- (m * 10 ^ (- e))) e) d = true ∧ dec_le d (Dec (m * 10 ^ (- e)) e) = true
               ∧ fix_prec (Dec (va - vb) x) = d) as (d & Hlo & Hhi & ->).
  { destruct (decide (vb ≤ va)) as [Hge|Hlt].
    - destruct (Hfix (va - vb)) as [Hc Hmx]; [lia|nia|]. eexists; split; [|split; [|done]].
      + apply nonneg_quantum; [nia|done].
      + by apply at_most_quantum.
    - destruct (Hfix (vb - va)) as [Hc Hmx]; [lia|nia|].
      replace (va - vb) with (- (vb - va)) by lia. rewrite fix_prec_opp_nonneg by lia.
      destruct (fix_prec (Dec (vb - va) x)) as [c y]. simpl in *.
      eexists; split; [|split; [|done]].
      + pose proof (at_most_quantum m e _ He Hmx) as Hle. rewrite dec_le_opp in Hle. done.
      + apply (dec_le_nonpos (m * 10 ^ (- e))); nia. }
  destruct (quantize_total r e d _ Hlo Hhi Hp) as [[c e'] Hq]. exists c.
  pose proof (quantize_expo _ _ _ _ Hq) as He'. simpl in He'. subst e'. split; [done|].
  split; [by apply (quantize_lower _ _ _ _ _ Hlo Hq)|by apply (quantize_upper _ _ _ _ _ Hhi Hq)].
Qed.

(** A number of [10^-k] units is quantized exactly. *)
Lemma quantize_fixed r k d :
  fixed k d → Z.abs (scaled k d) < 10 ^ prec → quantize r (- k) d = Ok (Dec (scaled k d) (- k)).
Proof.
  intros Hf Hs. unfold quantize. unfold fixed in Hf.
  rewrite (proj2 (Z.leb_le (- k) (expo d))) by lia.
  replace (expo d - - k) with (expo d + k) by lia. fold (scaled k d).
  by rewrite (proj2 (Z.leb_le _ _)) by (apply ndigits_le; [done|lia]).
Qed.

(** The integer nearest to [n / d], the greater one of two. *)
Definition nearest (n d : Z) : Z := (2 * n + d) `div` (2 * d).

Lemma div_half_up_nearest n d : 0 ≤ n → 0 < d → div_half_up n d = nearest n d.
Proof.
  intros Hn Hd. unfold div_half_up, nearest. rewrite Z.abs_eq by done.
  destruct (Z.eq_dec n 0) as [->|]; [|rewrite Z.sgn_pos by lia; lia].
  simpl. symmetry. apply Z.div_small. lia.
Qed.

Lemma nearest_scale n d u : 0 < d → 0 < u → nearest (n * u) (d * u) = nearest n d.
Proof.
  intros Hd Hu. unfold nearest. replace (2 * (n * u) + d * u) with ((2 * n + d) * u) by ring.
  replace (2 * (d * u)) with (2 * d * u) by ring. apply Z.div_mul_cancel_r; lia.
Qed.

Lemma nearest_multiple n d : 0 < d → nearest (n * d) d = n.
Proof.
  intros Hd. unfold nearest. replace (2 * (n * d) + d) with (n * (2 * d) + d) by ring.
  rewrite Z.div_add_l, (Z.div_small d) by lia. lia.
Qed.

(** Half-up quantization of a nonnegative decimal rounds its value to the
    nearest multiple of the quantum. *)
Lemma quantize_nearest k j a q :
  0 ≤ j → fixed (k + j) a → 0 ≤ coef a → quantize ROUND_HALF_UP (- k) a = Ok q →
  coef q = nearest (scaled (k + j) a) (10 ^ j).
Proof.
  intros Hj Hf Ha Hq. unfold quantize in Hq. unfold fixed in Hf. unfold scaled.
  assert (0 ≤ expo a + (k + j)) as Hk by lia.
  inv_ok. simpl. destruct (Z.leb_spec (- k) (expo a)).
  - replace (expo a + (k + j)) with ((expo a - - k) + j) by lia.
    rewrite pow10_split, Z.mul_assoc by lia. by rewrite nearest_multiple by (apply pow10_pos; lia).
  - simpl. rewrite div_half_up_nearest by (done || apply pow10_pos; lia).
    assert (10 ^ j = 10 ^ (- k - expo a) * 10 ^ (expo a + (k + j))) as ->
      by (rewrite <- pow10_split by lia; f_equal; lia).
    by rewrite nearest_scale by (apply pow10_pos; lia).
Qed.

Lemma fix_prec_zero e : coef (fix_prec (Dec 0 e)) = 0.
Proof. by rewrite fix_prec_exact. Qed.

Lemma dec_mul_zero_r a b : coef b = 0 → coef (dec_mul a b) = 0.
Proof. intros H. unfold dec_mul. rewrite H, Z.mul_0_r. apply fix_prec_zero. Qed.

Lemma dec_mul_zero_l a b : coef a = 0 → coef (dec_mul a b) = 0.
Proof. intros H. unfold dec_mul. rewrite H, Z.mul_0_l. apply fix_prec_zero. Qed.

Create HintDb pydec discriminated.
#[export] Hint Resolve fixed_weaken pow10_pos : pydec.
