(* ===== verification/Activity.v ===== *)
(** * Activities: state machine, time policy and focus timers

    [Module StateMachine] is learning/enums.py and learning/state_machine.py,
    [Module TimePolicy] is learning/time_policy.py and [Module Timers] is
    learning/timers.py. *)

From stdpp Require Import prelude list strings.
From Stdlib Require Import ZArith Lia.
From S2P Require Import Prelude PyTime.

Module StateMachine.

Inductive ActivityState :=
  | READY | ACTIVE | PAUSED | OUTPUT_COMMITTED | SELF_REVIEW_COMPLETE | AI_PROCESSING
  | FEEDBACK_READY | CORRECTION_DUE | DEMONSTRATED | NEEDS_WORK | INCOMPLETE | SUPERSEDED.

#[export] Instance ActivityState_eq_dec : EqDecision ActivityState.
Proof. solve_decision. Defined.

Definition ActivityStateError (msg : string) : exn := Exn "ActivityStateError" msg.

Definition TRANSITIONS : list (ActivityState * ActivityState) :=
  [ (READY, ACTIVE);
    (ACTIVE, PAUSED);
    (ACTIVE, OUTPUT_COMMITTED);
    (ACTIVE, INCOMPLETE);
    (PAUSED, ACTIVE);
    (PAUSED, INCOMPLETE);
    (OUTPUT_COMMITTED, SELF_REVIEW_COMPLETE);
    (SELF_REVIEW_COMPLETE, AI_PROCESSING);
    (AI_PROCESSING, FEEDBACK_READY);
    (FEEDBACK_READY, CORRECTION_DUE);
    (CORRECTION_DUE, DEMONSTRATED);
    (CORRECTION_DUE, NEEDS_WORK) ].

Record TransitionDecision := { td_state : ActivityState; td_next_version : Z }.

Definition transition (current target : ActivityState) (actual_version expected_version : Z)
    (day_type day_status : string) : res TransitionDecision :=
  raise_if ((actual_version <=? 0) || negb (expected_version =? actual_version))
    (ActivityStateError "stale activity version") ;;;
  raise_if (negb (bool_decide ((current, target) ∈ TRANSITIONS)))
    (ActivityStateError "invalid activity state transition") ;;;
  raise_if
    (bool_decide (target = ACTIVE) &&
      (String.eqb day_type "sunday"
       || negb (str_in day_status ["planned"; "in_progress"])
       || (bool_decide (current = PAUSED) && negb (String.eqb day_status "in_progress"))))
    (ActivityStateError "study day does not allow starting work") ;;;
  Ok {| td_state := target; td_next_version := actual_version + 1 |}.

Definition assert_output_editable (state : ActivityState) : res unit :=
  raise_if (negb (bool_decide (state ∈ [READY; ACTIVE; PAUSED])))
    (ActivityStateError "committed output cannot be edited").

Definition assert_attempt_number (attempt_number : Z) : res unit :=
  raise_if (negb (bool_decide (attempt_number ∈ [1; 2])))
    (ActivityStateError "Attempt C is not allowed").

(** ** Runs of an activity

    One accepted command: a request against the stored state and version. *)
Record command := {
  cmd_target : ActivityState;
  cmd_expected : Z;
  cmd_day_type : string;
  cmd_day_status : string;
}.

Record activity := { act_state : ActivityState; act_version : Z }.

Definition apply_command (a : activity) (c : command) : res activity :=
  let* d := transition (act_state a) (cmd_target c) (act_version a) (cmd_expected c)
              (cmd_day_type c) (cmd_day_status c) in
  Ok {| act_state := td_state d; act_version := td_next_version d |}.

(** The activities visited by a run, in order; a refused command leaves the
    stored activity as it was. *)
Fixpoint run (a : activity) (cs : list command) : list activity :=
  a :: match cs with
       | [] => []
       | c :: cs' =>
           match apply_command a c with
           | Ok a' => run a' cs'
           | Err _ => run a cs'
           end
       end.

(** How far along the pipeline a state is; [PAUSED] and [ACTIVE] share a place. *)
Definition stage (s : ActivityState) : Z :=
  match s with
  | READY => 0 | ACTIVE | PAUSED => 1 | OUTPUT_COMMITTED => 2 | SELF_REVIEW_COMPLETE => 3
  | AI_PROCESSING => 4 | FEEDBACK_READY => 5 | CORRECTION_DUE => 6
  | DEMONSTRATED | NEEDS_WORK => 7 | INCOMPLETE => 8 | SUPERSEDED => 9
  end.

Definition committed (s : ActivityState) : Prop := s ∉ [READY; ACTIVE; PAUSED].

Definition final (s : ActivityState) : Prop :=
  s ∈ [DEMONSTRATED; NEEDS_WORK; INCOMPLETE; SUPERSEDED].

Lemma transition_Ok current target actual expected day_type day_status d :
  transition current target actual expected day_type day_status = Ok d →
  (current, target) ∈ TRANSITIONS ∧ 0 < actual ∧ expected = actual ∧
  d = {| td_state := target; td_next_version := actual + 1 |}.
Proof.
  unfold transition. intros H. inv_ok.
  repeat match goal with H : _ |- _ => apply orb_false_iff in H as [? ?] end.
  bool_prop. done.
Qed.

Lemma transitions_cases (P : ActivityState → ActivityState → Prop) :
  Forall (λ '(s, t), P s t) TRANSITIONS → ∀ s t, (s, t) ∈ TRANSITIONS → P s t.
Proof. intros H s t Hin. by eapply Forall_forall in H; [|exact Hin]. Qed.

Lemma stage_mono s t : (s, t) ∈ TRANSITIONS → stage s ≤ stage t.
Proof. revert s t. apply transitions_cases. repeat constructor; simpl; lia. Qed.

Lemma apply_command_Ok a c a' :
  apply_command a c = Ok a' →
  (act_state a, act_state a') ∈ TRANSITIONS ∧ 0 < act_version a ∧
  cmd_expected c = act_version a ∧ act_version a' = act_version a + 1.
Proof.
  unfold apply_command. intros H. apply res_bind_Ok in H as (d & Hd & [= <-]).
  apply transition_Ok in Hd as (? & ? & ? & ->). done.
Qed.

(** ** Properties of runs *)

Lemma run_head a cs : ∃ l, run a cs = a :: l.
Proof. destruct cs; simpl; eauto. Qed.

(** What one accepted transition keeps between the stored activity and any
    later one, a whole run keeps. *)
Lemma run_invariant (R : activity → activity → Prop) a cs :
  (∀ x, R x x) → (∀ x y z, R x y → R y z → R x z) →
  (∀ x c y, apply_command x c = Ok y → R x y) →
  Forall (R a) (run a cs).
Proof.
  intros Hrefl Htrans Hstep. revert a; induction cs as [|c cs IH]; intros a; simpl.
  - by repeat constructor.
  - constructor; [done|]. destruct (apply_command a c) as [a'|] eqn:E; [|apply IH].
    eapply Forall_impl; [exact (IH a')|]. intros y Hy. simpl. eauto.
Qed.

Lemma run_suffix a cs l1 b l2 :
  run a cs = l1 ++ b :: l2 → ∃ cs', run b cs' = b :: l2.
Proof.
  revert a l1; induction cs as [|c cs IH]; intros a l1; simpl.
  - destruct l1 as [|? [|]]; simpl; intros [= -> ?]; [|done..]. by exists []; subst.
  - destruct l1 as [|x l1]; simpl; intros [= -> H].
    + exists (c :: cs). simpl. by rewrite H.
    + destruct (apply_command x c); eapply IH; exact H.
Qed.

Lemma run_version_mono a cs : Forall (λ b, act_version a ≤ act_version b) (run a cs).
Proof.
  apply (run_invariant (λ x y, act_version x ≤ act_version y)); [lia|lia|].
  intros x c y (_ & _ & _ & H)%apply_command_Ok. lia.
Qed.

Lemma run_stage_mono a cs : Forall (λ b, stage (act_state a) ≤ stage (act_state b)) (run a cs).
Proof.
  apply (run_invariant (λ x y, stage (act_state x) ≤ stage (act_state y))); [lia|lia|].
  intros x c y (H & _)%apply_command_Ok. by apply stage_mono.
Qed.

Lemma committed_stage s : committed s ↔ 2 ≤ stage s.
Proof.
  unfold committed. rewrite !not_elem_of_cons. destruct s; simpl;
    (split; [intros (?&?&?&?); try done; lia|intros; repeat split; try done; try lia; apply not_elem_of_nil]).
Qed.

Lemma assert_output_editable_spec s : is_ok (assert_output_editable s) = true ↔ stage s < 2.
Proof. by destruct s. Qed.

(** Before self review the next stage is at most self review, or the dead
    end of an incomplete activity. *)
Lemma next_stage_before_review s t :
  (s, t) ∈ TRANSITIONS → stage s ≤ 2 → stage t ≤ 2 ∨ t = SELF_REVIEW_COMPLETE ∨ t = INCOMPLETE.
Proof.
  revert s t.
  apply (transitions_cases (λ s t, stage s ≤ 2 →
           stage t ≤ 2 ∨ t = SELF_REVIEW_COMPLETE ∨ t = INCOMPLETE)).
  repeat (apply List.Forall_cons; [simpl; lia || auto|]). constructor.
Qed.

Lemma final_no_exit s t : (s, t) ∈ TRANSITIONS → ¬ final s.
Proof.
  revert s t. apply (transitions_cases (λ s t, ¬ final s)). unfold final.
  repeat constructor; rewrite !elem_of_cons, elem_of_nil; naive_solver.
Qed.

Lemma run_from_final a cs : final (act_state a) → Forall (λ b, b = a) (run a cs).
Proof.
  intros Hf. induction cs as [|c cs IH]; simpl; [by repeat constructor|].
  constructor; [done|]. destruct (apply_command a c) as [a'|] eqn:E; [|done].
  apply apply_command_Ok in E as [Hin _]. by apply final_no_exit in Hin.
Qed.

(** C5. Feedback is earned in order: in any run from a state no later than a
    committed output, an activity whose feedback is being corrected or has
    been judged comes after the same activity with its self review complete. *)
Theorem feedback_only_after_self_review a cs l1 b l2 :
  stage (act_state a) ≤ 2 →
  run a cs = l1 ++ b :: l2 →
  act_state b ∈ [AI_PROCESSING; FEEDBACK_READY; CORRECTION_DUE; DEMONSTRATED; NEEDS_WORK] →
  ∃ x, x ∈ l1 ∧ act_state x = SELF_REVIEW_COMPLETE.
Proof.
  intros Ha Hrun Hb.
  assert (4 ≤ stage (act_state b) ≤ 7) as Hst.
  { rewrite !elem_of_cons, elem_of_nil in Hb. destruct (act_state b); simpl; naive_solver lia. }
  clear Hb. revert a l1 Ha Hrun; induction cs as [|c cs IH]; intros a l1 Ha; simpl.
  - destruct l1 as [|? [|]]; simpl; intros [= -> ?]; done || lia.
  - destruct l1 as [|x l1]; simpl; intros [= -> Hrun]; [lia|].
    destruct (apply_command x c) as [a'|] eqn:E.
    + apply apply_command_Ok in E as [Hin _].
      destruct (next_stage_before_review _ _ Hin Ha) as [H|[H|H]].
      * destruct (IH a' l1) as (y & ? & ?); [done..|]. exists y. split; [by right|done].
      * destruct (run_head a' cs) as [l Hl]. rewrite Hl in Hrun.
        exists a'. split; [|done].
        destruct l1 as [|? ?]; simpl in Hrun; injection Hrun as -> ->; [|right; by left].
        rewrite H in Hst. simpl in Hst. lia.
      * assert (Forall (λ y, y = a') (run a' cs)) as Hall.
        { apply run_from_final. rewrite H. unfold final. set_solver. }
        rewrite Hrun in Hall. apply Forall_app in Hall as [_ Hall].
        apply Forall_cons in Hall as [-> _]. rewrite H in Hst. simpl in Hst. lia.
    + destruct (IH x l1) as (y & ? & ?); [done..|]. exists y. split; [by right|done].
Qed.

(** C29. Commitment is a one-way door: after the first committed activity of a
    run no output is editable again, the pipeline stage never decreases, and
    an activity that reached a final state never changes at all. *)
Theorem commitment_is_final a cs l1 b l2 :
  run a cs = l1 ++ b :: l2 →
  committed (act_state b) →
  Forall (λ x, is_ok (assert_output_editable (act_state x)) = false ∧
               stage (act_state b) ≤ stage (act_state x) ∧
               (final (act_state b) → x = b)) l2.
Proof.
  intros (cs' & Hrun)%run_suffix Hc%committed_stage.
  pose proof (run_stage_mono b cs') as Hmono. rewrite Hrun in Hmono.
  apply Forall_cons in Hmono as [_ Hmono].
  apply Forall_forall. intros x Hx. eapply Forall_forall in Hmono; [|exact Hx].
  split; [|split; [done|]].
  - apply not_true_iff_false. rewrite assert_output_editable_spec. simpl in Hmono. lia.
  - intros Hf. pose proof (run_from_final b cs' Hf) as Hall. rewrite Hrun in Hall.
    apply Forall_cons in Hall as [_ Hall]. by eapply Forall_forall in Hall.
Qed.

(** C30. Optimistic concurrency: once a command with some expected version has
    been accepted, every later command of the run that expects the same
    version is refused as stale, whatever else happened in between. *)
Theorem expected_version_used_once a c1 a1 cs a2 c2 :
  apply_command a c1 = Ok a1 →
  a2 ∈ run a1 cs →
  cmd_expected c2 = cmd_expected c1 →
  apply_command a2 c2 = Err (ActivityStateError "stale activity version").
Proof.
  intros (_ & Hpos & Hexp & Hver)%apply_command_Ok Hin Hsame.
  pose proof (run_version_mono a1 cs) as Hmono. eapply Forall_forall in Hmono; [|exact Hin].
  unfold apply_command, transition. simpl in Hmono.
  destruct (Z.leb_spec (act_version a2) 0); [lia|].
  destruct (Z.eqb_spec (cmd_expected c2) (act_version a2)); [lia|done].
Qed.
(** ** A whole pass through the pipeline *)

Definition go (t : ActivityState) (v : Z) : command :=
  {| cmd_target := t; cmd_expected := v; cmd_day_type := "weekday";
     cmd_day_status := "in_progress" |}.
Definition fresh : activity := {| act_state := READY; act_version := 1 |}.
Definition pass : list command :=
  [go ACTIVE 1; go PAUSED 2; go OUTPUT_COMMITTED 3; go ACTIVE 3; go OUTPUT_COMMITTED 4;
   go SELF_REVIEW_COMPLETE 5; go AI_PROCESSING 6; go FEEDBACK_READY 7].

Lemma feedback_only_after_self_review_witness :
  ∃ x, x ∈ take 7 (run fresh pass) ∧ act_state x = SELF_REVIEW_COMPLETE.
Proof.
  apply (feedback_only_after_self_review fresh pass _
           {| act_state := AI_PROCESSING; act_version := 7 |}
           [{| act_state := FEEDBACK_READY; act_version := 8 |}]).
  - simpl. lia.
  - vm_compute. reflexivity.
  - by left.
Defined.

Lemma commitment_is_final_witness :
  Forall (λ x, is_ok (assert_output_editable (act_state x)) = false ∧
               2 ≤ stage (act_state x) ∧
               (final OUTPUT_COMMITTED → x = {| act_state := OUTPUT_COMMITTED; act_version := 5 |}))
    (drop 6 (run fresh pass)).
Proof.
  apply (commitment_is_final fresh pass (take 5 (run fresh pass))
           {| act_state := OUTPUT_COMMITTED; act_version := 5 |}).
  - vm_compute. reflexivity.
  - apply committed_stage. simpl. lia.
Defined.

Lemma expected_version_used_once_witness :
  apply_command {| act_state := OUTPUT_COMMITTED; act_version := 5 |} (go PAUSED 2)
  = Err (ActivityStateError "stale activity version").
Proof.
  apply (expected_version_used_once
           {| act_state := ACTIVE; act_version := 2 |} (go PAUSED 2)
           {| act_state := PAUSED; act_version := 3 |}
           [go ACTIVE 3; go OUTPUT_COMMITTED 4]).
  - vm_compute. reflexivity.
  - simpl. right. right. by left.
  - reflexivity.
Defined.
End StateMachine.

Module TimePolicy.

Definition TimePolicyError (msg : string) : exn := Exn "TimePolicyError" msg.

Inductive DayType := weekday_day | saturday | sunday.
Inductive FocusKind := focused | real_interview | async_processing.

#[export] Instance DayType_eq_dec : EqDecision DayType.
Proof. solve_decision. Defined.
#[export] Instance FocusKind_eq_dec : EqDecision FocusKind.
Proof. solve_decision. Defined.

Record DayBudget := MkDayBudget {
  day_type : DayType;
  target_minutes : Z;
  acceptable_minimum : Z;
  maximum_minutes : Z;
}.

Record FocusEntry := MkFocusEntry { fe_kind : FocusKind; fe_minutes : Z }.

(** The constructor with its [__post_init__] check. *)
Definition new_FocusEntry (kind : FocusKind) (minutes : Z) : res FocusEntry :=
  raise_if (minutes <? 0) (TimePolicyError "focused minutes cannot be negative") ;;;
  Ok (MkFocusEntry kind minutes).

Record CompletionGate := MkGate {
  required_outputs_satisfied : bool;
  pass_conditions_satisfied : bool;
}.

Definition budget_for (local_date : date) : DayBudget :=
  if weekday local_date =? 6 then MkDayBudget sunday 0 0 0
  else if weekday local_date =? 5 then MkDayBudget saturday 120 0 120
  else MkDayBudget weekday_day 240 225 255.

Definition budget_for_day (kind : string) (budget_minutes : Z) : res DayBudget :=
  raise_if (budget_minutes <? 0) (TimePolicyError "day budget cannot be negative") ;;;
  if String.eqb kind "assessment" then
    Ok (MkDayBudget saturday budget_minutes 0 budget_minutes)
  else if String.eqb kind "weekday" then
    Ok (MkDayBudget weekday_day budget_minutes (Z.max (budget_minutes - 15) 0)
          (budget_minutes + 15))
  else Err (TimePolicyError "unknown scheme day kind").

(** The message names the day and its limit; the model keeps its fixed part. *)
Definition validate_planned_minutes (budget : DayBudget) (planned_minutes : Z) : res unit :=
  raise_if (planned_minutes <? 0) (TimePolicyError "planned minutes cannot be negative") ;;;
  raise_if (maximum_minutes budget <? planned_minutes) (TimePolicyError "study cannot exceed").

Definition hard_stop_recommended (budget : DayBudget) (focused_minutes : Z) : res bool :=
  raise_if (focused_minutes <? 0) (TimePolicyError "focused minutes cannot be negative") ;;;
  Ok ((0 <? maximum_minutes budget) && (maximum_minutes budget <=? focused_minutes)).

Definition counted_focused_minutes (entries : list FocusEntry) : Z :=
  sumZ (map fe_minutes (filter (λ item, fe_kind item ≠ async_processing) entries)).

Definition can_finish_early (gates : list CompletionGate) : bool :=
  negb (bool_decide (gates = [])) &&
  forallb (λ item, required_outputs_satisfied item && pass_conditions_satisfied item) gates.

#[export] Instance CompletionGate_eq_dec : EqDecision CompletionGate.
Proof. solve_decision. Defined.

(** A budget whose floor, target and cap are in order. *)
Definition budget_ok (b : DayBudget) : Prop :=
  0 ≤ acceptable_minimum b ≤ target_minutes b ∧ target_minutes b ≤ maximum_minutes b.

Lemma budget_for_ok d : budget_ok (budget_for d).
Proof. unfold budget_for, budget_ok. repeat case_match; simpl; lia. Qed.

Lemma budget_for_sunday d : day_type (budget_for d) = sunday ↔ weekday d = 6.
Proof.
  unfold budget_for. destruct (Z.eqb_spec (weekday d) 6); [done|].
  by destruct (Z.eqb_spec (weekday d) 5).
Qed.

Lemma budget_for_day_ok kind m b : budget_for_day kind m = Ok b → budget_ok b.
Proof. unfold budget_for_day, budget_ok. intros. inv_ok_prop; simpl; lia. Qed.

Lemma budget_for_day_not_sunday kind m b : budget_for_day kind m = Ok b → day_type b ≠ sunday.
Proof. unfold budget_for_day. intros. by inv_ok. Qed.

Lemma validate_planned_minutes_Ok b m u :
  validate_planned_minutes b m = Ok u ↔ 0 ≤ m ≤ maximum_minutes b.
Proof.
  unfold validate_planned_minutes. destruct u.
  destruct (Z.ltb_spec m 0), (Z.ltb_spec (maximum_minutes b) m); simpl; (split; [done || lia|]);
    intros; done || lia.
Qed.
End TimePolicy.

Module Timers.

Definition MAX_HEARTBEAT_GAP_SECONDS : Z := 30.
Definition DAY_HARD_STOP_SECONDS : Z := 255 * 60.

Definition TimerPolicyError (msg : string) : exn := Exn "TimerPolicyError" msg.

Record TimerState := MkTimer {
  started_at : datetime;
  last_heartbeat_at : datetime;
  counted_seconds : Z;
  last_client_sequence : Z;
  paused_at : option datetime;
  ended_at : option datetime;
}.

Definition is_open (t : TimerState) : bool := bool_decide (ended_at t = None).

Record HeartbeatDecision := MkDecision {
  hd_timer : TimerState;
  hd_added_seconds : Z;
  hd_day_counted_seconds : Z;
  hd_hard_stop_recommended : bool;
}.

Definition start_timer (server_now : datetime) : res TimerState :=
  raise_if (negb (aware server_now))
    (TimerPolicyError "server timestamp must be timezone-aware") ;;;
  Ok (MkTimer server_now server_now 0 0 None None).

Definition ensure_single_open_timer (timers : list TimerState) : res (option TimerState) :=
  let open_timers := filter (λ t, is_open t = true) timers in
  raise_if (1 <? Z.of_nat (length open_timers))
    (TimerPolicyError "activity has more than one open timer") ;;;
  Ok (head open_timers).

(** [int(delta.total_seconds())] of a nonnegative delta; the float is exact to
    the microsecond for every delta below 2^33 seconds. *)
Definition whole_seconds (td : timedelta) : Z := td `div` us_per_second.

Definition apply_heartbeat (timer : TimerState) (server_now : datetime)
    (client_sequence day_counted_seconds maximum_gap_seconds day_hard_stop_seconds : Z)
    : res HeartbeatDecision :=
  raise_if (negb (aware server_now))
    (TimerPolicyError "server timestamp must be timezone-aware") ;;;
  raise_if (negb (is_open timer) || negb (bool_decide (paused_at timer = None)))
    (TimerPolicyError "timer is not open") ;;;
  raise_if (client_sequence <=? last_client_sequence timer)
    (TimerPolicyError "heartbeat sequence must increase") ;;;
  let* backward := dt_lt server_now (last_heartbeat_at timer) in
  raise_if backward (TimerPolicyError "server heartbeat cannot move backward") ;;;
  raise_if ((day_counted_seconds <? 0) || (day_hard_stop_seconds <=? 0))
    (TimerPolicyError "day timer total is invalid") ;;;
  raise_if (maximum_gap_seconds <=? 0)
    (TimerPolicyError "heartbeat gap must be positive") ;;;
  let* delta := dt_sub server_now (last_heartbeat_at timer) in
  let elapsed_seconds := whole_seconds delta in
  let bounded_seconds := Z.min elapsed_seconds maximum_gap_seconds in
  let remaining_seconds := Z.max 0 (day_hard_stop_seconds - day_counted_seconds) in
  let added_seconds := Z.min bounded_seconds remaining_seconds in
  let next_day_seconds := day_counted_seconds + added_seconds in
  let updated :=
    MkTimer (started_at timer) server_now (counted_seconds timer + added_seconds)
      client_sequence (paused_at timer) (ended_at timer) in
  Ok (MkDecision updated added_seconds next_day_seconds
        (day_hard_stop_seconds <=? next_day_seconds)).

(** ** A session of heartbeats, with the code's default limits

    Each beat is a server time and a client sequence number; a refused beat
    changes nothing. *)
Record session := MkSession { s_timer : TimerState; s_day : Z }.

Definition beat (s : session) (b : datetime * Z) : session :=
  match apply_heartbeat (s_timer s) b.1 b.2 (s_day s)
          MAX_HEARTBEAT_GAP_SECONDS DAY_HARD_STOP_SECONDS with
  | Ok d => MkSession (hd_timer d) (hd_day_counted_seconds d)
  | Err _ => s
  end.

Definition beats (s : session) (l : list (datetime * Z)) : session := fold_left beat l s.

Lemma whole_seconds_bounds td :
  0 ≤ td → 0 ≤ whole_seconds td ∧ whole_seconds td * us_per_second ≤ td.
Proof.
  unfold whole_seconds, us_per_second. intros.
  split; [by apply Z.div_pos|]. rewrite Z.mul_comm. apply Z.mul_div_le. lia.
Qed.

(** Everything a successful heartbeat tells about its inputs and outputs. *)
Lemma apply_heartbeat_Ok timer now seq day gap stop d :
  apply_heartbeat timer now seq day gap stop = Ok d →
  let elapsed := instant now - instant (last_heartbeat_at timer) in
  aware now = true ∧ is_open timer = true ∧ paused_at timer = None ∧
  last_client_sequence timer < seq ∧ 0 ≤ elapsed ∧ 0 ≤ day ∧ 0 < stop ∧ 0 < gap ∧
  hd_added_seconds d = Z.min (Z.min (whole_seconds elapsed) gap) (Z.max 0 (stop - day)) ∧
  hd_day_counted_seconds d = day + hd_added_seconds d ∧
  hd_hard_stop_recommended d = (stop <=? hd_day_counted_seconds d) ∧
  hd_timer d = MkTimer (started_at timer) now (counted_seconds timer + hd_added_seconds d)
                 seq (paused_at timer) (ended_at timer).
Proof.
  unfold apply_heartbeat, dt_lt, dt_sub. intros H. inv_ok.
  repeat match goal with H : _ || _ = false |- _ => apply orb_false_iff in H as [? ?] end.
  bool_prop. repeat split; try done; lia.
Qed.

Lemma beat_cases s b :
  beat s b = s ∨
  ∃ d, apply_heartbeat (s_timer s) b.1 b.2 (s_day s) MAX_HEARTBEAT_GAP_SECONDS
         DAY_HARD_STOP_SECONDS = Ok d ∧
       beat s b = MkSession (hd_timer d) (hd_day_counted_seconds d).
Proof.
  unfold beat. destruct (apply_heartbeat _ _ _ _ _ _) as [d|] eqn:E; [right; eauto|by left].
Qed.

(** An invariant of single beats is an invariant of sessions. *)
Lemma beats_invariant (P : session → Prop) l s :
  (∀ s b, P s → P (beat s b)) → P s → P (beats s l).
Proof.
  intros Hstep. revert s; induction l as [|b l IH]; intros s Hs; simpl; [done|]. by apply IH, Hstep.
Qed.

Definition session_ok (t0 : datetime) (day0 : Z) (s : session) : Prop :=
  let t := s_timer s in
  started_at t = t0 ∧ 0 ≤ counted_seconds t ∧
  counted_seconds t * us_per_second ≤ instant (last_heartbeat_at t) - instant t0 ∧
  s_day s = day0 + counted_seconds t ∧
  s_day s ≤ Z.max day0 DAY_HARD_STOP_SECONDS.

Lemma beat_ok t0 day0 s b : session_ok t0 day0 s → session_ok t0 day0 (beat s b).
Proof.
  destruct (beat_cases s b) as [->|(d & Hd & ->)]; [done|].
  apply apply_heartbeat_Ok in Hd as
    (_ & _ & _ & _ & Hel & Hday & Hstop & Hgap & Hadd & Hnext & _ & Ht).
  intros (H1 & H2 & H3 & H4 & H5). unfold session_ok. simpl.
  rewrite Ht, Hnext. simpl.
  pose proof (whole_seconds_bounds _ Hel) as [Hw0 Hw].
  assert (0 ≤ hd_added_seconds d ≤ whole_seconds (instant b.1 - instant (last_heartbeat_at (s_timer s))))
    as [Ha0 Ha] by lia.
  unfold us_per_second in *. repeat split; done || lia.
Qed.

(** C6. Focus is never over-counted: however a client sends heartbeats against
    a timer the server started, the counted seconds never exceed the server
    time that passed since the start, the day total moves in step with the
    timer, and it never passes the day's hard stop (unless it began above it). *)
Theorem session_never_overcounts t0 day0 timer l :
  start_timer t0 = Ok timer →
  let s := beats (MkSession timer day0) l in
  0 ≤ counted_seconds (s_timer s) ∧
  counted_seconds (s_timer s) * us_per_second
    ≤ instant (last_heartbeat_at (s_timer s)) - instant t0 ∧
  s_day s = day0 + counted_seconds (s_timer s) ∧
  s_day s ≤ Z.max day0 DAY_HARD_STOP_SECONDS.
Proof.
  unfold start_timer. intros H. inv_ok.
  apply (beats_invariant (session_ok t0 day0)); [by intros; apply beat_ok|].
  unfold session_ok; simpl. unfold DAY_HARD_STOP_SECONDS. repeat split; lia.
Qed.

(** C31. Heartbeats are replay-safe: after a heartbeat was counted, sending any
    heartbeat whose sequence number is not above it changes nothing, at any
    later point of the session. *)
Theorem heartbeat_replay_ignored s now seq d l now' seq' :
  apply_heartbeat (s_timer s) now seq (s_day s) MAX_HEARTBEAT_GAP_SECONDS
    DAY_HARD_STOP_SECONDS = Ok d →
  seq' ≤ seq →
  let s' := beats (beat s (now, seq)) l in
  beat s' (now', seq') = s'.
Proof.
  intros Hd Hle s'.
  assert (seq ≤ last_client_sequence (s_timer s')) as Hseq.
  { apply (beats_invariant (λ x, seq ≤ last_client_sequence (s_timer x))).
    - intros x b Hx. destruct (beat_cases x b) as [->|(d' & Hd' & ->)]; [done|].
      apply apply_heartbeat_Ok in Hd' as (_ & _ & _ & Hlt & _ & _ & _ & _ & _ & _ & _ & Ht).
      simpl. rewrite Ht. simpl. lia.
    - unfold beat. simpl. rewrite Hd. simpl.
      apply apply_heartbeat_Ok in Hd as (_ & _ & _ & _ & _ & _ & _ & _ & _ & _ & _ & Ht).
      rewrite Ht. simpl. lia. }
  destruct (beat_cases s' (now', seq')) as [->|(d' & Hd' & _)]; [done|].
  apply apply_heartbeat_Ok in Hd' as (_ & _ & _ & Hlt & _). simpl in Hlt. lia.
Qed.

Lemma ensure_single_open_timer_Ok timers o :
  ensure_single_open_timer timers = Ok o →
  match o with
  | Some t => filter (λ t, is_open t = true) timers = [t]
  | None => ∀ t, t ∈ timers → is_open t = false
  end.
Proof.
  unfold ensure_single_open_timer. intros H. inv_ok_prop.
  destruct (filter _ timers) as [|t [|]] eqn:E; simpl in *; try lia; [|done].
  intros t Ht. apply not_true_iff_false. intros Hopen.
  assert (t ∈ filter (λ t, is_open t = true) timers) as Hin by (by apply list_elem_of_filter).
  rewrite E in Hin. by apply elem_of_nil in Hin.
Qed.

Definition t_start : datetime := utc (seconds 1000).
Definition timer0 : TimerState := MkTimer t_start t_start 0 0 None None.

Lemma session_never_overcounts_witness :
  let s := beats (MkSession timer0 15290)
             [(utc (seconds 1010), 1); (utc (seconds 1100), 2); (utc (seconds 1101), 2)] in
  0 ≤ counted_seconds (s_timer s) ∧
  counted_seconds (s_timer s) * us_per_second
    ≤ instant (last_heartbeat_at (s_timer s)) - instant t_start ∧
  s_day s = 15290 + counted_seconds (s_timer s) ∧
  s_day s ≤ Z.max 15290 DAY_HARD_STOP_SECONDS.
Proof. apply (session_never_overcounts t_start 15290 timer0). reflexivity. Defined.

Lemma heartbeat_replay_ignored_witness :
  let s' := beats (beat (MkSession timer0 0) (utc (seconds 1010), 1)) [(utc (seconds 1030), 5)] in
  beat s' (utc (seconds 1010), 1) = s'.
Proof.
  apply (heartbeat_replay_ignored (MkSession timer0 0) (utc (seconds 1010)) 1
           (MkDecision (MkTimer t_start (utc (seconds 1010)) 10 1 None None) 10 10 false)).
  - vm_compute. reflexivity.
  - lia.
Defined.
End Timers.
