(* ===== verification/Scheduling.v ===== *)
(** * Day scheduling

    learning/scheduling.py: the numbering of study days, the choice of the
    carried-over correction, and the construction of a day's plan from its
    tasks, its interviews and the work left over from earlier days.  The
    timezone resolution ([local_study_context]) and the reader of a stored
    scheme ([scheme_for_version]) are not modelled. *)

From stdpp Require Import prelude list strings gmap sorting pretty.
From Stdlib Require Import ZArith Lia.
From S2P Require Import Prelude PyTime Activity.
Import TimePolicy.

Definition SchedulePolicyError (msg : string) : exn := Exn "SchedulePolicyError" msg.

(** ** Data *)

Inductive CarryoverKind := spoken_attempt_b | written_attempt_b | sql_correction.
Inductive UnfinishedClassification := w_required | w_useful | w_optional | w_superseded.
Inductive MissedWorkAction :=
  | replace_adaptive | pending_replacement | retrieval_queue | drop_work | link_stronger_evidence.
(** The day type of a plan is that of its budget, or an interview day. *)
Inductive PlanDayType := of_budget (d : DayType) | interview_day.

#[export] Instance UnfinishedClassification_eq_dec : EqDecision UnfinishedClassification.
Proof. solve_decision. Defined.
#[export] Instance MissedWorkAction_eq_dec : EqDecision MissedWorkAction.
Proof. solve_decision. Defined.

Record TaskTemplate := MkTask {
  task_definition_id : Z;
  stable_id : string;
  mapping_version : string;
  objective : string;
  block : string;
  order : Z;
  timebox_minutes : Z;
  required : bool;
  adaptive_priority : option Z;
}.

#[export] Instance TaskTemplate_eq_dec : EqDecision TaskTemplate.
Proof. solve_decision. Defined.

Definition check_TaskTemplate (t : TaskTemplate) : res TaskTemplate :=
  raise_if ((task_definition_id t <=? 0) || (order t <=? 0) || (timebox_minutes t <=? 0))
    (SchedulePolicyError "task identifiers, order, and timebox must be positive") ;;;
  raise_if (String.eqb (stable_id t) "" || String.eqb (mapping_version t) "" || blank (objective t))
    (SchedulePolicyError "task snapshot fields cannot be blank") ;;;
  raise_if (required t && bool_decide (is_Some (adaptive_priority t)))
    (SchedulePolicyError "required tasks cannot be adaptive replacement slots") ;;;
  Ok t.

Record InterviewCommitment := MkInterview { ic_id : Z; ic_minutes : Z }.

Definition check_InterviewCommitment (i : InterviewCommitment) : res InterviewCommitment :=
  raise_if ((ic_id i <=? 0) || negb ((1 <=? ic_minutes i) && (ic_minutes i <=? 480)))
    (SchedulePolicyError "interview commitment is invalid") ;;;
  Ok i.

Record Carryover := MkCarryover {
  co_id : Z; co_kind : CarryoverKind; co_priority : Z; co_due_date : date
}.

Definition check_Carryover (c : Carryover) : res Carryover :=
  raise_if ((co_id c <=? 0) || negb (bool_decide (co_priority c ∈ [1; 2])))
    (SchedulePolicyError "carryover is invalid") ;;;
  Ok c.

Record UnfinishedWork := MkWork {
  uw_id : Z;
  uw_classification : UnfinishedClassification;
  uw_minutes : Z;
  uw_stronger_evidence_id : option Z;
}.

Definition check_UnfinishedWork (w : UnfinishedWork) : res UnfinishedWork :=
  raise_if ((uw_id w <=? 0) || (uw_minutes w <=? 0))
    (SchedulePolicyError "unfinished work is invalid") ;;;
  raise_if
    (negb (Bool.eqb (bool_decide (uw_classification w = w_superseded))
             (bool_decide (is_Some (uw_stronger_evidence_id w)))))
    (SchedulePolicyError "superseded work must link exactly one stronger evidence item") ;;;
  Ok w.

Record MissedWorkDecision := MkMissed {
  mw_work_id : Z;
  mw_action : MissedWorkAction;
  mw_replaced_task_id : option Z;
  mw_stronger_evidence_id : option Z;
}.

Record DayPlan := MkDayPlan {
  dp_local_date : date;
  dp_curriculum_day : option Z;
  dp_day_type : PlanDayType;
  dp_tasks : list TaskTemplate;
  dp_interview_minutes : Z;
  dp_planned_minutes : Z;
  dp_missed_work : list MissedWorkDecision;
  dp_notifications : list string;
}.

(** ** Numbering the study days *)

Definition curriculum_day_number (study_start_date local_date : date) : res (option Z) :=
  raise_if (negb (weekday study_start_date =? 0))
    (SchedulePolicyError "study start date must be a Monday roadmap anchor") ;;;
  raise_if (local_date <? study_start_date)
    (SchedulePolicyError "study date precedes the roadmap anchor") ;;;
  if weekday local_date =? 6 then Ok None
  else
    let elapsed_days := local_date - study_start_date in
    Ok (Some (elapsed_days `div` 7 * 6 + weekday local_date + 1)).

(** [while current <= local_date]: one turn per day, [n] of them. *)
Fixpoint count_study_days (n : nat) (current : date) (rest_weekdays : gset Z) (number : Z)
    : res Z :=
  match n with
  | O => Ok number
  | S n' =>
      let number' := if bool_decide (weekday current ∈ rest_weekdays) then number else number + 1 in
      let* next := date_add current 1 in
      count_study_days n' next rest_weekdays number'
  end.

Definition study_day_number (study_start_date local_date : date) (rest_weekdays : gset Z)
    : res (option Z) :=
  raise_if (local_date <? study_start_date)
    (SchedulePolicyError "study date precedes the roadmap anchor") ;;;
  if bool_decide (weekday local_date ∈ rest_weekdays) then Ok None
  else
    let* number := count_study_days (Z.to_nat (local_date - study_start_date + 1))
                     study_start_date rest_weekdays 0 in
    Ok (Some number).

(** [while candidate.weekday() in rest_weekdays: candidate += timedelta(days=1)].
    Weekdays repeat every seven days, so seven rest days in a row mean that
    the loop walks to the last date there is, where adding a day raises. *)
Fixpoint skip_rest (fuel : nat) (rest_weekdays : gset Z) (candidate : date) : res date :=
  if bool_decide (weekday candidate ∈ rest_weekdays) then
    match fuel with
    | O => Err (OverflowError "date value out of range")
    | S fuel' => let* next := date_add candidate 1 in skip_rest fuel' rest_weekdays next
    end
  else Ok candidate.

Definition first_open_study_date (local_today : date) (last_planned : option date)
    (rest_weekdays : gset Z) : res date :=
  raise_if (7 <=? Z.of_nat (size rest_weekdays))
    (SchedulePolicyError "a scheme needs at least one study weekday") ;;;
  let* candidate :=
    match last_planned with
    | Some last => if local_today <=? last then date_add last 1 else Ok local_today
    | None => Ok local_today
    end in
  skip_rest 7 rest_weekdays candidate.

Record SchemeInfo := MkScheme {
  rest_weekdays : gset Z;
  budgets : gmap Z DayBudget;
}.

Definition is_legacy (s : SchemeInfo) : bool := bool_decide (budgets s = ∅).

Definition day_number (s : SchemeInfo) (study_start_date local_date : date) : res (option Z) :=
  if is_legacy s then curriculum_day_number study_start_date local_date
  else study_day_number study_start_date local_date (rest_weekdays s).

Definition scheme_budget (s : SchemeInfo) (curriculum_day : option Z) (local_date : date)
    : DayBudget :=
  match curriculum_day with
  | Some day => default (budget_for local_date) (budgets s !! day)
  | None => budget_for local_date
  end.

Definition next_study_date (s : SchemeInfo) (local_date : date) : res date :=
  let* candidate := date_add local_date 1 in
  skip_rest 7 (rest_weekdays s) candidate.

Definition LEGACY_SCHEME : SchemeInfo := MkScheme {[6]} ∅.

(** ** Carried-over corrections *)

Definition carryover_key (c : Carryover) : list Z := [co_due_date c; co_priority c; co_id c].

Definition select_carryover (carryovers : list Carryover) (local_date : date) : option Carryover :=
  min_by (key_leb carryover_key) (filter (λ c, co_due_date c ≤ local_date) carryovers).

(** ** Building a day *)

Definition total_timebox (tasks : list TaskTemplate) : Z := sumZ (map timebox_minutes tasks).

Definition interview_blocks (interview_minutes : Z) : list string :=
  ["communication_spoken"]
  ++ (if 35 <? interview_minutes then ["tam_case"] else [])
  ++ (if 120 <=? interview_minutes then ["correction_warmup"; "daily_close"] else []).

Definition fallback_blocks : list string :=
  ["saturday_assessment"; "correction_warmup"; "daily_close"; "career_pipeline";
   "technical_learning"; "sql"].

(** The loop over the fallback blocks, which breaks once the day fits. *)
Fixpoint drop_fallback (blocks : list string) (interview_minutes maximum_minutes : Z)
    (remaining : list TaskTemplate) : list TaskTemplate :=
  match blocks with
  | [] => remaining
  | b :: blocks' =>
      if total_timebox remaining + Z.min interview_minutes maximum_minutes <=? maximum_minutes
      then remaining
      else drop_fallback blocks' interview_minutes maximum_minutes
             (filter (λ item, block item ≠ b) remaining)
  end.

Definition replace_for_interviews (tasks : list TaskTemplate) (interview_minutes maximum_minutes : Z)
    : list TaskTemplate :=
  if interview_minutes <=? 0 then tasks
  else
    drop_fallback fallback_blocks interview_minutes maximum_minutes
      (filter (λ item, block item ∉ interview_blocks interview_minutes) tasks).

Definition adaptive_key (t : TaskTemplate) : list Z :=
  [default 0 (adaptive_priority t); order t; task_definition_id t].

(** Tasks that may make room for [work], best first. *)
Definition adaptive_candidates (tasks : list TaskTemplate) (work : UnfinishedWork)
    : list TaskTemplate :=
  sort_by (key_geb adaptive_key)
    (filter (λ item, required item = false ∧ is_Some (adaptive_priority item) ∧
                     uw_minutes work ≤ timebox_minutes item) tasks).

Record resolution := MkResolution {
  rs_tasks : list TaskTemplate;
  rs_decisions : list MissedWorkDecision;
  rs_minutes : Z;
}.

(** One turn of the loop of [_resolve_unfinished]. *)
Definition resolve_one (maximum_minutes other_minutes : Z) (r : resolution) (work : UnfinishedWork)
    : resolution :=
  let decide_as action := MkResolution (rs_tasks r)
        (rs_decisions r ++ [MkMissed (uw_id work) action None None]) (rs_minutes r) in
  match uw_classification work with
  | w_useful => decide_as retrieval_queue
  | w_optional => decide_as drop_work
  | w_superseded =>
      MkResolution (rs_tasks r)
        (rs_decisions r ++
           [MkMissed (uw_id work) link_stronger_evidence None (uw_stronger_evidence_id work)])
        (rs_minutes r)
  | w_required =>
      match adaptive_candidates (rs_tasks r) work with
      | [] => decide_as pending_replacement
      | replacement :: _ =>
          let proposed :=
            total_timebox (rs_tasks r) - timebox_minutes replacement + rs_minutes r
            + uw_minutes work + other_minutes in
          if maximum_minutes <? proposed then decide_as pending_replacement
          else
            MkResolution
              (filter (λ item, task_definition_id item ≠ task_definition_id replacement) (rs_tasks r))
              (rs_decisions r ++
                 [MkMissed (uw_id work) replace_adaptive
                    (Some (task_definition_id replacement)) None])
              (rs_minutes r + uw_minutes work)
      end
  end.

Definition resolve_unfinished (tasks : list TaskTemplate) (unfinished : list UnfinishedWork)
    (maximum_minutes other_minutes : Z) : resolution :=
  fold_left (resolve_one maximum_minutes other_minutes) unfinished (MkResolution tasks [] 0).

Definition task_key (t : TaskTemplate) : list Z := [order t; task_definition_id t].

Definition build_day (local_date : date) (curriculum_day : option Z) (tasks : list TaskTemplate)
    (interviews : list InterviewCommitment) (unfinished : list UnfinishedWork)
    (budget : option DayBudget) : res DayPlan :=
  let budget := default (budget_for local_date) budget in
  if bool_decide (day_type budget = sunday) then
    Ok (MkDayPlan local_date None (of_budget sunday) [] 0 0 [] [])
  else
    raise_if (match curriculum_day with None => true | Some d => d <=? 0 end)
      (SchedulePolicyError "a study day requires a positive curriculum day") ;;;
    let correction_count :=
      Z.of_nat (length (filter (λ item, block item = "correction_warmup"%string) tasks)) in
    raise_if (1 <? correction_count)
      (SchedulePolicyError "a study day may contain only one correction warm-up") ;;;
    let ordered := sort_by (key_leb task_key) tasks in
    let interview_minutes := sumZ (map ic_minutes interviews) in
    let ordered := replace_for_interviews ordered interview_minutes (maximum_minutes budget) in
    let counted_interview_minutes := Z.min interview_minutes (maximum_minutes budget) in
    let r := resolve_unfinished ordered unfinished (maximum_minutes budget)
               counted_interview_minutes in
    let planned_minutes :=
      total_timebox (rs_tasks r) + counted_interview_minutes + rs_minutes r in
    validate_planned_minutes budget planned_minutes ;;;
    raise_if (bool_decide (interviews = []) && (planned_minutes <? acceptable_minimum budget))
      (SchedulePolicyError ("weekday plan must include at least "
         +:+ pretty (acceptable_minimum budget) +:+ " minutes")) ;;;
    Ok (MkDayPlan local_date curriculum_day
          (if bool_decide (interviews = []) then of_budget (day_type budget) else interview_day)
          (rs_tasks r) interview_minutes planned_minutes (rs_decisions r) []).

(** ** The loop over unfinished work *)

(** What a decision says about the work item it was made for. *)
Definition decision_for (tasks : list TaskTemplate) (w : UnfinishedWork) (d : MissedWorkDecision)
    : Prop :=
  mw_work_id d = uw_id w ∧
  match uw_classification w with
  | w_useful => mw_action d = retrieval_queue ∧ mw_replaced_task_id d = None
  | w_optional => mw_action d = drop_work ∧ mw_replaced_task_id d = None
  | w_superseded =>
      mw_action d = link_stronger_evidence ∧
      mw_stronger_evidence_id d = uw_stronger_evidence_id w ∧ mw_replaced_task_id d = None
  | w_required =>
      (mw_action d = pending_replacement ∧ mw_replaced_task_id d = None) ∨
      (mw_action d = replace_adaptive ∧
       ∃ t, t ∈ tasks ∧ required t = false ∧ uw_minutes w ≤ timebox_minutes t ∧
            mw_replaced_task_id d = Some (task_definition_id t))
  end.

Definition replaced_ids (ds : list MissedWorkDecision) : list Z := omap mw_replaced_task_id ds.

(** The minutes of the works that replaced an adaptive task. *)
Definition rescheduled_minutes (ws : list UnfinishedWork) (ds : list MissedWorkDecision) : Z :=
  sumZ (zip_with (λ w d, if bool_decide (mw_action d = replace_adaptive) then uw_minutes w else 0)
          ws ds).

Record resolution_ok (tasks : list TaskTemplate) (ws : list UnfinishedWork) (r : resolution) : Prop := {
  ro_decisions : Forall2 (decision_for tasks) ws (rs_decisions r);
  ro_minutes : rs_minutes r = rescheduled_minutes ws (rs_decisions r);
  ro_tasks : rs_tasks r = filter (λ t, task_definition_id t ∉ replaced_ids (rs_decisions r)) tasks;
  ro_nodup : NoDup (replaced_ids (rs_decisions r));
}.

Lemma replaced_ids_app ds d :
  replaced_ids (ds ++ [d]) = replaced_ids ds ++ match mw_replaced_task_id d with Some i => [i] | None => [] end.
Proof. unfold replaced_ids. rewrite omap_app. simpl. by destruct (mw_replaced_task_id d). Qed.

Lemma rescheduled_minutes_app ws ds w d :
  length ws = length ds →
  rescheduled_minutes (ws ++ [w]) (ds ++ [d]) =
  rescheduled_minutes ws ds + if bool_decide (mw_action d = replace_adaptive) then uw_minutes w else 0.
Proof.
  intros H. unfold rescheduled_minutes. rewrite zip_with_app by done.
  simpl. autorewrite with pysum. lia.
Qed.

(** A decision that replaces nothing extends the invariant. *)
Lemma resolution_ok_keep tasks ws r w d :
  resolution_ok tasks ws r → decision_for tasks w d →
  mw_replaced_task_id d = None → mw_action d ≠ replace_adaptive →
  resolution_ok tasks (ws ++ [w]) (MkResolution (rs_tasks r) (rs_decisions r ++ [d]) (rs_minutes r)).
Proof.
  intros [H1 H2 H3 H4] Hd Hnone Hact. pose proof (Forall2_length _ _ _ H1).
  split; simpl; rewrite ?replaced_ids_app, ?Hnone, ?app_nil_r; try done.
  - apply Forall2_app; [done|]. constructor; [done|constructor].
  - rewrite rescheduled_minutes_app, bool_decide_eq_false_2 by done. lia.
Qed.

Lemma adaptive_candidates_head tasks w t l :
  adaptive_candidates tasks w = t :: l →
  t ∈ tasks ∧ required t = false ∧ uw_minutes w ≤ timebox_minutes t.
Proof.
  intros H. assert (t ∈ adaptive_candidates tasks w) as Ht by (rewrite H; by left).
  apply elem_of_sort_by, list_elem_of_filter in Ht. naive_solver.
Qed.

Lemma resolve_one_ok tasks ws r w mx other :
  resolution_ok tasks ws r → resolution_ok tasks (ws ++ [w]) (resolve_one mx other r w).
Proof.
  intros Hr. unfold resolve_one. destruct (uw_classification w) eqn:Hc;
    try (apply resolution_ok_keep; [done| |done|done]; unfold decision_for; simpl; rewrite Hc; by auto).
  destruct (adaptive_candidates _ _) as [|t l] eqn:Hcand;
    [|destruct (Z.ltb_spec mx (total_timebox (rs_tasks r) - timebox_minutes t + rs_minutes r
        + uw_minutes w + other))];
    try (apply resolution_ok_keep; [done| |done|done]; unfold decision_for; simpl; rewrite Hc; by auto).
  apply adaptive_candidates_head in Hcand as (Ht & Hreq & Hmin).
  destruct Hr as [H1 H2 H3 H4]. pose proof (Forall2_length _ _ _ H1).
  rewrite H3 in Ht. apply list_elem_of_filter in Ht as [Hnew Ht].
  split; simpl; rewrite ?replaced_ids_app; simpl.
  - apply Forall2_app; [done|]. constructor; [|constructor].
    unfold decision_for; simpl; rewrite Hc. eauto 10.
  - rewrite rescheduled_minutes_app, bool_decide_eq_true_2 by done. lia.
  - rewrite H3, list_filter_filter. apply list_filter_iff. intros x. set_solver.
  - apply NoDup_app. split; [done|]. split; [set_solver|]. apply NoDup_singleton.
Qed.

Lemma resolve_unfinished_ok tasks unfinished mx other :
  resolution_ok tasks unfinished (resolve_unfinished tasks unfinished mx other).
Proof.
  unfold resolve_unfinished. apply fold_left_prefix_invariant; [|intros; by apply resolve_one_ok].
  split; simpl; [constructor|done| |constructor].
  rewrite list_filter_all; [done|]. intros x _. apply not_elem_of_nil.
Qed.

(** ** Interview replacement *)

Lemma drop_fallback_filter blocks im mx tasks :
  ∃ P : string → Prop, ∃ _ : ∀ b, Decision (P b),
    drop_fallback blocks im mx tasks = filter (λ t, P (block t)) tasks ∧
    ∀ b, ¬ P b → b ∈ blocks.
Proof.
  revert tasks; induction blocks as [|b blocks IH]; intros tasks; simpl.
  - exists (λ _, True), _. split; [by rewrite list_filter_all|]. intros b Hb. by destruct Hb.
  - case_match.
    + exists (λ _, True), _. split; [by rewrite list_filter_all|]. intros c Hc. by destruct Hc.
    + destruct (IH (filter (λ item, block item ≠ b) tasks)) as (P & ? & -> & HP).
      exists (λ x, P x ∧ x ≠ b), _. split; [by rewrite list_filter_filter|].
      intros c Hc. destruct (decide (c = b)) as [->|]; [by left|]. right. apply HP. tauto.
Qed.

(** Whole blocks leave the day for an interview, nothing else. *)
Lemma replace_for_interviews_filter tasks im mx :
  ∃ P : string → Prop, ∃ _ : ∀ b, Decision (P b),
    replace_for_interviews tasks im mx = filter (λ t, P (block t)) tasks ∧
    ∀ b, ¬ P b → 0 < im ∧ b ∈ interview_blocks im ++ fallback_blocks.
Proof.
  unfold replace_for_interviews. destruct (Z.leb_spec im 0).
  - exists (λ _, True), _. split; [by rewrite list_filter_all|]. intros b Hb. by destruct Hb.
  - destruct (drop_fallback_filter fallback_blocks im mx
      (filter (λ item, block item ∉ interview_blocks im) tasks)) as (P & ? & -> & HP).
    exists (λ x, P x ∧ x ∉ interview_blocks im), _. split; [by rewrite list_filter_filter|].
    intros b Hb. split; [done|]. apply elem_of_app.
    destruct (decide (b ∈ interview_blocks im)); [by left|]. right. apply HP. tauto.
Qed.

(** The facts a successful construction of a study day leaves behind. *)
Lemma build_day_Ok d day tasks interviews unfinished budget plan :
  let b := default (budget_for d) budget in
  build_day d day tasks interviews unfinished budget = Ok plan →
  day_type b ≠ sunday →
  let im := sumZ (map ic_minutes interviews) in
  let ordered := replace_for_interviews (sort_by (key_leb task_key) tasks) im (maximum_minutes b) in
  let r := resolve_unfinished ordered unfinished (maximum_minutes b) (Z.min im (maximum_minutes b)) in
  dp_tasks plan = rs_tasks r ∧ dp_missed_work plan = rs_decisions r ∧
  dp_interview_minutes plan = im ∧
  dp_planned_minutes plan = total_timebox (rs_tasks r) + Z.min im (maximum_minutes b) + rs_minutes r ∧
  0 ≤ dp_planned_minutes plan ≤ maximum_minutes b ∧
  (interviews = [] → acceptable_minimum b ≤ dp_planned_minutes plan).
Proof.
  intros b H Hsun. unfold build_day in H. fold b in H.
  rewrite bool_decide_eq_false_2 in H by done.
  apply res_bind_Ok in H as (_ & _ & H). apply res_bind_Ok in H as (_ & _ & H).
  apply res_bind_Ok in H as (u & Hval & H). apply res_bind_Ok in H as (u' & Hmin & H).
  injection H as <-. apply validate_planned_minutes_Ok in Hval. apply raise_if_Ok in Hmin.
  simpl. repeat split; try done; try lia.
  intros ->. by apply Z.ltb_ge in Hmin.
Qed.

(** C24. A built day respects its budget: its minutes are exactly the tasks it
    keeps, the interviews up to the cap and the rescheduled work, they lie
    between zero and the cap, they reach the acceptable minimum when no
    interview takes the day, and the tasks are input tasks in roadmap order. *)
Theorem build_day_within_budget d day tasks interviews unfinished budget plan :
  let b := default (budget_for d) budget in
  build_day d day tasks interviews unfinished budget = Ok plan →
  day_type b ≠ sunday →
  dp_planned_minutes plan =
    total_timebox (dp_tasks plan) + Z.min (sumZ (map ic_minutes interviews)) (maximum_minutes b)
    + rescheduled_minutes unfinished (dp_missed_work plan) ∧
  0 ≤ dp_planned_minutes plan ≤ maximum_minutes b ∧
  (interviews = [] → acceptable_minimum b ≤ dp_planned_minutes plan) ∧
  (∀ t, t ∈ dp_tasks plan → t ∈ tasks) ∧
  StronglySorted (λ x y, lex_leb (task_key x) (task_key y) = true) (dp_tasks plan).
Proof.
  intros b H Hsun. apply build_day_Ok in H as (-> & -> & _ & -> & Hbound & Hmin); [|done].
  fold b in Hbound, Hmin |- *. set (ordered := replace_for_interviews _ _ _) in *.
  pose proof (resolve_unfinished_ok ordered unfinished (maximum_minutes b)
    (Z.min (sumZ (map ic_minutes interviews)) (maximum_minutes b))) as [_ Hm Ht _].
  destruct (replace_for_interviews_filter (sort_by (key_leb task_key) tasks)
    (sumZ (map ic_minutes interviews)) (maximum_minutes b)) as (P & ? & Hord & _).
  fold ordered in Hord. rewrite <- Hm. split; [done|]. split; [done|]. split; [done|].
  rewrite Ht, Hord. split.
  - intros t (_ & (_ & Hin)%list_elem_of_filter)%list_elem_of_filter. by apply elem_of_sort_by in Hin.
  - apply StronglySorted_filter, StronglySorted_filter. apply (sort_by_sorted (key_leb task_key)); eauto.
Qed.

Lemma build_day_sunday d day tasks interviews unfinished budget :
  day_type (default (budget_for d) budget) = sunday →
  build_day d day tasks interviews unfinished budget =
    Ok (MkDayPlan d None (of_budget sunday) [] 0 0 [] []).
Proof. intros Hsun. unfold build_day. by rewrite bool_decide_eq_true_2. Qed.

(** C25. Left-over work is settled item by item: on a day that is not a Sunday
    the decisions follow the unfinished items in order, each takes the action
    its classification calls for, a replacement names an optional task of the
    day at least as long as the work, and no task is given away twice or kept
    after being replaced.  A Sunday has no tasks and decides nothing. *)
Theorem missed_work_settled_once d day tasks interviews unfinished budget plan :
  build_day d day tasks interviews unfinished budget = Ok plan →
  if bool_decide (day_type (default (budget_for d) budget) = sunday)
  then dp_missed_work plan = [] ∧ dp_tasks plan = []
  else
    Forall2 (decision_for tasks) unfinished (dp_missed_work plan) ∧
    NoDup (replaced_ids (dp_missed_work plan)) ∧
    (∀ t, t ∈ dp_tasks plan → task_definition_id t ∉ replaced_ids (dp_missed_work plan)).
Proof.
  intros H. case_bool_decide as Hsun; [rewrite build_day_sunday in H by done; by injection H as <-|].
  apply build_day_Ok in H as (-> & -> & _); [|done].
  set (ordered := replace_for_interviews _ _ _).
  destruct (resolve_unfinished_ok ordered unfinished
    (maximum_minutes (default (budget_for d) budget))
    (Z.min (sumZ (map ic_minutes interviews)) (maximum_minutes (default (budget_for d) budget))))
    as [Hd _ Ht Hn].
  split; [|split; [done|]].
  - eapply Forall2_impl; [exact Hd|]. intros w x [Hid Hx]. split; [done|].
    destruct (uw_classification w); try done.
    destruct Hx as [?|(? & t & Hin & ?)]; [by left|]. right. split; [done|]. exists t. split; [|done].
    destruct (replace_for_interviews_filter (sort_by (key_leb task_key) tasks)
      (sumZ (map ic_minutes interviews)) (maximum_minutes (default (budget_for d) budget)))
      as (P & ? & Hord & _).
    unfold ordered in Hin. rewrite Hord in Hin.
    apply list_elem_of_filter in Hin as [_ Hin]. by apply elem_of_sort_by in Hin.
  - intros t. rewrite Ht, list_elem_of_filter. tauto.
Qed.

(** C26. Required work gives way to interviews only: with distinct task
    definitions, on a day that is not a Sunday, a required task is in the built
    plan unless the day has interview minutes, its block is one that interviews
    displace, and the whole block left the day.  Unfinished work displaces no
    required task, and without interviews every one of them stays. *)
Theorem required_tasks_survive d day tasks interviews unfinished budget plan t :
  NoDup (map task_definition_id tasks) →
  build_day d day tasks interviews unfinished budget = Ok plan →
  day_type (default (budget_for d) budget) ≠ sunday →
  t ∈ tasks → required t = true →
  t ∈ dp_tasks plan ∨
  (0 < sumZ (map ic_minutes interviews) ∧
   block t ∈ interview_blocks (sumZ (map ic_minutes interviews)) ++ fallback_blocks ∧
   ∀ u, u ∈ dp_tasks plan → block u ≠ block t).
Proof.
  intros Hnd H Hsun Hin Hreq. apply build_day_Ok in H as (-> & _); [|done].
  set (b := default _ _) in *. set (im := sumZ (map ic_minutes interviews)) in *.
  destruct (replace_for_interviews_filter (sort_by (key_leb task_key) tasks) im (maximum_minutes b))
    as (P & HP & Hord & Hout).
  set (ordered := replace_for_interviews _ _ _) in *.
  destruct (resolve_unfinished_ok ordered unfinished (maximum_minutes b)
    (Z.min im (maximum_minutes b))) as [Hd _ -> _].
  destruct (decide (P (block t))) as [Hkept|Hgone].
  - left. assert (t ∈ ordered) as Hto.
    { rewrite Hord. apply list_elem_of_filter. split; [done|by apply elem_of_sort_by]. }
    apply list_elem_of_filter. split; [|done].
    unfold replaced_ids. rewrite list_elem_of_omap. intros (x & Hx & Hid).
    destruct (Forall2_elem_of_r _ _ _ _ Hd Hx) as (w & _ & _ & Hw).
    destruct (uw_classification w); try (destruct_and?; congruence).
    destruct Hw as [[_ ?]|(_ & t' & Ht' & Hreq' & _ & Hid')]; [congruence|].
    rewrite Hord in Ht'. apply list_elem_of_filter in Ht' as [_ Ht'%elem_of_sort_by].
    assert (t = t'); [|congruence].
    rewrite Hid in Hid'. injection Hid' as Hid'.
    eapply (NoDup_map_inj task_definition_id); eauto.
  - right. destruct (Hout _ Hgone) as [? ?]. split; [done|]. split; [done|].
    intros u (_ & Hu)%list_elem_of_filter Heq. rewrite Hord in Hu.
    apply list_elem_of_filter in Hu as [HPu _]. by rewrite Heq in HPu.
Qed.

(** ** Study days *)

(** The dates of [start .. start + n - 1] that are not rest days. *)
Definition study_dates (rest : gset Z) (start n : Z) : list date :=
  filter (λ d, weekday d ∉ rest) (seqZ start n).

Lemma study_dates_succ rest start n :
  0 ≤ n →
  study_dates rest start (n + 1) =
  study_dates rest start n ++ (if bool_decide (weekday (start + n) ∈ rest) then [] else [start + n]).
Proof.
  intros. unfold study_dates. rewrite seqZ_app by lia. rewrite filter_app. f_equal.
  rewrite seqZ_cons by lia. change (Z.pred 1) with 0. simpl.
  rewrite filter_cons. case_decide; case_bool_decide; naive_solver.
Qed.

Lemma count_study_days_Ok n current rest number :
  date_min ≤ current → current + Z.of_nat n ≤ date_max →
  count_study_days n current rest number =
    Ok (number + Z.of_nat (length (study_dates rest current (Z.of_nat n)))).
Proof.
  revert current number; induction n as [|n IH]; intros current number Hmin Hmax.
  - simpl. f_equal. rewrite Z.add_0_r. done.
  - cbn [count_study_days]. destruct (date_add current 1) as [next|] eqn:E.
    + apply date_add_Ok in E as [-> _]. simpl. rewrite IH by lia. f_equal.
      unfold study_dates. rewrite Nat2Z.inj_succ, (seqZ_cons current) by lia.
      replace (Z.pred (Z.succ (Z.of_nat n))) with (Z.of_nat n) by lia.
      replace (Z.succ current) with (current + 1) by lia.
      rewrite filter_cons. case_bool_decide; case_decide; try done; simpl; lia.
    + exfalso. unfold date_add in E. destruct (_ && _) eqn:Eb; [done|]. bool_prop.
      unfold date_min, date_max in *. lia.
Qed.

(** The number of a study day is its place among the study dates. *)
Lemma study_day_number_Ok start d rest :
  date_min ≤ start ≤ d → d < date_max → weekday d ∉ rest →
  study_day_number start d rest =
    Ok (Some (Z.of_nat (length (study_dates rest start (d - start + 1))))).
Proof.
  intros Hs Hd Hw. unfold study_day_number.
  destruct (Z.ltb_spec d start); [lia|]. simpl. rewrite bool_decide_eq_false_2 by done.
  rewrite count_study_days_Ok by lia. simpl. by rewrite Z2Nat.id by lia.
Qed.

Lemma skip_rest_Ok fuel rest c c' :
  skip_rest fuel rest c = Ok c' →
  c ≤ c' ∧ weekday c' ∉ rest ∧ ∀ x, c ≤ x < c' → weekday x ∈ rest.
Proof.
  revert c; induction fuel as [|fuel IH]; intros c; simpl; case_bool_decide as Hw.
  - done.
  - intros [= <-]. repeat split; try done; lia.
  - intros (n & [-> _]%date_add_Ok & H)%res_bind_Ok. apply IH in H as (? & ? & Hx).
    repeat split; [lia|done|]. intros x Hx'. destruct (decide (x = c)) as [->|]; [done|]. apply Hx. lia.
  - intros [= <-]. repeat split; try done; lia.
Qed.

(** A study weekday within the fuel ends the walk. *)
Lemma skip_rest_total fuel rest c x :
  date_min ≤ c ≤ x → x ≤ c + Z.of_nat fuel → x ≤ date_max → weekday x ∉ rest →
  ∃ c', skip_rest fuel rest c = Ok c'.
Proof.
  revert c; induction fuel as [|fuel IH]; intros c Hc Hx Hmax Hw; simpl; case_bool_decide as Hr; eauto.
  - replace x with c in Hw by lia. done.
  - destruct (decide (x = c)) as [->|]; [done|].
    assert (date_add c 1 = Ok (c + 1)) as -> by (apply date_add_Ok; unfold date_min, date_max in *; lia).
    simpl. apply IH; unfold date_min in *; try done; lia.
Qed.

(** Every weekday comes up within a week of any date. *)
Lemma weekday_within_week c w : 0 ≤ w < 7 → ∃ x, c ≤ x < c + 7 ∧ weekday x = w.
Proof.
  intros Hw. exists (c + (w - weekday c) `mod` 7). unfold weekday.
  pose proof (Z.mod_pos_bound (w - (c + 6) `mod` 7) 7 ltac:(lia)). split; [lia|].
  Z.to_euclidean_division_equations. lia.
Qed.

Lemma study_weekday_exists (rest : gset Z) :
  (size rest < 7)%nat → ∃ w, 0 ≤ w < 7 ∧ w ∉ rest.
Proof.
  intros Hsize.
  destruct (decide (list_to_set (seqZ 0 7) ⊆ rest)) as [Hsub|Hsub].
  - apply subseteq_size in Hsub. rewrite size_list_to_set in Hsub by apply NoDup_seqZ.
    rewrite length_seqZ in Hsub. lia.
  - assert (∃ w, w ∈ seqZ 0 7 ∧ w ∉ rest) as (w & Hw & Hr).
    { destruct (decide (Forall (λ w, w ∈ rest) (seqZ 0 7))) as [Hall|Hex].
      - exfalso. apply Hsub. intros w Hw%elem_of_list_to_set. by eapply Forall_forall in Hall.
      - apply not_Forall_Exists, Exists_exists in Hex; [|apply _]. done. }
    apply elem_of_seqZ in Hw. exists w. split; [lia|done].
Qed.

(** How many dates of the first [n] from a Monday are not Sundays. *)
Lemma study_dates_monday start n :
  weekday start = 0 → 0 ≤ n →
  Z.of_nat (length (study_dates {[6]} start n)) = n `div` 7 * 6 + Z.min (n `mod` 7) 6.
Proof.
  intros Hmon. set (rank e := e `div` 7 * 6 + Z.min (e `mod` 7) 6). fold (rank n).
  intros Hn. pattern n. apply natlike_ind; [done| |done]. clear n Hn. intros n Hn IH.
  rewrite <- Z.add_1_r, study_dates_succ, length_app, Nat2Z.inj_add, IH by done.
  assert (weekday (start + n) = n `mod` 7) as Hw.
  { unfold weekday in *. Z.to_euclidean_division_equations. lia. }
  assert (rank (n + 1) = rank n + if bool_decide (n `mod` 7 = 6) then 0 else 1) as ->.
  { unfold rank. case_bool_decide; Z.to_euclidean_division_equations; lia. }
  rewrite Hw. case_bool_decide; case_bool_decide; simpl; set_solver || lia.
Qed.

Lemma curriculum_day_number_monday start d :
  weekday start = 0 → date_min ≤ start ≤ d → d < date_max →
  curriculum_day_number start d = study_day_number start d {[6]}.
Proof.
  intros Hmon Hs Hd. unfold curriculum_day_number. rewrite Hmon. simpl.
  destruct (Z.ltb_spec d start) as [|_]; [lia|]. simpl.
  destruct (Z.eqb_spec (weekday d) 6) as [H6|H6].
  - unfold study_day_number. destruct (Z.ltb_spec d start); [lia|]. simpl.
    rewrite bool_decide_eq_true_2 by set_solver. done.
  - rewrite study_day_number_Ok by (set_solver || lia). do 2 f_equal.
    rewrite study_dates_monday by (done || lia).
    unfold weekday in *. Z.to_euclidean_division_equations. lia.
Qed.

(** C27. The legacy numbering is the general one: from a Monday anchor, the
    closed formula of six roadmap days a week and the day-by-day walk that
    skips Sundays give every date the same answer. *)
Theorem legacy_numbering_equivalent start d :
  weekday start = 0 → date_min ≤ start ≤ d → d < date_max →
  curriculum_day_number start d = study_day_number start d {[6]}.
Proof. intros. by apply curriculum_day_number_monday. Qed.

(** Study days are consecutive: if a date is study day [k], the next study
    date the scheme finds is study day [k + 1], for a scheme with budgets of its
    own whatever its rest days are, and for one without, which is numbered by
    the legacy formula, provided it rests on Sundays as LEGACY_SCHEME does. *)
Theorem next_study_date_is_next_day (s : SchemeInfo) start d d' k :
  (is_legacy s = true → rest_weekdays s = {[6]}) →
  date_min ≤ start ≤ d →
  day_number s start d = Ok (Some k) →
  next_study_date s d = Ok d' → d' < date_max →
  day_number s start d' = Ok (Some (k + 1)).
Proof.
  intros Hleg Hs Hk Hn Hmax.
  assert (Hdd : d < d').
  { apply res_bind_Ok in Hn as (c & [-> _]%date_add_Ok & Hn). apply skip_rest_Ok in Hn. lia. }
  assert (∀ x, start ≤ x < date_max →
            day_number s start x = study_day_number start x (rest_weekdays s)) as Hnum.
  { intros x Hx. unfold day_number in *. destruct (is_legacy s); [|done]. rewrite Hleg by done.
    apply curriculum_day_number_monday; [|lia..].
    unfold curriculum_day_number in Hk. inv_ok_prop. done. }
  rewrite Hnum in Hk |- * by lia. unfold next_study_date in Hn. clear Hnum Hleg.
  apply res_bind_Ok in Hn as (c & [-> Hc]%date_add_Ok & Hn).
  apply skip_rest_Ok in Hn as (Hle & Hrest & Hgap).
  assert (weekday d ∉ rest_weekdays s) as Hd.
  { unfold study_day_number in Hk. inv_ok_prop. done. }
  rewrite study_day_number_Ok in Hk by (lia || done). injection Hk as Hk.
  rewrite study_day_number_Ok by (lia || done). do 2 f_equal. rewrite <- Hk.
  replace (d' - start + 1) with ((d - start + 1) + (d' - d)) by lia.
  unfold study_dates. rewrite seqZ_app, filter_app, length_app, Nat2Z.inj_add by lia. f_equal.
  replace (start + (d - start + 1)) with (d + 1) by lia.
  replace (d' - d) with ((d' - (d + 1)) + 1) by lia.
  rewrite seqZ_app, filter_app by lia. rewrite list_filter_none.
  - rewrite seqZ_cons by lia. change (Z.pred 1) with 0. simpl.
    replace (d + 1 + (d' - (d + 1))) with d' by lia. rewrite filter_cons_True by done. done.
  - intros x Hx%elem_of_seqZ. specialize (Hgap x ltac:(lia)). tauto.
Qed.

(** C28. A new version starts on the first free study date: with a study weekday
    left in the scheme the search always finds a date, it is not before today,
    not on a date that is already planned and not on a rest day, and no
    earlier date qualifies. *)
Theorem first_open_study_date_least today last rest :
  (size rest < 7)%nat →
  date_min ≤ today →
  Z.max today (from_option Z.succ today last) + 7 ≤ date_max →
  ∃ d, first_open_study_date today last rest = Ok d ∧
    let free x := today ≤ x ∧ (∀ l, last = Some l → l < x) ∧ weekday x ∉ rest in
    free d ∧ ∀ x, free x → d ≤ x.
Proof.
  intros Hsize Hmin Hmax. unfold first_open_study_date.
  destruct (Z.leb_spec 7 (Z.of_nat (size rest))); [lia|]. simpl.
  destruct (study_weekday_exists rest Hsize) as (w & Hw & Hwr).
  set (c := Z.max today (from_option Z.succ today last)) in *.
  assert (match last with
          | Some l => if today <=? l then date_add l 1 else Ok today
          | None => Ok today end = Ok c) as ->.
  { unfold c. destruct last as [l|]; simpl in *; [|f_equal; lia].
    destruct (Z.leb_spec today l); [|f_equal; lia].
    unfold c in Hmax; simpl in Hmax. apply date_add_Ok. unfold date_min in *. lia. }
  simpl. destruct (weekday_within_week c w Hw) as (x & Hx & Hxw).
  destruct (skip_rest_total 7 rest c x) as [d Hd]; [unfold c in *; lia|lia|lia|by rewrite Hxw|].
  exists d. split; [done|]. apply skip_rest_Ok in Hd as (Hcd & Hdw & Hgap).
  split.
  - split; [unfold c in *; lia|]. split; [|done]. intros l ->. unfold c in *; simpl in *. lia.
  - intros y (Hy1 & Hy2 & Hy3). destruct (Z.le_gt_cases d y) as [|Hlt]; [done|].
    exfalso. apply Hy3, Hgap. split; [|done]. unfold c.
    destruct last as [l|]; simpl; [|lia]. specialize (Hy2 l eq_refl). lia.
Qed.

(** The order of corrections: by due date, then by priority, then by id. *)
Lemma carryover_key_order x y :
  key_leb carryover_key x y = true →
  co_due_date x < co_due_date y ∨
  (co_due_date x = co_due_date y ∧
   (co_priority x < co_priority y ∨ (co_priority x = co_priority y ∧ co_id x ≤ co_id y))).
Proof.
  unfold key_leb, carryover_key.
  intros [?|[-> [?|[-> [?|[-> _]]%lex_leb_cons]]%lex_leb_cons]]%lex_leb_cons; lia.
Qed.

(** The carried-over correction is the best due one: nothing is selected
    only when nothing is due; otherwise the selected correction is due, and
    against any other due one it has the earlier date, or the same date and the
    smaller priority number, or both equal and the smaller identifier. *)
Theorem select_carryover_best cs d :
  match select_carryover cs d with
  | None => ∀ c, c ∈ cs → d < co_due_date c
  | Some c => c ∈ cs ∧ co_due_date c ≤ d ∧
      ∀ c', c' ∈ cs → co_due_date c' ≤ d →
        co_due_date c < co_due_date c' ∨
        (co_due_date c = co_due_date c' ∧
         (co_priority c < co_priority c' ∨
          (co_priority c = co_priority c' ∧ co_id c ≤ co_id c')))
  end.
Proof.
  unfold select_carryover. destruct (min_by _ _) as [c|] eqn:E.
  - apply min_by_Some in E as [Hin Hle]; [|eauto..]. apply list_elem_of_filter in Hin as [? ?].
    split; [done|]. split; [done|]. intros c' Hc' Hd.
    apply carryover_key_order, Hle. by apply list_elem_of_filter.
  - apply min_by_None in E. intros c Hc. apply Z.nle_gt. intros Hd.
    assert (c ∈ filter (λ c, co_due_date c ≤ d) cs) as Hf by (by apply list_elem_of_filter).
    rewrite E in Hf. by apply elem_of_nil in Hf.
Qed.

(** ** A concrete day: Monday 7 September 2026, ordinal 739866 *)

Definition ex_task (id ord minutes : Z) (blk : string) (req : bool) (prio : option Z) : TaskTemplate :=
  MkTask id "task" "v1" "objective" blk ord minutes req prio.

Definition ex_tasks : list TaskTemplate :=
  [ex_task 3 3 60 "sql" false (Some 2); ex_task 1 1 120 "tam_case" true None;
   ex_task 2 2 60 "technical_learning" true None].
Definition ex_unfinished : list UnfinishedWork :=
  [MkWork 7 w_required 45 None; MkWork 8 w_optional 10 None; MkWork 9 w_required 30 None].
Definition ex_plan : DayPlan :=
  MkDayPlan 739866 (Some 1) (of_budget weekday_day)
    [ex_task 1 1 120 "tam_case" true None; ex_task 2 2 60 "technical_learning" true None] 0 225
    [MkMissed 7 replace_adaptive (Some 3) None; MkMissed 8 drop_work None None;
     MkMissed 9 pending_replacement None None] [].

Lemma ex_plan_built : build_day 739866 (Some 1) ex_tasks [] ex_unfinished None = Ok ex_plan.
Proof. vm_compute. reflexivity. Qed.

Lemma build_day_within_budget_witness :
  225 = 180 + Z.min 0 255 + rescheduled_minutes ex_unfinished (dp_missed_work ex_plan) ∧
  0 ≤ 225 ≤ 255 ∧ (@nil InterviewCommitment = [] → 225 ≤ 225) ∧
  (∀ t, t ∈ dp_tasks ex_plan → t ∈ ex_tasks) ∧
  StronglySorted (λ x y, lex_leb (task_key x) (task_key y) = true) (dp_tasks ex_plan).
Proof.
  apply (build_day_within_budget 739866 (Some 1) ex_tasks [] ex_unfinished None ex_plan).
  - exact ex_plan_built.
  - discriminate.
Defined.

Lemma missed_work_settled_once_witness :
  Forall2 (decision_for ex_tasks) ex_unfinished (dp_missed_work ex_plan) ∧
  NoDup (replaced_ids (dp_missed_work ex_plan)) ∧
  (∀ t, t ∈ dp_tasks ex_plan → task_definition_id t ∉ replaced_ids (dp_missed_work ex_plan)).
Proof.
  exact (missed_work_settled_once 739866 (Some 1) ex_tasks [] ex_unfinished None ex_plan ex_plan_built).
Defined.

(** The same day with an interview of two hours: its block displaces the case. *)
Definition ex_interview_plan : DayPlan :=
  match build_day 739866 (Some 1) ex_tasks [MkInterview 4 120] ex_unfinished None with
  | Ok plan => plan
  | Err _ => ex_plan
  end.

Lemma required_tasks_survive_witness :
  ex_task 1 1 120 "tam_case" true None ∈ dp_tasks ex_plan ∧
  ex_task 2 2 60 "technical_learning" true None ∈ dp_tasks ex_interview_plan.
Proof.
  assert (NoDup (map task_definition_id ex_tasks)) as Hnd
    by (apply (bool_decide_unpack _); vm_compute; exact I).
  split.
  - destruct (required_tasks_survive 739866 (Some 1) ex_tasks [] ex_unfinished None ex_plan
      (ex_task 1 1 120 "tam_case" true None)) as [H|[H _]];
      [exact Hnd|exact ex_plan_built|discriminate|right; by left|done|exact H|discriminate].
  - destruct (required_tasks_survive 739866 (Some 1) ex_tasks [MkInterview 4 120] ex_unfinished None
      ex_interview_plan (ex_task 2 2 60 "technical_learning" true None)) as [H|(_ & _ & H)];
      [exact Hnd|vm_compute; reflexivity|discriminate|right; right; by left|done|exact H|].
    exfalso. apply (H (ex_task 2 2 60 "technical_learning" true None)); [left|done].
Defined.

Lemma legacy_numbering_equivalent_witness :
  curriculum_day_number 739866 739882 = study_day_number 739866 739882 {[6]}.
Proof. apply legacy_numbering_equivalent; [reflexivity|by vm_compute|by vm_compute]. Defined.

(** A scheme that rests on Wednesdays and Sundays. *)
Definition ex_scheme : SchemeInfo := MkScheme {[2; 6]} {[1 := budget_for 739866]}.

Lemma next_study_date_is_next_day_witness :
  day_number ex_scheme 739866 739869 = Ok (Some 3) ∧
  day_number LEGACY_SCHEME 739866 739873 = Ok (Some 7).
Proof.
  split.
  - apply (next_study_date_is_next_day ex_scheme 739866 739867 739869 2);
      try (vm_compute; reflexivity); by vm_compute.
  - apply (next_study_date_is_next_day LEGACY_SCHEME 739866 739871 739873 6);
      try (vm_compute; reflexivity); by vm_compute.
Defined.

Lemma first_open_study_date_least_witness :
  ∃ d, first_open_study_date 739866 (Some 739871) {[6]} = Ok d ∧
    let free x := 739866 ≤ x ∧ (∀ l, Some 739871 = Some l → l < x) ∧ weekday x ∉ ({[6]} : gset Z) in
    free d ∧ ∀ x, free x → d ≤ x.
Proof. apply first_open_study_date_least; vm_compute; try lia; intros; discriminate. Defined.
