(* ===== verification/Jobs.v ===== *)
(** * The durable job queue

    jobs/policy.py, jobs/schemas.py, jobs/service.py and jobs/repository.py,
    with the background-job part of notifications/models.py that the queue
    relies on: the row, its coherence rules and the rules of an update.

    A [Store] is the content of the two tables the repository writes.  Each
    repository call is one transaction: it returns the new store, or raises
    and leaves the store as it was.  Timestamps read back from the database
    are instants in microseconds; only the clock may be naive.  Rows that a
    concurrent transaction holds locked are a parameter of the calls that
    skip them ([with_for_update(skip_locked=True)]). *)

From stdpp Require Import prelude list strings gmap sorting pretty.
From Stdlib Require Import ZArith Lia.
From S2P Require Import Prelude PyTime PyText.

(** ** Policy *)

Definition JobPolicyError (msg : string) : exn := Exn "JobPolicyError" msg.
Definition JobNotFound (msg : string) : exn := Exn "JobNotFound" msg.
Definition JobConflict (msg : string) : exn := Exn "JobConflict" msg.
Definition JobInvalidRequest (msg : string) : exn := Exn "JobInvalidRequest" msg.

(** Raised by notifications/models.py when an attribute is set. *)
Definition NotificationContractError (msg : string) : exn := Exn "NotificationContractError" msg.

(** Raised by SQLAlchemy. *)
Definition MissingGreenlet : exn :=
  Exn "MissingGreenlet" "greenlet_spawn has not been called; can't call await_only() here. Was IO attempted in an unexpected place?".

Definition ERROR_CATEGORIES : list string :=
  ["transient_dependency"; "resource_exhausted"; "invalid_input"; "permission_required";
   "processing_failure"; "internal_error"].
Definition RETRYABLE_CATEGORIES : list string := ["transient_dependency"; "resource_exhausted"].

Record ClaimCandidate := MkCandidate { cc_id : Z; cc_priority : Z; cc_available_at : Z }.

Definition candidate_key (c : ClaimCandidate) : list Z := [- cc_priority c; cc_available_at c; cc_id c].

Definition order_claim_candidates (candidates : list ClaimCandidate) : list ClaimCandidate :=
  sort_by (key_leb candidate_key) candidates.

Inductive RetryDisposition := retry_wait | needs_attention.
#[export] Instance RetryDisposition_eq_dec : EqDecision RetryDisposition.
Proof. solve_decision. Defined.

Definition retry_disposition (attempt_count max_attempts : Z) (category : string)
    : res RetryDisposition :=
  raise_if (negb (str_in category ERROR_CATEGORIES))
    (JobPolicyError "job failure category is invalid") ;;;
  raise_if (negb ((1 <=? attempt_count) && (attempt_count <=? max_attempts) && (max_attempts <=? 100)))
    (JobPolicyError "job attempt bounds are invalid") ;;;
  if str_in category RETRYABLE_CATEGORIES && (attempt_count <? max_attempts) then Ok retry_wait
  else Ok needs_attention.

(** ** Rows and commands *)

Inductive JobState := queued | running | succeeded | failed | canceled.
#[export] Instance JobState_eq_dec : EqDecision JobState.
Proof. solve_decision. Defined.

Definition JOB_TRANSITIONS (s : JobState) : list JobState :=
  match s with
  | queued => [running; canceled]
  | running => [queued; succeeded; failed; canceled]
  | succeeded | failed | canceled => []
  end.

Record ReferencePayload := MkPayload { subject_id : Z; related_id : option Z }.
#[export] Instance ReferencePayload_eq_dec : EqDecision ReferencePayload.
Proof. solve_decision. Defined.

Record ErrorDetails := MkDetails {
  ed_attempt : Z; ed_retry_after_seconds : option Z; ed_http_status : option Z
}.
#[export] Instance ErrorDetails_eq_dec : EqDecision ErrorDetails.
Proof. solve_decision. Defined.

Record BackgroundJob := MkJob {
  job_id : Z;
  job_owner_id : Z;
  job_kind : string;
  job_payload : ReferencePayload;
  job_priority : Z;
  job_state : JobState;
  job_idempotency_key : string;
  job_available_at : Z;
  job_attempt_count : Z;
  job_max_attempts : Z;
  job_lease_owner : option string;
  job_lease_expires_at : option Z;
  job_last_error_category : option string;
  job_last_error_details : option ErrorDetails;
  job_created_at : Z;
  job_updated_at : Z;
  job_started_at : option Z;
  job_completed_at : option Z;
}.
#[export] Instance BackgroundJob_eq_dec : EqDecision BackgroundJob.
Proof. solve_decision. Defined.

(** The response repeats the row. *)
Definition JobResponse : Type := BackgroundJob.
Definition response (job : BackgroundJob) : JobResponse := job.

Record OutboxEvent := MkEvent {
  oe_owner_id : Z;
  oe_aggregate_id : Z;
  oe_event_type : string;
  oe_occurred_at : Z;
  oe_idempotency_key : string;
}.

Record EnqueueJobCommand := MkEnqueue {
  eq_kind : string; eq_payload : ReferencePayload; eq_priority : Z; eq_available_at : Z;
  eq_max_attempts : Z;
}.
Record ClaimJobCommand := MkClaim { cl_worker_id : string; cl_kinds : list string; cl_lease_seconds : Z }.
Record HeartbeatJobCommand := MkHeartbeat { hb_worker_id : string; hb_lease_seconds : Z }.
Record JobFailure := MkFailure {
  jf_category : string; jf_retry_after_seconds : option Z; jf_http_status : option Z
}.
Record RetryJobCommand := MkRetry { rt_worker_id : string; rt_failure : JobFailure }.
Record CompleteJobCommand := MkComplete { cp_worker_id : string }.

(** *** The checks the schemas make on construction *)

Definition in_range (lo hi x : Z) : bool := (lo <=? x) && (x <=? hi).
Definition opt_in_range (lo hi : Z) (x : option Z) : bool :=
  match x with Some x => in_range lo hi x | None => true end.

(** [^[A-Za-z0-9][A-Za-z0-9._:-]{0,127}$], matched in full. *)
Definition SAFE_KEY (s : string) : bool :=
  match s with
  | EmptyString => false
  | String c s' =>
      (is_lower c || is_upper c || is_digit c) && (Z.of_nat (String.length s') <=? 127) &&
      all_chars (λ c, is_lower c || is_upper c || is_digit c || char_in c [46; 95; 58; 45]%N) s'
  end.

(** [^[a-z][a-z0-9_]{0,63}$] *)
Definition JOB_KIND (s : string) : bool :=
  match s with
  | EmptyString => false
  | String c s' =>
      is_lower c && (Z.of_nat (String.length s') <=? 63) &&
      all_chars (λ c, is_lower c || is_digit c || char_in c [95]%N) s'
  end.

Definition valid_payload (p : ReferencePayload) : bool :=
  (0 <? subject_id p) && match related_id p with Some r => 0 <? r | None => true end.
Definition valid_enqueue (c : EnqueueJobCommand) : bool :=
  JOB_KIND (eq_kind c) && valid_payload (eq_payload c) && in_range 0 100 (eq_priority c) &&
  in_range 1 100 (eq_max_attempts c).
Definition valid_claim (c : ClaimJobCommand) : bool :=
  SAFE_KEY (cl_worker_id c) && forallb JOB_KIND (cl_kinds c) &&
  in_range 1 32 (Z.of_nat (length (cl_kinds c))) && in_range 5 3600 (cl_lease_seconds c) &&
  bool_decide (NoDup (cl_kinds c)).
Definition valid_heartbeat (c : HeartbeatJobCommand) : bool :=
  SAFE_KEY (hb_worker_id c) && in_range 5 3600 (hb_lease_seconds c).
Definition valid_failure (f : JobFailure) : bool :=
  str_in (jf_category f) ERROR_CATEGORIES && opt_in_range 0 86400 (jf_retry_after_seconds f) &&
  opt_in_range 100 599 (jf_http_status f).
Definition valid_retry (c : RetryJobCommand) : bool :=
  SAFE_KEY (rt_worker_id c) && valid_failure (rt_failure c).
Definition valid_complete (c : CompleteJobCommand) : bool := SAFE_KEY (cp_worker_id c).

(** ** The rules a stored row obeys *)

Definition JobWorkflowError (msg : string) : exn := Exn "JobWorkflowError" msg.

Definition validate_error_details_v1 (d : ErrorDetails) : bool :=
  in_range 0 100 (ed_attempt d) && opt_in_range 0 86400 (ed_retry_after_seconds d) &&
  opt_in_range 100 599 (ed_http_status d).

Definition positive_id (x : Z) : bool := (0 <? x) && (x <=? 2 ^ 63 - 1).

(** Typed payloads leave only the bounds of the identifiers to check. *)
Definition validate_reference_payload_v1 (p : ReferencePayload) : bool :=
  positive_id (subject_id p) && match related_id p with Some r => positive_id r | None => true end.

(** The listener of the payload attribute, which sees the value a new row is given. *)
Definition validate_payload_attribute (p : ReferencePayload) : res ReferencePayload :=
  raise_if (negb (validate_reference_payload_v1 p))
    (NotificationContractError "structured payload is invalid") ;;;
  Ok p.

Notation isN x := (match x with None => true | Some _ => false end).

Definition validate_background_job (t : BackgroundJob) : res unit :=
  raise_if (negb (validate_reference_payload_v1 (job_payload t)))
    (JobWorkflowError "invalid background job payload") ;;;
  raise_if (negb (in_range 0 (job_max_attempts t) (job_attempt_count t))
            || negb (in_range 1 100 (job_max_attempts t)))
    (JobWorkflowError "background job attempt limits are incoherent") ;;;
  raise_if (negb (Bool.eqb (isN (job_last_error_category t)) (isN (job_last_error_details t))))
    (JobWorkflowError "background job error fields are incoherent") ;;;
  raise_if
    (match job_last_error_category t, job_last_error_details t with
     | Some c, Some d => negb (str_in c ERROR_CATEGORIES) || negb (validate_error_details_v1 d)
     | Some _, None => true
     | None, _ => false
     end)
    (JobWorkflowError "background job error details are invalid") ;;;
  raise_if (job_updated_at t <? job_created_at t)
    (JobWorkflowError "background job timestamps are not monotonic") ;;;
  raise_if ((job_attempt_count t =? 0) && negb (isN (job_started_at t)))
    (JobWorkflowError "background job start is incoherent with attempts") ;;;
  raise_if ((0 <? job_attempt_count t) && isN (job_started_at t))
    (JobWorkflowError "background job start is required after a claim") ;;;
  raise_if (match job_started_at t with Some s => s <? job_created_at t | None => false end)
    (JobWorkflowError "background job start precedes creation") ;;;
  raise_if
    (match job_completed_at t, job_started_at t with
     | Some _, None => negb (bool_decide (job_state t = canceled))
     | Some c, Some s => c <? s
     | None, _ => false
     end)
    (JobWorkflowError "background job completion is incoherent") ;;;
  match job_state t with
  | queued =>
      raise_if (negb (isN (job_lease_owner t)) || negb (isN (job_lease_expires_at t)))
        (JobWorkflowError "queued background job cannot retain a lease") ;;;
      raise_if (negb (isN (job_completed_at t)))
        (JobWorkflowError "queued background job cannot be completed")
  | running =>
      raise_if
        ((job_attempt_count t =? 0) || isN (job_lease_owner t)
         || match job_lease_expires_at t with Some e => e <=? job_updated_at t | None => true end
         || negb (isN (job_completed_at t)))
        (JobWorkflowError "running background job lease is incoherent") ;;;
      raise_if (negb (isN (job_last_error_category t)))
        (JobWorkflowError "running background job must clear the prior error")
  | succeeded | failed =>
      raise_if
        ((job_attempt_count t =? 0) || negb (isN (job_lease_owner t))
         || negb (isN (job_lease_expires_at t)) || isN (job_completed_at t))
        (JobWorkflowError "terminal background job lifecycle is incoherent") ;;;
      raise_if (bool_decide (job_state t = succeeded) && negb (isN (job_last_error_category t)))
        (JobWorkflowError "successful background job cannot retain an error") ;;;
      raise_if (bool_decide (job_state t = failed) && isN (job_last_error_category t))
        (JobWorkflowError "failed background job requires a typed error")
  | canceled =>
      raise_if
        (negb (isN (job_lease_owner t)) || negb (isN (job_lease_expires_at t))
         || isN (job_completed_at t) || negb (isN (job_last_error_category t)))
        (JobWorkflowError "canceled background job lifecycle is incoherent")
  end.

Definition same_provenance (t old : BackgroundJob) : bool :=
  (job_owner_id t =? job_owner_id old) && String.eqb (job_kind t) (job_kind old)
  && bool_decide (job_payload t = job_payload old)
  && String.eqb (job_idempotency_key t) (job_idempotency_key old)
  && (job_max_attempts t =? job_max_attempts old) && (job_created_at t =? job_created_at old).

Definition kept_once_set (old new : option Z) : bool :=
  isN old || bool_decide (new = old).

(** Every column but [lease_expires_at] and [updated_at] is unchanged. *)
Definition heartbeat_changes_only (t old : BackgroundJob) : bool :=
  bool_decide (t = MkJob (job_id old) (job_owner_id old) (job_kind old) (job_payload old)
    (job_priority old) (job_state old) (job_idempotency_key old) (job_available_at old)
    (job_attempt_count old) (job_max_attempts old) (job_lease_owner old) (job_lease_expires_at t)
    (job_last_error_category old) (job_last_error_details old) (job_created_at old)
    (job_updated_at t) (job_started_at old) (job_completed_at old)).

(** [old] is the persisted row; [lease_expired] is the database's own reading
    of its lease. *)
Definition validate_background_job_update (t : BackgroundJob) (old : option BackgroundJob)
    (lease_expired : bool) : res unit :=
  validate_background_job t ;;;
  match old with
  | None => Err (JobWorkflowError "persisted background job does not exist")
  | Some old =>
      raise_if (bool_decide (job_state old ∈ [succeeded; failed; canceled]))
        (JobWorkflowError "terminal background job is immutable") ;;;
      raise_if (negb (same_provenance t old))
        (JobWorkflowError "background job provenance is immutable") ;;;
      raise_if (job_updated_at t <? job_updated_at old)
        (JobWorkflowError "background job updated_at must be monotonic") ;;;
      raise_if (negb (kept_once_set (job_started_at old) (job_started_at t)
                      && kept_once_set (job_completed_at old) (job_completed_at t)))
        (JobWorkflowError "background job lifecycle timestamps are write-once") ;;;
      raise_if (negb (bool_decide (job_state t = job_state old))
                && negb (bool_decide (job_state t ∈ JOB_TRANSITIONS (job_state old))))
        (JobWorkflowError "invalid background job state transition") ;;;
      (if bool_decide (job_state old = queued) && bool_decide (job_state t = running) then
         raise_if (negb (job_attempt_count t =? job_attempt_count old + 1))
           (JobWorkflowError "background job claim must increment attempt count exactly once")
       else
         raise_if (negb (job_attempt_count t =? job_attempt_count old))
           (JobWorkflowError "background job attempt count changes only on claim")) ;;;
      (if bool_decide (job_state old = running) && bool_decide (job_state t = running) then
         raise_if (negb (heartbeat_changes_only t old))
           (JobWorkflowError "running heartbeat may only extend its lease") ;;;
         raise_if
           (match job_lease_expires_at old, job_lease_expires_at t with
            | Some e, Some e' => e' <? e
            | _, _ => true
            end)
           (JobWorkflowError "running heartbeat cannot shorten its lease")
       else Ok tt) ;;;
      (if bool_decide (job_state old = running) && bool_decide (job_state t = queued) then
         let voluntary_retry :=
           match job_last_error_category t with
           | Some c => str_in c RETRYABLE_CATEGORIES
           | None => false
           end && negb (isN (job_last_error_details t)) && (job_updated_at t <=? job_available_at t) in
         raise_if (negb lease_expired && negb voluntary_retry)
           (JobWorkflowError "background job lease has not expired") ;;;
         raise_if (negb (isN (job_lease_owner t)) || negb (isN (job_lease_expires_at t)))
           (JobWorkflowError "reclaimed background job must clear its lease")
       else Ok tt)
  end.

(** ** The repository *)

Record Store := MkStore {
  st_owners : gset Z;
  st_jobs : gmap Z BackgroundJob;
  st_next_id : Z;                 (** what the identity column hands out next *)
  st_outbox : list OutboxEvent;   (** in insertion order *)
}.

Definition update_job (st : Store) (job : BackgroundJob) : Store :=
  MkStore (st_owners st) (<[job_id job := job]> (st_jobs st)) (st_next_id st) (st_outbox st).

(** [_now] *)
Definition repository_now (clock : datetime) : res Z :=
  raise_if (negb (aware clock)) (JobInvalidRequest "repository clock must be timezone-aware") ;;;
  Ok (instant clock).

Definition event_key (id : Z) (event_type : string) (attempt : Z) : string :=
  "job:" +:+ pretty id +:+ ":" +:+ event_type +:+ ":" +:+ pretty attempt.

(** [_status_event] *)
Definition status_event (st : Store) (job : BackgroundJob) (event_type : string) (now : Z) : Store :=
  MkStore (st_owners st) (st_jobs st) (st_next_id st)
    (st_outbox st ++
       [MkEvent (job_owner_id job) (job_id job) event_type now
          (event_key (job_id job) event_type (job_attempt_count job))]).

(** The columns an [UPDATE] of the repository may set; the others are copied. *)
Definition with_lifecycle (job : BackgroundJob) (state : JobState) (available_at attempt_count : Z)
    (lease_owner : option string) (lease_expires_at : option Z)
    (error_category : option string) (error_details : option ErrorDetails)
    (updated_at : Z) (started_at completed_at : option Z) : BackgroundJob :=
  MkJob (job_id job) (job_owner_id job) (job_kind job) (job_payload job) (job_priority job) state
    (job_idempotency_key job) available_at attempt_count (job_max_attempts job) lease_owner
    lease_expires_at error_category error_details (job_created_at job) updated_at started_at
    completed_at.

Definition same_enqueue (job : BackgroundJob) (command : EnqueueJobCommand) : bool :=
  String.eqb (job_kind job) (eq_kind command) && bool_decide (job_payload job = eq_payload command)
  && (job_priority job =? eq_priority command) && (job_available_at job =? eq_available_at command)
  && (job_max_attempts job =? eq_max_attempts command).

Definition all_jobs (st : Store) : list BackgroundJob := (map_to_list (st_jobs st)).*2.

Record EnqueueResult := MkEnqueueResult { er_job : JobResponse; er_replayed : bool }.
Record RetryResult := MkRetryResult { rr_job : JobResponse; rr_disposition : RetryDisposition }.
Record ReclaimResult := MkReclaimResult {
  rc_retried_job_ids : list Z; rc_needs_attention_job_ids : list Z
}.

Definition enqueue (st : Store) (clock : datetime) (owner_id : Z) (command : EnqueueJobCommand)
    (idempotency_key : string) : res (Store * EnqueueResult) :=
  let* now := repository_now clock in
  raise_if (bool_decide (owner_id ∉ st_owners st)) (JobNotFound "job owner was not found") ;;;
  match filter (λ j, job_owner_id j = owner_id ∧ job_idempotency_key j = idempotency_key)
          (all_jobs st) with
  | existing :: _ =>
      raise_if (negb (same_enqueue existing command))
        (JobConflict "Idempotency-Key was reused for another job") ;;;
      Ok (st, MkEnqueueResult (response existing) true)
  | [] =>
      let* payload := validate_payload_attribute (eq_payload command) in
      let job := MkJob (st_next_id st) owner_id (eq_kind command) payload
        (eq_priority command) queued idempotency_key (eq_available_at command) 0
        (eq_max_attempts command) None None None None now now None None in
      validate_background_job job ;;;   (* the [before_insert] listener *)
      let st := MkStore (st_owners st) (<[job_id job := job]> (st_jobs st)) (st_next_id st + 1)
                  (st_outbox st) in
      Ok (status_event st job "background_job.queued" now, MkEnqueueResult (response job) false)
  end.

Definition claim_key (j : BackgroundJob) : list Z := [- job_priority j; job_available_at j; job_id j].

(** The rows the claiming query sees: [locked] ones are skipped. *)
Definition claimable (now : Z) (kinds : list string) (locked : gset Z) (j : BackgroundJob) : Prop :=
  job_state j = queued ∧ job_available_at j ≤ now ∧ job_attempt_count j < job_max_attempts j ∧
  job_kind j ∈ kinds ∧ job_id j ∉ locked.
#[export] Instance claimable_dec now kinds locked j : Decision (claimable now kinds locked j).
Proof. unfold claimable. apply _. Defined.

Definition claim (st : Store) (clock : datetime) (locked : gset Z) (command : ClaimJobCommand)
    : res (Store * option JobResponse) :=
  let* now := repository_now clock in
  match min_by (key_leb claim_key) (filter (claimable now (cl_kinds command) locked) (all_jobs st)) with
  | None => Ok (st, None)
  | Some job =>
      let started_at := match job_started_at job with Some s => s | None => now end in
      let current := with_lifecycle job running (job_available_at job) (job_attempt_count job + 1)
        (Some (cl_worker_id command)) (Some (now + seconds (cl_lease_seconds command)))
        None None now (Some started_at) (job_completed_at job) in
      Ok (status_event (update_job st current) current "background_job.running" now,
          Some (response current))
  end.

(** [_running_job] *)
Definition running_job (st : Store) (id : Z) (worker_id : string) (now : Z)
    : res (BackgroundJob * Z) :=
  match st_jobs st !! id with
  | None => Err (JobNotFound "job was not found")
  | Some job =>
      raise_if (negb (bool_decide (job_state job = running))
                || negb (bool_decide (job_lease_owner job = Some worker_id)))
        (JobConflict "worker does not own the running job lease") ;;;
      match job_lease_expires_at job with
      | Some expires =>
          raise_if (expires <=? now) (JobConflict "job lease has expired") ;;;
          Ok (job, expires)
      | None => Err (JobConflict "job lease has expired")
      end
  end.

Definition heartbeat (st : Store) (clock : datetime) (id : Z) (command : HeartbeatJobCommand)
    : res (Store * JobResponse) :=
  let* now := repository_now clock in
  let* found := running_job st id (hb_worker_id command) now in
  let '(job, lease_expires_at) := found in
  let lease_base := Z.max now lease_expires_at in
  let current := with_lifecycle job (job_state job) (job_available_at job) (job_attempt_count job)
    (job_lease_owner job) (Some (lease_base + seconds (hb_lease_seconds command)))
    (job_last_error_category job) (job_last_error_details job) now (job_started_at job)
    (job_completed_at job) in
  Ok (update_job st current, response current).

Definition complete (st : Store) (clock : datetime) (id : Z) (command : CompleteJobCommand)
    : res (Store * JobResponse) :=
  let* now := repository_now clock in
  let* found := running_job st id (cp_worker_id command) now in
  let '(job, _) := found in
  let current := with_lifecycle job succeeded (job_available_at job) (job_attempt_count job)
    None None (job_last_error_category job) (job_last_error_details job) now (job_started_at job)
    (Some now) in
  Ok (status_event (update_job st current) current "background_job.succeeded" now, response current).

(** [_error_details] *)
Definition error_details (attempt : Z) (command : RetryJobCommand) : ErrorDetails :=
  MkDetails attempt (jf_retry_after_seconds (rt_failure command))
    (jf_http_status (rt_failure command)).

Definition retry_delay (job : BackgroundJob) (failure : JobFailure) : Z :=
  match jf_retry_after_seconds failure with
  | Some delay => delay
  | None => Z.min 300 (5 * 2 ^ (job_attempt_count job - 1))
  end.

Definition retry (st : Store) (clock : datetime) (id : Z) (command : RetryJobCommand)
    : res (Store * RetryResult) :=
  let* now := repository_now clock in
  let* found := running_job st id (rt_worker_id command) now in
  let '(job, _) := found in
  let failure := rt_failure command in
  let* disposition := retry_disposition (job_attempt_count job) (job_max_attempts job)
                        (jf_category failure) in
  let details := error_details (job_attempt_count job) command in
  let '(current, event_type) :=
    match disposition with
    | retry_wait =>
        (with_lifecycle job queued (now + seconds (retry_delay job failure)) (job_attempt_count job)
           None None (Some (jf_category failure)) (Some details) now (job_started_at job)
           (job_completed_at job),
         "background_job.retry_wait"%string)
    | needs_attention =>
        (with_lifecycle job failed (job_available_at job) (job_attempt_count job)
           None None (Some (jf_category failure)) (Some details) now (job_started_at job) (Some now),
         "background_job.needs_attention"%string)
    end in
  Ok (status_event (update_job st current) current event_type now,
      MkRetryResult (response current) disposition).

Definition cancel (st : Store) (clock : datetime) (owner_id id : Z) : res (Store * JobResponse) :=
  let* now := repository_now clock in
  match st_jobs st !! id with
  | Some job =>
      if negb (job_owner_id job =? owner_id) then Err (JobNotFound "job was not found")
      else if bool_decide (job_state job = canceled) then Ok (st, response job)
      else
        raise_if (bool_decide (job_state job ∈ [succeeded; failed]))
          (JobConflict "terminal job cannot be canceled") ;;;
        let current := with_lifecycle job canceled (job_available_at job) (job_attempt_count job)
          None None None None now (job_started_at job) (Some now) in
        Ok (status_event (update_job st current) current "background_job.canceled" now,
            response current)
  | None => Err (JobNotFound "job was not found")
  end.

Definition expired (now : Z) (locked : gset Z) (j : BackgroundJob) : Prop :=
  job_state j = running ∧ (∃ e, job_lease_expires_at j = Some e ∧ e ≤ now) ∧ job_id j ∉ locked.
#[export] Instance expired_dec now locked j : Decision (expired now locked j).
Proof.
  unfold expired. destruct (job_lease_expires_at j) as [e|].
  - destruct (decide (job_state j = running ∧ e ≤ now ∧ job_id j ∉ locked)); [left|right]; naive_solver.
  - right. naive_solver.
Defined.

Definition expiry_key (j : BackgroundJob) : list Z := [default 0 (job_lease_expires_at j); job_id j].

(** The body of the reclaiming loop: the row after the update, and its event. *)
Definition reclaim_row (now : Z) (job : BackgroundJob) : BackgroundJob * string :=
  let details := MkDetails (job_attempt_count job) None None in
  if job_attempt_count job <? job_max_attempts job then
    (with_lifecycle job queued now (job_attempt_count job) None None
       (Some "transient_dependency"%string) (Some details) now (job_started_at job)
       (job_completed_at job), "background_job.retry_wait"%string)
  else
    (with_lifecycle job failed (job_available_at job) (job_attempt_count job) None None
       (Some "processing_failure"%string) (Some details) now (job_started_at job) (Some now),
     "background_job.needs_attention"%string).

(** An instance of the batch, as an [AsyncSession] holds it: reading an attribute
    of an expired one would need implicit I/O, which SQLAlchemy refuses outside
    an [await].  [loaded] are the ids of the instances that are not expired. *)
Definition read_instance (loaded : gset Z) (job : BackgroundJob) : res BackgroundJob :=
  raise_if (bool_decide (job_id job ∉ loaded)) MissingGreenlet ;;; Ok job.

(** [_reload] expires every instance of the session and loads one again. *)
Definition reload (id : Z) : gset Z := {[id]}.

Record ReclaimLoop := MkReclaimLoop {
  rl_store : Store; rl_result : ReclaimResult; rl_loaded : gset Z
}.

Definition reclaim_one (now : Z) (loop : ReclaimLoop) (instance : BackgroundJob) : res ReclaimLoop :=
  let 'MkReclaimLoop st r loaded := loop in
  let* job := read_instance loaded instance in
  let '(current, event_type) := reclaim_row now job in
  let r :=
    if job_attempt_count job <? job_max_attempts job
    then MkReclaimResult (rc_retried_job_ids r ++ [job_id job]) (rc_needs_attention_job_ids r)
    else MkReclaimResult (rc_retried_job_ids r) (rc_needs_attention_job_ids r ++ [job_id job]) in
  Ok (MkReclaimLoop (status_event (update_job st current) current event_type now) r
        (reload (job_id job))).

(** The rows the reclaiming query returns. *)
Definition expired_batch (st : Store) (now : Z) (locked : gset Z) (limit : Z) : list BackgroundJob :=
  take (Z.to_nat limit) (sort_by (key_leb expiry_key) (filter (expired now locked) (all_jobs st))).

Definition reclaim_expired (st : Store) (clock : datetime) (locked : gset Z) (limit : Z)
    : res (Store * ReclaimResult) :=
  let* now := repository_now clock in
  let jobs := expired_batch st now locked limit in
  let* loop := res_fold (reclaim_one now)
    (MkReclaimLoop st (MkReclaimResult [] []) (list_to_set (map job_id jobs))) jobs in
  Ok (rl_store loop, rl_result loop).

(** ** The service: bounded commands in front of the repository *)

Module JobService.

Definition positive_job_id (id : Z) : res unit :=
  raise_if (id <=? 0) (JobInvalidRequest "job ID is invalid").

Definition service_enqueue (st : Store) (clock : datetime) (owner_id : Z)
    (command : EnqueueJobCommand) (idempotency_key : string) : res (Store * EnqueueResult) :=
  raise_if (owner_id <=? 0) (JobInvalidRequest "owner is invalid") ;;;
  raise_if (negb (SAFE_KEY idempotency_key)) (JobInvalidRequest "Idempotency-Key is invalid") ;;;
  enqueue st clock owner_id command idempotency_key.

Definition service_claim (st : Store) (clock : datetime) (locked : gset Z) (command : ClaimJobCommand)
    : res (Store * option JobResponse) := claim st clock locked command.

Definition service_heartbeat (st : Store) (clock : datetime) (id : Z) (command : HeartbeatJobCommand)
    : res (Store * JobResponse) :=
  positive_job_id id ;;; heartbeat st clock id command.

Definition service_complete (st : Store) (clock : datetime) (id : Z) (command : CompleteJobCommand)
    : res (Store * JobResponse) :=
  positive_job_id id ;;; complete st clock id command.

Definition service_retry (st : Store) (clock : datetime) (id : Z) (command : RetryJobCommand)
    : res (Store * RetryResult) :=
  positive_job_id id ;;; retry st clock id command.

Definition service_cancel (st : Store) (clock : datetime) (owner_id id : Z)
    : res (Store * JobResponse) :=
  raise_if (owner_id <=? 0) (JobInvalidRequest "owner is invalid") ;;;
  positive_job_id id ;;; cancel st clock owner_id id.

Definition service_reclaim_expired (st : Store) (clock : datetime) (locked : gset Z) (limit : Z)
    : res (Store * ReclaimResult) :=
  raise_if (negb (in_range 1 100 limit)) (JobInvalidRequest "reclaim limit is invalid") ;;;
  reclaim_expired st clock locked limit.

End JobService.
