(* ===== verification/JobsContract.v ===== *)
(** * What the job queue guarantees

    The contract of the queue of [Jobs]: the moves a row can make, each with
    the event that announces it, as a step relation; the invariant of a store;
    and the theorems: every call of the service is a sequence of moves, every
    row it writes passes the checks of the model layer, leases are exclusive,
    attempts are bounded, enqueueing is idempotent. *)

From stdpp Require Import prelude list strings gmap sorting pretty relations.
From Stdlib Require Import ZArith Lia.
From S2P Require Import Prelude PyTime PyText Jobs.

(** ** Event keys are injective *)

Definition no_colon (s : string) : bool :=
  all_chars (λ c, negb (N.eqb (Ascii.N_of_ascii c) 58)) s.

Lemma pretty_N_no_colon (n : N) : no_colon (pretty n) = true.
Proof.
  assert (∀ s, no_colon s = true → no_colon (pretty_N_go n s) = true) as H.
  { induction (N.lt_wf_0 n) as [n _ IH]. intros s Hs.
    destruct (decide (n = 0%N)) as [->|Hn]; [by rewrite pretty_N_go_0|].
    rewrite pretty_N_go_step by lia. apply IH; [apply N.div_lt; lia|].
    unfold no_colon in *. simpl. rewrite Hs, andb_true_r.
    pose proof (N.mod_lt n 10 ltac:(lia)).
    destruct (n `mod` 10)%N as [|p]; [done|].
    do 10 (destruct p as [p|p|]; try done; try lia). }
  unfold pretty, pretty_N. case_decide; [done|]. by apply H.
Qed.

Lemma pretty_Z_no_colon (z : Z) : no_colon (pretty z) = true.
Proof.
  destruct z as [|p|p]; [done|apply pretty_N_no_colon|].
  change (pretty (Zneg p)) with ("-" +:+ pretty (Npos p)).
  unfold no_colon. rewrite all_chars_app. by apply pretty_N_no_colon.
Qed.

(** Fields without colons can be read back from the front of a key. *)
Lemma colon_split a b r r' :
  no_colon a = true → no_colon b = true →
  a +:+ ":" +:+ r = b +:+ ":" +:+ r' → a = b ∧ r = r'.
Proof.
  revert b; induction a as [|x a IH]; intros [|y b] Ha Hb H; simpl in *.
  - by injection H.
  - injection H as <- H. done.
  - injection H as -> H. done.
  - injection H as -> H. apply andb_true_iff in Ha as [_ Ha], Hb as [_ Hb].
    destruct (IH b Ha Hb H) as [-> ->]. done.
Qed.

Lemma event_key_inj i t k i' t' k' :
  no_colon t = true → no_colon t' = true →
  event_key i t k = event_key i' t' k' → i = i' ∧ t = t' ∧ k = k'.
Proof.
  unfold event_key. intros Ht Ht' H. apply (inj (String.app "job:")) in H.
  apply colon_split in H as [Hi H]; [|apply pretty_Z_no_colon..].
  apply colon_split in H as [-> Hk]; [|done..].
  split; [by apply (inj pretty)|]. split; [done|]. by apply (inj pretty).
Qed.

(** ** The contract: what may happen to a row

    The abstract queue knows eight moves of a row, each with the event that
    announces it.  Every repository call is a sequence of such moves. *)
Inductive row_step (now : Z) (j : BackgroundJob) : BackgroundJob → option string → Prop :=
  | rs_claim worker lease :
      job_state j = queued → job_available_at j ≤ now → job_attempt_count j < job_max_attempts j →
      0 < lease →
      row_step now j
        (with_lifecycle j running (job_available_at j) (job_attempt_count j + 1) (Some worker)
           (Some (now + lease)) None None now (Some (default now (job_started_at j)))
           (job_completed_at j))
        (Some "background_job.running")
  | rs_heartbeat expires lease :
      job_state j = running → job_lease_expires_at j = Some expires → now < expires → 0 < lease →
      row_step now j
        (with_lifecycle j running (job_available_at j) (job_attempt_count j) (job_lease_owner j)
           (Some (Z.max now expires + lease)) (job_last_error_category j) (job_last_error_details j)
           now (job_started_at j) (job_completed_at j))
        None
  | rs_complete :
      job_state j = running →
      row_step now j
        (with_lifecycle j succeeded (job_available_at j) (job_attempt_count j) None None
           (job_last_error_category j) (job_last_error_details j) now (job_started_at j) (Some now))
        (Some "background_job.succeeded")
  | rs_requeue available category details :
      job_state j = running → job_attempt_count j < job_max_attempts j →
      str_in category RETRYABLE_CATEGORIES = true → validate_error_details_v1 details = true →
      now ≤ available →
      row_step now j
        (with_lifecycle j queued available (job_attempt_count j) None None (Some category)
           (Some details) now (job_started_at j) (job_completed_at j))
        (Some "background_job.retry_wait")
  | rs_fail category details :
      job_state j = running → str_in category ERROR_CATEGORIES = true →
      validate_error_details_v1 details = true →
      row_step now j
        (with_lifecycle j failed (job_available_at j) (job_attempt_count j) None None
           (Some category) (Some details) now (job_started_at j) (Some now))
        (Some "background_job.needs_attention")
  | rs_cancel :
      job_state j ∈ [queued; running] →
      row_step now j
        (with_lifecycle j canceled (job_available_at j) (job_attempt_count j) None None None None
           now (job_started_at j) (Some now))
        (Some "background_job.canceled").

Definition new_job (id now owner : Z) (c : EnqueueJobCommand) (key : string) : BackgroundJob :=
  MkJob id owner (eq_kind c) (eq_payload c) (eq_priority c) queued key (eq_available_at c) 0
    (eq_max_attempts c) None None None None now now None None.

Definition announce (st : Store) (j : BackgroundJob) (now : Z) (event : option string) : Store :=
  match event with Some ty => status_event st j ty now | None => st end.

Inductive store_step (now : Z) (st : Store) : Store → Prop :=
  | ss_insert owner command key :
      validate_background_job (new_job (st_next_id st) now owner command key) = Ok tt →
      (∀ id j, st_jobs st !! id = Some j →
         ¬ (job_owner_id j = owner ∧ job_idempotency_key j = key)) →
      store_step now st
        (let job := new_job (st_next_id st) now owner command key in
         status_event (MkStore (st_owners st) (<[st_next_id st := job]> (st_jobs st))
                         (st_next_id st + 1) (st_outbox st))
           job "background_job.queued" now)
  | ss_row id j j' event :
      st_jobs st !! id = Some j → row_step now j j' event →
      store_step now st (announce (update_job st j') j' now event).

Definition store_steps (now : Z) : Store → Store → Prop := rtc (store_step now).
Definition at_most_one_step (now : Z) (st st' : Store) : Prop := store_step now st st' ∨ st' = st.

(** *** The invariant of a store at a time *)

Definition row_ok (now : Z) (j : BackgroundJob) : Prop :=
  validate_background_job j = Ok tt ∧ job_updated_at j ≤ now ∧
  (∀ s, job_started_at j = Some s → s ≤ now).

(** An announced event belongs to a row that has lived through it. *)
Definition event_ok (jobs : gmap Z BackgroundJob) (e : OutboxEvent) : Prop :=
  ∃ j k, jobs !! oe_aggregate_id e = Some j ∧
    oe_idempotency_key e = event_key (oe_aggregate_id e) (oe_event_type e) k ∧
    no_colon (oe_event_type e) = true ∧ 0 ≤ k ≤ job_attempt_count j ∧
    (job_state j = running → k = job_attempt_count j → oe_event_type e = "background_job.running"%string) ∧
    (oe_event_type e = "background_job.canceled"%string → job_state j = canceled).

Record store_ok (now : Z) (st : Store) : Prop := {
  so_rows : ∀ id j, st_jobs st !! id = Some j → job_id j = id ∧ id < st_next_id st ∧ row_ok now j;
  so_idempotent : ∀ i1 i2 j1 j2, st_jobs st !! i1 = Some j1 → st_jobs st !! i2 = Some j2 →
      job_owner_id j1 = job_owner_id j2 → job_idempotency_key j1 = job_idempotency_key j2 → i1 = i2;
  so_events : ∀ e, e ∈ st_outbox st → event_ok (st_jobs st) e;
  so_keys : NoDup (map oe_idempotency_key (st_outbox st));
}.

Lemma row_ok_mono now now' j : now ≤ now' → row_ok now j → row_ok now' j.
Proof. intros ? (? & ? & H). split; [done|]. split; [lia|]. intros s Hs. specialize (H s Hs). lia. Qed.

(** The conditions of a coherent row, as propositions. *)
Record coherent (t : BackgroundJob) : Prop := {
  co_payload : validate_reference_payload_v1 (job_payload t) = true;
  co_attempts : 0 ≤ job_attempt_count t ≤ job_max_attempts t;
  co_max : 1 ≤ job_max_attempts t ≤ 100;
  co_error : match job_last_error_category t, job_last_error_details t with
             | None, None => True
             | Some c, Some d => str_in c ERROR_CATEGORIES = true ∧ validate_error_details_v1 d = true
             | _, _ => False
             end;
  co_updated : job_created_at t ≤ job_updated_at t;
  co_started : job_attempt_count t = 0 ↔ job_started_at t = None;
  co_started_after : ∀ s, job_started_at t = Some s → job_created_at t ≤ s;
  co_completed_after : ∀ s c, job_started_at t = Some s → job_completed_at t = Some c → s ≤ c;
  co_state :
    match job_state t with
    | queued => job_lease_owner t = None ∧ job_lease_expires_at t = None ∧ job_completed_at t = None
    | running => job_attempt_count t ≠ 0 ∧ is_Some (job_lease_owner t) ∧
        (∃ e, job_lease_expires_at t = Some e ∧ job_updated_at t < e) ∧ job_completed_at t = None ∧
        job_last_error_category t = None
    | succeeded => job_attempt_count t ≠ 0 ∧ job_lease_owner t = None ∧
        job_lease_expires_at t = None ∧ is_Some (job_completed_at t) ∧ job_last_error_category t = None
    | failed => job_attempt_count t ≠ 0 ∧ job_lease_owner t = None ∧
        job_lease_expires_at t = None ∧ is_Some (job_completed_at t) ∧
        is_Some (job_last_error_category t)
    | canceled => job_lease_owner t = None ∧ job_lease_expires_at t = None ∧
        is_Some (job_completed_at t) ∧ job_last_error_category t = None
    end;
}.

Lemma coherent_validate t : coherent t → validate_background_job t = Ok tt.
Proof.
  destruct t as [id own kind pay prio state key avail n m lo le ec ed cr up st co].
  intros []; simpl in *. unfold validate_background_job, in_range; simpl.
  repeat (apply raise_if_bind_Ok; split).
  - by rewrite co_payload0.
  - bool_prop; lia.
  - by destruct ec, ed.
  - destruct ec, ed; try done. destruct co_error0 as [-> ->]. done.
  - bool_prop; lia.
  - destruct st; simpl; bool_prop; [left|by right]. intros E. by apply co_started0 in E.
  - destruct st; simpl; bool_prop; [by right|left]. rewrite (proj2 co_started0); done.
  - destruct st; bool_prop; [by apply co_started_after0|done].
  - destruct co, st; try done; bool_prop; [by eapply co_completed_after0|].
    destruct state; naive_solver.
  - destruct state; destruct_and!;
      repeat match goal with
      | H : is_Some _ |- _ => destruct H as [? ->]
      | H : ∃ _, _ |- _ => destruct H as (? & -> & ?)
      end; subst; try done; rewrite ?raise_if_bind_Ok, ?raise_if_Ok, ?orb_false_r;
      split_and?; try done; bool_prop; lia || done.
Qed.

Lemma validate_inv_coherent t : validate_background_job t = Ok tt → coherent t.
Proof.
  destruct t as [id own kind pay prio state key avail n m lo le ec ed cr up st co].
  unfold validate_background_job, in_range; simpl. intros H.
  repeat setoid_rewrite raise_if_bind_Ok in H.
  destruct H as (H1 & H2 & H3 & H4 & H5 & H6 & H7 & H8 & H9 & H).
  split; simpl.
  - by apply negb_false_iff.
  - bool_prop; lia.
  - bool_prop; lia.
  - destruct ec, ed; try done. by bool_prop.
  - bool_prop; lia.
  - destruct st; simpl in *; bool_prop; [|naive_solver lia]. split; [|done]. naive_solver.
  - intros s ->. bool_prop. done.
  - intros s c -> ->. bool_prop. done.
  - destruct state; repeat setoid_rewrite raise_if_bind_Ok in H; rewrite raise_if_Ok in H; destruct_and?;
      destruct lo, le, ec, co; simpl in *; rewrite ?orb_true_r in *; try done;
      bool_prop; split_and?; try done; eauto.
Qed.

Lemma validate_coherent t : validate_background_job t = Ok tt ↔ coherent t.
Proof. split; [apply validate_inv_coherent|apply coherent_validate]. Qed.

Lemma retryable_is_category c :
  str_in c RETRYABLE_CATEGORIES = true → str_in c ERROR_CATEGORIES = true.
Proof. rewrite !str_in_spec. unfold RETRYABLE_CATEGORIES, ERROR_CATEGORIES. set_solver. Qed.

Lemma row_step_state now j j' event :
  row_step now j j' event →
  job_state j ∈ [queued; running] ∧ job_updated_at j' = now ∧ job_id j' = job_id j ∧
  same_provenance j' j = true ∧ job_attempt_count j ≤ job_attempt_count j' ∧
  job_created_at j' = job_created_at j ∧ job_payload j' = job_payload j ∧
  job_max_attempts j' = job_max_attempts j.
Proof.
  intros Hstep; inversion Hstep; subst; simpl; unfold same_provenance; simpl;
    rewrite ?Z.eqb_refl, ?String.eqb_refl, bool_decide_eq_true_2 by done;
    repeat split; try done; try lia; set_solver.
Qed.

(** A row is coherent after each move. *)
Lemma row_step_coherent now j j' event :
  coherent j → job_updated_at j ≤ now → (∀ s, job_started_at j = Some s → s ≤ now) →
  row_step now j j' event → coherent j'.
Proof.
  intros [Hp Ha Hm He Hu Hs Hsa Hca Hst] Hup Hstart Hstep.
  destruct (row_step_state _ _ _ _ Hstep) as (_ & Hu' & _ & _ & _ & Hcr & Hpay & Hmax).
  assert (∀ s, default now (job_started_at j) = s → job_created_at j ≤ s) as Hdef.
  { intros s <-. destruct (job_started_at j) as [s|]; simpl; [by apply Hsa|lia]. }
  split; rewrite ?Hu', ?Hcr, ?Hpay, ?Hmax; try done; try lia.
  all: inversion Hstep; subst; simpl; try done; try lia;
    try match goal with H : job_state ?x = _, H2 : context [job_state ?x] |- _ => rewrite H in H2 end.
  all: destruct_and?; eauto using retryable_is_category.
  all: try (split_and?; try done; eauto; try (eexists; split; [done|]); lia).
  - split; [lia|done].
  - intros s [= Hd]. by apply Hdef.
  - naive_solver.
  - intros s c E [= <-]. by apply Hstart.
  - intros s c E [= <-]. by apply Hstart.
  - intros s c E [= <-]. by apply Hstart.
Qed.

Lemma row_step_ok now j j' event :
  row_ok now j → row_step now j j' event → row_ok now j'.
Proof.
  intros (Hv & Hup & Hst) Hstep. apply validate_coherent in Hv.
  split; [by eapply validate_coherent, row_step_coherent|].
  destruct (row_step_state _ _ _ _ Hstep) as (_ & -> & _). split; [done|].
  inversion Hstep; subst; simpl; try done.
  intros s [= <-]. destruct (job_started_at j); simpl; [by apply Hst|done].
Qed.

Lemma kept_once_set_same x : kept_once_set x x = true.
Proof. unfold kept_once_set. by rewrite bool_decide_eq_true_2, orb_true_r by done. Qed.

Lemma kept_once_set_default x now : kept_once_set x (Some (default now x)) = true.
Proof. destruct x; simpl; [apply kept_once_set_same|done]. Qed.

(** The row every call writes passes the checks made on an update. *)
Lemma row_step_validates now j j' event lease_expired :
  row_ok now j → row_step now j j' event →
  validate_background_job_update j' (Some j) lease_expired = Ok tt.
Proof.
  intros Hok Hstep. destruct (row_step_ok _ _ _ _ Hok Hstep) as [Hv' _].
  destruct (row_step_state _ _ _ _ Hstep) as (Hlive & Hu' & _ & Hprov & _).
  destruct Hok as (Hv & Hup & _). apply validate_coherent in Hv.
  pose proof (co_state _ Hv) as Hs. apply Z.ltb_ge in Hup. rewrite <- Hu' in Hup.
  unfold validate_background_job_update. rewrite Hv', Hprov, Hup. clear Hv' Hprov Hup Hv.
  inversion Hstep; subst; clear Hstep; simpl;
    [..|apply elem_of_cons in Hlive as [Hq|Hq%list_elem_of_singleton]];
    repeat match goal with E : job_state ?x = _, E2 : context [job_state ?x] |- _ => rewrite E in E2
                     | E : job_state ?x = _ |- context [job_state ?x] => rewrite E end; destruct_and?; try match goal with E : job_completed_at j = None |- _ => rewrite E end;
    rewrite ?kept_once_set_same, ?kept_once_set_default, ?Z.eqb_refl; simpl; try done.
  - match goal with |- context [heartbeat_changes_only ?t j] =>
      assert (heartbeat_changes_only t j = true) as -> end.
    { unfold heartbeat_changes_only. apply bool_decide_eq_true_2. simpl. by rewrite H, H7. }
    by rewrite H0; simpl; rewrite (proj2 (Z.ltb_ge _ _)) by lia.
  - by rewrite H1, (proj2 (Z.leb_le _ _) H3), andb_false_r.
Qed.

(** *** The invariant is kept by every step *)

Lemma store_ok_mono now now' st : now ≤ now' → store_ok now st → store_ok now' st.
Proof.
  intros Hle [Hr ? ? ?]. split; try done. intros id j Hj.
  destruct (Hr id j Hj) as (? & ? & ?). split; [done|]. split; [done|]. by eapply row_ok_mono.
Qed.

Lemma event_key_fresh (jobs : gmap Z BackgroundJob) (l : list OutboxEvent) id ty k :
  no_colon ty = true → (∀ e, e ∈ l → event_ok jobs e) →
  (∀ e j, e ∈ l → oe_aggregate_id e = id → oe_event_type e = ty → jobs !! id = Some j →
     0 ≤ k ≤ job_attempt_count j →
     (job_state j = running → k = job_attempt_count j → ty = "background_job.running"%string) →
     (ty = "background_job.canceled"%string → job_state j = canceled) → False) →
  event_key id ty k ∉ map oe_idempotency_key l.
Proof.
  intros Hty Hl Hno (e & He & Hin)%list_elem_of_In%in_map_iff. apply list_elem_of_In in Hin.
  destruct (Hl e Hin) as (j & k' & Hj & Hkey & Hte & Hk & Hrun & Hcan).
  rewrite Hkey in He. apply event_key_inj in He as (<- & <- & ->); [|done..].
  by apply (Hno e j).
Qed.

Lemma row_step_event now j j' ty :
  row_step now j j' (Some ty) →
  no_colon ty = true ∧
  (job_state j' = running → ty = "background_job.running"%string) ∧
  (ty = "background_job.canceled"%string → job_state j' = canceled) ∧
  (job_attempt_count j < job_attempt_count j' ∨
   (job_state j = running ∧ ty ≠ "background_job.running"%string) ∨
   ty = "background_job.canceled"%string).
Proof.
  intros Hstep. inversion Hstep; subst; simpl; repeat split; try done; try lia; auto.
Qed.

Lemma store_step_row_ok now st id j j' event :
  store_ok now st → st_jobs st !! id = Some j → row_step now j j' event →
  store_ok now (announce (update_job st j') j' now event).
Proof.
  intros [Hrows Hidem Hev Hkeys] Hj Hstep.
  destruct (Hrows id j Hj) as (<- & Hid & Hok).
  destruct (row_step_state _ _ _ _ Hstep) as (Hlive & _ & Hid' & Hprov & Hatt & _).
  pose proof (row_step_ok _ _ _ _ Hok Hstep) as Hok'.
  unfold same_provenance in Hprov. bool_prop.
  assert (∀ e, e ∈ st_outbox st → event_ok (<[job_id j' := j']> (st_jobs st)) e) as Hold.
  { intros e He. destruct (Hev e He) as (j0 & k & Hj0 & Hk & Ht & Hb & Hrun & Hcan).
    destruct (decide (oe_aggregate_id e = job_id j')) as [Heq|Hne].
    - rewrite Heq, Hid', Hj in Hj0. injection Hj0 as <-.
      exists j', k. rewrite Heq, lookup_insert_eq. split; [done|]. split; [by rewrite <- Heq|].
      split; [done|]. split; [lia|]. split.
      + intros Hrun' ->. inversion Hstep; subst; simpl in *; try done; [lia|]. by apply Hrun.
      + intros Hc. specialize (Hcan Hc). rewrite Hcan in Hlive. set_solver.
    - exists j0, k. rewrite lookup_insert_ne by done. done. }
  assert (∀ i jj, <[job_id j' := j']> (st_jobs st) !! i = Some jj →
            job_id jj = i ∧ i < st_next_id st ∧ row_ok now jj) as Hrows'.
  { intros i jj. rewrite lookup_insert_Some. intros [[<- <-]|[_ Hi]]; [|by apply Hrows].
    rewrite Hid'. done. }
  assert (∀ i1 i2 j1 j2, <[job_id j' := j']> (st_jobs st) !! i1 = Some j1 →
            <[job_id j' := j']> (st_jobs st) !! i2 = Some j2 →
            job_owner_id j1 = job_owner_id j2 → job_idempotency_key j1 = job_idempotency_key j2 →
            i1 = i2) as Hidem'.
  { intros i1 i2 j1 j2. rewrite !lookup_insert_Some.
    intros [[<- <-]|[_ Hi1]] [[<- <-]|[_ Hi2]] Ho Hk; try done; rewrite ?Hid'.
    - eapply Hidem; [done..|congruence|congruence].
    - eapply Hidem; [done..|congruence|congruence].
    - by eapply Hidem. }
  destruct event as [ty|]; [|by split].
  destruct (row_step_event _ _ _ _ Hstep) as (Hty & Hrun' & Hcan' & Hfresh).
  split; simpl; try done.
  - intros e [He|He%list_elem_of_singleton]%elem_of_app; [by apply Hold|]. subst e.
    exists j', (job_attempt_count j'). simpl. rewrite lookup_insert_eq.
    repeat split; auto; try lia. destruct Hok as (Hv%validate_coherent & _).
    pose proof (co_attempts _ Hv). lia.
  - rewrite map_app. apply NoDup_app. split; [done|]. simpl.
    split; [|apply NoDup_singleton]. intros key Hin Hkey%list_elem_of_singleton. subst key. revert Hin.
    eapply event_key_fresh; [done|exact Hev|]. rewrite Hid'.
    intros e j0 He Ha Ht Hj0 Hk Hr0 Hc0. rewrite Hj in Hj0. injection Hj0 as <-.
    destruct Hfresh as [?|[[Hrun Hne]|Hc]]; [lia| |].
    + apply Hne, Hr0; [done|]. lia.
    + rewrite (Hc0 Hc) in Hlive. set_solver.
Qed.

Lemma store_step_insert_ok now st owner command key :
  store_ok now st →
  validate_background_job (new_job (st_next_id st) now owner command key) = Ok tt →
  (∀ id j, st_jobs st !! id = Some j → ¬ (job_owner_id j = owner ∧ job_idempotency_key j = key)) →
  let job := new_job (st_next_id st) now owner command key in
  store_ok now
    (status_event (MkStore (st_owners st) (<[st_next_id st := job]> (st_jobs st))
       (st_next_id st + 1) (st_outbox st)) job "background_job.queued" now).
Proof.
  intros [Hrows Hidem Hev Hkeys] Hv Hnew job.
  assert (∀ id j, st_jobs st !! id = Some j → id ≠ st_next_id st) as Hfresh.
  { intros id j Hj. destruct (Hrows id j Hj) as (_ & ? & _). lia. }
  split; simpl.
  - intros id j. rewrite lookup_insert_Some. intros [[<- <-]|[_ Hj]].
    + split; [done|]. split; [lia|]. by split; simpl.
    + destruct (Hrows id j Hj) as (? & ? & ?). split; [done|]. split; [lia|done].
  - intros i1 i2 j1 j2. rewrite !lookup_insert_Some.
    intros [[<- <-]|[_ Hi1]] [[<- <-]|[_ Hi2]] Ho Hk; simpl in *; try done.
    + by destruct (Hnew _ _ Hi2).
    + by destruct (Hnew _ _ Hi1).
    + by eapply Hidem.
  - intros e [He|He%list_elem_of_singleton]%elem_of_app; [|subst e].
    + destruct (Hev e He) as (j & k & Hj & ?). exists j, k.
      rewrite lookup_insert_ne; [done|]. apply not_eq_sym. by eapply Hfresh.
    + exists job, 0. simpl. rewrite lookup_insert_eq. repeat split; try done; lia.
  - rewrite map_app. apply NoDup_app. split; [done|]. simpl.
    split; [|apply NoDup_singleton]. intros key' Hin Hkey%list_elem_of_singleton. subst key'. revert Hin.
    eapply event_key_fresh; [done|exact Hev|]. intros e j _ _ _ Hj. by destruct (Hfresh _ _ Hj).
Qed.

Lemma store_steps_ok now st st' : store_ok now st → store_steps now st st' → store_ok now st'.
Proof.
  intros Hok. induction 1 as [|st st1 st2 Hstep _ IH]; [done|]. apply IH.
  destruct Hstep; [by apply store_step_insert_ok|by eapply store_step_row_ok].
Qed.

(** ** The calls of the repository implement the contract *)

Lemma elem_of_all_jobs st j : j ∈ all_jobs st ↔ ∃ id, st_jobs st !! id = Some j.
Proof.
  unfold all_jobs. rewrite list_elem_of_fmap. setoid_rewrite elem_of_map_to_list'. 
  split; [intros ([i j'] & -> & ?); eauto|intros [id ?]; by exists (id, j)].
Qed.

Lemma one_row_step now st id j j' event :
  st_jobs st !! id = Some j → row_step now j j' event →
  at_most_one_step now st (announce (update_job st j') j' now event).
Proof. intros. left. eapply ss_row; eauto. Qed.

Lemma repository_now_Ok clock now :
  repository_now clock = Ok now ↔ aware clock = true ∧ now = instant clock.
Proof. unfold repository_now. destruct (aware clock); simpl; naive_solver. Qed.

Lemma running_job_Ok st id worker now job e :
  running_job st id worker now = Ok (job, e) ↔
  st_jobs st !! id = Some job ∧ job_state job = running ∧ job_lease_owner job = Some worker ∧
  job_lease_expires_at job = Some e ∧ now < e.
Proof.
  unfold running_job. destruct (st_jobs st !! id) as [j|]; [|naive_solver].
  rewrite raise_if_bind_Ok. destruct (job_lease_expires_at j) as [e'|] eqn:He.
  - rewrite raise_if_bind_Ok, orb_false_iff, !negb_false_iff, !bool_decide_eq_true, Z.leb_gt.
    naive_solver.
  - naive_solver.
Qed.

Section refinement.
Context (st : Store) (clock : datetime).
Notation now := (instant clock).
Hypothesis Hok : store_ok now st.

Lemma enqueue_refines owner command key st' r :
  enqueue st clock owner command key = Ok (st', r) → at_most_one_step now st st'.
Proof.
  unfold enqueue. rewrite res_bind_Ok.
  intros (n & [_ ->]%repository_now_Ok & H). apply raise_if_bind_Ok in H as [Ho H].
  destruct (filter _ _) as [|existing l] eqn:Hf.
  - apply res_bind_Ok in H as (payload & [_ [= <-]]%raise_if_bind_Ok & H).
    apply res_bind_Ok in H as ([] & Hv & [= <- _]). left; apply ss_insert; [done|].
    intros id j Hj Hsame.
    assert (j ∈ (filter (λ j, job_owner_id j = owner ∧ job_idempotency_key j = key) (all_jobs st)))
      as Hin by (apply list_elem_of_filter; split; [done|]; apply elem_of_all_jobs; eauto).
    rewrite Hf in Hin. by apply elem_of_nil in Hin.
  - apply raise_if_bind_Ok in H as [_ [= <- _]]. by right.
Qed.

Lemma claim_refines locked command st' r :
  valid_claim command = true → claim st clock locked command = Ok (st', r) → at_most_one_step now st st'.
Proof.
  unfold claim, valid_claim, in_range. intros Hc. rewrite res_bind_Ok.
  intros (n & [_ ->]%repository_now_Ok & H).
  destruct (min_by _ _) as [job|] eqn:Hmin; [|injection H as <- _; by right].
  apply min_by_Some in Hmin as [Hin _]; [|eauto..].
  apply list_elem_of_filter in Hin as [(Hq & Hav & Hat & _) [id Hj]%elem_of_all_jobs].
  injection H as <- _. bool_prop. eapply (one_row_step _ _ id job _ (Some _)); [done|].
  apply rs_claim; try done. unfold seconds, us_per_second. lia.
Qed.

Lemma heartbeat_refines id command st' r :
  valid_heartbeat command = true →
  heartbeat st clock id command = Ok (st', r) → at_most_one_step now st st'.
Proof.
  unfold heartbeat, valid_heartbeat, in_range. intros Hc. rewrite res_bind_Ok.
  intros (n & [_ ->]%repository_now_Ok & H). apply res_bind_Ok in H as ([job e] & Hrun & [= <- _]).
  apply running_job_Ok in Hrun as (Hj & Hs & _ & He & Hlt). bool_prop.
  rewrite Hs. eapply (one_row_step _ _ id job _ None); [done|].
  apply rs_heartbeat; try done. unfold seconds, us_per_second. lia.
Qed.

Lemma complete_refines id command st' r :
  complete st clock id command = Ok (st', r) → at_most_one_step now st st'.
Proof.
  unfold complete. rewrite res_bind_Ok.
  intros (n & [_ ->]%repository_now_Ok & H). apply res_bind_Ok in H as ([job e] & Hrun & [= <- _]).
  apply running_job_Ok in Hrun as (Hj & Hs & _). 
  eapply (one_row_step _ _ id job _ (Some _)); [done|]. by apply rs_complete.
Qed.

Lemma cancel_refines owner id st' r :
  cancel st clock owner id = Ok (st', r) → at_most_one_step now st st'.
Proof.
  unfold cancel. rewrite res_bind_Ok. intros (n & [_ ->]%repository_now_Ok & H).
  destruct (st_jobs st !! id) as [job|] eqn:Hj; [|done].
  destruct (negb _); [done|]. case_bool_decide; [injection H as <- _; by right|].
  apply raise_if_bind_Ok in H as [Hs [= <- _]]. eapply (one_row_step _ _ id job _ (Some _)); [done|].
  apply rs_cancel. bool_prop. destruct (job_state job); set_solver.
Qed.

Lemma retry_disposition_Ok attempt limit category d :
  retry_disposition attempt limit category = Ok d ↔
  str_in category ERROR_CATEGORIES = true ∧ 1 ≤ attempt ≤ limit ∧ limit ≤ 100 ∧
  d = (if str_in category RETRYABLE_CATEGORIES && (attempt <? limit) then retry_wait
       else needs_attention).
Proof.
  unfold retry_disposition. rewrite !raise_if_bind_Ok, !negb_false_iff, !andb_true_iff, !Z.leb_le.
  case_match; naive_solver.
Qed.

Lemma retry_delay_nonneg job failure :
  valid_failure failure = true → 1 ≤ job_attempt_count job → 0 ≤ retry_delay job failure.
Proof.
  unfold valid_failure, retry_delay, opt_in_range, in_range. intros Hv Ha.
  destruct (jf_retry_after_seconds failure); bool_prop; [done|].
  pose proof (Z.pow_pos_nonneg 2 (job_attempt_count job - 1)). lia.
Qed.

Lemma retry_refines id command st' r :
  valid_retry command = true →
  retry st clock id command = Ok (st', r) → at_most_one_step now st st'.
Proof.
  unfold retry, valid_retry. intros [_ Hf]%andb_true_iff. rewrite res_bind_Ok.
  intros (n & [_ ->]%repository_now_Ok & H). apply res_bind_Ok in H as ([job e] & Hrun & H).
  apply running_job_Ok in Hrun as (Hj & Hs & _).
  apply res_bind_Ok in H as (d & (Hcat & Ha & Hm & Hd)%retry_disposition_Ok & H).
  assert (validate_error_details_v1 (error_details (job_attempt_count job) command) = true) as Hdet.
  { pose proof Hf as Hf'. unfold valid_failure in Hf'.
    unfold validate_error_details_v1, error_details, in_range at 1. simpl. bool_prop. split_and!; try done; lia. }
  destruct d; injection H as <- _; eapply (one_row_step _ _ id job _ (Some _)); try done.
  - destruct (str_in _ RETRYABLE_CATEGORIES && _) eqn:Hr; [|done].
    apply andb_true_iff in Hr as [Hr Hlt%Z.ltb_lt]. apply rs_requeue; try done.
    pose proof (retry_delay_nonneg job (rt_failure command) Hf). unfold seconds, us_per_second. lia.
  - by apply rs_fail.
Qed.

Lemma reclaim_row_step job :
  coherent job → job_state job = running →
  row_step now job (reclaim_row now job).1 (Some (reclaim_row now job).2).
Proof.
  intros Hc Hs. pose proof (co_attempts _ Hc). pose proof (co_max _ Hc).
  assert (validate_error_details_v1 (MkDetails (job_attempt_count job) None None) = true).
  { unfold validate_error_details_v1, in_range. simpl. bool_prop. lia. }
  unfold reclaim_row. destruct (Z.ltb_spec (job_attempt_count job) (job_max_attempts job)); simpl.
  - by apply rs_requeue.
  - by apply rs_fail.
Qed.

Lemma all_jobs_ids : NoDup (map job_id (all_jobs st)).
Proof.
  assert (map job_id (all_jobs st) = (map_to_list (st_jobs st)).*1) as ->.
  { unfold all_jobs. rewrite <- list_fmap_compose. apply list_fmap_ext.
    intros i [id j] Hj%list_elem_of_lookup_2%elem_of_map_to_list. simpl.
    by destruct (so_rows _ _ Hok id j Hj). }
  apply NoDup_fst_map_to_list.
Qed.

Lemma expired_batch_elem locked limit j :
  j ∈ expired_batch st now locked limit → st_jobs st !! job_id j = Some j ∧ expired now locked j.
Proof.
  intros (i & Hj%list_elem_of_lookup_2 & _)%elem_of_take.
  apply elem_of_sort_by, list_elem_of_filter in Hj as [He [id Hj]%elem_of_all_jobs].
  by destruct (so_rows _ _ Hok id j Hj) as [-> _].
Qed.

Lemma expired_batch_ids locked limit : NoDup (map job_id (expired_batch st now locked limit)).
Proof.
  unfold expired_batch. rewrite <- firstn_map. eapply sublist_NoDup; [|apply sublist_take].
  rewrite sort_by_perm. eapply sublist_NoDup; [apply all_jobs_ids|].
  apply (fmap_sublist job_id), sublist_filter.
Qed.

Lemma reclaim_row_id job : job_id (reclaim_row now job).1 = job_id job.
Proof. unfold reclaim_row. by case_match. Qed.

Lemma read_loaded loaded job : job_id job ∈ loaded → read_instance loaded job = Ok job.
Proof. intros Hin. unfold read_instance. by rewrite bool_decide_eq_false_2 by (intros H; by apply H). Qed.

Lemma read_expired loaded job : job_id job ∉ loaded → read_instance loaded job = Err MissingGreenlet.
Proof. intros Hin. unfold read_instance. by rewrite bool_decide_eq_true_2. Qed.

(** The loop ends with its first turn: the second would read an instance that
    the first one's reload expired. *)
Lemma reclaim_expired_cases locked limit :
  aware clock = true →
  reclaim_expired st clock locked limit =
  match expired_batch st now locked limit with
  | [] => Ok (st, MkReclaimResult [] [])
  | [job] =>
      let '(current, event_type) := reclaim_row now job in
      Ok (status_event (update_job st current) current event_type now,
          if job_attempt_count job <? job_max_attempts job then MkReclaimResult [job_id job] []
          else MkReclaimResult [] [job_id job])
  | _ => Err MissingGreenlet
  end.
Proof.
  intros Hcl. unfold reclaim_expired, repository_now. rewrite Hcl. simpl.
  pose proof (expired_batch_ids locked limit) as Hnd.
  destruct (expired_batch st now locked limit) as [|job [|job2 rest]]; simpl; [done|..];
    rewrite read_loaded by set_solver; simpl;
    destruct (reclaim_row now job) as [current event_type]; simpl; [by destruct (_ <? _)|].
  simpl in Hnd. apply NoDup_cons in Hnd as [Hnew _].
  rewrite read_expired; [done|]. unfold reload. set_solver.
Qed.

Lemma reclaim_refines locked limit st' r :
  reclaim_expired st clock locked limit = Ok (st', r) →
  st' = st ∨ ∃ job, st_jobs st !! job_id job = Some job ∧ expired now locked job ∧
    row_step now job (reclaim_row now job).1 (Some (reclaim_row now job).2) ∧
    st' = announce (update_job st (reclaim_row now job).1) (reclaim_row now job).1 now
            (Some (reclaim_row now job).2).
Proof.
  intros H. assert (aware clock = true) as Hcl.
  { by apply res_bind_Ok in H as (n & [? _]%repository_now_Ok & _). }
  rewrite (reclaim_expired_cases _ _ Hcl) in H.
  pose proof (expired_batch_elem locked limit) as Helem.
  destruct (expired_batch st now locked limit) as [|job [|]]; [| |done].
  - injection H as <- _. by left.
  - right. destruct (Helem job) as [Hj He]; [by left|]. exists job. split; [done|]. split; [done|].
    destruct (so_rows _ _ Hok _ _ Hj) as (_ & _ & Hrow%proj1%validate_coherent).
    pose proof (reclaim_row_step job Hrow (proj1 He)) as Hstep. split; [done|].
    destruct (reclaim_row now job). by injection H as <- _.
Qed.

End refinement.

(** ** The service as a whole *)

Inductive job_call :=
  | call_enqueue (owner_id : Z) (command : EnqueueJobCommand) (idempotency_key : string)
  | call_claim (locked : gset Z) (command : ClaimJobCommand)
  | call_heartbeat (id : Z) (command : HeartbeatJobCommand)
  | call_complete (id : Z) (command : CompleteJobCommand)
  | call_retry (id : Z) (command : RetryJobCommand)
  | call_cancel (owner_id id : Z)
  | call_reclaim (locked : gset Z) (limit : Z).

(** The command objects only exist when their fields pass the schema. *)
Definition call_valid (c : job_call) : bool :=
  match c with
  | call_enqueue _ command _ => valid_enqueue command
  | call_claim _ command => valid_claim command
  | call_heartbeat _ command => valid_heartbeat command
  | call_complete _ command => valid_complete command
  | call_retry _ command => valid_retry command
  | call_cancel _ _ | call_reclaim _ _ => true
  end.

Definition run_call (st : Store) (clock : datetime) (c : job_call) : res Store :=
  match c with
  | call_enqueue owner command key =>
      let* r := JobService.service_enqueue st clock owner command key in Ok r.1
  | call_claim locked command =>
      let* r := JobService.service_claim st clock locked command in Ok r.1
  | call_heartbeat id command => let* r := JobService.service_heartbeat st clock id command in Ok r.1
  | call_complete id command => let* r := JobService.service_complete st clock id command in Ok r.1
  | call_retry id command => let* r := JobService.service_retry st clock id command in Ok r.1
  | call_cancel owner id => let* r := JobService.service_cancel st clock owner id in Ok r.1
  | call_reclaim locked limit =>
      let* r := JobService.service_reclaim_expired st clock locked limit in Ok r.1
  end.

(** What the queue looks like after some calls made at times that do not go back. *)
Inductive reachable (owners : gset Z) : Z → Store → Prop :=
  | reach_empty now : reachable owners now (MkStore owners ∅ 1 [])
  | reach_call now st clock c st' :
      reachable owners now st → now ≤ instant clock → call_valid c = true →
      run_call st clock c = Ok st' → reachable owners (instant clock) st'.

(** Every call changes one row at most. *)
Lemma run_call_refines st clock c st' :
  store_ok (instant clock) st → call_valid c = true → run_call st clock c = Ok st' →
  at_most_one_step (instant clock) st st'.
Proof.
  intros Hok Hc Hrun. destruct c; simpl in *;
    apply res_bind_Ok in Hrun as ([s r] & Hrun & [= <-]); simpl;
    unfold JobService.service_enqueue, JobService.service_claim, JobService.service_heartbeat,
      JobService.service_complete, JobService.service_retry, JobService.service_cancel,
      JobService.service_reclaim_expired, JobService.positive_job_id in Hrun;
    rewrite ?raise_if_bind_Ok in Hrun; destruct_and?.
  - by eapply enqueue_refines.
  - by eapply claim_refines.
  - by eapply heartbeat_refines.
  - by eapply complete_refines.
  - by eapply retry_refines.
  - by eapply cancel_refines.
  - match goal with H : reclaim_expired _ _ _ _ = _ |- _ => rename H into Hre end.
    apply (reclaim_refines _ _ Hok) in Hre as [->|(job & Hj & _ & Hstep & ->)]; [by right|].
    by eapply one_row_step.
Qed.

Lemma run_call_steps st clock c st' :
  store_ok (instant clock) st → call_valid c = true → run_call st clock c = Ok st' →
  store_steps (instant clock) st st'.
Proof.
  intros Hok Hc Hrun. destruct (run_call_refines _ _ _ _ Hok Hc Hrun) as [Hs| ->].
  - by apply rtc_once.
  - apply rtc_refl.
Qed.

Lemma empty_store_ok now owners : store_ok now (MkStore owners ∅ 1 []).
Proof. split; simpl; try done; [by intros e ?%elem_of_nil|apply NoDup_nil_2]. Qed.

Lemma reachable_ok owners now st : reachable owners now st → store_ok now st.
Proof.
  induction 1 as [|now st clock c st' _ IH Hle Hc Hrun]; [apply empty_store_ok|].
  eapply store_steps_ok; [|by eapply run_call_steps; [by eapply store_ok_mono|..]].
  by eapply store_ok_mono.
Qed.

(** What a call can do to the row stored under [id]. *)
Lemma run_call_row st clock c st' id j' :
  store_ok (instant clock) st → call_valid c = true → run_call st clock c = Ok st' →
  st_jobs st' !! id = Some j' →
  st_jobs st !! id = Some j' ∨
  (∃ j event, st_jobs st !! id = Some j ∧ row_step (instant clock) j j' event) ∨
  (st_jobs st !! id = None ∧ validate_background_job j' = Ok tt).
Proof.
  intros Hok Hc Hrun Hj'.
  destruct (run_call_refines _ _ _ _ Hok Hc Hrun) as [Hs| ->]; [|left; done].
  destruct Hs as [owner command key Hv Hnew|i j jn event Hj Hstep].
  - simpl in Hj'. apply lookup_insert_Some in Hj' as [[<- <-]|[_ ?]]; [|by left].
    right; right. split; [|done]. destruct (st_jobs st !! st_next_id st) as [j|] eqn:Hj; [|done].
    destruct (so_rows _ _ Hok _ _ Hj) as (_ & ? & _). lia.
  - destruct (so_rows _ _ Hok _ _ Hj) as (Hid & _).
    destruct (row_step_state _ _ _ _ Hstep) as (_ & _ & Hid' & _).
    destruct event; simpl in Hj'; apply lookup_insert_Some in Hj' as [[<- <-]|[_ ?]];
      [|by left| |by left]; right; left; exists j; eexists; (split; [congruence|done]).
Qed.

(** C1. The service refines the abstract queue: from any store that earlier
    calls can have produced, a call with a well-formed command at a clock that
    has not gone back is a sequence of the moves of [row_step] and of one
    insertion at most, each announced by its outbox event, and it leaves a
    store in which every row is coherent, idempotency keys are unique per
    owner, and no two outbox events share a key. *)
Theorem service_refines_queue owners now st clock c st' :
  reachable owners now st → now ≤ instant clock → call_valid c = true →
  run_call st clock c = Ok st' →
  store_steps (instant clock) st st' ∧ store_ok (instant clock) st'.
Proof.
  intros Hr Hle Hc Hrun. apply reachable_ok in Hr. eapply store_ok_mono in Hr; [|exact Hle].
  pose proof (run_call_steps _ _ _ _ Hr Hc Hrun). split; [done|by eapply store_steps_ok].
Qed.

(** C3. No call of the service is ever refused by the model layer: a row it
    inserts passes [validate_background_job], and a row it updates passes
    [validate_background_job_update] against the stored row, whatever the
    database says about the lease. *)
Theorem service_writes_valid_rows owners now st clock c st' id j' lease_expired :
  reachable owners now st → now ≤ instant clock → call_valid c = true →
  run_call st clock c = Ok st' → st_jobs st' !! id = Some j' →
  match st_jobs st !! id with
  | None => validate_background_job j' = Ok tt
  | Some j => j' = j ∨ validate_background_job_update j' (Some j) lease_expired = Ok tt
  end.
Proof.
  intros Hr Hle Hc Hrun Hj'. apply reachable_ok in Hr. eapply store_ok_mono in Hr; [|exact Hle].
  destruct (run_call_row _ _ _ _ _ _ Hr Hc Hrun Hj') as [->|[(j & event & Hj & Hstep)|[-> ?]]];
    [by left| |done].
  rewrite Hj. right. eapply row_step_validates; [|exact Hstep]. by apply (so_rows _ _ Hr _ _ Hj).
Qed.

(** The row a worker's or an owner's call may change. *)
Section frames.
Context (st : Store) (clock : datetime) (Hok : store_ok (instant clock) st).

Lemma update_job_other id job state av n lo le ec ed up sa co i :
  st_jobs st !! id = Some job → i ≠ id →
  st_jobs (update_job st (with_lifecycle job state av n lo le ec ed up sa co)) !! i = st_jobs st !! i.
Proof.
  intros Hj Hne. destruct (so_rows _ _ Hok _ _ Hj) as [<- _]. simpl. by apply lookup_insert_ne.
Qed.

Lemma heartbeat_frame id command st' r :
  heartbeat st clock id command = Ok (st', r) →
  (∃ job, st_jobs st !! id = Some job ∧ job_lease_owner job = Some (hb_worker_id command)) ∧
  ∀ i, i ≠ id → st_jobs st' !! i = st_jobs st !! i.
Proof.
  intros (n & _ & ([job e] & (Hj & _ & Hw & _)%running_job_Ok & [= <- _])%res_bind_Ok)%res_bind_Ok.
  split; [by exists job|]. intros i Hi. by apply (update_job_other id).
Qed.

Lemma complete_frame id command st' r :
  complete st clock id command = Ok (st', r) →
  (∃ job, st_jobs st !! id = Some job ∧ job_lease_owner job = Some (cp_worker_id command)) ∧
  ∀ i, i ≠ id → st_jobs st' !! i = st_jobs st !! i.
Proof.
  intros (n & _ & ([job e] & (Hj & _ & Hw & _)%running_job_Ok & [= <- _])%res_bind_Ok)%res_bind_Ok.
  split; [by exists job|]. intros i Hi. by apply (update_job_other id).
Qed.

Lemma retry_frame id command st' r :
  retry st clock id command = Ok (st', r) →
  (∃ job, st_jobs st !! id = Some job ∧ job_lease_owner job = Some (rt_worker_id command)) ∧
  ∀ i, i ≠ id → st_jobs st' !! i = st_jobs st !! i.
Proof.
  intros (n & _ & ([job e] & (Hj & _ & Hw & _)%running_job_Ok & (d & _ & H)%res_bind_Ok)%res_bind_Ok)
    %res_bind_Ok.
  split; [by exists job|]. intros i Hi. destruct d; injection H as <- _; by apply (update_job_other id).
Qed.

Lemma cancel_frame owner id st' r :
  cancel st clock owner id = Ok (st', r) →
  (∃ job, st_jobs st !! id = Some job ∧ job_owner_id job = owner) ∧
  ∀ i, i ≠ id → st_jobs st' !! i = st_jobs st !! i.
Proof.
  intros (n & _ & H)%res_bind_Ok. destruct (st_jobs st !! id) as [job|] eqn:Hj; [|done].
  destruct (Z.eqb_spec (job_owner_id job) owner) as [Ho|]; simpl in H; [|done].
  split; [by exists job|]. intros i Hi. case_bool_decide; [by injection H as <- _|].
  apply raise_if_bind_Ok in H as [_ [= <- _]]. by apply (update_job_other id).
Qed.

Lemma claim_frame locked command st' r i j :
  claim st clock locked command = Ok (st', r) →
  st_jobs st !! i = Some j → job_state j = running → st_jobs st' !! i = Some j.
Proof.
  intros (n & _ & H)%res_bind_Ok Hj Hs.
  destruct (min_by _ _) as [job|] eqn:Hmin; [|by injection H as <- _].
  apply min_by_Some in Hmin as [Hin _]; [|eauto..].
  apply list_elem_of_filter in Hin as [(Hq & _) [id Hid]%elem_of_all_jobs].
  injection H as <- _. simpl. destruct (so_rows _ _ Hok _ _ Hid) as [<- _].
  rewrite lookup_insert_ne; [done|]. intros <-. congruence.
Qed.

Lemma enqueue_frame owner command key st' r i j :
  enqueue st clock owner command key = Ok (st', r) →
  st_jobs st !! i = Some j → st_jobs st' !! i = Some j.
Proof.
  intros (n & _ & [_ H]%raise_if_bind_Ok)%res_bind_Ok Hj.
  destruct (filter _ _); [|by apply raise_if_bind_Ok in H as [_ [= <- _]]].
  apply res_bind_Ok in H as (? & _ & H). apply res_bind_Ok in H as (_ & _ & [= <- _]). simpl.
  rewrite lookup_insert_ne; [done|]. destruct (so_rows _ _ Hok _ _ Hj) as (_ & ? & _). lia.
Qed.

Lemma reclaim_frame locked limit st' r i j e :
  reclaim_expired st clock locked limit = Ok (st', r) →
  st_jobs st !! i = Some j → job_lease_expires_at j = Some e → instant clock < e →
  st_jobs st' !! i = Some j.
Proof.
  intros Hrun Hj He Hlt.
  apply (reclaim_refines st clock Hok) in Hrun
    as [->|(k & Hk & (_ & (e' & He' & Hle) & _) & _ & ->)]; [done|].
  simpl. rewrite reclaim_row_id, lookup_insert_ne; [done|]. intros <-.
  rewrite Hk in Hj. injection Hj as ->. rewrite He in He'. injection He' as <-. lia.
Qed.

End frames.

(** A service call is the repository call behind checks of its arguments. *)
Ltac service_ok H :=
  simpl in H; apply res_bind_Ok in H as ([? ?] & H & [= <-]);
  unfold JobService.service_enqueue, JobService.service_claim, JobService.service_heartbeat,
    JobService.service_complete, JobService.service_retry, JobService.service_cancel,
    JobService.service_reclaim_expired, JobService.positive_job_id in H; rewrite ?raise_if_bind_Ok in H; simpl;
  repeat match type of H with _ ∧ _ => destruct H as [_ H] end.

(** The calls that a lease lets through while it lasts. *)
Definition lease_allows (j : BackgroundJob) (c : job_call) : bool :=
  match c with
  | call_heartbeat id command =>
      (id =? job_id j) && bool_decide (job_lease_owner j = Some (hb_worker_id command))
  | call_complete id command =>
      (id =? job_id j) && bool_decide (job_lease_owner j = Some (cp_worker_id command))
  | call_retry id command =>
      (id =? job_id j) && bool_decide (job_lease_owner j = Some (rt_worker_id command))
  | call_cancel owner id => (id =? job_id j) && (owner =? job_owner_id j)
  | call_enqueue _ _ _ | call_claim _ _ | call_reclaim _ _ => false
  end.

(** C2. Leases are exclusive: while the lease of a running job has not expired,
    the only calls that change its row are a heartbeat, a completion or a
    failure report by the worker that holds the lease, and a cancellation by
    the owner of the job.  No other worker can claim it, and it is not
    reclaimed. *)
Theorem lease_is_exclusive owners now st clock c st' id j expires :
  reachable owners now st → now ≤ instant clock → call_valid c = true →
  run_call st clock c = Ok st' →
  st_jobs st !! id = Some j → job_state j = running → job_lease_expires_at j = Some expires →
  instant clock < expires → lease_allows j c = false →
  st_jobs st' !! id = Some j.
Proof.
  intros Hr Hle Hc Hrun Hj Hs He Hlt Hno. apply reachable_ok in Hr.
  eapply store_ok_mono in Hr; [|exact Hle]. destruct (so_rows _ _ Hr _ _ Hj) as (<- & _).
  destruct c as [| |i cmd|i cmd|i cmd|owner i|]; service_ok Hrun.
  - by eapply enqueue_frame.
  - by eapply claim_frame.
  - apply heartbeat_frame in Hrun as [(k & Hk & Hw) Hf]; [|done].
    rewrite Hf; [done|]. intros <-. simpl in Hno. bool_prop. naive_solver.
  - apply complete_frame in Hrun as [(k & Hk & Hw) Hf]; [|done].
    rewrite Hf; [done|]. intros <-. simpl in Hno. bool_prop. naive_solver.
  - apply retry_frame in Hrun as [(k & Hk & Hw) Hf]; [|done].
    rewrite Hf; [done|]. intros <-. simpl in Hno. bool_prop. naive_solver.
  - apply cancel_frame in Hrun as [(k & Hk & Hw) Hf]; [|done].
    rewrite Hf; [done|]. intros <-. simpl in Hno. bool_prop. naive_solver.
  - by eapply reclaim_frame.
Qed.

(** C4. A claim takes the best job: of the rows that are queued, due, under
    their attempt limit, of a requested kind and not locked, it leases the one
    the claim policy orders first (highest priority, then earliest available,
    then lowest id), for exactly the requested time, and it takes none only
    when there is none. *)
Theorem claim_takes_best st clock locked command st' r :
  claim st clock locked command = Ok (st', r) →
  let eligible := filter (claimable (instant clock) (cl_kinds command) locked) (all_jobs st) in
  let candidate j := MkCandidate (job_id j) (job_priority j) (job_available_at j) in
  match r with
  | None => st' = st ∧ eligible = []
  | Some current =>
      ∃ job, job ∈ eligible ∧
        head (order_claim_candidates (map candidate eligible)) = Some (candidate job) ∧
        (∀ j, j ∈ eligible →
           job_priority j < job_priority job ∨
           (job_priority j = job_priority job ∧
            (job_available_at job < job_available_at j ∨
             (job_available_at job = job_available_at j ∧ job_id job ≤ job_id j)))) ∧
        st_jobs st' !! job_id job = Some current ∧
        job_id current = job_id job ∧ job_state current = running ∧
        job_attempt_count current = job_attempt_count job + 1 ∧
        job_lease_owner current = Some (cl_worker_id command) ∧
        job_lease_expires_at current = Some (instant clock + seconds (cl_lease_seconds command))
  end.
Proof.
  intros (n & [_ ->]%repository_now_Ok & H)%res_bind_Ok. simpl.
  destruct (min_by _ _) as [job|] eqn:Hmin; injection H as <- <-.
  - exists job. pose proof Hmin as [Hin Hbest]%min_by_Some; [|eauto..].
    repeat split; try done.
    + unfold order_claim_candidates. rewrite (sort_by_map (key_leb claim_key)) by done.
      unfold min_by in Hmin. by destruct (sort_by _ _) as [|x l]; [|injection Hmin as ->].
    + intros j Hj. specialize (Hbest j Hj). unfold key_leb, claim_key in Hbest.
      rewrite !lex_leb_cons in Hbest. lia.
    + simpl. apply lookup_insert_eq.
  - split; [done|]. by apply min_by_None in Hmin.
Qed.

Lemma claim_takes_best_witness :
  let p := MkPayload 7 None in
  let row id prio := MkJob id 1 "sync" p prio queued "k" 0 0 3 None None None None 0 0 None None in
  let st := MkStore {[1]} {[1 := row 1 10; 2 := row 2 50; 3 := row 3 50]} 4 [] in
  ∃ st' r, claim st (DateTime 5 (Some 0)) {[2]} (MkClaim "w" ["sync"%string] 60) = Ok (st', Some r) ∧
    job_id r = 3 ∧ job_lease_owner r = Some "w"%string.
Proof.
  intros p row st.
  assert (∃ st' r, claim st (DateTime 5 (Some 0)) {[2]} (MkClaim "w" ["sync"%string] 60)
                   = Ok (st', Some r) ∧ job_id r = 3) as (st' & r & Hc & Hid)
    by (eexists _, _; split; reflexivity).
  destruct (claim_takes_best _ _ _ _ _ _ Hc) as (job & _ & _ & _ & _ & _ & _ & _ & Hw & _).
  by exists st', r.
Defined.

Lemma live_not_final s : s ∈ [queued; running] → s ∈ [succeeded; failed; canceled] → False.
Proof. destruct s; set_solver. Qed.

Lemma store_step_terminal now st st' id j :
  store_ok now st → store_step now st st' →
  st_jobs st !! id = Some j → job_state j ∈ [succeeded; failed; canceled] →
  st_jobs st' !! id = Some j ∧
  filter (λ e, oe_aggregate_id e = id) (st_outbox st') =
  filter (λ e, oe_aggregate_id e = id) (st_outbox st).
Proof.
  intros Hok Hstep Hj Hs. destruct (so_rows _ _ Hok _ _ Hj) as (Hid & Hnext & _).
  destruct Hstep as [owner command key Hv Hnew|i k k' event Hk Hrow].
  - simpl. rewrite lookup_insert_ne, filter_app by lia. split; [done|].
    rewrite filter_cons_False by (simpl; lia). by rewrite app_nil_r.
  - destruct (so_rows _ _ Hok _ _ Hk) as (<- & _).
    destruct (row_step_state _ _ _ _ Hrow) as (Hlive & _ & Hid' & _).
    assert (job_id k ≠ id) as Hne by (intros <-; rewrite Hj in Hk; injection Hk as <-; by eapply live_not_final).
    destruct event; simpl; rewrite lookup_insert_ne by lia; [|done].
    rewrite filter_app, filter_cons_False by (simpl; lia). by rewrite app_nil_r.
Qed.

(** C10. A finished job stays as it is: once a job has succeeded, failed or been
    canceled, no call of the service changes its row or announces anything
    about it. *)
Theorem finished_jobs_are_final owners now st clock c st' id j :
  reachable owners now st → now ≤ instant clock → call_valid c = true →
  run_call st clock c = Ok st' →
  st_jobs st !! id = Some j → job_state j ∈ [succeeded; failed; canceled] →
  st_jobs st' !! id = Some j ∧
  filter (λ e, oe_aggregate_id e = id) (st_outbox st') =
  filter (λ e, oe_aggregate_id e = id) (st_outbox st).
Proof.
  intros Hr Hle Hc Hrun Hj Hs. apply reachable_ok in Hr. eapply store_ok_mono in Hr; [|exact Hle].
  pose proof (run_call_steps _ _ _ _ Hr Hc Hrun) as Hsteps. clear Hrun.
  induction Hsteps as [|st st1 st2 Hstep _ IH]; [done|].
  destruct (store_step_terminal _ _ _ _ _ Hr Hstep Hj Hs) as [Hj1 <-].
  apply IH; [done|]. eapply store_steps_ok; [exact Hr|by apply rtc_once].
Qed.

(** The claims of a job that the outbox has announced. *)
Definition claims (id : Z) (st : Store) : list OutboxEvent :=
  filter (λ e, oe_aggregate_id e = id ∧ oe_event_type e = "background_job.running"%string) (st_outbox st).

Definition claims_counted (st : Store) : Prop :=
  (∀ id j, st_jobs st !! id = Some j → Z.of_nat (length (claims id st)) = job_attempt_count j) ∧
  (∀ id, st_next_id st ≤ id → claims id st = []).

Lemma claims_app id st l :
  filter (λ e, oe_aggregate_id e = id ∧ oe_event_type e = "background_job.running"%string) (st_outbox st ++ l)
  = claims id st ++
    filter (λ e, oe_aggregate_id e = id ∧ oe_event_type e = "background_job.running"%string) l.
Proof. apply filter_app. Qed.

Lemma row_step_attempts now j j' event :
  row_step now j j' event →
  job_attempt_count j' =
  job_attempt_count j + (if bool_decide (event = Some "background_job.running"%string) then 1 else 0).
Proof.
  intros Hs. inversion Hs; subst;
    first [rewrite bool_decide_eq_true_2 by done | rewrite bool_decide_eq_false_2 by done]; simpl; lia.
Qed.

Lemma store_step_claims now st st' :
  store_ok now st → store_step now st st' → claims_counted st → claims_counted st'.
Proof.
  intros Hok Hstep [Hcount Hnone].
  destruct Hstep as [owner command key Hv Hnew|i k k' event Hk Hrow]; unfold claims_counted, claims.
  - simpl. setoid_rewrite claims_app.
    setoid_rewrite (filter_cons_False _ _ []); [|by intros [_ ?]..].
    setoid_rewrite app_nil_r. split.
    + intros id j [[<- <-]|[_ Hj]]%lookup_insert_Some; [|by apply Hcount].
      by rewrite Hnone.
    + intros id Hid. apply Hnone. lia.
  - destruct (so_rows _ _ Hok _ _ Hk) as (<- & Hnext & _).
    destruct (row_step_state _ _ _ _ Hrow) as (_ & _ & Hid' & _).
    pose proof (row_step_attempts _ _ _ _ Hrow) as Hatt. 
    destruct event as [ty|]; simpl.
    + setoid_rewrite claims_app. split.
      * intros id j [[<- <-]|[Hne Hj]]%lookup_insert_Some.
        -- rewrite length_app, Nat2Z.inj_add, Hid', (Hcount _ k), Hatt, filter_cons by done. simpl.
           case_bool_decide; case_decide; simpl; naive_solver lia.
        -- rewrite filter_cons_False by naive_solver. rewrite app_nil_r. by apply Hcount.
      * intros id Hid. rewrite Hnone by done. rewrite filter_cons_False; [done|]. simpl. lia.
    + split; [|done]. intros id j [[<- <-]|[Hne Hj]]%lookup_insert_Some; [|by apply Hcount].
      rewrite Hid'. rewrite Hatt. case_bool_decide; [done|]. rewrite Z.add_0_r. by apply Hcount.
Qed.

Lemma reachable_claims owners now st : reachable owners now st → claims_counted st.
Proof.
  induction 1 as [|now st clock c st' Hr IH Hle Hc Hrun]; [by split|].
  apply reachable_ok in Hr. eapply store_ok_mono in Hr; [|exact Hle].
  pose proof (run_call_steps _ _ _ _ Hr Hc Hrun) as Hsteps. clear Hrun.
  induction Hsteps as [|st st1 st2 Hstep _ IHs]; [done|].
  apply IHs; [by eapply store_step_claims|]. eapply store_steps_ok; [exact Hr|by apply rtc_once].
Qed.

(** C9. Attempts are bounded and announced: over any history of calls, a job has
    been claimed exactly as many times as its attempt count says, each claim
    with its own outbox event, and never more often than its attempt limit,
    which is at most 100. *)
Theorem attempts_are_bounded owners now st id j :
  reachable owners now st → st_jobs st !! id = Some j →
  Z.of_nat (length (claims id st)) = job_attempt_count j ∧
  job_attempt_count j ≤ job_max_attempts j ≤ 100 ∧ NoDup (map oe_idempotency_key (claims id st)).
Proof.
  intros Hr Hj. split; [by apply (proj1 (reachable_claims _ _ _ Hr))|].
  apply reachable_ok in Hr. destruct (so_rows _ _ Hr _ _ Hj) as (_ & _ & Hv & _).
  apply validate_coherent in Hv. pose proof (co_attempts _ Hv). pose proof (co_max _ Hv).
  split; [lia|]. eapply sublist_NoDup; [apply (so_keys _ _ Hr)|].
  apply (fmap_sublist oe_idempotency_key), sublist_filter.
Qed.

(** *** Idempotency keys over a history *)

Inductive later (now : Z) (st : Store) : Z → Store → Prop :=
  | later_now : later now st now st
  | later_call t1 st1 clock c st2 :
      later now st t1 st1 → t1 ≤ instant clock → call_valid c = true →
      run_call st1 clock c = Ok st2 → later now st (instant clock) st2.

(** The columns no call changes. *)
Definition static_columns (j : BackgroundJob) :=
  (job_id j, job_owner_id j, job_kind j, job_payload j, job_priority j,
   job_idempotency_key j, job_max_attempts j).

Lemma store_step_static now st st' id j :
  store_ok now st → store_step now st st' → st_jobs st !! id = Some j →
  st_owners st' = st_owners st ∧
  ∃ j', st_jobs st' !! id = Some j' ∧ static_columns j' = static_columns j.
Proof.
  intros Hok Hstep Hj. destruct (so_rows _ _ Hok _ _ Hj) as (Hid & Hnext & _).
  destruct Hstep as [owner command key Hv Hnew|i k k' event Hk Hrow].
  - simpl. split; [done|]. exists j. by rewrite lookup_insert_ne by lia.
  - split; [by destruct event|].
    destruct (so_rows _ _ Hok _ _ Hk) as (<- & _).
    assert (static_columns k' = static_columns k ∧ job_id k' = job_id k) as [Hst Hid']
      by (by inversion Hrow; subst).
    assert (st_jobs (announce (update_job st k') k' now event) = <[job_id k' := k']> (st_jobs st))
      as -> by (by destruct event).
    destruct (decide (job_id k = id)) as [<-|Hne].
    + exists k'. rewrite Hid', lookup_insert_eq. split; [done|]. congruence.
    + exists j. by rewrite Hid', lookup_insert_ne.
Qed.

Lemma store_steps_static now st st' id j :
  store_ok now st → store_steps now st st' → st_jobs st !! id = Some j →
  st_owners st' = st_owners st ∧
  ∃ j', st_jobs st' !! id = Some j' ∧ static_columns j' = static_columns j.
Proof.
  intros Hok Hsteps. revert j. induction Hsteps as [|st st1 st2 Hstep _ IH]; intros j Hj; [by eauto|].
  destruct (store_step_static _ _ _ _ _ Hok Hstep Hj) as (<- & j1 & Hj1 & <-).
  apply IH; [|done]. eapply store_steps_ok; [exact Hok|by apply rtc_once].
Qed.

Lemma later_static now st now' st' id j :
  store_ok now st → later now st now' st' → st_jobs st !! id = Some j →
  store_ok now' st' ∧ st_owners st' = st_owners st ∧
  ∃ j', st_jobs st' !! id = Some j' ∧ static_columns j' = static_columns j.
Proof.
  intros Hok Hl Hj. induction Hl as [|t1 st1 clock c st2 _ IH Hle Hc Hrun]; [by eauto|].
  destruct IH as (Hok1 & <- & j1 & Hj1 & <-). eapply store_ok_mono in Hok1; [|exact Hle].
  pose proof (run_call_steps _ _ _ _ Hok1 Hc Hrun) as Hsteps.
  split; [by eapply store_steps_ok|]. by eapply store_steps_static.
Qed.

(** The row a key finds is the one that carries it. *)
Lemma enqueue_existing st now clock owner command key id j :
  store_ok now st → aware clock = true → owner ∈ st_owners st →
  st_jobs st !! id = Some j → job_owner_id j = owner → job_idempotency_key j = key →
  enqueue st clock owner command key =
  if same_enqueue j command then Ok (st, MkEnqueueResult j true)
  else Err (JobConflict "Idempotency-Key was reused for another job").
Proof.
  intros Hok Hcl Hown Hj Ho Hk. unfold enqueue, repository_now. rewrite Hcl. simpl.
  rewrite bool_decide_eq_false_2 by naive_solver. simpl.
  destruct (filter _ _) as [|existing l] eqn:Hf.
  - exfalso. assert (j ∈ []) as []%elem_of_nil. rewrite <- Hf. apply list_elem_of_filter.
    split; [done|]. apply elem_of_all_jobs. eauto.
  - assert (existing ∈ existing :: l) as He by left.
    rewrite <- Hf in He. apply list_elem_of_filter in He as [[Ho' Hk'] [i Hi]%elem_of_all_jobs].
    assert (i = id) as -> by (eapply (so_idempotent _ _ Hok); [done..|congruence|congruence]).
    rewrite Hj in Hi. injection Hi as <-. by destruct (same_enqueue j command).
Qed.

Lemma enqueue_result st clock owner command key st1 r :
  store_ok (instant clock) st → enqueue st clock owner command key = Ok (st1, r) →
  owner ∈ st_owners st ∧ st_jobs st1 !! job_id (er_job r) = Some (er_job r) ∧
  job_owner_id (er_job r) = owner ∧ job_idempotency_key (er_job r) = key ∧
  same_enqueue (er_job r) command = true.
Proof.
  intros Hok (n & _ & [Ho%bool_decide_eq_false H]%raise_if_bind_Ok)%res_bind_Ok.
  split; [by destruct (decide (owner ∈ st_owners st))|].
  destruct (filter _ _) as [|existing l] eqn:Hf.
  - apply res_bind_Ok in H as (payload & [_ [= <-]]%raise_if_bind_Ok & H).
    apply res_bind_Ok in H as (_ & _ & [= <- <-]). simpl. rewrite lookup_insert_eq.
    unfold same_enqueue. simpl. rewrite !String.eqb_refl, !Z.eqb_refl.
    by rewrite bool_decide_eq_true_2.
  - apply raise_if_bind_Ok in H as [Hs%negb_false_iff [= <- <-]].
    assert (existing ∈ existing :: l) as He by left.
    rewrite <- Hf in He. apply list_elem_of_filter in He as [[Ho' Hk'] [i Hi]%elem_of_all_jobs].
    simpl. unfold response. by destruct (so_rows _ _ Hok _ _ Hi) as [-> _].
Qed.

Lemma enqueue_keeps_owners st clock owner command key st1 r :
  enqueue st clock owner command key = Ok (st1, r) → st_owners st1 = st_owners st.
Proof.
  intros (n & _ & [_ H]%raise_if_bind_Ok)%res_bind_Ok. destruct (filter _ _).
  - apply res_bind_Ok in H as (? & _ & H). by apply res_bind_Ok in H as (_ & _ & [= <- _]).
  - by apply raise_if_bind_Ok in H as [_ [= <- _]].
Qed.

Lemma enqueue_steps st clock owner command key st1 r :
  store_ok (instant clock) st → JobService.service_enqueue st clock owner command key = Ok (st1, r) →
  store_steps (instant clock) st st1 ∧ store_ok (instant clock) st1 ∧
  st_jobs st1 !! job_id (er_job r) = Some (er_job r) ∧ same_enqueue (er_job r) command = true.
Proof.
  intros Hok Henq. unfold JobService.service_enqueue in Henq. rewrite !raise_if_bind_Ok in Henq.
  destruct Henq as (_ & _ & Henq).
  destruct (enqueue_result _ _ _ _ _ _ _ Hok Henq) as (_ & Hj & _ & _ & Hsame).
  assert (store_steps (instant clock) st st1) as Hsteps.
  { destruct (enqueue_refines _ _ _ _ _ _ _ Henq) as [?| ->]; [by apply rtc_once|apply rtc_refl]. }
  split; [done|]. split; [by eapply store_steps_ok|done].
Qed.

(** What a second enqueue under a key answers, whatever happened since. *)
Lemma enqueue_replayed st clock owner command key st1 r t2 st2 clock2 command2 :
  store_ok (instant clock) st →
  JobService.service_enqueue st clock owner command key = Ok (st1, r) →
  later (instant clock) st1 t2 st2 → t2 ≤ instant clock2 → aware clock2 = true →
  ∃ j, st_jobs st2 !! job_id (er_job r) = Some j ∧
    JobService.service_enqueue st2 clock2 owner command2 key =
      (if same_enqueue j command2 then Ok (st2, MkEnqueueResult j true)
       else Err (JobConflict "Idempotency-Key was reused for another job")) ∧
    (same_enqueue j command = true ↔ job_available_at j = eq_available_at command).
Proof.
  intros Hr Henq Hl Hle2 Hcl.
  destruct (enqueue_steps _ _ _ _ _ _ _ Hr Henq) as (_ & Hok1 & _).
  unfold JobService.service_enqueue in *. rewrite !raise_if_bind_Ok in Henq.
  destruct Henq as (Howner & Hkey & Henq). rewrite Howner, Hkey. simpl.
  destruct (enqueue_result _ _ _ _ _ _ _ Hr Henq) as (Hown & Hj & Ho & Hk & Hsame).
  destruct (later_static _ _ _ _ _ _ Hok1 Hl Hj) as (Hok2 & Hown2 & j & Hj2 & Hstat).
  unfold static_columns in Hstat. injection Hstat as Hid Howj Hkind Hpay Hprio Hkeyj Hmax.
  exists j. split; [done|]. split.
  - apply (enqueue_existing _ t2 _ _ _ _ (job_id (er_job r))); try done; try congruence.
    rewrite Hown2. apply enqueue_keeps_owners in Henq. by rewrite Henq.
  - unfold same_enqueue in *. rewrite Hkind, Hpay, Hprio, Hmax. bool_prop. naive_solver.
Qed.

Lemma later_trans t1 st1 t2 st2 t3 st3 :
  later t1 st1 t2 st2 → later t2 st2 t3 st3 → later t1 st1 t3 st3.
Proof. intros H12 H23. induction H23; [done|]. by eapply later_call. Qed.

(** C8. Enqueueing is idempotent for as long as the job lives: after a successful
    enqueue under a key, whatever calls follow, the same owner's next enqueue
    under that key creates nothing.  It returns the job that the first one
    returned when the request still matches the stored row, and is refused as
    a conflict otherwise; and the first request itself still matches exactly
    when no retry has moved the row's [available_at]. *)
Theorem enqueue_is_idempotent owners t0 st clock owner command key st1 r t2 st2 clock2 command2 :
  reachable owners t0 st → t0 ≤ instant clock →
  JobService.service_enqueue st clock owner command key = Ok (st1, r) →
  later (instant clock) st1 t2 st2 → t2 ≤ instant clock2 → aware clock2 = true →
  ∃ j, st_jobs st2 !! job_id (er_job r) = Some j ∧
    JobService.service_enqueue st2 clock2 owner command2 key =
      (if same_enqueue j command2 then Ok (st2, MkEnqueueResult j true)
       else Err (JobConflict "Idempotency-Key was reused for another job")) ∧
    (same_enqueue j command = true ↔ job_available_at j = eq_available_at command).
Proof.
  intros Hr Hle Henq Hl Hle2 Hcl. apply reachable_ok in Hr. eapply store_ok_mono in Hr; [|exact Hle].
  by eapply enqueue_replayed.
Qed.

(** *** When a job is due

    A running job was due when it was claimed, so no move brings a job's
    [available_at] forward. *)
Definition claimed_when_due (now : Z) (st : Store) : Prop :=
  ∀ id j, st_jobs st !! id = Some j → job_state j = running → job_available_at j ≤ now.

Lemma row_step_available now j j' event :
  row_step now j j' event → (job_state j = running → job_available_at j ≤ now) →
  job_available_at j ≤ job_available_at j' ∧ (job_state j' = running → job_available_at j' ≤ now).
Proof.
  intros Hstep Hdue. inversion Hstep; subst; simpl; try (split; [lia|]; done || (by intros; apply Hdue)).
  split; [|done]. specialize (Hdue H). lia.
Qed.

Lemma store_step_available now st st' :
  store_ok now st → store_step now st st' → claimed_when_due now st →
  claimed_when_due now st' ∧
  ∀ id j, st_jobs st !! id = Some j →
    ∃ j', st_jobs st' !! id = Some j' ∧ job_available_at j ≤ job_available_at j'.
Proof.
  intros Hok Hstep Hdue. destruct Hstep as [owner command key Hv Hnew|i k k' event Hk Hrow].
  - split; simpl.
    + intros id j. simpl. intros [[<- <-]|[_ Hj]]%lookup_insert_Some; [done|by eapply Hdue].
    + intros id j Hj. exists j. destruct (so_rows _ _ Hok _ _ Hj) as (_ & ? & _).
      by rewrite lookup_insert_ne by lia.
  - destruct (row_step_available _ _ _ _ Hrow (Hdue _ _ Hk)) as [Hav Hrun].
    destruct (so_rows _ _ Hok _ _ Hk) as (<- & _).
    destruct (row_step_state _ _ _ _ Hrow) as (_ & _ & Hid & _).
    unfold claimed_when_due.
    assert (st_jobs (announce (update_job st k') k' now event) = <[job_id k := k']> (st_jobs st))
      as -> by (rewrite <- Hid; by destruct event).
    split.
    + intros id j.
      intros [[<- <-]|[_ Hj]]%lookup_insert_Some; [done|]. by apply (Hdue id).
    + intros id j Hj. destruct (decide (job_id k = id)) as [<-|Hne].
      * rewrite Hk in Hj. injection Hj as <-. exists k'. by rewrite lookup_insert_eq.
      * exists j. by rewrite lookup_insert_ne.
Qed.

Lemma store_steps_available now st st' :
  store_ok now st → store_steps now st st' → claimed_when_due now st →
  claimed_when_due now st' ∧
  ∀ id j, st_jobs st !! id = Some j →
    ∃ j', st_jobs st' !! id = Some j' ∧ job_available_at j ≤ job_available_at j'.
Proof.
  intros Hok Hsteps. induction Hsteps as [|st st1 st2 Hstep _ IH]; intros Hdue;
    [split; [done|]; intros id j Hj; by exists j|].
  destruct (store_step_available _ _ _ Hok Hstep Hdue) as [Hdue1 Hav1].
  destruct IH as [Hdue2 Hav2]; [eapply store_steps_ok; [exact Hok|by apply rtc_once]|done|].
  split; [done|]. intros id j Hj. destruct (Hav1 _ _ Hj) as (j1 & Hj1 & ?).
  destruct (Hav2 _ _ Hj1) as (j2 & Hj2 & ?). exists j2. split; [done|lia].
Qed.

Lemma claimed_when_due_mono now now' st :
  now ≤ now' → claimed_when_due now st → claimed_when_due now' st.
Proof. intros Hle Hdue id j Hj Hs. specialize (Hdue id j Hj Hs). lia. Qed.

Lemma later_available now st now' st' :
  store_ok now st → claimed_when_due now st → later now st now' st' →
  store_ok now' st' ∧ claimed_when_due now' st' ∧
  ∀ id j, st_jobs st !! id = Some j →
    ∃ j', st_jobs st' !! id = Some j' ∧ job_available_at j ≤ job_available_at j'.
Proof.
  intros Hok Hdue Hl. induction Hl as [|t1 st1 clock c st2 _ IH Hle Hc Hrun];
    [do 2 (split; [done|]); intros id j Hj; by exists j|].
  destruct IH as (Hok1 & Hdue1 & Hav1). eapply store_ok_mono in Hok1; [|exact Hle].
  eapply claimed_when_due_mono in Hdue1; [|exact Hle].
  pose proof (run_call_steps _ _ _ _ Hok1 Hc Hrun) as Hsteps.
  destruct (store_steps_available _ _ _ Hok1 Hsteps Hdue1) as [Hdue2 Hav2].
  split; [by eapply store_steps_ok|]. split; [done|]. intros id j Hj.
  destruct (Hav1 _ _ Hj) as (j1 & Hj1 & ?). destruct (Hav2 _ _ Hj1) as (j2 & Hj2 & ?).
  exists j2. split; [done|lia].
Qed.

Lemma reachable_later owners now st :
  reachable owners now st → ∃ t0, later t0 (MkStore owners ∅ 1 []) now st.
Proof.
  induction 1 as [now|now st clock c st' _ [t0 IH] Hle Hc Hrun]; [exists now; constructor|].
  exists t0. by eapply later_call.
Qed.

Lemma reachable_due owners now st : reachable owners now st → claimed_when_due now st.
Proof.
  intros [t0 Hl]%reachable_later. eapply later_available in Hl as (_ & Hdue & _);
    [done|apply empty_store_ok|done].
Qed.

(** A failure report that puts a job back in the queue moves it to a later time
    than the worker's, unless the worker asked for no delay. *)
Lemma retry_moves_available st clock id command st' r :
  store_ok (instant clock) st → valid_retry command = true →
  retry st clock id command = Ok (st', r) → rr_disposition r = retry_wait →
  jf_retry_after_seconds (rt_failure command) ≠ Some 0 →
  ∃ job current, st_jobs st !! id = Some job ∧ job_state job = running ∧
    st_jobs st' !! id = Some current ∧ instant clock < job_available_at current.
Proof.
  intros Hok Hv (n & [_ ->]%repository_now_Ok & H)%res_bind_Ok Hret Hnz.
  apply res_bind_Ok in H as ([job e] & (Hj & Hs & _)%running_job_Ok & H).
  apply res_bind_Ok in H as (d & (_ & Ha & _)%retry_disposition_Ok & H).
  destruct (so_rows _ _ Hok _ _ Hj) as (Hid & _).
  destruct d; injection H as <- <-; [|done].
  exists job. eexists. split; [done|]. split; [done|]. simpl. rewrite Hid, lookup_insert_eq.
  split; [reflexivity|]. simpl. unfold retry_delay, seconds, us_per_second.
  unfold valid_retry, valid_failure, opt_in_range, in_range in Hv.
  destruct (jf_retry_after_seconds _) as [delay|]; bool_prop.
  - assert (delay ≠ 0) by (by intros ->). lia.
  - assert (2 ^ 0 ≤ 2 ^ (job_attempt_count job - 1)) by (apply Z.pow_le_mono_r; lia). lia.
Qed.

(** C12. A retry takes the idempotency of an enqueue away: after an enqueue, any
    calls, and a failure report that puts its job back in the queue with a
    delay, the very request that created the job is refused as a conflict,
    whatever calls follow: the stored [available_at] that the replay is
    compared with is no longer the request's. *)
Theorem replay_after_retry_conflicts owners t0 st clock owner command key st1 r t2 st2 clock2
    failure st3 rr t4 st4 clock4 :
  reachable owners t0 st → t0 ≤ instant clock →
  JobService.service_enqueue st clock owner command key = Ok (st1, r) →
  later (instant clock) st1 t2 st2 → t2 ≤ instant clock2 → valid_retry failure = true →
  JobService.service_retry st2 clock2 (job_id (er_job r)) failure = Ok (st3, rr) →
  rr_disposition rr = retry_wait → jf_retry_after_seconds (rt_failure failure) ≠ Some 0 →
  later (instant clock2) st3 t4 st4 → t4 ≤ instant clock4 → aware clock4 = true →
  JobService.service_enqueue st4 clock4 owner command key =
    Err (JobConflict "Idempotency-Key was reused for another job").
Proof.
  intros Hr Hle Henq Hl Hle2 Hvalid Hretry Hd Hnz Hl4 Hle4 Hcl.
  pose proof (reachable_due _ _ _ Hr) as Hdue. apply reachable_ok in Hr.
  eapply store_ok_mono in Hr; [|exact Hle]. eapply claimed_when_due_mono in Hdue; [|exact Hle].
  destruct (enqueue_steps _ _ _ _ _ _ _ Hr Henq) as (Hsteps1 & Hok1 & Hj1 & Hsame).
  destruct (store_steps_available _ _ _ Hr Hsteps1 Hdue) as [Hdue1 _].
  destruct (later_available _ _ _ _ Hok1 Hdue1 Hl) as (Hok2 & Hdue2 & Hav2).
  eapply store_ok_mono in Hok2; [|exact Hle2]. eapply claimed_when_due_mono in Hdue2; [|exact Hle2].
  assert (run_call st2 clock2 (call_retry (job_id (er_job r)) failure) = Ok st3) as Hcall
    by (simpl; by rewrite Hretry).
  pose proof (run_call_steps _ _ (call_retry _ _) _ Hok2 Hvalid Hcall) as Hsteps3.
  destruct (store_steps_available _ _ _ Hok2 Hsteps3 Hdue2) as [Hdue3 _].
  destruct (later_available _ _ _ _ (store_steps_ok _ _ _ Hok2 Hsteps3) Hdue3 Hl4) as (_ & _ & Hav4).
  destruct (enqueue_replayed st clock owner command key st1 r t4 st4 clock4 command)
    as (j4 & Hj4 & -> & Hiff); [done..| |done|done|].
  { eapply later_trans; [|exact Hl4]. by eapply (later_call _ _ _ _ _ (call_retry _ _)). }
  unfold JobService.service_retry in Hretry. apply res_bind_Ok in Hretry as ([] & _ & Hretry).
  destruct (retry_moves_available _ _ _ _ _ _ Hok2 Hvalid Hretry Hd Hnz)
    as (job & current & Hjob & Hrun & Hcurrent & Hlater).
  specialize (Hdue2 _ _ Hjob Hrun). destruct (Hav2 _ _ Hj1) as (j2 & Hj2 & ?).
  rewrite Hjob in Hj2. injection Hj2 as <-.
  destruct (Hav4 _ _ Hcurrent) as (j4' & Hj4' & ?). rewrite Hj4 in Hj4'. injection Hj4' as <-.
  unfold same_enqueue in Hsame. bool_prop.
  destruct (same_enqueue j4 command); [|done]. destruct Hiff as [Hiff _]. specialize (Hiff eq_refl). lia.
Qed.

(** C7. A failure report by the worker that holds the lease always succeeds and
    follows the retry policy: a retryable category with attempts left puts the
    job back in the queue without a lease, due after the requested delay or
    after an exponential backoff between 5 and 300 seconds; anything else
    fails it for good.  The typed error is stored either way. *)
Theorem retry_follows_policy owners t0 st clock id command job expires :
  reachable owners t0 st → t0 ≤ instant clock → aware clock = true → valid_retry command = true →
  st_jobs st !! id = Some job → job_state job = running →
  job_lease_owner job = Some (rt_worker_id command) →
  job_lease_expires_at job = Some expires → instant clock < expires →
  ∃ st' current, let failure := rt_failure command in
    let again := str_in (jf_category failure) RETRYABLE_CATEGORIES
                 && (job_attempt_count job <? job_max_attempts job) in
    retry st clock id command =
      Ok (st', MkRetryResult current (if again then retry_wait else needs_attention)) ∧
    st_jobs st' !! id = Some current ∧ job_lease_owner current = None ∧
    job_last_error_category current = Some (jf_category failure) ∧
    job_attempt_count current = job_attempt_count job ∧
    (if again then
       job_state current = queued ∧
       ∃ delay, job_available_at current = instant clock + seconds delay ∧
         match jf_retry_after_seconds failure with
         | Some d => delay = d
         | None => delay = Z.min 300 (5 * 2 ^ (job_attempt_count job - 1)) ∧ 5 ≤ delay ≤ 300
         end
     else job_state current = failed ∧ job_completed_at current = Some (instant clock)).
Proof.
  intros Hr Hle Hcl Hv Hj Hs Hw He Hlt. apply reachable_ok in Hr.
  destruct (so_rows _ _ Hr _ _ Hj) as (<- & _ & Hc & _). apply validate_coherent in Hc.
  pose proof (co_attempts _ Hc). pose proof (co_max _ Hc).
  pose proof (co_state _ Hc) as Hst. rewrite Hs in Hst. destruct Hst as (Hn & _).
  unfold valid_retry, valid_failure in Hv. bool_prop.
  assert (repository_now clock = Ok (instant clock)) as Hnow by (by apply repository_now_Ok).
  assert (running_job st (job_id job) (rt_worker_id command) (instant clock) = Ok (job, expires))
    as Hrun by (by apply running_job_Ok).
  unfold retry. rewrite Hnow. simpl. rewrite Hrun. simpl.
  assert (∀ d, d = (if str_in (jf_category (rt_failure command)) RETRYABLE_CATEGORIES
                       && (job_attempt_count job <? job_max_attempts job)
                    then retry_wait else needs_attention) →
    retry_disposition (job_attempt_count job) (job_max_attempts job) (jf_category (rt_failure command))
    = Ok d) as Hd.
  { intros d Hd. apply retry_disposition_Ok. split; [by apply str_in_spec|]. split; [lia|].
    split; [lia|done]. }
  rewrite (Hd _ eq_refl). simpl.
  destruct (str_in _ RETRYABLE_CATEGORIES && _); simpl; eexists _, _; (split; [reflexivity|]); simpl;
    rewrite lookup_insert_eq; repeat split; try done.
  exists (retry_delay job (rt_failure command)). split; [done|]. unfold retry_delay.
  destruct (jf_retry_after_seconds _); [done|]. split; [done|].
  assert (2 ^ 0 ≤ 2 ^ (job_attempt_count job - 1)) by (apply Z.pow_le_mono_r; lia). lia.
Qed.

Lemma expiry_key_order x y e e' :
  key_leb expiry_key x y = true →
  job_lease_expires_at x = Some e → job_lease_expires_at y = Some e' →
  e < e' ∨ (e = e' ∧ job_id x ≤ job_id y).
Proof.
  unfold key_leb, expiry_key. intros H Hx Hy. rewrite Hx, Hy in H. simpl default in H.
  apply lex_leb_cons in H as [?|[-> H]]; [by left|]. apply lex_leb_cons in H as [?|[-> _]]; lia.
Qed.

(** The batch has as many rows as there are due ones, up to the limit, and its
    first row is the one whose lease ran out first. *)
Lemma expired_batch_length st now locked limit :
  length (expired_batch st now locked limit) =
  Nat.min (Z.to_nat limit) (length (filter (expired now locked) (all_jobs st))).
Proof. unfold expired_batch. by rewrite length_take, length_sort_by. Qed.

Lemma expired_batch_head st now locked limit job rest :
  expired_batch st now locked limit = job :: rest →
  job ∈ filter (expired now locked) (all_jobs st) ∧
  ∀ j e e', j ∈ filter (expired now locked) (all_jobs st) →
    job_lease_expires_at job = Some e → job_lease_expires_at j = Some e' →
    e < e' ∨ (e = e' ∧ job_id job ≤ job_id j).
Proof.
  unfold expired_batch.
  destruct (sort_by _ _) as [|first others] eqn:Hs; [by rewrite take_nil|].
  destruct (Z.to_nat limit); [done|]. intros [= -> _].
  apply sort_by_head_least in Hs as [Hin Hleast]; [|eauto..].
  split; [done|]. intros j e e' Hj He He'. apply expiry_key_order; auto.
Qed.

(** C11. Reclaiming recovers one lease at most.  Of the running rows whose lease
    has run out and that are not locked it means to take as many as the limit
    admits.  When that is none, nothing changes.  When it is one, the row whose
    lease ran out first is put back in the queue while it has attempts left and
    failed otherwise, its id is reported in the list that says so, and every
    other row stays.  When it is two or more the call raises MissingGreenlet
    and, being one transaction, recovers none. *)
Theorem reclaim_recovers_one_lease owners t0 st clock locked limit :
  reachable owners t0 st → t0 ≤ instant clock → aware clock = true → 1 ≤ limit ≤ 100 →
  let due := filter (expired (instant clock) locked) (all_jobs st) in
  match Nat.min (Z.to_nat limit) (length due) with
  | 0%nat => JobService.service_reclaim_expired st clock locked limit =
               Ok (st, MkReclaimResult [] [])
  | 1%nat => ∃ st' job job', job ∈ due ∧
      (∀ j e e', j ∈ due → job_lease_expires_at job = Some e → job_lease_expires_at j = Some e' →
         e < e' ∨ (e = e' ∧ job_id job ≤ job_id j)) ∧
      JobService.service_reclaim_expired st clock locked limit =
        Ok (st', if job_attempt_count job <? job_max_attempts job
                 then MkReclaimResult [job_id job] [] else MkReclaimResult [] [job_id job]) ∧
      st_jobs st' = <[job_id job := job']> (st_jobs st) ∧
      job_lease_owner job' = None ∧ job_lease_expires_at job' = None ∧
      job_attempt_count job' = job_attempt_count job ∧
      (if job_attempt_count job <? job_max_attempts job
       then job_state job' = queued ∧ job_available_at job' = instant clock
       else job_state job' = failed ∧ job_completed_at job' = Some (instant clock))
  | _ => JobService.service_reclaim_expired st clock locked limit = Err MissingGreenlet
  end.
Proof.
  intros Hr Hle Hcl Hlim due. apply reachable_ok in Hr. eapply store_ok_mono in Hr; [|exact Hle].
  unfold JobService.service_reclaim_expired, in_range.
  rewrite (proj2 (Z.leb_le 1 limit)), (proj2 (Z.leb_le limit 100)) by lia. simpl.
  rewrite (reclaim_expired_cases st clock Hr locked limit Hcl).
  pose proof (expired_batch_length st (instant clock) locked limit) as Hlen. fold due in Hlen.
  rewrite <- Hlen. clear Hlen.
  destruct (expired_batch st (instant clock) locked limit) as [|job [|job2 rest]] eqn:Hb; [done| |done].
  apply expired_batch_head in Hb as [Hin Hleast].
  destruct (reclaim_row (instant clock) job) as [current event_type] eqn:Hrow.
  simpl. eexists _, job, current. split; [done|]. split; [done|]. split; [reflexivity|].
  pose proof (reclaim_row_id clock job) as Hid. rewrite Hrow in Hid. simpl in Hid |- *. rewrite Hid.
  unfold reclaim_row in Hrow. by destruct (_ <? _); injection Hrow as <- _.
Qed.

(** ** Concrete histories *)

Definition after (st : Store) (clock : datetime) (c : job_call) : Store :=
  match run_call st clock c with Ok st' => st' | Err _ => st end.

(** A worker leases a job for a minute, one second after it was queued. *)
Definition demo_clock (second : Z) : datetime := DateTime (seconds second) (Some 0).
Definition demo_command : EnqueueJobCommand := MkEnqueue "sync" (MkPayload 7 None) 10 0 2.
Definition demo_enqueue : job_call := call_enqueue 1 demo_command "key-1".
Definition demo_claim : job_call := call_claim ∅ (MkClaim "worker-a" ["sync"%string] 60).
Definition demo_heartbeat : job_call := call_heartbeat 1 (MkHeartbeat "worker-a" 30).
Definition demo_complete : job_call := call_complete 1 (MkComplete "worker-a").
Definition demo_failure : RetryJobCommand := MkRetry "worker-a" (MkFailure "transient_dependency" None None).
Definition demo_empty : Store := MkStore {[1]} ∅ 1 [].
Definition demo_queued : Store := after demo_empty (demo_clock 0) demo_enqueue.
Definition demo_store : Store := after demo_queued (demo_clock 1) demo_claim.
Definition demo_completed : Store := after demo_store (demo_clock 2) demo_complete.
Definition demo_retried : Store := after demo_store (demo_clock 2) (call_retry 1 demo_failure).
Definition demo_row (st : Store) : BackgroundJob :=
  default (new_job 0 0 0 demo_command "") (st_jobs st !! 1).

Lemma demo_reachable :
  reachable {[1]} (seconds 1) demo_store ∧ reachable {[1]} (seconds 2) demo_completed.
Proof.
  assert (reachable {[1]} (seconds 1) demo_store) as Hr.
  { apply (reach_call _ 0 demo_queued (demo_clock 1) demo_claim); [|done|reflexivity..].
    apply (reach_call _ 0 demo_empty (demo_clock 0) demo_enqueue); [constructor|done|reflexivity..]. }
  split; [done|]. by apply (reach_call _ (seconds 1) demo_store (demo_clock 2) demo_complete).
Qed.

Lemma service_refines_queue_witness :
  run_call demo_store (demo_clock 2) demo_heartbeat = Ok (after demo_store (demo_clock 2) demo_heartbeat) ∧
  store_ok (seconds 2) (after demo_store (demo_clock 2) demo_heartbeat).
Proof.
  split; [reflexivity|].
  by apply (service_refines_queue {[1]} (seconds 1) demo_store (demo_clock 2) demo_heartbeat _
              (proj1 demo_reachable)).
Defined.

Lemma service_writes_valid_rows_witness :
  let st' := after demo_store (demo_clock 2) demo_heartbeat in
  demo_row st' ≠ demo_row demo_store ∧
  (demo_row st' = demo_row demo_store ∨
   validate_background_job_update (demo_row st') (Some (demo_row demo_store)) false = Ok tt).
Proof.
  intros st'. split; [discriminate|].
  by apply (service_writes_valid_rows {[1]} (seconds 1) demo_store (demo_clock 2) demo_heartbeat st' 1
              (demo_row st') false (proj1 demo_reachable)).
Defined.

Lemma lease_is_exclusive_witness :
  let st' := after demo_store (demo_clock 30) (call_reclaim ∅ 10) in
  run_call demo_store (demo_clock 30) (call_reclaim ∅ 10) = Ok st' ∧
  st_jobs st' !! 1 = Some (demo_row demo_store).
Proof.
  intros st'. split; [reflexivity|].
  by apply (lease_is_exclusive {[1]} (seconds 1) demo_store (demo_clock 30) (call_reclaim ∅ 10) st' 1
              (demo_row demo_store) (seconds 61) (proj1 demo_reachable)).
Defined.

Lemma finished_jobs_are_final_witness :
  let st' := after demo_completed (demo_clock 90) demo_claim in
  job_state (demo_row demo_completed) = succeeded ∧
  run_call demo_completed (demo_clock 90) demo_claim = Ok st' ∧
  st_jobs st' !! 1 = Some (demo_row demo_completed).
Proof.
  intros st'. split; [reflexivity|]. split; [reflexivity|].
  apply (finished_jobs_are_final {[1]} (seconds 2) demo_completed (demo_clock 90) demo_claim st' 1
           (demo_row demo_completed) (proj2 demo_reachable)); try reflexivity; [done|by left].
Defined.

Lemma attempts_are_bounded_witness :
  length (claims 1 demo_store) = 1%nat ∧
  Z.of_nat (length (claims 1 demo_store)) = job_attempt_count (demo_row demo_store).
Proof.
  split; [reflexivity|].
  by apply (attempts_are_bounded {[1]} (seconds 1) demo_store 1 (demo_row demo_store) (proj1 demo_reachable)).
Defined.

Lemma enqueue_is_idempotent_witness :
  ∃ j, st_jobs demo_store !! job_id (demo_row demo_queued) = Some j ∧
    JobService.service_enqueue demo_store (demo_clock 9) 1 demo_command "key-1" =
      (if same_enqueue j demo_command then Ok (demo_store, MkEnqueueResult j true)
       else Err (JobConflict "Idempotency-Key was reused for another job")).
Proof.
  assert (later 0 demo_queued (seconds 1) demo_store) as Hl.
  { apply (later_call _ _ 0 demo_queued (demo_clock 1) demo_claim); [constructor|done|reflexivity..]. }
  destruct (enqueue_is_idempotent {[1]} 0 demo_empty (demo_clock 0) 1 demo_command "key-1" demo_queued
              (MkEnqueueResult (demo_row demo_queued) false) (seconds 1) demo_store (demo_clock 9)
              demo_command) as (j & Hj & Hs & _);
    [apply reach_empty|vm_compute; discriminate|vm_compute; reflexivity|exact Hl
    |vm_compute; discriminate|reflexivity|].
  exists j. split; [exact Hj|exact Hs].
Defined.

Lemma retry_follows_policy_witness :
  ∃ st' r, retry demo_store (demo_clock 2) 1 demo_failure = Ok (st', r) ∧
    job_lease_owner (rr_job r) = None ∧
    job_last_error_category (rr_job r) = Some "transient_dependency"%string.
Proof.
  destruct (retry_follows_policy {[1]} (seconds 1) demo_store (demo_clock 2) 1 demo_failure
              (demo_row demo_store) (seconds 61) (proj1 demo_reachable))
    as (st' & current & Hret & _ & Hl & Hc & _); [vm_compute; discriminate|vm_compute; reflexivity..|].
  eexists st', _. split; [exact Hret|]. split; [exact Hl|exact Hc].
Defined.

(** Two jobs leased a second apart; both leases have run out at second 70. *)
Definition demo_two : Store :=
  after (after demo_store (demo_clock 1) (call_enqueue 1 demo_command "key-2")) (demo_clock 2) demo_claim.

Lemma demo_two_reachable : reachable {[1]} (seconds 2) demo_two.
Proof.
  apply (reach_call _ (seconds 1) (after demo_store (demo_clock 1) (call_enqueue 1 demo_command "key-2"))
           (demo_clock 2) demo_claim); [|done|reflexivity..].
  by apply (reach_call _ (seconds 1) demo_store (demo_clock 1) (call_enqueue 1 demo_command "key-2"));
    [apply demo_reachable|..].
Qed.

Lemma reclaim_recovers_one_lease_witness :
  (∃ st' r, JobService.service_reclaim_expired demo_store (demo_clock 61) ∅ 10 = Ok (st', r) ∧
     rc_retried_job_ids r = [1] ∧ option_map job_state (st_jobs st' !! 1) = Some queued) ∧
  JobService.service_reclaim_expired demo_two (demo_clock 70) ∅ 10 = Err MissingGreenlet.
Proof.
  split.
  - assert (map job_id (filter (expired (instant (demo_clock 61)) ∅) (all_jobs demo_store)) = [1]) as Hdue
      by (vm_compute; reflexivity).
    pose proof (reclaim_recovers_one_lease {[1]} (seconds 1) demo_store (demo_clock 61) ∅ 10
                  (proj1 demo_reachable) ltac:(vm_compute; discriminate) eq_refl ltac:(lia)) as H.
    vm_compute in Hdue. eexists _, _. split; [vm_compute; reflexivity|]. by split.
  - exact (reclaim_recovers_one_lease {[1]} (seconds 2) demo_two (demo_clock 70) ∅ 10
             demo_two_reachable ltac:(vm_compute; discriminate) eq_refl ltac:(lia)).
Defined.

Lemma replay_after_retry_conflicts_witness :
  JobService.service_enqueue demo_retried (demo_clock 3) 1 demo_command "key-1" =
    Err (JobConflict "Idempotency-Key was reused for another job").
Proof.
  assert (later 0 demo_queued (seconds 1) demo_store) as Hl.
  { apply (later_call _ _ 0 demo_queued (demo_clock 1) demo_claim); [constructor|done|reflexivity..]. }
  eapply (replay_after_retry_conflicts {[1]} 0 demo_empty (demo_clock 0) 1 demo_command "key-1" demo_queued
            (MkEnqueueResult (demo_row demo_queued) false) (seconds 1) demo_store (demo_clock 2)
            demo_failure demo_retried (MkRetryResult (demo_row demo_retried) retry_wait) (seconds 2));
    [constructor|vm_compute; discriminate|vm_compute; reflexivity|exact Hl|vm_compute; discriminate
    |reflexivity|vm_compute; reflexivity|reflexivity|discriminate|constructor|vm_compute; discriminate
    |reflexivity].
Defined.
