(* ===== verification/Hashing.v ===== *)
(** * Canonical JSON

    agents/hashing.py: the text of a JSON value that the provenance records
    hash.  A value is what Python holds: a dict is the list of its items with
    distinct keys.  Of the numbers only integers are modelled; nothing the
    records hash has another.  A [str] has characters below U+0100, of which
    UTF-8 takes two bytes from U+0080 on.  The digest is a parameter. *)

From stdpp Require Import prelude list strings pretty.
From Stdlib Require Import ZArith Lia.
From S2P Require Import Prelude PyText.

Inductive json :=
  | JNull
  | JBool (b : bool)
  | JInt (z : Z)
  | JStr (s : string)
  | JList (l : list json)
  | JDict (items : list (string * json)).

Definition invalid_json {A} : res A := Err (Exn "ValueError" "invalid provenance JSON").
Definition invalid_content {A} : res A := Err (Exn "ValueError" "invalid provenance content").

Definition char (n : N) : string := String (Ascii.ascii_of_N n) EmptyString.
Definition quote : string := char 34.
Definition backslash : string := char 92.

(** [len(s.encode("utf-8"))] *)
Fixpoint utf8_length (s : string) : Z :=
  match s with
  | EmptyString => 0
  | String c s' => (if (Ascii.N_of_ascii c <? 128)%N then 1 else 2) + utf8_length s'
  end.

(** [btrim(text) <> '' AND octet_length(text) <= n]: [btrim] takes spaces off. *)
Definition bounded_text (n : Z) (s : string) : bool :=
  negb (all_chars (λ c, char_in c [32%N]) s) && (utf8_length s <=? n).

Definition has_nul (s : string) : bool := negb (all_chars (λ c, negb (char_in c [0%N])) s).

Definition prompt_bytes (content : string) : res string :=
  if String.eqb content "" || has_nul content then invalid_content
  else if 1048576 <? utf8_length content then invalid_content
  else Ok content.

(** ** [json.dumps(s, ensure_ascii=False)] *)

Definition hex_digit (n : N) : string := char (if (n <? 10)%N then 48 + n else 87 + n).

Definition escape_char (c : Ascii.ascii) : string :=
  let n := Ascii.N_of_ascii c in
  if (n =? 34)%N then backslash +:+ quote
  else if (n =? 92)%N then backslash +:+ backslash
  else if (n =? 10)%N then backslash +:+ "n"
  else if (n =? 13)%N then backslash +:+ "r"
  else if (n =? 9)%N then backslash +:+ "t"
  else if (n =? 12)%N then backslash +:+ "f"
  else if (n =? 8)%N then backslash +:+ "b"
  else if (n <? 32)%N then backslash +:+ "u00" +:+ hex_digit (n / 16) +:+ hex_digit (n mod 16)
  else String c EmptyString.

Fixpoint escape (s : string) : string :=
  match s with EmptyString => EmptyString | String c s' => escape_char c +:+ escape s' end.

Definition dumps_str (s : string) : string := quote +:+ escape s +:+ quote.

(** ** The canonical text *)

(** [sep.join(parts)] for a separator of one character. *)
Fixpoint join (sep : string) (parts : list string) : string :=
  match parts with
  | [] => EmptyString
  | [p] => p
  | p :: rest => p +:+ sep +:+ join sep rest
  end.

Definition canonical_str (value : string) : res string :=
  if has_nul value then invalid_json else Ok (dumps_str value).

(** The adjusted exponent of an integer is one less than its number of digits. *)
Definition canonical_int (value : Z) : res string :=
  if 1000 <? str_len (pretty (Z.abs value)) - 1 then invalid_json else Ok (pretty value).

Definition item_leb (a b : string * json) : bool := String.leb a.1 b.1.

(** [_canonical]: [fuel] bounds the nesting of the value, [depth] is the
    argument the code counts up to 64. *)
Fixpoint canonical_at (fuel : nat) (depth : Z) (value : json) : res string :=
  match fuel with
  | O => invalid_json
  | S fuel =>
      if 64 <? depth then invalid_json
      else
        match value with
        | JNull => Ok "null"%string
        | JBool b => Ok (if b then "true"%string else "false"%string)
        | JStr s => canonical_str s
        | JInt z => canonical_int z
        | JDict items =>
            let* parts := res_map (λ '(key, item),
              let* k := canonical_at fuel (depth + 1) (JStr key) in
              let* v := canonical_at fuel (depth + 1) item in
              Ok (k +:+ ":" +:+ v)) (sort_by item_leb items) in
            Ok ("{" +:+ join "," parts +:+ "}")
        | JList l =>
            let* parts := res_map (canonical_at fuel (depth + 1)) l in
            Ok ("[" +:+ join "," parts +:+ "]")
        end
  end.

(** The code refuses a depth above 64, so no call nests deeper than 66. *)
Definition canonical (value : json) : res string := canonical_at 66 0 value.

Definition canonical_bytes (value : json) (limit : Z) : res string :=
  let* data := canonical value in
  raise_if (limit <? utf8_length data) (Exn "ValueError" "invalid provenance JSON") ;;;
  Ok data.

Definition default_limit : Z := 262144.

Section digest.
Context (sha256 : string → string).
Definition digest (value : json) : res string :=
  let* data := canonical_bytes value default_limit in Ok (sha256 data).
End digest.
