(* ===== verification/HashingContract.v ===== *)
(** * What the canonical text promises

    Two values have the same canonical text exactly when they are the same
    value up to the order of the items of their dicts, so a digest of the text
    stands for the value. *)

From stdpp Require Import prelude list strings pretty.
From Stdlib Require Import ZArith Lia.
From S2P Require Import Prelude PyText Hashing.

(** The value with the items of every dict in the order of their keys. *)
Fixpoint normal (value : json) : json :=
  match value with
  | JList l => JList (map normal l)
  | JDict items => JDict (sort_by item_leb (map (λ '(k, v), (k, normal v)) items))
  | _ => value
  end.

(** ** Strings that can be read back from the front of a text *)

(** What may come after a part of a text: nothing that could continue a number. *)
Definition delimited (rest : string) : Prop :=
  match rest with EmptyString => True | String c _ => is_digit c = false end.

(** The first character of a canonical text: not one that ends a list. *)
Definition opens (s : string) : Prop :=
  match s with EmptyString => False | String c _ => char_in c [44; 93; 125]%N = false end.

(** [enc] tells values apart that [norm] tells apart, even in front of a text. *)
Definition readable {A B} (norm : A → B) (enc : A → res string) : Prop :=
  ∀ a b s t r u, enc a = Ok s → enc b = Ok t → s +:+ r = t +:+ u → delimited r → delimited u →
  norm a = norm b ∧ r = u.

Lemma string_cons_inj c s d t : String c s = String d t → c = d ∧ s = t.
Proof. by intros [= -> ->]. Qed.

(** The two halves of a text are known when the first is of digits. *)
Lemma digits_split s t r u :
  all_chars is_digit s = true → all_chars is_digit t = true → delimited r → delimited u →
  s +:+ r = t +:+ u → s = t ∧ r = u.
Proof.
  revert t. induction s as [|c s IH]; intros [|d t] Hs Ht Hr Hu Heq; simpl in *; [done| | |].
  - change (EmptyString +:+ r) with r in Heq. subst r. apply andb_true_iff in Ht as [Ht _]. simpl in Hr. congruence.
  - change (EmptyString +:+ u) with u in Heq. subst u.
    apply andb_true_iff in Hs as [Hs _]. simpl in Hu. congruence.
  - apply string_cons_inj in Heq as [-> Heq]. apply andb_true_iff in Hs as [_ Hs], Ht as [_ Ht].
    by destruct (IH t Hs Ht Hr Hu Heq) as [-> ->].
Qed.

(** ** Numbers *)

Lemma pretty_neg p : pretty (Z.neg p) = String (Ascii.ascii_of_N 45) (pretty (Z.pos p)).
Proof. reflexivity. Qed.

Lemma pretty_readable (z w : Z) r u :
  pretty z +:+ r = pretty w +:+ u → delimited r → delimited u → z = w ∧ r = u.
Proof.
  assert (∀ z w : Z, 0 ≤ z → 0 ≤ w → pretty z +:+ r = pretty w +:+ u → delimited r → delimited u → z = w ∧ r = u) as Hnn.
  { intros z' w' Hz Hw Heq Hr Hu.
    destruct (pretty_digits z' Hz) as (_ & Hdz & Hvz), (pretty_digits w' Hw) as (_ & Hdw & Hvw).
    destruct (digits_split _ _ _ _ Hdz Hdw Hr Hu Heq) as [Heq' ->]. split; [|done]. congruence. }
  assert (∀ z p r u, 0 ≤ z → pretty z +:+ r ≠ pretty (Z.neg p) +:+ u) as Hsign.
  { intros z' p r' u' Hz Heq. destruct (pretty_digits z' Hz) as (Hne & Hd & _). rewrite pretty_neg in Heq.
    destruct (pretty z') as [|c s]; [done|]. simpl in Hd. apply andb_true_iff in Hd as [Hc _].
    apply string_cons_inj in Heq as [-> _]. discriminate Hc. }
  destruct (Z.neg_nonneg_cases z) as [Hz|Hz], (Z.neg_nonneg_cases w) as [Hw|Hw].
  - destruct z as [| |p], w as [| |q]; try lia. rewrite !pretty_neg. intros Heq Hr Hu.
    apply string_cons_inj in Heq as [_ Heq].
    destruct (Hnn (Z.pos p) (Z.pos q) ltac:(lia) ltac:(lia) Heq Hr Hu) as [Hpq ->]. split; [|done]. congruence.
  - destruct z as [| |p]; try lia. intros Heq. symmetry in Heq. by apply Hsign in Heq.
  - destruct w as [| |q]; try lia. intros Heq. by apply Hsign in Heq.
  - by apply Hnn.
Qed.

(** ** Strings *)

Definition hex_value (c : Ascii.ascii) : N :=
  let n := Ascii.N_of_ascii c in if (n <? 58)%N then n - 48 else n - 87.

(** Reads one escaped character; nothing at a closing quote. *)
Definition unescape (s : string) : option (Ascii.ascii * string) :=
  match s with
  | EmptyString => None
  | String c s' =>
      let n := Ascii.N_of_ascii c in
      if (n =? 34)%N then None
      else if negb (n =? 92)%N then Some (c, s')
      else
        match s' with
        | EmptyString => None
        | String e s'' =>
            let n := Ascii.N_of_ascii e in
            let plain k := Some (Ascii.ascii_of_N k, s'') in
            if (n =? 34)%N then plain 34%N
            else if (n =? 92)%N then plain 92%N
            else if (n =? 110)%N then plain 10%N
            else if (n =? 114)%N then plain 13%N
            else if (n =? 116)%N then plain 9%N
            else if (n =? 102)%N then plain 12%N
            else if (n =? 98)%N then plain 8%N
            else match s'' with
                 | String _ (String _ (String h (String l rest))) =>
                     Some (Ascii.ascii_of_N (16 * hex_value h + hex_value l)%N, rest)
                 | _ => None
                 end
        end
  end.

Lemma unescape_escape c s : unescape (escape_char c +:+ s) = Some (c, s).
Proof. destruct c as [[] [] [] [] [] [] [] []]; reflexivity. Qed.

Lemma escape_cons c s : escape (String c s) = escape_char c +:+ escape s.
Proof. reflexivity. Qed.

Lemma escape_readable s t r u :
  escape s +:+ quote +:+ r = escape t +:+ quote +:+ u → s = t ∧ r = u.
Proof.
  revert t. induction s as [|c s IH]; intros [|d t] Heq.
  - apply string_cons_inj in Heq as [_ Heq]. by split.
  - rewrite escape_cons, string_app_assoc in Heq. apply (f_equal unescape) in Heq.
    rewrite unescape_escape in Heq. discriminate Heq.
  - rewrite escape_cons, string_app_assoc in Heq. apply (f_equal unescape) in Heq.
    rewrite unescape_escape in Heq. discriminate Heq.
  - rewrite !escape_cons, !string_app_assoc in Heq. apply (f_equal unescape) in Heq.
    rewrite !unescape_escape in Heq. injection Heq as -> Heq. by destruct (IH t Heq) as [-> ->].
Qed.

Lemma dumps_str_readable s t r u : dumps_str s +:+ r = dumps_str t +:+ u → s = t ∧ r = u.
Proof.
  unfold dumps_str. rewrite !string_app_assoc. intros Heq.
  apply string_cons_inj in Heq as [_ Heq]. by apply escape_readable in Heq.
Qed.

(** ** Lists *)

Section join.
Context {A B : Type} (norm : A → B) (enc : A → res string) (close : Ascii.ascii).
Context (enc_readable : readable norm enc) (enc_opens : ∀ a s, enc a = Ok s → opens s).
Context (close_ends : char_in close [44; 93; 125]%N = true) (close_digit : is_digit close = false).

(** What comes after an element of a list. *)
Lemma join_cons p ps rest :
  join "," (p :: ps) +:+ String close rest =
  p +:+ match ps with [] => String close rest | _ => String (Ascii.ascii_of_N 44) (join "," ps +:+ String close rest) end.
Proof. destruct ps as [|q ps]; [done|]. cbn [join]. by rewrite !string_app_assoc. Qed.

Lemma tail_delimited (ps : list string) rest :
  delimited (match ps with [] => String close rest | _ => String (Ascii.ascii_of_N 44) (join "," ps +:+ String close rest) end).
Proof. by destruct ps. Qed.

Lemma join_readable l k ps qs r u :
  close ≠ Ascii.ascii_of_N 44 → res_map enc l = Ok ps → res_map enc k = Ok qs →
  join "," ps +:+ String close r = join "," qs +:+ String close u → map norm l = map norm k ∧ r = u.
Proof.
  intros Hcomma. revert k ps qs. induction l as [|a l IH]; intros [|b k] ps qs Hps Hqs Heq; cbn [res_map] in *.
  - injection Hps as <-. injection Hqs as <-. apply string_cons_inj in Heq as [_ Heq]. by split.
  - inv_ok. exfalso. rewrite join_cons in Heq.
    match goal with H : enc b = Ok ?q |- _ => apply enc_opens in H; destruct q as [|c q]; [done|] end.
    apply string_cons_inj in Heq as [<- _]. simpl in *. congruence.
  - inv_ok. exfalso. rewrite join_cons in Heq.
    match goal with H : enc a = Ok ?q |- _ => apply enc_opens in H; destruct q as [|c q]; [done|] end.
    apply string_cons_inj in Heq as [-> _]. simpl in *. congruence.
  - apply res_bind_Ok in Hps as (p & Hp & Hps). apply res_bind_Ok in Hps as (ps' & Hps' & [= <-]).
    apply res_bind_Ok in Hqs as (q & Hq & Hqs). apply res_bind_Ok in Hqs as (qs' & Hqs' & [= <-]).
    rewrite !join_cons in Heq.
    destruct (enc_readable a b p q _ _ Hp Hq Heq (tail_delimited _ _) (tail_delimited _ _)) as [Hab Htail].
    cbn [map]. rewrite Hab.
    destruct ps' as [|p' ps'], qs' as [|q' qs'].
    + apply string_cons_inj in Htail as [_ ->]. destruct l; [|cbn [res_map] in Hps'; inv_ok].
      destruct k; [done|cbn [res_map] in Hqs'; inv_ok].
    + exfalso. injection Htail. congruence.
    + exfalso. injection Htail. congruence.
    + apply string_cons_inj in Htail as [_ Htail]. by destruct (IH k _ _ Hps' Hqs' Htail) as [-> ->].
Qed.
End join.

(** ** Values *)

(** The code point a canonical text of the value may begin with. *)
Definition begins (value : json) (n : N) : bool :=
  match value with
  | JNull => (n =? 110)%N
  | JBool b => (n =? if b then 116 else 102)%N
  | JInt _ => ((48 <=? n) && (n <=? 57) || (n =? 45))%N
  | JStr _ => (n =? 34)%N
  | JList _ => (n =? 91)%N
  | JDict _ => (n =? 123)%N
  end.

Lemma pretty_begins z : ∃ c s, pretty z = String c s ∧ begins (JInt z) (Ascii.N_of_ascii c) = true.
Proof.
  assert (∀ w, 0 ≤ w → ∃ c s, pretty w = String c s ∧ is_digit c = true) as Hnn.
  { intros w Hw. destruct (pretty_digits w Hw) as (Hne & Hd & _).
    destruct (pretty w) as [|c s]; [done|]. exists c, s. split; [done|]. simpl in Hd.
    by apply andb_true_iff in Hd as [? _]. }
  destruct z as [|p|p].
  - by exists (Ascii.ascii_of_N 48), EmptyString.
  - destruct (Hnn (Z.pos p) ltac:(lia)) as (c & s & -> & Hc). exists c, s. split; [done|].
    unfold is_digit in Hc. cbv zeta in Hc. simpl. by rewrite Hc.
  - rewrite pretty_neg. by eexists _, _.
Qed.

Lemma canonical_at_begins fuel depth value s :
  canonical_at fuel depth value = Ok s →
  ∃ c s', s = String c s' ∧ begins value (Ascii.N_of_ascii c) = true.
Proof.
  destruct fuel as [|fuel]; [done|]. cbn [canonical_at]. destruct (64 <? depth); [done|].
  destruct value as [|[]|z|t|l|items]; unfold canonical_int, canonical_str; intros H; inv_ok;
    try by eexists _, _. apply pretty_begins.
Qed.

Lemma begins_opens value c s : begins value (Ascii.N_of_ascii c) = true → opens (String c s).
Proof.
  unfold opens, char_in. simpl existsb. generalize (Ascii.N_of_ascii c) as n. intros n.
  destruct value as [|[]|z|t|l|items]; simpl; try (intros ->%N.eqb_eq; reflexivity).
  rewrite orb_true_iff, andb_true_iff, !N.leb_le, N.eqb_eq. intros H.
  rewrite !orb_false_iff, !N.eqb_neq. repeat split; lia.
Qed.

Lemma canonical_at_opens fuel depth value s : canonical_at fuel depth value = Ok s → opens s.
Proof. intros (c & s' & -> & Hb)%canonical_at_begins. by eapply begins_opens. Qed.

(** Values of different kinds do not begin alike. *)
Lemma begins_alike a b n :
  begins a n = true → begins b n = true →
  match a, b with
  | JNull, JNull | JInt _, JInt _ | JStr _, JStr _ | JList _, JList _ | JDict _, JDict _ => True
  | JBool x, JBool y => x = y
  | _, _ => False
  end.
Proof.
  destruct a as [|[]|z|t|l|items], b as [|[]|z'|t'|l'|items']; simpl; try done;
    rewrite ?orb_true_iff, ?andb_true_iff, ?N.leb_le, ?N.eqb_eq; lia.
Qed.

(** The text of an item of a dict. *)
Definition canonical_item (fuel : nat) (depth : Z) (item : string * json) : res string :=
  let '(key, value) := item in
  let* k := canonical_at fuel depth (JStr key) in
  let* v := canonical_at fuel depth value in
  Ok (k +:+ ":" +:+ v).

Lemma canonical_str_Ok fuel depth t s : canonical_at fuel depth (JStr t) = Ok s → s = dumps_str t.
Proof.
  destruct fuel as [|fuel]; [done|]. cbn [canonical_at]. unfold canonical_str. intros H. by inv_ok.
Qed.

Lemma canonical_item_readable fuel depth :
  readable normal (canonical_at fuel depth) →
  readable (λ '(k, v), (k, normal v)) (canonical_item fuel depth).
Proof.
  intros Hv [k v] [k' v'] s t r u Hs Ht Heq Hr Hu. unfold canonical_item in Hs, Ht.
  apply res_bind_Ok in Hs as (x & Hx%canonical_str_Ok & Hs). apply res_bind_Ok in Hs as (y & Hy & [= <-]).
  apply res_bind_Ok in Ht as (x' & Hx'%canonical_str_Ok & Ht). apply res_bind_Ok in Ht as (y' & Hy' & [= <-]).
  subst x x'. rewrite !string_app_assoc in Heq. apply dumps_str_readable in Heq as [-> Heq].
  apply string_cons_inj in Heq as [_ Heq]. by destruct (Hv v v' y y' r u Hy Hy' Heq Hr Hu) as [-> ->].
Qed.

Lemma canonical_item_opens fuel depth item s : canonical_item fuel depth item = Ok s → opens s.
Proof.
  destruct item as [k v]. unfold canonical_item. intros (x & Hx%canonical_str_Ok & H)%res_bind_Ok.
  apply res_bind_Ok in H as (y & _ & [= <-]). subst x. reflexivity.
Qed.

Lemma normal_items items :
  sort_by item_leb (map (λ '(k, v), (k, normal v)) items) =
  map (λ '(k, v), (k, normal v)) (sort_by item_leb items).
Proof. apply sort_by_map. by intros [k v] [k' v']. Qed.

Lemma canonical_at_readable fuel depth : readable normal (canonical_at fuel depth).
Proof.
  revert depth. induction fuel as [|fuel IH]; intros depth a b s t r u Hs Ht Heq Hr Hu; [done|].
  pose proof (canonical_at_begins _ _ _ _ Hs) as (c & s' & -> & Hc).
  pose proof (canonical_at_begins _ _ _ _ Ht) as (d & t' & -> & Hd).
  pose proof Heq as Hcd. apply string_cons_inj in Hcd as [<- Htail].
  pose proof (begins_alike _ _ _ Hc Hd) as Halike. clear Hc Hd.
  cbn [canonical_at] in Hs, Ht. destruct (64 <? depth); [done|].
  destruct a as [|x|z|x|l|items], b as [|y|w|y|k|items']; try done; cbn [normal].
  - simplify_eq. split; [done|]. repeat apply string_cons_inj in Htail as [_ Htail]. done.
  - subst y. rewrite Hs in Ht. injection Ht as ->. split; [done|].
    by apply (inj (String.append (String c t'))) in Heq.
  - unfold canonical_int in Hs, Ht. destruct (1000 <? str_len (pretty (Z.abs z)) - 1), (1000 <? str_len (pretty (Z.abs w)) - 1); try done.
    injection Hs as Hs. injection Ht as Ht. rewrite <- Hs, <- Ht in Heq.
    by destruct (pretty_readable z w r u Heq Hr Hu) as [-> ->].
  - unfold canonical_str in Hs, Ht. destruct (has_nul x), (has_nul y); try done.
    injection Hs as Hs. injection Ht as Ht.
    assert (dumps_str x = String c s' ∧ dumps_str y = String c t') as [Hx Hy] by (by subst c s' t').
    rewrite <- Hx, <- Hy in Heq.
    by destruct (dumps_str_readable x y r u Heq) as [-> ->].
  - apply res_bind_Ok in Hs as (ps & Hps & Hs). apply res_bind_Ok in Ht as (qs & Hqs & Ht).
    injection Hs as _ <-. injection Ht as _ <-. rewrite !string_app_assoc in Htail.
    destruct (join_readable normal _ (Ascii.ascii_of_N 93) (IH _) (canonical_at_opens _ _) ltac:(done) ltac:(done)
      l k ps qs r u ltac:(done) Hps Hqs Htail) as [-> ->]. done.
  - apply res_bind_Ok in Hs as (ps & Hps & Hs). apply res_bind_Ok in Ht as (qs & Hqs & Ht).
    injection Hs as _ <-. injection Ht as _ <-. rewrite !string_app_assoc in Htail.
    destruct (join_readable _ (canonical_item fuel (depth + 1)) (Ascii.ascii_of_N 125) (canonical_item_readable _ _ (IH _))
      (canonical_item_opens _ _) ltac:(done) ltac:(done)
      _ _ ps qs r u ltac:(done) Hps Hqs Htail) as [Hitems ->].
    rewrite !normal_items, Hitems. done.
Qed.

(** ** The order of the items *)

Lemma item_leb_total a b : item_leb a b = true ∨ item_leb b a = true.
Proof. apply String_leb_total. Qed.
Lemma item_leb_trans a b c : item_leb a b = true → item_leb b c = true → item_leb a c = true.
Proof. apply String_leb_trans. Qed.

Lemma canonical_at_normal fuel depth value :
  canonical_at fuel depth (normal value) = canonical_at fuel depth value.
Proof.
  revert depth value. induction fuel as [|fuel IH]; intros depth value; [done|].
  cbn [canonical_at]. destruct (64 <? depth); [done|].
  destruct value as [|b|z|s|l|items]; try done; cbn [normal].
  - f_equal. rewrite res_map_map. apply res_map_ext. auto.
  - f_equal. rewrite normal_items, sort_by_id.
    2: { rewrite <- normal_items. apply sort_by_sorted; [apply item_leb_total|apply item_leb_trans]. }
    rewrite res_map_map. apply res_map_ext. intros [k v]. by rewrite IH.
Qed.

(** Values that are the same up to the order of the items of their dicts. *)
#[export] Instance json_equiv : Equiv json := λ a b, normal a = normal b.

#[export] Instance json_equivalence : Equivalence (≡@{json}).
Proof. unfold equiv, json_equiv. split; congruence. Qed.

#[export] Instance canonical_at_proper : Proper ((=) ==> (=) ==> (≡) ==> (=)) canonical_at.
Proof.
  intros fuel _ <- depth _ <- a b Hab. unfold equiv, json_equiv in Hab.
  by rewrite <- canonical_at_normal, Hab, canonical_at_normal.
Qed.

(** What the records that hash a text rely on: the text of a value determines
    it, up to the equivalence of the values. *)
Class TextDomain (A : Type) `{Equiv A} := {
  text_of : A → res string;
  text_determines (a b : A) (s : string) : text_of a = Ok s → text_of b = Ok s ↔ a ≡ b;
}.

Lemma canonical_determines (a b : json) s : canonical a = Ok s → canonical b = Ok s ↔ a ≡ b.
Proof.
  unfold canonical. generalize 66%nat as fuel. intros fuel Ha. split.
  - intros Hb. apply (canonical_at_readable fuel 0 a b s s EmptyString EmptyString Ha Hb eq_refl I I).
  - intros Hab. by rewrite <- Hab.
Qed.

#[export] Instance json_text_domain : TextDomain json :=
  {| text_of := canonical; text_determines := canonical_determines |}.

(** The canonical text of a value is that of another exactly when the two
    are the same up to the order of the items of their dicts: the text, and a
    digest of it, stands for one value. *)
Theorem canonical_text_determines_value a b s :
  canonical a = Ok s → canonical b = Ok s ↔ normal a = normal b.
Proof. apply canonical_determines. Qed.

Definition sample_json : json := JDict [("b", JList [JInt (-12); JStr (char 10)]); ("a", JBool true)].
Definition sample_json_reordered : json := JDict [("a", JBool true); ("b", JList [JInt (-12); JStr (char 10)])].

Lemma canonical_text_determines_value_witness :
  (∃ s, canonical sample_json = Ok s ∧ canonical sample_json_reordered = Ok s) ∧
  normal sample_json = normal sample_json_reordered.
Proof.
  destruct (canonical sample_json) as [s|e] eqn:Hs; [|vm_compute in Hs; discriminate Hs].
  assert (normal sample_json = normal sample_json_reordered) as Hn by reflexivity.
  split; [|exact Hn]. exists s. split; [reflexivity|].
  exact (proj2 (canonical_text_determines_value sample_json sample_json_reordered s Hs) Hn).
Defined.
