(* ===== verification/Cards.v ===== *)
(** * Card reviews: the pinned SM-2 algorithm

    cards/scheduling.py.  Easiness is a [Decimal]; [schedule] follows the
    code's decimal arithmetic operation by operation, and the theorems relate
    it to SM-2 computed exactly, in hundredths of easiness. *)

From stdpp Require Import prelude list strings pretty.
From Stdlib Require Import ZArith Lia.
From S2P Require Import Prelude PyTime PyDecimal.

Definition ValueError (msg : string) : exn := Exn "ValueError" msg.

Definition MINIMUM_EASINESS : decimal := Dec 130 (-2).
Definition INITIAL_EASINESS : decimal := Dec 250 (-2).
Definition PASSING_GRADE : Z := 3.

Record CardState := MkCard {
  easiness : decimal;
  interval_days : Z;
  repetitions : Z;
  due_on : date;
}.

Record ReviewOutcome := MkOutcome {
  ro_before : CardState;
  ro_after : CardState;
  ro_grade : Z;
  ro_successful : bool;
}.

Definition new_card_state (due : date) : CardState := MkCard INITIAL_EASINESS 0 0 due.

(** [Decimal("-0.8") + Decimal("0.28") * grade - Decimal("0.02") * grade * grade] *)
Definition easiness_delta (grade : Z) : decimal :=
  dec_sub (dec_add (Dec (-8) (-1)) (dec_mul (Dec 28 (-2)) (of_int grade)))
    (dec_mul (dec_mul (Dec 2 (-2)) (of_int grade)) (of_int grade)).

(** The interval of the third and later successes in a row. *)
Definition grown_interval (interval : Z) (e : decimal) : res Z :=
  let* q := quantize ROUND_HALF_UP 0 (dec_mul (of_int interval) e) in
  Ok (Z.max (dec_int q) (interval + 1)).

(** [timedelta(days=n)] *)
Definition timedelta_days (n : Z) : res Z :=
  raise_if (negb ((-999999999 <=? n) && (n <=? 999999999)))
    (OverflowError ("days=" +:+ pretty n +:+ "; must have magnitude <= 999999999")) ;;; Ok n.

Definition schedule (state : CardState) (grade : Z) (reviewed_on : date) : res ReviewOutcome :=
  raise_if (negb ((0 <=? grade) && (grade <=? 5))) (ValueError "grade must be between 0 and 5") ;;;
  let* updated := quantize ROUND_HALF_EVEN (-2) (dec_add (easiness state) (easiness_delta grade)) in
  let e := dec_max MINIMUM_EASINESS updated in
  let successful := PASSING_GRADE <=? grade in
  let repetitions' := if successful then repetitions state + 1 else 0 in
  let* interval :=
    if negb successful then Ok 1
    else if repetitions' =? 1 then Ok 1
    else if repetitions' =? 2 then Ok 6
    else grown_interval (interval_days state) e in
  let* delta := timedelta_days interval in
  let* due := date_add reviewed_on delta in
  Ok (MkOutcome state (MkCard e interval repetitions' due) grade successful).

(** ** The specification: SM-2 in exact arithmetic

    Easiness is counted in hundredths.  [sm2_easiness] is Wozniak's
    [EF + (0.1 - (5 - q) * (0.08 + (5 - q) * 0.02))] with its floor at 1.3. *)

Definition sm2_easiness (e grade : Z) : Z :=
  Z.max 130 (e + (10 - (5 - grade) * (8 + (5 - grade) * 2))).

Definition sm2_repetitions (n grade : Z) : Z := if 3 <=? grade then n + 1 else 0.

(** [e] is the easiness after the review; the product is rounded half up. *)
Definition sm2_interval (n interval e grade : Z) : Z :=
  if 3 <=? grade then
    if n + 1 =? 1 then 1
    else if n + 1 =? 2 then 6
    else Z.max ((interval * e + 50) `div` 100) (interval + 1)
  else 1.

Lemma quantize_exact r e c : Z.abs c < 10 ^ prec → quantize r e (Dec c e) = Ok (Dec c e).
Proof.
  intros Hc. unfold quantize. simpl. rewrite Z.leb_refl, Z.sub_diag, Z.mul_1_r.
  by rewrite (proj2 (Z.leb_le _ _)) by (apply ndigits_le; [done|lia]).
Qed.

Lemma dec_add_same_expo a b e : Z.abs (a + b) < 10 ^ prec → dec_add (Dec a e) (Dec b e) = Dec (a + b) e.
Proof.
  intros H. unfold dec_add. simpl. rewrite Z.min_id, Z.sub_diag, !Z.mul_1_r. by apply fix_prec_exact.
Qed.

Lemma dec_max_same_expo a b e : e ≤ 0 → dec_max (Dec a e) (Dec b e) = Dec (Z.max a b) e.
Proof.
  intros He. unfold dec_max. rewrite (dec_lt_scaled (- e)) by (unfold fixed; simpl; lia).
  unfold scaled. simpl. replace (e + - e) with 0 by lia. rewrite !Z.mul_1_r.
  destruct (Z.ltb_spec a b); f_equal; lia.
Qed.

Lemma easiness_delta_value grade :
  0 ≤ grade ≤ 5 → easiness_delta grade = Dec (10 - (5 - grade) * (8 + (5 - grade) * 2)) (-2).
Proof.
  intros Hg.
  assert (grade ∈ [0; 1; 2; 3; 4; 5]) as Hin by (rewrite !elem_of_cons; lia).
  repeat (apply elem_of_cons in Hin as [->|Hin]; [vm_compute; reflexivity|]).
  by apply elem_of_nil in Hin.
Qed.

Lemma grown_interval_value interval e :
  0 ≤ interval → 0 ≤ e → interval * e < 10 ^ prec →
  grown_interval interval (Dec e (-2)) = Ok (Z.max ((interval * e + 50) `div` 100) (interval + 1)).
Proof.
  intros Hi He Hb. unfold grown_interval, dec_mul, of_int. simpl.
  rewrite fix_prec_exact by (simpl; lia).
  assert (div_half_up (interval * e) 100 = (interval * e + 50) `div` 100) as Hdiv.
  { unfold div_half_up. rewrite Z.abs_eq by nia.
    replace (2 * (interval * e) + 100) with ((interval * e + 50) * 2) by lia.
    replace (2 * 100) with (100 * 2) by lia. rewrite Z.div_mul_cancel_r by lia.
    destruct (decide (interval * e = 0)) as [->|]; [done|]. rewrite Z.sgn_pos by nia. lia. }
  unfold quantize. simpl. change (10 ^ (0 - (0 + -2))) with 100. rewrite Hdiv.
  assert (0 ≤ (interval * e + 50) `div` 100) by (apply Z.div_pos; nia).
  assert ((interval * e + 50) `div` 100 < 10 ^ prec) by (apply Z.div_lt_upper_bound; [done|]; lia).
  rewrite (proj2 (Z.leb_le _ _)) by (apply ndigits_le; [done|lia]). simpl.
  unfold dec_int. simpl. by rewrite Z.mul_1_r.
Qed.

Lemma sm2_spec e interval n due grade reviewed_on :
  130 ≤ e ≤ 10 ^ 18 → 0 ≤ interval ≤ 999999999 → 0 ≤ n → 0 ≤ grade ≤ 5 →
  let e' := sm2_easiness e grade in
  let interval' := sm2_interval n interval e' grade in
  schedule (MkCard (Dec e (-2)) interval n due) grade reviewed_on =
    (let* delta := timedelta_days interval' in
     let* due' := date_add reviewed_on delta in
     Ok (MkOutcome (MkCard (Dec e (-2)) interval n due)
           (MkCard (Dec e' (-2)) interval' (sm2_repetitions n grade) due') grade (3 <=? grade))).
Proof.
  intros He Hi Hn Hg. simpl. unfold schedule.
  rewrite (proj2 (Z.leb_le 0 grade)), (proj2 (Z.leb_le grade 5)) by lia. simpl.
  rewrite easiness_delta_value by done. set (d := 10 - (5 - grade) * (8 + (5 - grade) * 2)).
  assert (-80 ≤ d ≤ 10) by (unfold d; nia).
  assert (10 ^ prec = 10 ^ 28) as Hp by done.
  rewrite dec_add_same_expo, quantize_exact by (rewrite Hp; lia). simpl.
  unfold MINIMUM_EASINESS. rewrite dec_max_same_expo by done. change (Z.max 130 (e + d)) with (sm2_easiness e grade).
  assert (130 ≤ sm2_easiness e grade ≤ 10 ^ 18 + 10) by (unfold sm2_easiness; lia).
  unfold sm2_interval, sm2_repetitions, PASSING_GRADE.
  destruct (3 <=? grade) eqn:Hpass; simpl; [|done].
  destruct (n + 1 =? 1); simpl; [done|]. destruct (n + 1 =? 2); simpl; [done|].
  rewrite grown_interval_value by nia. done.
Qed.

Lemma timedelta_days_Ok n m : timedelta_days n = Ok m ↔ m = n ∧ -999999999 ≤ n ≤ 999999999.
Proof.
  unfold timedelta_days. rewrite raise_if_bind_Ok, negb_false_iff, andb_true_iff, !Z.leb_le.
  naive_solver.
Qed.

Lemma schedule_grade state grade d o : schedule state grade d = Ok o → 0 ≤ grade ≤ 5.
Proof.
  unfold schedule. rewrite raise_if_bind_Ok, negb_false_iff, andb_true_iff, !Z.leb_le. tauto.
Qed.

(** C38. [schedule] is SM-2: a grade outside 0 to 5 is refused, and on a card whose
    easiness is a number of hundredths of at least 1.30 any other grade gives
    exactly the easiness, repetition count and interval of the specification,
    the interval rounded half up and never shorter than one day more than the
    last one, and the due date is the review date plus the interval; the only
    error left is a date past the calendar.  The bounds on easiness and
    interval keep the decimal arithmetic of 28 digits exact. *)
Theorem schedule_is_sm2 e interval n due grade reviewed_on :
  130 ≤ e ≤ 10 ^ 18 → 0 ≤ interval ≤ 999999999 → 0 ≤ n →
  schedule (MkCard (Dec e (-2)) interval n due) grade reviewed_on =
    (if (grade <? 0) || (5 <? grade) then Err (ValueError "grade must be between 0 and 5")
     else
       let e' := sm2_easiness e grade in
       let interval' := sm2_interval n interval e' grade in
       let* delta := timedelta_days interval' in
       let* due' := date_add reviewed_on delta in
       Ok (MkOutcome (MkCard (Dec e (-2)) interval n due)
             (MkCard (Dec e' (-2)) interval' (sm2_repetitions n grade) due') grade (3 <=? grade))).
Proof.
  intros He Hi Hn. destruct (Z.ltb_spec grade 0) as [Hlt|]; simpl.
  - unfold schedule. by rewrite (proj2 (Z.leb_gt 0 grade)).
  - destruct (Z.ltb_spec 5 grade) as [Hgt|]; [|by apply sm2_spec].
    unfold schedule. by rewrite (proj2 (Z.leb_gt grade 5)), andb_false_r.
Qed.

(** ** Histories of reviews *)

(** The reviews of a card, oldest first: each with its grade and day. *)
Definition review_all (state : CardState) (reviews : list (Z * date)) : res CardState :=
  res_fold (λ st r, let* o := schedule st r.1 r.2 in Ok (ro_after o)) state reviews.

(** What a card looks like after [n] reviews. *)
Record card_ok (n : Z) (st : CardState) : Prop := {
  ck_easiness : ∃ e, easiness st = Dec e (-2) ∧ 130 ≤ e ≤ 250 + 10 * n;
  ck_interval : 0 ≤ interval_days st ≤ date_max;
  ck_repetitions : 0 ≤ repetitions st ≤ n;
  ck_first : repetitions st = 1 → interval_days st = 1;
  ck_new : 0 < n → 1 ≤ interval_days st;
}.

Lemma new_card_ok due : card_ok 0 (new_card_state due).
Proof. split; simpl; try lia; [by exists 250|done]. Qed.

(** One review of a card that is well formed, as the specification says. *)
Lemma schedule_spec n st grade d o :
  card_ok n st → 0 ≤ n ≤ 10 ^ 15 → date_min ≤ d → schedule st grade d = Ok o →
  ∃ e, easiness st = Dec e (-2) ∧ 130 ≤ e ≤ 250 + 10 * n ∧ 0 ≤ grade ≤ 5 ∧
    easiness (ro_after o) = Dec (sm2_easiness e grade) (-2) ∧
    interval_days (ro_after o) =
      sm2_interval (repetitions st) (interval_days st) (sm2_easiness e grade) grade ∧
    repetitions (ro_after o) = sm2_repetitions (repetitions st) grade ∧
    due_on (ro_after o) = d + interval_days (ro_after o) ∧ due_on (ro_after o) ≤ date_max ∧
    ro_successful o = (3 <=? grade).
Proof.
  intros [(e & He & Hb) Hi Hr _ _] Hn Hd Hs. pose proof (schedule_grade _ _ _ _ Hs) as Hg.
  exists e. destruct st as [e0 i r due]. simpl in *. subst e0.
  rewrite sm2_spec in Hs; [|unfold date_max in *; lia..].
  apply res_bind_Ok in Hs as (delta & [-> _]%timedelta_days_Ok & Hs).
  apply res_bind_Ok in Hs as (due' & [-> Hdue]%date_add_Ok & [= <-]). simpl. repeat split; (done || lia).
Qed.

Lemma schedule_keeps_ok n st grade d o :
  card_ok n st → 0 ≤ n ≤ 10 ^ 15 → date_min ≤ d → schedule st grade d = Ok o →
  card_ok (n + 1) (ro_after o).
Proof.
  intros Hok Hn Hd Hs.
  destruct (schedule_spec _ _ _ _ _ Hok Hn Hd Hs)
    as (e & He & Hb & Hg & He' & Hi' & Hr' & Hdue & Hmax & _).
  destruct Hok as [_ Hi Hr _ _].
  assert (1 ≤ interval_days (ro_after o)) as Hpos.
  { rewrite Hi'. unfold sm2_interval. repeat case_match; lia. }
  split.
  - exists (sm2_easiness e grade). split; [done|]. unfold sm2_easiness. nia.
  - unfold date_min in *. lia.
  - rewrite Hr'. unfold sm2_repetitions. case_match; lia.
  - rewrite Hr', Hi'. unfold sm2_repetitions, sm2_interval.
    destruct (3 <=? grade); [|lia]. intros ->. done.
  - lia.
Qed.

Lemma review_all_ok n st l st' :
  card_ok n st → 0 ≤ n → n + Z.of_nat (length l) ≤ 10 ^ 15 → (∀ g d, (g, d) ∈ l → date_min ≤ d) →
  review_all st l = Ok st' → card_ok (n + Z.of_nat (length l)) st'.
Proof.
  revert n st. induction l as [|[g d] l IH]; intros n st Hok Hn Hl Hd Hrun; simpl in *.
  - injection Hrun as <-. by rewrite Z.add_0_r.
  - apply res_bind_Ok in Hrun as (st1 & (o & Hs & [= <-])%res_bind_Ok & Hrun). simpl in *.
    replace (n + Z.of_nat (S (length l))) with (n + 1 + Z.of_nat (length l)) by lia.
    apply (IH _ (ro_after o)); [|lia|lia| |done].
    + eapply schedule_keeps_ok; [done|lia| |done]. apply (Hd g). by left.
    + intros g' d' Hin. apply (Hd g'). by right.
Qed.

(** C39. Easiness stays on its scale: after any sequence of accepted reviews of a
    new card, easiness is between 1.30 and 2.50 plus 0.10 per review, the
    repetition count is at most the number of reviews, and the card is due
    at least one day after its last review, within the calendar. *)
Theorem review_history_bounds due reviews grade reviewed_on st o :
  Z.of_nat (length reviews) < 10 ^ 15 → (∀ g d, (g, d) ∈ reviews → date_min ≤ d) →
  date_min ≤ reviewed_on →
  review_all (new_card_state due) reviews = Ok st → schedule st grade reviewed_on = Ok o →
  let n := Z.of_nat (length reviews) + 1 in
  dec_le MINIMUM_EASINESS (easiness (ro_after o)) = true ∧
  dec_le (easiness (ro_after o)) (Dec (250 + 10 * n) (-2)) = true ∧
  0 ≤ repetitions (ro_after o) ≤ n ∧ 1 ≤ interval_days (ro_after o) ∧
  due_on (ro_after o) = reviewed_on + interval_days (ro_after o) ∧ due_on (ro_after o) ≤ date_max.
Proof.
  intros Hl Hd Hr Hrun Hs n.
  apply (review_all_ok 0) in Hrun; [|apply new_card_ok|lia..|done].
  assert (0 ≤ 0 + Z.of_nat (length reviews) ≤ 10 ^ 15) as Hn by lia.
  destruct (schedule_spec _ _ _ _ _ Hrun Hn Hr Hs) as (_ & _ & _ & _ & _ & _ & _ & Hdue & Hmax & _).
  destruct (schedule_keeps_ok _ _ _ _ _ Hrun Hn Hr Hs) as [(e & -> & He) Hi Hrep _ Hnew].
  rewrite !(dec_le_scaled 2) by (unfold fixed; simpl; lia). unfold scaled; simpl.
  rewrite !Z.mul_1_r, !Z.leb_le. unfold n. repeat split; lia.
Qed.

(** C40. Successful recalls space a card out and a failure starts it over: after any
    history, a passing grade lengthens the interval strictly once the card has
    been recalled before, and is due in one day otherwise; a failing grade
    resets the count and shows the card again the next day, and never makes
    it easier. *)
Theorem recalls_space_out due reviews grade reviewed_on st o :
  Z.of_nat (length reviews) < 10 ^ 15 → (∀ g d, (g, d) ∈ reviews → date_min ≤ d) →
  date_min ≤ reviewed_on →
  review_all (new_card_state due) reviews = Ok st → schedule st grade reviewed_on = Ok o →
  if PASSING_GRADE <=? grade then
    ro_successful o = true ∧ repetitions (ro_after o) = repetitions st + 1 ∧
    (if repetitions st =? 0 then interval_days (ro_after o) = 1
     else interval_days st < interval_days (ro_after o))
  else
    ro_successful o = false ∧ repetitions (ro_after o) = 0 ∧ interval_days (ro_after o) = 1 ∧
    dec_le (easiness (ro_after o)) (easiness st) = true.
Proof.
  intros Hl Hd Hr Hrun Hs. 
  apply (review_all_ok 0) in Hrun; [|apply new_card_ok|lia..|done].
  assert (0 ≤ 0 + Z.of_nat (length reviews) ≤ 10 ^ 15) as Hn by lia.
  destruct (schedule_spec _ _ _ _ _ Hrun Hn Hr Hs)
    as (e & He & Hb & Hg & He' & Hi' & Hr' & _ & _ & ->).
  destruct Hrun as [_ _ Hrep Hfirst _].
  unfold PASSING_GRADE. rewrite Hi', Hr'. unfold sm2_interval, sm2_repetitions.
  destruct (Z.leb_spec 3 grade) as [Hp|Hp].
  - split; [done|]. split; [done|].
    destruct (Z.eqb_spec (repetitions st) 0) as [->|Hne]; [done|].
    destruct (Z.eqb_spec (repetitions st + 1) 1); [lia|].
    destruct (Z.eqb_spec (repetitions st + 1) 2); [|lia]. rewrite Hfirst; lia.
  - split; [done|]. split; [done|]. split; [done|]. rewrite He, He'.
    rewrite (dec_le_scaled 2) by (unfold fixed; simpl; lia). unfold scaled; simpl.
    rewrite !Z.mul_1_r, Z.leb_le. unfold sm2_easiness. nia.
Qed.

(** ** Witnesses *)

Lemma schedule_is_sm2_witness :
  schedule (MkCard (Dec 236 (-2)) 6 2 0) 4 739866 =
  Ok (MkOutcome (MkCard (Dec 236 (-2)) 6 2 0) (MkCard (Dec 236 (-2)) 14 3 739880) 4 true).
Proof. by rewrite (schedule_is_sm2 236 6 2 0 4 739866) by lia. Defined.

Definition ex_reviews : list (Z * date) := [(5, 739866); (3, 739867); (4, 739873)].
Definition ex_card : CardState := MkCard (Dec 246 (-2)) 15 3 739888.

Lemma ex_reviews_dates g d : (g, d) ∈ ex_reviews → date_min ≤ d.
Proof. unfold ex_reviews, date_min. rewrite !elem_of_cons, elem_of_nil. naive_solver lia. Qed.

Lemma review_history_bounds_witness :
  let o := MkOutcome ex_card (MkCard (Dec 214 (-2)) 1 0 739889) 2 false in
  schedule ex_card 2 739888 = Ok o ∧ dec_le MINIMUM_EASINESS (easiness (ro_after o)) = true.
Proof.
  intros o. split; [vm_compute; reflexivity|].
  apply (review_history_bounds 739866 ex_reviews 2 739888 ex_card o); try (vm_compute; done).
  apply ex_reviews_dates.
Defined.

Lemma recalls_space_out_witness :
  let o := MkOutcome ex_card (MkCard (Dec 256 (-2)) 38 4 739926) 5 true in
  schedule ex_card 5 739888 = Ok o ∧ interval_days ex_card < interval_days (ro_after o).
Proof.
  intros o. split; [vm_compute; reflexivity|].
  apply (recalls_space_out 739866 ex_reviews 5 739888 ex_card o); try (vm_compute; done).
  apply ex_reviews_dates.
Defined.
