(* ===== verification/Deck.v ===== *)
(** * The deck of cards

    cards/service.py with the rows of cards/models.py, the commands of
    cards/schemas.py, [learner_local_date] of cards/scheduling.py and the
    commands cards/importing.py builds from study notes and the Coach.  The
    schedule of a card is that of Cards.v.

    A [Deck] is the content of the tables; a call is one transaction, which
    returns the new deck or raises and leaves the old one.  The owner's row and
    the database are there, and the two counters fit their columns.  The digest of a
    normalised text and the zone database are parameters; a text is a list of
    code points where the case folding may leave the first 256. *)

From stdpp Require Import prelude list strings gmap sorting pretty.
From Stdlib Require Import ZArith Lia.
From S2P Require Import Prelude PyTime PyText PyDecimal Cards Hashing.

Definition CardNotFound (msg : string) : exn := Exn "CardNotFound" msg.
Definition CardInvalid (msg : string) : exn := Exn "CardInvalid" msg.
Definition CardsUnavailable : exn := Exn "CardsUnavailable" "the card store is unavailable".

Definition SM2_VERSION : string := "sm2-v1".
Definition DUE_LIMIT : Z := 200.

(** ** Commands and rows *)

Definition CARD_SOURCES : list string := ["study_note"; "evidence"; "package"; "coach"; "manual"].
Definition CARD_ASSISTANCE : list string := ["independent"; "coached"].
Definition REVIEW_MODES : list string := ["written"; "spoken"].

Record CardCommand := MkCommand {
  cc_question : string;
  cc_answer : string;
  cc_skill_slug : string;
  cc_source_kind : string;
  cc_source_ref : string;
  cc_assistance : string;
}.

(** [min_length=1, max_length=n] *)
Definition text_within (n : Z) (s : string) : bool := (1 <=? str_len s) && (str_len s <=? n).

Definition skill_slug (s : string) : bool :=
  bounded_name is_lower (λ c, is_lower c || is_digit c || char_in c [95%N]) 63 s.

Definition valid_command (c : CardCommand) : bool :=
  text_within 2048 (cc_question c) && text_within 4096 (cc_answer c) && skill_slug (cc_skill_slug c) &&
  str_in (cc_source_kind c) CARD_SOURCES && (str_len (cc_source_ref c) <=? 256) &&
  str_in (cc_assistance c) CARD_ASSISTANCE.

Record Card := MkCardRow {
  cd_id : Z;
  cd_owner_id : Z;
  cd_question : string;
  cd_answer : string;
  cd_content_hash : string;
  cd_source_kind : string;
  cd_source_ref : string;
  cd_skill_slug : string;
  cd_assistance : string;
  cd_status : string;
  cd_scheduler_version : string;
  cd_state : CardState;
  cd_created_at : Z;
  cd_updated_at : Z;
}.

Record CardReview := MkReview {
  cv_id : Z;
  cv_owner_id : Z;
  cv_card_id : Z;
  cv_grade : Z;
  cv_mode : string;
  cv_reviewed_on : date;
  cv_interval_before : Z;
  cv_interval_after : Z;
  cv_easiness_after : decimal;
  cv_due_after : date;
  cv_recording_id : option Z;
  cv_created_at : Z;
}.

Record Deck := MkDeck {
  dk_cards : gmap Z Card;
  dk_reviews : list CardReview;
  dk_recordings : gmap (Z * string) Z;        (** an owner's recording by its client identifier *)
  dk_timezones : Z → option string;           (** the learner settings *)
  dk_next_card : Z;
  dk_next_review : Z;
}.

Definition all_cards (dk : Deck) : list Card := (map_to_list (dk_cards dk)).*2.

(** ** The digest of a card *)

(** [text.split()]: the words between white space; [word] is read so far. *)
Fixpoint split_words (word s : string) : list string :=
  match s with
  | EmptyString => if String.eqb word "" then [] else [word]
  | String c s' =>
      if py_space c then (if String.eqb word "" then [] else [word]) ++ split_words EmptyString s'
      else split_words (word +:+ String c EmptyString) s'
  end.

(** [str.casefold] on a character below U+0100. *)
Definition casefold_char (c : Ascii.ascii) : list N :=
  let n := Ascii.N_of_ascii c in
  if is_upper c then [n + 32]%N
  else if (n =? 181)%N then [956%N]
  else if (n =? 223)%N then [115; 115]%N
  else if ((192 <=? n) && (n <=? 222) && negb (n =? 215))%N then [n + 32]%N
  else [n].

Definition casefold (s : string) : list N := flat_map casefold_char (String.list_ascii_of_string s).

Definition normalized_text (s : string) : list N := casefold (join " " (split_words EmptyString s)).

Section service.
Context (digest : list N → string) (local_date : string → Z → option date).

(** [learner_local_date] of an instant. *)
Definition learner_local_date (now : Z) (timezone : option string) : date :=
  let utc_date := now `div` us_per_day in
  match timezone with
  | None | Some EmptyString => utc_date
  | Some zone => default utc_date (local_date zone now)
  end.

Definition card_content_hash (question answer : string) : string :=
  digest (normalized_text question ++ [10%N] ++ normalized_text answer).

(** The constraints of the two tables on the rows the service writes, and the
    NUL character no text column holds. *)
Definition card_admitted (c : Card) : bool :=
  bounded_text 2048 (cd_question c) && bounded_text 4096 (cd_answer c) &&
  negb (has_nul (cd_question c) || has_nul (cd_answer c) || has_nul (cd_source_ref c)) &&
  negb (dec_lt (easiness (cd_state c)) (Dec 13 (-1))) && dec_lt (easiness (cd_state c)) (of_int 100) &&
  (0 <=? interval_days (cd_state c)) && (0 <=? repetitions (cd_state c)).

Definition find_content (dk : Deck) (owner_id : Z) (hash : string) : option Card :=
  List.find (λ c, (cd_owner_id c =? owner_id) && String.eqb (cd_content_hash c) hash) (all_cards dk).

Definition put_card (dk : Deck) (c : Card) (next : Z) : Deck :=
  MkDeck (<[cd_id c := c]> (dk_cards dk)) (dk_reviews dk) (dk_recordings dk) (dk_timezones dk) next
    (dk_next_review dk).

(** [_upsert]: the row and whether it is new. *)
Definition upsert (dk : Deck) (now owner_id : Z) (command : CardCommand) : res (Deck * (Card * bool)) :=
  let hash := card_content_hash (cc_question command) (cc_answer command) in
  match find_content dk owner_id hash with
  | Some existing => Ok (dk, (existing, false))
  | None =>
      let card := MkCardRow (dk_next_card dk) owner_id (strip (cc_question command)) (strip (cc_answer command))
        hash (cc_source_kind command) (cc_source_ref command) (cc_skill_slug command) (cc_assistance command)
        "active" SM2_VERSION (new_card_state (learner_local_date now (dk_timezones dk owner_id))) now now in
      raise_if (negb (card_admitted card)) CardsUnavailable ;;;
      Ok (put_card dk card (dk_next_card dk + 1), (card, true))
  end.

(** The commands of a list, each with what the clock reads at its turn. *)
Definition upsert_step (owner_id : Z) (acc : Deck * list (Card * bool)) (command : Z * CardCommand)
    : res (Deck * list (Card * bool)) :=
  let* out := upsert acc.1 command.1 owner_id command.2 in
  Ok (out.1, acc.2 ++ [out.2]).

Definition upsert_many (dk : Deck) (owner_id : Z) (commands : list (Z * CardCommand))
    : res (Deck * list (Card * bool)) :=
  res_fold (upsert_step owner_id) (dk, []) commands.

Definition create (dk : Deck) (now owner_id : Z) (command : CardCommand) : res (Deck * Card) :=
  let* out := upsert dk now owner_id command in Ok (out.1, out.2.1).

Definition create_many (dk : Deck) (owner_id : Z) (commands : list (Z * CardCommand)) : res (Deck * list Card) :=
  let* out := upsert_many dk owner_id commands in Ok (out.1, map fst out.2).

Record CardImportResponse := MkImport {
  im_source_ref : string; im_created : Z; im_existing : Z; im_cards : list Card
}.

(** [import_package] from the commands its files hold. *)
Definition import_commands (dk : Deck) (owner_id : Z) (source_ref : string) (commands : list (Z * CardCommand))
    : res (Deck * CardImportResponse) :=
  let* out := upsert_many dk owner_id commands in
  let '(dk, results) := out in
  Ok (dk, MkImport source_ref (Z.of_nat (length (filter (λ r, r.2 = true) results)))
            (Z.of_nat (length (filter (λ r, r.2 = false) results))) (map fst results)).

Definition due_key (c : Card) : list Z := [due_on (cd_state c); cd_id c].

Definition list_cards (dk : Deck) (owner_id : Z) : list Card :=
  sort_by (key_leb due_key) (filter (λ c, cd_owner_id c = owner_id) (all_cards dk)).

Definition card_due (owner_id : Z) (on : date) (c : Card) : Prop :=
  cd_owner_id c = owner_id ∧ cd_status c = "active"%string ∧ due_on (cd_state c) ≤ on.
#[export] Instance card_due_dec owner_id on c : Decision (card_due owner_id on c).
Proof. unfold card_due. apply _. Defined.

Definition due (dk : Deck) (owner_id : Z) (on : date) : list Card :=
  take (Z.to_nat DUE_LIMIT) (sort_by (key_leb due_key) (filter (card_due owner_id on) (all_cards dk))).

Definition scheduled (c : Card) (state : CardState) (now : Z) : Card :=
  MkCardRow (cd_id c) (cd_owner_id c) (cd_question c) (cd_answer c) (cd_content_hash c) (cd_source_kind c)
    (cd_source_ref c) (cd_skill_slug c) (cd_assistance c) (cd_status c) SM2_VERSION state
    (cd_created_at c) now.

(** The recording a review names. *)
Definition named_recording (dk : Deck) (owner_id : Z) (recording_id : option string) : res (option Z) :=
  match recording_id with
  | None => Ok None
  | Some client =>
      match dk_recordings dk !! (owner_id, client) with
      | Some pk => Ok (Some pk)
      | None => Err (CardNotFound "the recording was not found")
      end
  end.

Definition review (dk : Deck) (now owner_id card_id grade : Z) (reviewed_on : date) (mode : string)
    (recording_id : option string) : res (Deck * (Card * CardReview)) :=
  match dk_cards dk !! card_id with
  | Some card =>
      raise_if (negb (cd_owner_id card =? owner_id)) (CardNotFound "the card was not found") ;;;
      let* recording := named_recording dk owner_id recording_id in
      raise_if (String.eqb mode "spoken" && match recording with None => true | _ => false end)
        (CardInvalid "a spoken review needs its recording") ;;;
      let* outcome := schedule (cd_state card) grade reviewed_on in
      let after := ro_after outcome in
      let card := scheduled card after now in
      let row := MkReview (dk_next_review dk) owner_id card_id grade mode reviewed_on
        (interval_days (ro_before outcome)) (interval_days after) (easiness after) (due_on after) recording now in
      raise_if (negb (card_admitted card && str_in mode REVIEW_MODES)) CardsUnavailable ;;;
      Ok (MkDeck (<[card_id := card]> (dk_cards dk)) (dk_reviews dk ++ [row]) (dk_recordings dk)
            (dk_timezones dk) (dk_next_card dk) (dk_next_review dk + 1), (card, row))
  | None => Err (CardNotFound "the card was not found")
  end.

Record CardsExport := MkExport { ex_scheduler_version : string; ex_cards : list Card; ex_reviews : list CardReview }.

Definition export_cards (dk : Deck) (owner_id : Z) : CardsExport :=
  MkExport SM2_VERSION
    (sort_by (key_leb (λ c, [cd_id c])) (filter (λ c, cd_owner_id c = owner_id) (all_cards dk)))
    (sort_by (key_leb (λ r, [cv_id r])) (filter (λ r, cv_owner_id r = owner_id) (dk_reviews dk))).
End service.

(** ** Where commands come from *)

Definition first_chars (n : Z) (s : string) : string := String.substring 0 (Z.to_nat n) s.

Definition bounded (question answer : string) : string * string :=
  (first_chars 2048 question, first_chars 4096 answer).

(** The constructor of [CardCommand]. *)
Definition new_CardCommand (c : CardCommand) : res CardCommand :=
  raise_if (negb (valid_command c)) (Exn "ValidationError" "CardCommand") ;;; Ok c.

Definition note_card_commands (note_id : Z) (flashcards : list (string * string)) (slug assistance : string)
    : res (list CardCommand) :=
  let coached := if String.eqb assistance "coached" then "coached"%string else "independent"%string in
  res_map (λ '(q, a), new_CardCommand (MkCommand q a slug "study_note" ("note:" +:+ pretty note_id) coached))
    (filter (λ qa, qa.1 ≠ "" ∧ qa.2 ≠ "")%string
       (map (λ '(q, a), bounded (strip q) (strip a)) flashcards)).

Definition coach_card_command (message_id index : Z) (question answer slug : string) : res CardCommand :=
  let '(q, a) := bounded (strip question) (strip answer) in
  new_CardCommand (MkCommand q a slug "coach" ("coach:" +:+ pretty message_id +:+ ":" +:+ pretty index) "coached").
