(* ===== verification/DeckContract.v ===== *)
(** * What the deck promises

    Theorems about Deck.v: a card is where its reviews put it, an owner has one
    card per content whatever is imported again, and the cards due on a day are
    the ones the learner is shown, oldest first. *)

From stdpp Require Import prelude list strings gmap sorting pretty.
From Stdlib Require Import ZArith Lia.
From S2P Require Import Prelude PyTime PyText PyDecimal Hashing Cards Deck.

Section deck.
Context (digest : list N → string) (local_date : string → Z → option date).

(** The reviews of a card, oldest first. *)
Definition card_reviews (dk : Deck) (id : Z) : list CardReview :=
  filter (λ r, cv_card_id r = id) (dk_reviews dk).

(** The rows [log] are a run of the schedule from [state] to [final]. *)
Fixpoint replays (state : CardState) (log : list CardReview) (final : CardState) : Prop :=
  match log with
  | [] => state = final
  | r :: rest => ∃ o, schedule state (cv_grade r) (cv_reviewed_on r) = Ok o ∧
      cv_interval_before r = interval_days state ∧ cv_interval_after r = interval_days (ro_after o) ∧
      cv_easiness_after r = easiness (ro_after o) ∧ cv_due_after r = due_on (ro_after o) ∧
      replays (ro_after o) rest final
  end.

Lemma replays_snoc state log mid r o :
  replays state log mid → schedule mid (cv_grade r) (cv_reviewed_on r) = Ok o →
  cv_interval_before r = interval_days mid → cv_interval_after r = interval_days (ro_after o) →
  cv_easiness_after r = easiness (ro_after o) → cv_due_after r = due_on (ro_after o) →
  replays state (log ++ [r]) (ro_after o).
Proof.
  intros Hlog Hs H1 H2 H3 H4. revert state Hlog. induction log as [|x log IH]; intros state Hlog; simpl in *.
  - subst state. exists o. done.
  - destruct Hlog as (o' & ? & ? & ? & ? & ? & Hrest). exists o'. eauto 10.
Qed.

(** The logged reviews, run through the schedule, give the state. *)
Lemma replays_review_all state log final :
  replays state log final → review_all state (map (λ r, (cv_grade r, cv_reviewed_on r)) log) = Ok final.
Proof.
  unfold review_all. revert state. induction log as [|r log IH]; intros state; simpl; [by intros ->|].
  intros (o & -> & _ & _ & _ & _ & Hrest). simpl. by apply IH.
Qed.

(** A new card is due on the day its learner was living in. *)
Definition first_due (c : Card) (timezone : option string) : date :=
  learner_local_date local_date (cd_created_at c) timezone.

Record deck_ok (dk : Deck) : Prop := {
  do_keys : ∀ i c, dk_cards dk !! i = Some c → cd_id c = i ∧ i < dk_next_card dk;
  do_content : ∀ i j c d, dk_cards dk !! i = Some c → dk_cards dk !! j = Some d →
    cd_owner_id c = cd_owner_id d → cd_content_hash c = cd_content_hash d → i = j;
  do_replays : ∀ i c, dk_cards dk !! i = Some c →
    ∃ timezone, replays (new_card_state (first_due c timezone)) (card_reviews dk i) (cd_state c);
  do_reviews : ∀ r, r ∈ dk_reviews dk → ∃ c, dk_cards dk !! cv_card_id r = Some c ∧
    cd_owner_id c = cv_owner_id r ∧ (cv_mode r = "spoken"%string → is_Some (cv_recording_id r));
}.

Lemma elem_of_all_cards dk c : deck_ok dk → c ∈ all_cards dk ↔ dk_cards dk !! cd_id c = Some c.
Proof.
  intros Hok. unfold all_cards. rewrite list_elem_of_fmap. split.
  - intros ([i d] & -> & Hin). apply elem_of_map_to_list in Hin. simpl.
    by destruct (do_keys _ Hok _ _ Hin) as [-> _].
  - intros Hc. exists (cd_id c, c). split; [done|]. by apply elem_of_map_to_list.
Qed.

Lemma find_content_Some dk owner_id hash c :
  deck_ok dk →
  find_content dk owner_id hash = Some c ↔
  dk_cards dk !! cd_id c = Some c ∧ cd_owner_id c = owner_id ∧ cd_content_hash c = hash.
Proof.
  intros Hok. unfold find_content. split.
  - intros [Hin Hp]%find_some. apply list_elem_of_In in Hin. rewrite elem_of_all_cards in Hin by done.
    apply andb_true_iff in Hp as [Ho%Z.eqb_eq Hh%String.eqb_eq]. done.
  - intros (Hc & Ho & Hh). pose proof (proj2 (elem_of_all_cards dk c Hok) Hc) as Hin.
    destruct (List.find _ (all_cards dk)) as [d|] eqn:Hf.
    + apply find_some in Hf as [Hd Hp]. apply list_elem_of_In in Hd. rewrite elem_of_all_cards in Hd by done.
      apply andb_true_iff in Hp as [Hod%Z.eqb_eq Hhd%String.eqb_eq].
      assert (cd_id c = cd_id d) as Heq by (eapply (do_content _ Hok); eauto; congruence).
      rewrite <- Heq in Hd. congruence.
    + exfalso. apply list_elem_of_In in Hin. apply (find_none _ _ Hf) in Hin. simpl in Hin.
      rewrite Ho, Hh, Z.eqb_refl, String.eqb_refl in Hin. done.
Qed.

Lemma find_content_None dk owner_id hash i c :
  deck_ok dk → find_content dk owner_id hash = None → dk_cards dk !! i = Some c →
  ¬ (cd_owner_id c = owner_id ∧ cd_content_hash c = hash).
Proof.
  intros Hok Hf Hc [Ho Hh]. destruct (do_keys _ Hok _ _ Hc) as [<- _].
  assert (find_content dk owner_id hash = Some c) by (by apply find_content_Some). congruence.
Qed.

(** Cards stay, with their owner and content. *)
Definition keeps_cards (dk dk' : Deck) : Prop :=
  ∀ i c, dk_cards dk !! i = Some c →
    ∃ c', dk_cards dk' !! i = Some c' ∧ cd_owner_id c' = cd_owner_id c ∧ cd_content_hash c' = cd_content_hash c.

Lemma keeps_cards_refl dk : keeps_cards dk dk.
Proof. intros i c Hc. eauto. Qed.
Lemma keeps_cards_trans dk1 dk2 dk3 : keeps_cards dk1 dk2 → keeps_cards dk2 dk3 → keeps_cards dk1 dk3.
Proof.
  intros H12 H23 i c (c2 & Hc2 & Ho2 & Hh2)%H12. apply H23 in Hc2 as (c3 & Hc3 & Ho3 & Hh3).
  exists c3. split; [done|]. split; congruence.
Qed.

(** The card a command names, in a deck that has it. *)
Definition has_card (dk : Deck) (owner_id : Z) (command : CardCommand) (c : Card) : Prop :=
  dk_cards dk !! cd_id c = Some c ∧ cd_owner_id c = owner_id ∧
  cd_content_hash c = card_content_hash digest (cc_question command) (cc_answer command).

Lemma upsert_existing dk now owner_id command c :
  deck_ok dk → has_card dk owner_id command c →
  upsert digest local_date dk now owner_id command = Ok (dk, (c, false)).
Proof. intros Hok Hc. unfold upsert. by rewrite (proj2 (find_content_Some _ _ _ _ Hok) Hc). Qed.

Lemma no_reviews_yet dk : deck_ok dk → card_reviews dk (dk_next_card dk) = [].
Proof.
  intros Hok. unfold card_reviews. apply list_filter_none. intros r Hr Heq.
  apply (do_reviews _ Hok) in Hr as (c & Hc & _). rewrite Heq in Hc.
  apply (do_keys _ Hok) in Hc as [_ Hlt]. lia.
Qed.

Lemma upsert_Ok dk now owner_id command dk' c fresh :
  deck_ok dk → upsert digest local_date dk now owner_id command = Ok (dk', (c, fresh)) →
  deck_ok dk' ∧ keeps_cards dk dk' ∧ has_card dk' owner_id command c ∧ dk_reviews dk' = dk_reviews dk.
Proof.
  intros Hok. unfold upsert.
  destruct (find_content dk owner_id _) as [d|] eqn:Hf.
  { intros [= <- <- <-]. apply find_content_Some in Hf; [|done].
    split; [done|]. split; [apply keeps_cards_refl|]. done. }
  cbv zeta. set (card := MkCardRow (dk_next_card dk) _ _ _ _ _ _ _ _ _ _ _ _ _).
  intros [_ [= <- <- _]]%raise_if_bind_Ok.
  assert (dk_cards dk !! dk_next_card dk = None) as Hfresh.
  { destruct (dk_cards dk !! dk_next_card dk) eqn:E; [|done]. apply (do_keys _ Hok) in E. lia. }
  split; [split|]; simpl.
  - intros i x [[<- <-]|[_ Hx]]%lookup_insert_Some; simpl; [split; [done|lia]|].
    apply (do_keys _ Hok) in Hx. split; [tauto|lia].
  - intros i j x y [[<- <-]|[Hi Hx]]%lookup_insert_Some [[<- <-]|[Hj Hy]]%lookup_insert_Some Ho Hh;
      [done| | |by eapply (do_content _ Hok)].
    + exfalso. by apply (find_content_None _ _ _ _ _ Hok Hf Hy).
    + exfalso. apply (find_content_None _ _ _ _ _ Hok Hf Hx). by rewrite Ho, Hh.
  - intros i x [[<- <-]|[_ Hx]]%lookup_insert_Some; [|by apply (do_replays _ Hok)].
    exists (dk_timezones dk owner_id).
    change (card_reviews (put_card dk card (dk_next_card dk + 1)) (dk_next_card dk))
      with (card_reviews dk (dk_next_card dk)). by rewrite no_reviews_yet.
  - intros r (x & Hx & Hrest)%(do_reviews _ Hok). exists x. split; [|done].
    rewrite lookup_insert_ne; [done|]. intros Heq. rewrite Heq in Hfresh. congruence.
  - split; [|split; [|done]].
    + intros i x Hx. exists x. simpl. rewrite lookup_insert_ne; [done|]. intros <-. congruence.
    + split; [|done]. simpl. by rewrite lookup_insert_eq.
Qed.

Lemma has_card_keeps dk dk' owner_id command c :
  deck_ok dk' → keeps_cards dk dk' → has_card dk owner_id command c →
  ∃ c', has_card dk' owner_id command c' ∧ cd_id c' = cd_id c.
Proof.
  intros Hok Hk (Hc & Ho & Hh). apply Hk in Hc as (c' & Hc' & Ho' & Hh').
  destruct (do_keys _ Hok _ _ Hc') as [Hid _]. exists c'. unfold has_card. rewrite Hid, Ho', Hh'. done.
Qed.

Lemma upsert_steps_Ok owner_id commands dk acc dk' acc' :
  deck_ok dk → res_fold (upsert_step digest local_date owner_id) (dk, acc) commands = Ok (dk', acc') →
  deck_ok dk' ∧ keeps_cards dk dk' ∧ dk_reviews dk' = dk_reviews dk ∧
  ∃ results, acc' = acc ++ results ∧ length results = length commands ∧
    ∀ k command, commands !! k = Some command → ∃ c fresh c', results !! k = Some (c, fresh) ∧
      has_card dk' owner_id command.2 c' ∧ cd_id c' = cd_id c.
Proof.
  revert dk acc. induction commands as [|command commands IH]; intros dk acc Hok; cbn [res_fold].
  { intros [= <- <-]. split; [done|]. split; [apply keeps_cards_refl|]. split; [done|].
    exists []. by rewrite app_nil_r. }
  intros ([dk1 acc1] & Hstep & H)%res_bind_Ok. unfold upsert_step in Hstep. cbn [fst snd] in Hstep.
  apply res_bind_Ok in Hstep as ([dk2 [c fresh]] & Hup & [= <- <-]). cbn [fst snd] in H.
  apply upsert_Ok in Hup as (Hok2 & Hk2 & Hc & Hr2); [|done].
  apply IH in H as (Hok' & Hk' & Hr' & results & -> & Hlen & Hall); [|done].
  split; [done|]. split; [by eapply keeps_cards_trans|]. split; [congruence|].
  exists ((c, fresh) :: results). split; [by rewrite <- app_assoc|]. split; [simpl; by rewrite Hlen|].
  intros [|k] cmd; simpl; [|apply Hall]. intros [= <-]. exists c, fresh.
  destruct (has_card_keeps _ _ _ _ _ Hok' Hk' Hc) as (c' & Hc' & Hid). by exists c'.
Qed.

Lemma upsert_steps_existing owner_id commands cards dk acc :
  deck_ok dk → Forall2 (λ command, has_card dk owner_id command.2) commands cards →
  res_fold (upsert_step digest local_date owner_id) (dk, acc) commands =
  Ok (dk, acc ++ map (λ c, (c, false)) cards).
Proof.
  intros Hok Hall. revert acc. induction Hall as [|command c commands cards Hc _ IH]; intros acc; simpl.
  - by rewrite app_nil_r.
  - unfold upsert_step. cbn [fst snd]. rewrite (upsert_existing _ _ _ _ _ Hok Hc). cbn [res_bind fst snd].
    fold (upsert_step digest local_date owner_id). rewrite IH. by rewrite <- app_assoc.
Qed.

Lemma review_Ok dk now owner_id card_id grade on mode recording_id dk' c r :
  deck_ok dk → review dk now owner_id card_id grade on mode recording_id = Ok (dk', (c, r)) →
  deck_ok dk' ∧ keeps_cards dk dk' ∧ dk_reviews dk' = dk_reviews dk ++ [r].
Proof.
  intros Hok Hrev. unfold review in Hrev. destruct (dk_cards dk !! card_id) as [card|] eqn:Hcard; [|done].
  apply raise_if_bind_Ok in Hrev as [Howner Hrev]. apply negb_false_iff, Z.eqb_eq in Howner.
  apply res_bind_Ok in Hrev as (recording & Hrec & Hrev). apply raise_if_bind_Ok in Hrev as [Hspoken Hrev].
  apply res_bind_Ok in Hrev as (o & Ho & Hrev). cbv zeta in Hrev.
  apply raise_if_bind_Ok in Hrev as [_ [= <- <- <-]].
  set (card' := scheduled card (ro_after o) now). set (row := MkReview _ _ _ _ _ _ _ _ _ _ _ _).
  assert (ro_before o = cd_state card) as Hbefore.
  { unfold schedule in Ho. apply raise_if_bind_Ok in Ho as [_ Ho]. apply res_bind_Ok in Ho as (? & _ & Ho).
    apply res_bind_Ok in Ho as (? & _ & Ho). apply res_bind_Ok in Ho as (? & _ & Ho).
    by apply res_bind_Ok in Ho as (? & _ & [= <-]). }
  destruct (do_keys _ Hok _ _ Hcard) as [Hid Hlt].
  assert (∀ id, card_reviews (MkDeck (<[card_id:=card']> (dk_cards dk)) (dk_reviews dk ++ [row])
    (dk_recordings dk) (dk_timezones dk) (dk_next_card dk) (dk_next_review dk + 1)) id =
    card_reviews dk id ++ (if base.decide (card_id = id) then [row] else [])) as Hlog.
  { intros id. unfold card_reviews. simpl. rewrite filter_app, filter_cons, filter_nil. simpl. done. }
  split; [split|split; [|done]]; cbn [dk_cards dk_reviews dk_next_card].
  - intros i x [[<- <-]|[_ Hx]]%lookup_insert_Some; [by split|]. by apply (do_keys _ Hok).
  - intros i j x y Hx Hy Hox Hhx.
    assert (∀ k z, <[card_id:=card']> (dk_cards dk) !! k = Some z → ∃ z', dk_cards dk !! k = Some z' ∧
      cd_owner_id z' = cd_owner_id z ∧ cd_content_hash z' = cd_content_hash z) as Hold.
    { intros k z [[<- <-]|[_ Hz]]%lookup_insert_Some; [by exists card|by exists z]. }
    apply Hold in Hx as (x' & Hx & Ho1 & Hh1), Hy as (y' & Hy & Ho2 & Hh2).
    eapply (do_content _ Hok); eauto; congruence.
  - intros i x Hx. rewrite Hlog. apply lookup_insert_Some in Hx as [[<- <-]|[Hne Hx]].
    + destruct (do_replays _ Hok _ _ Hcard) as (timezone & Hrep). exists timezone.
      rewrite decide_True by done.
      eapply replays_snoc; [exact Hrep|exact Ho|simpl; by rewrite Hbefore|done..].
    + rewrite decide_False, app_nil_r by done. by apply (do_replays _ Hok).
  - intros x [Hx|Hx%list_elem_of_singleton]%elem_of_app; [|subst x].
    + apply (do_reviews _ Hok) in Hx as (y & Hy & Hoy & Hsp).
      destruct (base.decide (card_id = cv_card_id x)) as [Heq|Hne].
      * exists card'. rewrite <- Heq, lookup_insert_eq. split; [done|]. split; [|done].
        rewrite <- Heq in Hy. simpl. congruence.
      * exists y. by rewrite lookup_insert_ne.
    + exists card'. simpl. rewrite lookup_insert_eq. split; [done|]. split; [done|]. intros ->.
      simpl in Hspoken. by destruct recording.
  - intros i x Hx. cbn [dk_cards]. destruct (base.decide (card_id = i)) as [<-|Hne].
    + exists card'. rewrite lookup_insert_eq. split; [done|]. simpl. split; congruence.
    + exists x. by rewrite lookup_insert_ne.
Qed.

(** What happens to a deck: commands are added, a card is reviewed, or the
    recordings and settings beside the cards change. *)
Inductive deck_step (dk : Deck) : Deck → Prop :=
| step_upsert owner_id commands dk' results :
    upsert_many digest local_date dk owner_id commands = Ok (dk', results) → deck_step dk dk'
| step_review now owner_id card_id grade on mode recording_id dk' out :
    review dk now owner_id card_id grade on mode recording_id = Ok (dk', out) → deck_step dk dk'
| step_outside recordings timezones :
    deck_step dk (MkDeck (dk_cards dk) (dk_reviews dk) recordings timezones (dk_next_card dk) (dk_next_review dk)).

Lemma deck_step_ok dk dk' :
  deck_ok dk → deck_step dk dk' →
  deck_ok dk' ∧ keeps_cards dk dk' ∧ dk_reviews dk `prefix_of` dk_reviews dk'.
Proof.
  intros Hok [owner_id commands dk1 results H|now owner_id card_id grade on mode rec dk1 [c r] H|recs tzs].
  - apply upsert_steps_Ok in H as (? & ? & -> & _); done.
  - apply review_Ok in H as (? & ? & ->); [|done]. split; [done|]. split; [done|]. by eexists.
  - split; [|split; [exact (keeps_cards_refl dk)|done]].
    destruct Hok as [Hkeys Hcontent Hreplays Hreviews]. by split.
Qed.

Lemma deck_steps_ok dk dk' :
  deck_ok dk → rtc deck_step dk dk' →
  deck_ok dk' ∧ keeps_cards dk dk' ∧ dk_reviews dk `prefix_of` dk_reviews dk'.
Proof.
  intros Hok Hsteps. revert Hok. induction Hsteps as [dk|dk1 dk2 dk3 Hstep _ IH]; intros Hok.
  { split; [done|]. split; [apply keeps_cards_refl|done]. }
  destruct (deck_step_ok _ _ Hok Hstep) as (Hok2 & Hk2 & Hr2). destruct (IH Hok2) as (Hok3 & Hk3 & Hr3).
  split; [done|]. split; [by eapply keeps_cards_trans|by etrans].
Qed.

(** C23. After any calls a card is where its logged reviews put it: running the
    SM-2 schedule over the grades and days of its reviews, from a new card due on
    the day its learner was living in when it was created, gives its easiness, interval, repetitions and due date, and each logged review
    has the interval before it and the values after it.  An owner has one card
    per content, and reviews are only added. *)
Theorem card_is_where_its_reviews_put_it dk dk' id c :
  deck_ok dk → rtc deck_step dk dk' → dk_cards dk' !! id = Some c →
  (∃ timezone,
     let new := new_card_state (learner_local_date local_date (cd_created_at c) timezone) in
     replays new (card_reviews dk' id) (cd_state c) ∧
     review_all new (map (λ r, (cv_grade r, cv_reviewed_on r)) (card_reviews dk' id)) = Ok (cd_state c)) ∧
  (∀ j d, dk_cards dk' !! j = Some d → cd_owner_id d = cd_owner_id c →
     cd_content_hash d = cd_content_hash c → j = id) ∧
  dk_reviews dk `prefix_of` dk_reviews dk'.
Proof.
  intros Hok Hsteps Hc. destruct (deck_steps_ok _ _ Hok Hsteps) as (Hok' & _ & Hr).
  destruct (do_replays _ Hok' _ _ Hc) as (timezone & Hrep).
  split; [exists timezone; split; [done|by apply replays_review_all]|]. split; [|done].
  intros j d Hd Ho Hh. by eapply (do_content _ Hok').
Qed.

(** Importing a package again, at any time, adds nothing: whatever was reviewed or added
    in between, every card of the second import exists, none is new, the deck
    stays as it is, and the cards are those of the first import. *)
Theorem import_again_adds_nothing dk owner_id source_ref commands dk1 first dk2 source_ref' commands' :
  deck_ok dk → commands'.*2 = commands.*2 →
  import_commands digest local_date dk owner_id source_ref commands = Ok (dk1, first) →
  rtc deck_step dk1 dk2 →
  ∃ again, import_commands digest local_date dk2 owner_id source_ref' commands' = Ok (dk2, again) ∧
    im_created again = 0 ∧ im_existing again = Z.of_nat (length commands) ∧
    map cd_id (im_cards again) = map cd_id (im_cards first).
Proof.
  intros Hok Hsame Himp Hsteps. unfold import_commands in Himp.
  apply res_bind_Ok in Himp as ([dkx results] & Hup & [= -> <-]). pose proof Hup as Hup'.
  apply upsert_steps_Ok in Hup' as (Hok1 & _ & _ & results' & Heq & Hlen & Hall); [|done].
  simpl in Heq. subst results'. destruct (deck_steps_ok _ _ Hok1 Hsteps) as (Hok2 & Hk2 & _).
  assert (∃ cards, Forall2 (λ command, has_card dk2 owner_id command.2) commands cards ∧
    map cd_id cards = map (λ r, cd_id r.1) results) as (cards & Hcards & Hids).
  { clear Hup Hsame commands'. revert results Hlen Hall. induction commands as [|command commands IH]; intros [|[c fresh] results] Hlen Hall;
      try discriminate Hlen; [exists []; split; [constructor|done]|].
    destruct (Hall 0%nat command eq_refl) as (c0 & f0 & c' & [= -> ->] & Hc' & Hid').
    destruct (has_card_keeps _ _ _ _ _ Hok2 Hk2 Hc') as (c2 & Hc2 & Hid2).
    destruct (IH results) as (cards & Hcards & Hids); [by injection Hlen|intros k cmd Hk; by apply (Hall (S k))|].
    exists (c2 :: cards). split; [by constructor|]. simpl. by rewrite Hids, Hid2, Hid'. }
  assert (Forall2 (λ command, has_card dk2 owner_id command.2) commands' cards) as Hcards'.
  { assert (Forall2 (has_card dk2 owner_id) commands'.*2 cards) as Htexts by (rewrite Hsame; by apply Forall2_fmap_l).
    rewrite <- (list_fmap_id cards) in Htexts. apply Forall2_fmap_1 in Htexts. exact Htexts. }
  assert (length commands' = length commands) as Hsamelen.
  { rewrite <- (length_fmap snd commands'), Hsame. apply length_fmap. }
  unfold import_commands, upsert_many. rewrite (upsert_steps_existing _ _ _ _ _ Hok2 Hcards').
  cbn [res_bind]. eexists. split; [reflexivity|]. simpl.
  split; [rewrite list_filter_none; [done|intros r (c & -> & _)%list_elem_of_fmap; done]|].
  split; [rewrite list_filter_all; [|intros r (c & -> & _)%list_elem_of_fmap; done]|].
  - rewrite length_map. by rewrite (Forall2_length _ _ _ Hcards).
  - rewrite !map_map. exact Hids.
Qed.

(** The cards shown for a day are due: active cards of the owner due on or
    before it, the oldest due first, at most two hundred, and a due card that
    is not shown comes after all of those that are. *)
Theorem due_cards_are_the_oldest_due dk owner_id on :
  let shown := due dk owner_id on in
  StronglySorted (λ a b, key_leb due_key a b = true) shown ∧
  (∀ c, c ∈ shown → c ∈ all_cards dk ∧ card_due owner_id on c) ∧
  length shown = Nat.min 200 (length (filter (card_due owner_id on) (all_cards dk))) ∧
  (∀ c, c ∈ all_cards dk → card_due owner_id on c → c ∉ shown →
     ∀ d, d ∈ shown → key_leb due_key d c = true).
Proof.
  intros shown. unfold due in shown. change (Z.to_nat DUE_LIMIT) with 200%nat in shown.
  set (sorted := sort_by (key_leb due_key) (filter (card_due owner_id on) (all_cards dk))) in *.
  assert (StronglySorted (λ a b, key_leb due_key a b = true) sorted) as Hs by (apply sort_by_sorted; eauto).
  assert (∀ c, c ∈ sorted ↔ card_due owner_id on c ∧ c ∈ all_cards dk) as Hel.
  { intros c. unfold sorted. by rewrite elem_of_sort_by, list_elem_of_filter. }
  pose proof (take_drop 200 sorted) as Htd. split; [|split; [|split]].
  - rewrite <- Htd in Hs. by apply StronglySorted_app_1_l in Hs.
  - intros c Hc. assert (c ∈ sorted) as Hin by (rewrite <- Htd; set_solver). apply Hel in Hin. tauto.
  - unfold shown. rewrite length_take. unfold sorted. by rewrite length_sort_by.
  - intros c Hc Hdue Hnot d Hd. assert (c ∈ sorted) as Hin by by apply Hel.
    rewrite <- Htd in Hin. apply elem_of_app in Hin as [?|Hin]; [done|].
    by eapply (StronglySorted_take_drop _ _ 200 Hs).
Qed.
End deck.

(** ** A concrete deck *)

Definition plain_digest (codes : list N) : string :=
  String.string_of_list_ascii (map Ascii.ascii_of_N codes).
Definition no_zone (zone : string) (us : Z) : option date := None.
Definition empty_deck : Deck := MkDeck ∅ [] ∅ (λ _, None) 1 1.
Definition sample_command (question : string) : CardCommand :=
  MkCommand question "An answer" "general" "package" "package:a.md" "independent".
Definition sample_commands : list (Z * CardCommand) :=
  [(days 738000, sample_command "What is SM-2?"); (days 738000, sample_command "what  IS sm-2?")].
Definition sample_import : Deck * CardImportResponse :=
  ok_or (empty_deck, MkImport "" 0 0 [])
    (import_commands plain_digest no_zone empty_deck 7 "pkg" sample_commands).
Definition sample_upserted : Deck * list (Card * bool) :=
  ok_or (empty_deck, []) (upsert_many plain_digest no_zone empty_deck 7 sample_commands).
Definition sample_review (dk : Deck) (grade day : Z) : Deck :=
  from_option fst dk (match review dk (days day) 7 1 grade day "written" None with Ok out => Some out | Err _ => None end).
Definition sample_reviewed : Deck := sample_review (sample_review sample_import.1 5 738000) 4 738001.

Lemma empty_deck_ok : deck_ok no_zone empty_deck.
Proof. by split; try (intros i c Hc; rewrite lookup_empty in Hc); intros; simpl in *; try set_solver. Qed.

Lemma sample_deck_steps : rtc (deck_step plain_digest no_zone) empty_deck sample_reviewed.
Proof.
  eapply (rtc_l _ _ sample_import.1).
  { apply (step_upsert _ _ _ 7 sample_commands _ sample_upserted.2). vm_compute. reflexivity. }
  eapply rtc_l.
  { eapply (step_review _ _ _ (days 738000) 7 1 5 738000 "written" None). vm_compute. reflexivity. }
  eapply rtc_l; [|apply rtc_refl].
  eapply (step_review _ _ _ (days 738001) 7 1 4 738001 "written" None). vm_compute. reflexivity.
Qed.

Lemma card_is_where_its_reviews_put_it_witness :
  from_option (λ c, interval_days (cd_state c)) 0 (dk_cards sample_reviewed !! 1) = 6 ∧
  ∀ c, dk_cards sample_reviewed !! 1 = Some c → ∃ timezone,
    review_all (new_card_state (learner_local_date no_zone (cd_created_at c) timezone))
      (map (λ r, (cv_grade r, cv_reviewed_on r)) (card_reviews sample_reviewed 1)) = Ok (cd_state c).
Proof.
  split; [vm_compute; reflexivity|]. intros c Hc.
  destruct (card_is_where_its_reviews_put_it plain_digest no_zone empty_deck sample_reviewed 1 c
    empty_deck_ok sample_deck_steps Hc) as [(timezone & _ & H) _].
  exists timezone. exact H.
Defined.

Lemma sample_import_runs :
  import_commands plain_digest no_zone empty_deck 7 "pkg" sample_commands =
  Ok (sample_import.1, sample_import.2).
Proof. vm_compute. reflexivity. Qed.

Lemma import_again_adds_nothing_witness :
  im_created sample_import.2 = 1 ∧ im_existing sample_import.2 = 1 ∧
  ∃ again, import_commands plain_digest no_zone sample_import.1 7 "pkg" sample_commands =
             Ok (sample_import.1, again) ∧ im_created again = 0.
Proof.
  split; [reflexivity|]. split; [reflexivity|].
  destruct (import_again_adds_nothing plain_digest no_zone _ _ _ _ _ _ _ "pkg" sample_commands
    empty_deck_ok eq_refl sample_import_runs (rtc_refl _ _)) as (again & H1 & H2 & _).
  exists again. split; [exact H1|exact H2].
Defined.

(** A question of white space passes the command's schema, and the answer is
    that the store is unavailable: the row it makes violates a constraint. *)
Lemma blank_question_is_an_outage :
  valid_command (sample_command " ") = true ∧
  create plain_digest no_zone empty_deck (days 738000) 7 (sample_command " ") = Err CardsUnavailable.
Proof. vm_compute. by split. Qed.
