(* ===== verification/Evidence.v ===== *)
(** * Evidence: scoring, qualification, trend, confidence, portfolio

    The pure calculators of evidence/: scoring.py, qualification.py, trend.py,
    confidence.py and portfolio.py, with the parts of config_models.py they
    read.  Every [Decimal] the schemas admit is finite, so the finiteness
    checks of the code have no counterpart here. *)

From stdpp Require Import prelude list strings gmap pretty.
From Stdlib Require Import ZArith Lia.
From S2P Require Import Prelude PyTime PyDecimal.

(** ** Configuration *)

Module EvidenceConfig.

Record SkillImpactConfig := MkImpact { si_skill_slug : string; si_weight : decimal; si_condition : string }.
Record ChildExerciseRef := MkChildRef { cr_exercise_type : string; cr_mapping_version : string }.

Record ExerciseTypeConfig := MkExercise {
  xt_slug : string;
  xt_mapping_version : string;
  xt_evidence_mode : string;
  xt_impacts : list SkillImpactConfig;
  xt_required_precommit_field : option string;
  xt_allowed_domain_competencies : list string;
  xt_allowed_story_competencies : list string;
  xt_selected_impact : option decimal;
  xt_composite_metrics : list (string * decimal);
  xt_component_scoring_required : bool;
  xt_child_exercise_type_refs : list ChildExerciseRef;
}.

(** A tuple in a boolean context. *)
Definition nonempty {A} (l : list A) : bool := match l with [] => false | _ => true end.

Definition allowed_selected_competencies (x : ExerciseTypeConfig) : list string :=
  if nonempty (xt_allowed_domain_competencies x) then xt_allowed_domain_competencies x
  else xt_allowed_story_competencies x.

(** [skill_impacts.get(slug)]: the dict keeps the last impact of a slug. *)
Definition skill_impact_for (x : ExerciseTypeConfig) (slug : string) : option SkillImpactConfig :=
  last (filter (λ i, si_skill_slug i = slug) (xt_impacts x)).

Definition composite_metric_weights (x : ExerciseTypeConfig) : gmap string decimal :=
  foldl (λ m p, <[p.1 := p.2]> m) ∅ (xt_composite_metrics x).

Definition isS {A} (x : option A) : bool := match x with Some _ => true | None => false end.

Definition ConfigValueError (msg : string) : exn := Exn "ValueError" msg.

Definition validate_selector_shape (x : ExerciseTypeConfig) : res ExerciseTypeConfig :=
  let values := [isS (xt_required_precommit_field x); nonempty (allowed_selected_competencies x);
                 isS (xt_selected_impact x)] in
  raise_if (existsb id values && negb (forallb id values))
    (ConfigValueError "dynamic selector requires field, allowlist, and selected impact") ;;;
  raise_if (nonempty (xt_allowed_domain_competencies x) && nonempty (xt_allowed_story_competencies x))
    (ConfigValueError "dynamic selector must use exactly one allowlist") ;;;
  raise_if (bool_decide (xt_required_precommit_field x = Some "domain_competency_slug"%string)
            && negb (nonempty (xt_allowed_domain_competencies x)))
    (ConfigValueError "domain selector requires domain competency allowlist") ;;;
  raise_if (bool_decide (xt_required_precommit_field x = Some "story_competency_slug"%string)
            && negb (nonempty (xt_allowed_story_competencies x)))
    (ConfigValueError "story selector requires story competency allowlist") ;;;
  raise_if (negb (Bool.eqb (xt_component_scoring_required x) (nonempty (xt_child_exercise_type_refs x))))
    (ConfigValueError "component scoring and child exercise references must agree") ;;;
  Ok x.

Record PracticeModeFactors := MkPracticeModes {
  exposure_only : decimal; guided_practice : decimal; independent_practice : decimal;
  timed_assessment : decimal; mock_interview : decimal; real_interview : decimal;
}.
Record AssistanceFactors := MkAssistance {
  no_ai : decimal; ai_after_committed_attempt : decimal; ai_hints_during_attempt : decimal;
  ai_co_created : decimal; ai_generated : decimal;
}.
Record EvaluatorFactors := MkEvaluators {
  self_factor : decimal; ai_rubric_reviewer : decimal; peer : decimal; human_coach : decimal;
  explicit_interviewer_feedback : decimal;
}.
Record DifficultyFactors := MkDifficulties {
  introductory : decimal; standard : decimal; advanced : decimal;
}.

(** The fields of a group by name, for [getattr] and [model_fields]. *)
Definition practice_mode_fields (g : PracticeModeFactors) : list (string * decimal) :=
  [("exposure_only"%string, exposure_only g); ("guided_practice"%string, guided_practice g);
   ("independent_practice"%string, independent_practice g);
   ("timed_assessment"%string, timed_assessment g); ("mock_interview"%string, mock_interview g);
   ("real_interview"%string, real_interview g)].
Definition assistance_fields (g : AssistanceFactors) : list (string * decimal) :=
  [("no_ai"%string, no_ai g); ("ai_after_committed_attempt"%string, ai_after_committed_attempt g);
   ("ai_hints_during_attempt"%string, ai_hints_during_attempt g);
   ("ai_co_created"%string, ai_co_created g); ("ai_generated"%string, ai_generated g)].
Definition evaluator_fields (g : EvaluatorFactors) : list (string * decimal) :=
  [("self"%string, self_factor g); ("ai_rubric_reviewer"%string, ai_rubric_reviewer g);
   ("peer"%string, peer g); ("human_coach"%string, human_coach g);
   ("explicit_interviewer_feedback"%string, explicit_interviewer_feedback g)].
Definition difficulty_fields (g : DifficultyFactors) : list (string * decimal) :=
  [("introductory"%string, introductory g); ("standard"%string, standard g);
   ("advanced"%string, advanced g)].

Record ConfidenceRules := MkConfidenceRules {
  high_minimum_effective_weight : decimal;
  high_minimum_exercise_types : Z;
  high_recent_assessment_days : Z;
  high_requires_reviewed_artifact_or_recording : bool;
  medium_minimum_effective_weight : decimal;
  medium_minimum_exercise_types : Z;
  medium_requires_independent_attempt : bool;
}.

Definition validate_threshold_order (r : ConfidenceRules) : res ConfidenceRules :=
  raise_if (dec_lt (high_minimum_effective_weight r) (medium_minimum_effective_weight r))
    (ConfigValueError "high confidence threshold must be at least medium") ;;;
  raise_if (high_minimum_exercise_types r <? medium_minimum_exercise_types r)
    (ConfigValueError "high confidence exercise count must be at least medium") ;;;
  Ok r.

Record RecencyRules := MkRecencyRules { fresh_max_days : Z; aging_max_days : Z }.

Definition validate_window_order (r : RecencyRules) : res RecencyRules :=
  raise_if (aging_max_days r <? fresh_max_days r)
    (ConfigValueError "fresh recency must not exceed aging recency") ;;;
  Ok r.

Record TrendRules := MkTrendRules {
  recent_event_count : Z; preceding_event_count : Z; minimum_delta : decimal;
}.

Record FormulaConfig := MkFormula {
  fo_version : string;
  prior_weight : decimal;
  latest_qualifying_events : Z;
  full_weight_same_day_limit : Z;
  same_day_repetition_factor : decimal;
  maximum_effective_weight_per_event : decimal;
  performance_scale_min : decimal;
  performance_scale_max : decimal;
  practice_mode_factors : PracticeModeFactors;
  assistance_factors : AssistanceFactors;
  evaluator_factors : EvaluatorFactors;
  difficulty_factors : DifficultyFactors;
  qualifying_modes : gset string;
  qualifying_assistance : gset string;
  requires_rubric_score : bool;
  independent_practice_requires_attempt_a : bool;
  attempt_b_qualifies : bool;
  confidence_rules : ConfidenceRules;
  trend_rules : TrendRules;
  recency_rules : RecencyRules;
}.

Definition expected_modes : gset string :=
  {["independent_practice"; "timed_assessment"; "mock_interview"; "real_interview"]}.
Definition expected_assistance : gset string := {["no_ai"; "ai_after_committed_attempt"]}.

(** [FormulaConfig.validate_scale], with the [Literal] fields. *)
Definition validate_formula (f : FormulaConfig) : res FormulaConfig :=
  raise_if (negb (requires_rubric_score f) || negb (independent_practice_requires_attempt_a f)
            || attempt_b_qualifies f) (ConfigValueError "literal field") ;;;
  raise_if (negb (bool_decide (qualifying_modes f = expected_modes)))
    (ConfigValueError "qualifying modes are fixed by the scoring contract") ;;;
  raise_if (negb (bool_decide (qualifying_assistance f = expected_assistance)))
    (ConfigValueError "qualifying assistance is fixed by the scoring contract") ;;;
  raise_if (dec_lt (performance_scale_min f) (of_int 0) || dec_lt (of_int 4) (performance_scale_max f))
    (ConfigValueError "performance scale must remain within 0 and 4") ;;;
  raise_if (dec_le (performance_scale_max f) (performance_scale_min f))
    (ConfigValueError "performance scale maximum must be greater than minimum") ;;;
  Ok f.

Record RubricDimensionConfig := MkRubricDimension {
  rd_slug : string; rd_maximum : decimal; rd_weight : decimal;
}.
Record RubricConfig := MkRubric {
  rb_slug : string; rb_version : string; rb_scale_min : decimal; rb_scale_max : decimal;
  rb_dimensions : list RubricDimensionConfig;
}.

Definition validate_rubric_scale (r : RubricConfig) : res RubricConfig :=
  raise_if (dec_lt (rb_scale_min r) (of_int 0) || dec_lt (of_int 20) (rb_scale_max r))
    (ConfigValueError "rubric scale must remain within 0 and 20") ;;;
  raise_if (dec_le (rb_scale_max r) (rb_scale_min r))
    (ConfigValueError "scale maximum must be greater than minimum") ;;;
  Ok r.

End EvidenceConfig.
Import EvidenceConfig.

(** ** scoring.py *)

Module Scoring.

Definition SCORE_QUANTUM : Z := -3.
Definition WEIGHT_QUANTUM : Z := -6.
Definition ScoringError (msg : string) : exn := Exn "ScoringError" msg.

Record DimensionScoreInput := MkDimension { di_slug : string; di_score : decimal; di_weight : decimal }.
Record PerformanceScoreResult := MkPerformance {
  pf_score : decimal; pf_weighted_sum : decimal; pf_weight_sum : decimal;
}.
Record EffectiveWeightFactors := MkFactors {
  ef_skill_impact : decimal; ef_practice_mode : decimal; ef_assistance : decimal;
  ef_evaluator : decimal; ef_difficulty : decimal;
}.
Record EffectiveWeightResult := MkWeight {
  ew_factors : EffectiveWeightFactors; ew_raw_weight : decimal; ew_effective_weight : decimal;
  ew_capped : bool;
}.
Record SkillImpactResult := MkImpactResult { ir_weight : decimal; ir_source : string }.

(** One turn of the loop over the dimensions: the slugs seen and the two sums. *)
Definition add_dimension (acc : list string * decimal * decimal) (d : DimensionScoreInput)
    : res (list string * decimal * decimal) :=
  let '(seen, weighted_sum, weight_sum) := acc in
  raise_if (blank (di_slug d) || str_in (di_slug d) seen)
    (ScoringError "dimension slugs must be nonblank and unique") ;;;
  raise_if (negb (dec_le (of_int 0) (di_score d) && dec_le (di_score d) (of_int 4)))
    (ScoringError "dimension score must be between 0 and 4") ;;;
  raise_if (dec_le (di_weight d) (of_int 0))
    (ScoringError "dimension weight must be greater than zero") ;;;
  Ok (di_slug d :: seen, dec_add weighted_sum (dec_mul (di_score d) (di_weight d)),
      dec_add weight_sum (di_weight d)).

Definition calculate_performance_score (dimensions : list DimensionScoreInput)
    : res PerformanceScoreResult :=
  raise_if (negb (nonempty dimensions)) (ScoringError "at least one rubric dimension is required") ;;;
  let* sums := res_fold add_dimension ([], of_int 0, of_int 0) dimensions in
  let '(_, weighted_sum, weight_sum) := sums in
  raise_if (dec_le weight_sum (of_int 0))
    (ScoringError "dimension weight denominator must be greater than zero") ;;;
  let* ratio := dec_div weighted_sum weight_sum in
  let* score := quantize ROUND_HALF_UP SCORE_QUANTUM ratio in
  raise_if (negb (dec_le (of_int 0) score && dec_le score (of_int 4)))
    (ScoringError "performance score escaped the configured scale") ;;;
  Ok (MkPerformance score weighted_sum weight_sum).

(** [_factor] *)
Definition factor (fields : list (string * decimal)) (name category : string) : res decimal :=
  match find (λ p, String.eqb p.1 name) fields with
  | Some (_, value) => Ok value
  | None => Err (ScoringError ("unknown " +:+ category +:+ " factor '" +:+ name +:+ "'"))
  end.

Definition calculate_effective_weight (skill_impact : decimal)
    (practice_mode assistance evaluator difficulty : string) (formula : FormulaConfig)
    : res EffectiveWeightResult :=
  raise_if (negb (dec_le (of_int 0) skill_impact && dec_le skill_impact (of_int 1)))
    (ScoringError "skill impact must be between 0 and 1") ;;;
  let* practice_factor :=
    if String.eqb practice_mode "pipeline_only" then Ok (of_int 0)
    else factor (practice_mode_fields (practice_mode_factors formula)) practice_mode "practice mode" in
  let* assistance_factor :=
    factor (assistance_fields (assistance_factors formula)) assistance "assistance" in
  let* evaluator_factor :=
    factor (evaluator_fields (evaluator_factors formula)) evaluator "evaluator" in
  let* difficulty_factor :=
    factor (difficulty_fields (difficulty_factors formula)) difficulty "difficulty" in
  let factors := MkFactors skill_impact practice_factor assistance_factor evaluator_factor
                   difficulty_factor in
  let* raw := quantize ROUND_HALF_UP WEIGHT_QUANTUM
    (dec_mul (dec_mul (dec_mul (dec_mul skill_impact practice_factor) assistance_factor)
       evaluator_factor) difficulty_factor) in
  let* maximum := quantize ROUND_HALF_UP WEIGHT_QUANTUM (maximum_effective_weight_per_event formula) in
  Ok (MkWeight factors raw (dec_min raw maximum) (dec_lt maximum raw)).

Definition resolve_skill_impact (exercise : ExerciseTypeConfig) (skill_slug : string)
    (conditions_met : gset string) (selected_competency : option string)
    (selector_committed_before_attempt : bool) : res SkillImpactResult :=
  let mapped :=
    match skill_impact_for exercise skill_slug with
    | None => MkImpactResult (of_int 0) "unmapped"
    | Some impact =>
        if negb (String.eqb (si_condition impact) "always")
           && bool_decide (si_condition impact ∉ conditions_met)
        then MkImpactResult (of_int 0) "condition_not_met"
        else MkImpactResult (si_weight impact) "exercise_mapping"
    end in
  match selected_competency with
  | None => Ok mapped
  | Some competency =>
      raise_if (negb (isS (xt_required_precommit_field exercise))
                || negb selector_committed_before_attempt
                || negb (str_in competency (allowed_selected_competencies exercise)))
        (ScoringError "dynamic impact requires a valid precommit selection") ;;;
      if String.eqb skill_slug competency then
        match xt_selected_impact exercise with
        | None => Err (ScoringError "dynamic impact has no configured weight")
        | Some weight => Ok (MkImpactResult weight "precommit_selector")
        end
      else Ok mapped
  end.

End Scoring.

(** ** Event ids

    An id is an [int] or a [str]; [str(event_id)] is its sort key. *)

Inductive EventId := id_int (n : Z) | id_str (s : string).
#[export] Instance EventId_eq_dec : EqDecision EventId.
Proof. solve_decision. Defined.

Definition id_text (i : EventId) : string :=
  match i with id_int n => pretty n | id_str s => s end.

(** ** qualification.py *)

Module Qualification.

Definition QualificationError (msg : string) : exn := Exn "QualificationError" msg.
Definition CompetencyAdvanceError (msg : string) : exn := Exn "CompetencyAdvanceError" msg.

Record EvidenceCandidate := MkCandidateEvidence {
  ec_event_id : EventId;
  ec_rubric_scored : bool;
  ec_practice_mode : string;
  ec_assistance : string;
  ec_evaluator : string;
  ec_attempt_kind : string;
  ec_exercise_type : string;
  ec_mapping_version : string;
  ec_scenario_key : string;
  ec_occurred_at : datetime;
  ec_ai_role : string;
  ec_required_precommit_field : option string;
  ec_selected_competency : option string;
  ec_allowed_selected_competencies : gset string;
  ec_selector_committed_before_attempt : bool;
}.

(** [EvidenceCandidate.__post_init__] *)
Definition check_EvidenceCandidate (c : EvidenceCandidate) : res EvidenceCandidate :=
  raise_if (negb (aware (ec_occurred_at c))) (QualificationError "occurred_at must be timezone-aware") ;;;
  raise_if (blank (ec_exercise_type c)) (QualificationError "exercise_type must not be blank") ;;;
  raise_if (blank (ec_mapping_version c)) (QualificationError "mapping_version must not be blank") ;;;
  raise_if (blank (ec_scenario_key c)) (QualificationError "scenario_key must not be blank") ;;;
  raise_if (blank (ec_ai_role c)) (QualificationError "ai_role must not be blank") ;;;
  Ok c.

Record QualificationResult := MkQualification { qualifying_for_level : bool; qr_reason : string }.

Definition qualify_evidence (c : EvidenceCandidate) (formula : FormulaConfig) : QualificationResult :=
  if requires_rubric_score formula && negb (ec_rubric_scored c) then
    MkQualification false "missing_rubric_score"
  else if bool_decide (ec_practice_mode c ∉ qualifying_modes formula) then
    MkQualification false "nonqualifying_mode"
  else if bool_decide (ec_assistance c ∉ qualifying_assistance formula) then
    MkQualification false "nonqualifying_assistance"
  else if negb (str_in (ec_evaluator c) (map fst (evaluator_fields (evaluator_factors formula)))) then
    MkQualification false "unknown_evaluator"
  else if negb (attempt_b_qualifies formula) && String.eqb (ec_attempt_kind c) "attempt_b" then
    MkQualification false "attempt_b"
  else if independent_practice_requires_attempt_a formula
          && String.eqb (ec_practice_mode c) "independent_practice"
          && negb (String.eqb (ec_attempt_kind c) "attempt_a") then
    MkQualification false "independent_requires_attempt_a"
  else
    match ec_required_precommit_field c with
    | None => MkQualification true "qualifies"
    | Some _ =>
        match ec_selected_competency c with
        | None => MkQualification false "missing_precommit_selector"
        | Some selected =>
            if negb (ec_selector_committed_before_attempt c)
               || bool_decide (selected ∉ ec_allowed_selected_competencies c)
            then MkQualification false "invalid_precommit_selector"
            else MkQualification true "qualifies"
        end
    end.

(** Both timestamps are aware, so they compare by instant. *)
Definition qualifies_as_transfer (prior candidate : EvidenceCandidate) (formula : FormulaConfig) : bool :=
  qualifying_for_level (qualify_evidence prior formula)
  && qualifying_for_level (qualify_evidence candidate formula)
  && String.eqb (ec_attempt_kind candidate) "attempt_a"
  && (instant (ec_occurred_at prior) <? instant (ec_occurred_at candidate))
  && negb (String.eqb (ec_scenario_key candidate) (ec_scenario_key prior)).

Inductive CompetencyLevel := not_started | practicing | demonstrated.
#[export] Instance CompetencyLevel_eq_dec : EqDecision CompetencyLevel.
Proof. solve_decision. Defined.

Definition COMPETENCY_LADDER : list CompetencyLevel := [not_started; practicing; demonstrated].

(** [COMPETENCY_LADDER.index(level)] *)
Definition ladder_index (level : CompetencyLevel) : Z :=
  match level with not_started => 0 | practicing => 1 | demonstrated => 2 end.

Record CompetencyAdvance := MkAdvance {
  ca_level : CompetencyLevel; ca_qualifying_event_ids : list EventId; ca_reason : string;
}.

(** The constructor with [CompetencyAdvance.__post_init__]. *)
Definition new_CompetencyAdvance (level : CompetencyLevel) (ids : list EventId) (reason : string)
    : res CompetencyAdvance :=
  raise_if (negb (bool_decide (level = not_started)) && negb (nonempty ids))
    (CompetencyAdvanceError "a level above not_started must cite its evidence") ;;;
  raise_if (negb (bool_decide (NoDup ids))) (CompetencyAdvanceError "an event counts once") ;;;
  Ok (MkAdvance level ids reason).

Definition advance_competency (current : CompetencyLevel) (c : EvidenceCandidate)
    (formula : FormulaConfig) (kept : list EventId) : res CompetencyAdvance :=
  let qualification := qualify_evidence c formula in
  if negb (qualifying_for_level qualification) then
    new_CompetencyAdvance current kept (qr_reason qualification)
  else if bool_decide (ec_event_id c ∈ kept) then new_CompetencyAdvance current kept "already_counted"
  else
    let linked := kept ++ [ec_event_id c] in
    let index := Z.min (ladder_index current + 1) (Z.of_nat (length COMPETENCY_LADDER) - 1) in
    new_CompetencyAdvance (nth (Z.to_nat index) COMPETENCY_LADDER not_started) linked "qualifies".

Inductive Readiness := not_ready | partially_ready | ready.
#[export] Instance Readiness_eq_dec : EqDecision Readiness.
Proof. solve_decision. Defined.

Definition readiness_from (levels : gmap string CompetencyLevel) : Readiness :=
  let values := (map_to_list levels).*2 in
  let demonstrated_count := Z.of_nat (length (filter (λ l, l = demonstrated) values)) in
  if negb (nonempty values) then not_ready
  else if demonstrated_count =? Z.of_nat (length values) then ready
  else if negb (demonstrated_count =? 0) || existsb (λ l, bool_decide (l = practicing)) values
       then partially_ready
  else not_ready.

End Qualification.

(** ** trend.py *)

Module Trend.

Definition TREND_QUANTUM : Z := -3.

(** The protocol both evidence and portfolio history implement. *)
Record TrendEvent := MkTrendEvent {
  te_event_id : EventId; te_performance_score : decimal; te_effective_weight : decimal;
  te_occurred_at : datetime;
}.

Record TrendResult := MkTrend {
  tr_code : string;
  tr_delta : option decimal;
  tr_preceding_average : option decimal;
  tr_recent_average : option decimal;
  tr_event_ids : list EventId;
}.

(** [(occurred_at, str(event_id))], by instant and then by text. *)
Definition event_key_leb {A} (at_ : A → datetime) (id : A → EventId) (x y : A) : bool :=
  (instant (at_ x) <? instant (at_ y))
  || ((instant (at_ x) =? instant (at_ y)) && String.leb (id_text (id x)) (id_text (id y))).

(** [items[-n:]] for a positive [n]. *)
Definition last_n {A} (n : Z) (l : list A) : list A := drop (length l - Z.to_nat n) l.

(** [_weighted_average] *)
Definition weighted_average (events : list TrendEvent) : res (option decimal) :=
  let total_weight := dec_sum (map te_effective_weight events) in
  if dec_le total_weight (of_int 0) then Ok None
  else
    let* average := dec_div
      (dec_sum (map (λ e, dec_mul (te_performance_score e) (te_effective_weight e)) events))
      total_weight in
    Ok (Some average).

Definition trend_code (delta minimum : decimal) : string :=
  if dec_le minimum delta then "improving"
  else if dec_le delta (dec_neg minimum) then "declining"
  else "stable".

Definition calculate_trend (events : list TrendEvent) (rules : TrendRules) : res TrendResult :=
  let required := recent_event_count rules + preceding_event_count rules in
  let ordered := sort_by (event_key_leb te_occurred_at te_event_id) events in
  if Z.of_nat (length ordered) <? required then
    Ok (MkTrend "insufficient_evidence" None None None [])
  else
    let selected := last_n required ordered in
    let preceding := take (Z.to_nat (preceding_event_count rules)) selected in
    let recent := drop (Z.to_nat (preceding_event_count rules)) selected in
    let* preceding_average := weighted_average preceding in
    let* recent_average := weighted_average recent in
    let event_ids := map te_event_id selected in
    match preceding_average, recent_average with
    | Some p, Some r =>
        let* delta := quantize ROUND_HALF_UP TREND_QUANTUM (dec_sub r p) in
        let code := trend_code delta (minimum_delta rules) in
        let* p' := quantize ROUND_HALF_UP TREND_QUANTUM p in
        let* r' := quantize ROUND_HALF_UP TREND_QUANTUM r in
        Ok (MkTrend code (Some delta) (Some p') (Some r') event_ids)
    | _, _ => Ok (MkTrend "insufficient_evidence" None None None event_ids)
    end.

End Trend.

(** ** confidence.py *)

Module Confidence.
Import Scoring Trend.

Definition EvidenceEstimateError (msg : string) : exn := Exn "EvidenceEstimateError" msg.

Record SkillEvidence := MkEvidence {
  se_event_id : EventId;
  se_performance_score : decimal;
  se_effective_weight : decimal;
  se_qualifying_for_level : bool;
  se_exercise_type : string;
  se_scenario_key : string;
  se_occurred_at : datetime;
  se_practice_mode : string;
  se_attempt_kind : string;
  se_reviewed_artifact : bool;
  se_scored_recording : bool;
}.

(** [SkillEvidence.__post_init__] *)
Definition check_SkillEvidence (e : SkillEvidence) : res SkillEvidence :=
  raise_if (negb (dec_le (of_int 0) (se_performance_score e) && dec_le (se_performance_score e) (of_int 4)))
    (EvidenceEstimateError "performance_score must be a Decimal from 0 to 4") ;;;
  raise_if (dec_lt (se_effective_weight e) (of_int 0))
    (EvidenceEstimateError "effective_weight must be a nonnegative Decimal") ;;;
  raise_if (negb (aware (se_occurred_at e)))
    (EvidenceEstimateError "occurred_at must be timezone-aware") ;;;
  raise_if (blank (se_exercise_type e) || blank (se_scenario_key e))
    (EvidenceEstimateError "exercise_type and scenario_key must not be blank") ;;;
  Ok e.

Record ConfidenceResult := MkConfidence {
  cf_code : string; cf_basis_code : string; cf_effective_weight : decimal;
  cf_exercise_type_count : Z; cf_event_ids : list EventId;
}.
Record RecencyResult := MkRecency {
  rc_code : string; rc_latest_evidence_at : option datetime; rc_age_days : option Z;
}.
Record EvidenceWeightManifestItem := MkManifest {
  mi_event_id : EventId; mi_raw_weight : decimal; mi_used_weight : decimal; mi_inclusion : string;
}.
Record SkillEstimateResult := MkEstimate {
  es_formula_version : string;
  es_estimate : decimal;
  es_contributing_event_ids : list EventId;
  es_excluded_event_ids : list EventId;
  es_discounted_event_ids : list EventId;
  es_qualifying_event_count : Z;
  es_weight_manifest : list EvidenceWeightManifestItem;
  es_total_effective_weight : decimal;
  es_month_one_target_gap : decimal;
  es_final_target_gap : decimal;
  es_confidence : ConfidenceResult;
  es_trend : TrendResult;
  es_recency : RecencyResult;
  es_last_strong_evidence_at : option datetime;
}.

(** [_validate_as_of] *)
Definition validate_as_of (as_of : datetime) : res unit :=
  raise_if (negb (aware as_of)) (EvidenceEstimateError "as_of must be timezone-aware").

(** The events that count at [as_of]. *)
Definition counts (as_of : datetime) (e : SkillEvidence) : Prop :=
  se_qualifying_for_level e = true ∧ instant (se_occurred_at e) ≤ instant as_of.
#[export] Instance counts_dec as_of e : Decision (counts as_of e).
Proof. unfold counts. apply _. Defined.

(** [sorted(..., key=_event_key)] *)
Definition sort_events (l : list SkillEvidence) : list SkillEvidence :=
  sort_by (event_key_leb se_occurred_at se_event_id) l.

Definition has_recent_assessment (rules : ConfidenceRules) (as_of : datetime)
    (qualifying : list SkillEvidence) : bool :=
  let assessment_cutoff := dt_add as_of (- days (high_recent_assessment_days rules)) in
  existsb (λ e, str_in (se_practice_mode e) ["timed_assessment"; "mock_interview"]
                && (instant assessment_cutoff <=? instant (se_occurred_at e))
                && (instant (se_occurred_at e) <=? instant as_of)) qualifying.

Definition classify_confidence (events : list SkillEvidence) (formula : FormulaConfig)
    (as_of : datetime) : res ConfidenceResult :=
  validate_as_of as_of ;;;
  let rules := confidence_rules formula in
  let qualifying := sort_events (filter (counts as_of) events) in
  let* total_weight := quantize ROUND_HALF_UP WEIGHT_QUANTUM
    (dec_sum (map se_effective_weight qualifying)) in
  let exercise_count := Z.of_nat (length (remove_dups (map se_exercise_type qualifying))) in
  let has_reviewed_output :=
    existsb (λ e, se_reviewed_artifact e || se_scored_recording e) qualifying in
  let high :=
    dec_le (high_minimum_effective_weight rules) total_weight
    && (high_minimum_exercise_types rules <=? exercise_count)
    && has_recent_assessment rules as_of qualifying
    && (has_reviewed_output || negb (high_requires_reviewed_artifact_or_recording rules)) in
  let has_independent_attempt :=
    existsb (λ e, String.eqb (se_practice_mode e) "independent_practice"
                  && String.eqb (se_attempt_kind e) "attempt_a") qualifying in
  let medium :=
    dec_le (medium_minimum_effective_weight rules) total_weight
    && (medium_minimum_exercise_types rules <=? exercise_count)
    && (has_independent_attempt || negb (medium_requires_independent_attempt rules)) in
  let '(code, basis) :=
    if high then ("high"%string, "high_weight_diversity_recency"%string)
    else if medium then ("medium"%string, "medium_weight_diversity"%string)
    else ("low"%string, "low_weight"%string) in
  Ok (MkConfidence code basis total_weight exercise_count (map se_event_id qualifying)).

(** [max(...)] of a nonempty list of timestamps: the first latest one. *)
Definition latest_of (l : list datetime) : option datetime :=
  foldl (λ acc t, match acc with
                  | Some m => if instant m <? instant t then Some t else Some m
                  | None => Some t
                  end) None l.

Definition recency_code (rules : RecencyRules) (age_days : Z) : string :=
  if age_days <=? fresh_max_days rules then "fresh"
  else if age_days <=? aging_max_days rules then "aging"
  else "stale".

(** The age is a whole number of days of 86400 seconds. *)
Definition classify_recency (events : list SkillEvidence) (rules : RecencyRules) (as_of : datetime)
    : res RecencyResult :=
  validate_as_of as_of ;;;
  let qualifying := filter (counts as_of) events in
  match latest_of (map se_occurred_at qualifying) with
  | None => Ok (MkRecency "no_evidence" None None)
  | Some latest =>
      let age_days := Z.max 0 (instant as_of - instant latest) `div` us_per_day in
      Ok (MkRecency (recency_code rules age_days) (Some latest) (Some age_days))
  end.

(** *** Weighting the selected events *)

(** Repetitions of one exercise on one scenario on one calendar day. *)
Definition same_day_group (e : SkillEvidence) : string * string * date :=
  (se_exercise_type e, se_scenario_key e, dt_date (se_occurred_at e)).

Definition with_weight (e : SkillEvidence) (w : decimal) : SkillEvidence :=
  MkEvidence (se_event_id e) (se_performance_score e) w (se_qualifying_for_level e)
    (se_exercise_type e) (se_scenario_key e) (se_occurred_at e) (se_practice_mode e)
    (se_attempt_kind e) (se_reviewed_artifact e) (se_scored_recording e).

Record weighting := MkWeighting {
  wg_group_counts : gmap (string * string * Z) Z;
  wg_adjusted : list SkillEvidence;
  wg_manifest : list EvidenceWeightManifestItem;
  wg_discounted_ids : list EventId;
}.

(** The body of the loop over the selected events. *)
Definition weigh_event (formula : FormulaConfig) (acc : weighting) (e : SkillEvidence) : res weighting :=
  let group := same_day_group e in
  let rank := default 0 (wg_group_counts acc !! group) + 1 in
  let* raw_weight := quantize ROUND_HALF_UP WEIGHT_QUANTUM (se_effective_weight e) in
  let discounted := full_weight_same_day_limit formula <? rank in
  let* used_weight :=
    if discounted then
      quantize ROUND_HALF_UP WEIGHT_QUANTUM (dec_mul raw_weight (same_day_repetition_factor formula))
    else Ok raw_weight in
  Ok (MkWeighting (<[group := rank]> (wg_group_counts acc))
        (wg_adjusted acc ++ [with_weight e used_weight])
        (wg_manifest acc ++ [MkManifest (se_event_id e) raw_weight used_weight
                               (if discounted then "discounted_same_day" else "included")])
        (if discounted then wg_discounted_ids acc ++ [se_event_id e] else wg_discounted_ids acc)).

Definition weigh_events (formula : FormulaConfig) (selected : list SkillEvidence) : res weighting :=
  res_fold (weigh_event formula) (MkWeighting ∅ [] [] []) selected.

Definition trend_event (e : SkillEvidence) : TrendEvent :=
  MkTrendEvent (se_event_id e) (se_performance_score e) (se_effective_weight e) (se_occurred_at e).

Definition in_scale (x : decimal) : bool := dec_le (of_int 0) x && dec_le x (of_int 4).

(** [qualifying[-formula.latest_qualifying_events:]] *)
Definition select_events (formula : FormulaConfig) (as_of : datetime) (events : list SkillEvidence)
    : list SkillEvidence :=
  last_n (latest_qualifying_events formula) (sort_events (filter (counts as_of) events)).

(** The posterior mean: the baseline weighs as much as [prior_weight] evidence. *)
Definition posterior (baseline : decimal) (formula : FormulaConfig) (adjusted : list SkillEvidence)
    (total_weight : decimal) : res decimal :=
  let denominator := dec_add (prior_weight formula) total_weight in
  let numerator := dec_add (dec_mul baseline (prior_weight formula))
    (dec_sum (map (λ e, dec_mul (se_performance_score e) (se_effective_weight e)) adjusted)) in
  let* mean := dec_div numerator denominator in
  quantize ROUND_HALF_UP SCORE_QUANTUM mean.

Definition estimate_skill (baseline month_one_target final_target : decimal)
    (events : list SkillEvidence) (formula : FormulaConfig) (as_of : datetime)
    : res SkillEstimateResult :=
  validate_as_of as_of ;;;
  raise_if (negb (in_scale baseline)) (EvidenceEstimateError "baseline must be a Decimal from 0 to 4") ;;;
  raise_if (negb (in_scale month_one_target))
    (EvidenceEstimateError "month_one_target must be a Decimal from 0 to 4") ;;;
  raise_if (negb (in_scale final_target))
    (EvidenceEstimateError "final_target must be a Decimal from 0 to 4") ;;;
  raise_if (negb (bool_decide (NoDup (map se_event_id events))))
    (EvidenceEstimateError "event IDs must be unique") ;;;
  raise_if (existsb (λ e, dec_lt (maximum_effective_weight_per_event formula) (se_effective_weight e)) events)
    (EvidenceEstimateError "effective_weight exceeds the configured per-event maximum") ;;;
  let selected := select_events formula as_of events in
  let excluded := sort_events
    (filter (λ e, se_event_id e ∉ map se_event_id selected) events) in
  let* w := weigh_events formula selected in
  let* total_weight := quantize ROUND_HALF_UP WEIGHT_QUANTUM
    (dec_sum (map se_effective_weight (wg_adjusted w))) in
  let* estimate := posterior baseline formula (wg_adjusted w) total_weight in
  let strong_dates := map se_occurred_at
    (filter (λ e, se_practice_mode e ∈ ["timed_assessment"; "mock_interview"; "real_interview"]%string)
       (wg_adjusted w)) in
  let* confidence := classify_confidence (wg_adjusted w) formula as_of in
  let* trend := calculate_trend (map trend_event (wg_adjusted w)) (trend_rules formula) in
  let* recency := classify_recency (wg_adjusted w) (recency_rules formula) as_of in
  Ok (MkEstimate (fo_version formula) estimate (map se_event_id (wg_adjusted w))
        (map se_event_id excluded) (wg_discounted_ids w) (Z.of_nat (length (wg_adjusted w)))
        (wg_manifest w) total_weight (dec_sub month_one_target estimate)
        (dec_sub final_target estimate) confidence trend recency (latest_of strong_dates)).

End Confidence.

(** ** portfolio.py *)

Module Portfolio.
Import Scoring Trend.

Definition PortfolioScoringError (msg : string) : exn := Exn "PortfolioScoringError" msg.

Definition PORTFOLIO_TREND_RULES_BY_FORMULA (version : string) : option TrendRules :=
  if String.eqb version "seed-v1" then Some (MkTrendRules 3 3 (Dec 125 (-2))) else None.

Record PortfolioHistoryItem := MkHistory {
  ph_score_id : EventId; ph_total_score : decimal; ph_scored_at : datetime;
}.

(** [PortfolioHistoryItem.__post_init__] *)
Definition check_PortfolioHistoryItem (h : PortfolioHistoryItem) : res PortfolioHistoryItem :=
  raise_if (negb (dec_le (of_int 0) (ph_total_score h) && dec_le (ph_total_score h) (of_int 20)))
    (PortfolioScoringError "portfolio history score must be from 0 to 20") ;;;
  raise_if (negb (aware (ph_scored_at h))) (PortfolioScoringError "scored_at must be timezone-aware") ;;;
  Ok h.

(** The properties that make a history item a trend event: each weighs one. *)
Definition history_event (h : PortfolioHistoryItem) : TrendEvent :=
  MkTrendEvent (ph_score_id h) (ph_total_score h) (of_int 1) (ph_scored_at h).

Record PortfolioComponentScore := MkComponent { pc_slug : string; pc_score : decimal; pc_maximum : decimal }.
Record PortfolioScoreResult := MkPortfolioScore {
  ps_total_score : decimal;
  ps_components : list PortfolioComponentScore;
  ps_rubric_version : string;
  ps_formula_version : string;
  ps_exercise_type : string;
  ps_mapping_version : string;
  ps_trend : TrendResult;
}.
Record PortfolioSkillEvidence := MkSkillEvidence {
  pk_skill_slug : string; pk_performance_score : decimal; pk_impact : decimal;
  pk_exercise_type : string; pk_mapping_version : string;
}.

Definition score_component (component_scores : gmap string decimal) (d : RubricDimensionConfig)
    : res PortfolioComponentScore :=
  match component_scores !! rd_slug d with
  | None => Err (Exn "KeyError" (rd_slug d))
  | Some value =>
      raise_if (dec_lt value (of_int 0))
        (PortfolioScoringError "component score must be a nonnegative Decimal") ;;;
      raise_if (dec_lt (rd_maximum d) value)
        (PortfolioScoringError (rd_slug d +:+ " exceeds its maximum " +:+ dec_str (rd_maximum d))) ;;;
      Ok (MkComponent (rd_slug d) value (rd_maximum d))
  end.

Definition score_portfolio_judgment (component_scores : gmap string decimal) (rubric : RubricConfig)
    (formula_version exercise_type mapping_version : string) (history : list PortfolioHistoryItem)
    : res PortfolioScoreResult :=
  raise_if (negb (String.eqb (rb_slug rubric) "portfolio_judgment")
            || negb (dec_eq (rb_scale_max rubric) (of_int 20)))
    (PortfolioScoringError "portfolio rubric must use the fixed 0 to 20 scale") ;;;
  match PORTFOLIO_TREND_RULES_BY_FORMULA formula_version with
  | None => Err (PortfolioScoringError "unknown portfolio formula version")
  | Some rules =>
      raise_if (negb (bool_decide (dom component_scores
                                   =@{gset string} list_to_set (map rd_slug (rb_dimensions rubric)))))
        (PortfolioScoringError "every portfolio component requires an independent score") ;;;
      let* components := res_map (score_component component_scores) (rb_dimensions rubric) in
      let* total := quantize ROUND_HALF_UP SCORE_QUANTUM (dec_sum (map pc_score components)) in
      raise_if (negb (dec_le (rb_scale_min rubric) total && dec_le total (rb_scale_max rubric)))
        (PortfolioScoringError "portfolio total escaped its configured scale") ;;;
      let* trend :=
        if negb (nonempty history) then Ok (MkTrend "first_score" None None None [])
        else calculate_trend (map history_event history) rules in
      Ok (MkPortfolioScore total components (rb_version rubric) formula_version exercise_type
            mapping_version trend)
  end.

Definition applicable (conditions_met : gset string) (impact : SkillImpactConfig) : Prop :=
  si_condition impact = "always"%string ∨ si_condition impact ∈ conditions_met.
#[export] Instance applicable_dec c i : Decision (applicable c i).
Proof. unfold applicable. apply _. Defined.

Definition map_one (exercise : ExerciseTypeConfig) (skill_scores : gmap string decimal)
    (impact : SkillImpactConfig) : res PortfolioSkillEvidence :=
  match skill_scores !! si_skill_slug impact with
  | None => Err (Exn "KeyError" (si_skill_slug impact))
  | Some score =>
      raise_if (negb (dec_le (of_int 0) score && dec_le score (of_int 4)))
        (PortfolioScoringError "independent skill score must be from 0 to 4") ;;;
      Ok (MkSkillEvidence (si_skill_slug impact) score (si_weight impact) (xt_slug exercise)
            (xt_mapping_version exercise))
  end.

Definition map_portfolio_skill_evidence (exercise : ExerciseTypeConfig)
    (skill_scores : gmap string decimal) (conditions_met : gset string)
    : res (list PortfolioSkillEvidence) :=
  raise_if (negb (isS (composite_metric_weights exercise !! "portfolio_judgment"%string)))
    (PortfolioScoringError "exercise is not a portfolio-scored exercise") ;;;
  let impacts := filter (applicable conditions_met) (xt_impacts exercise) in
  raise_if (negb (bool_decide (dom skill_scores
                               =@{gset string} list_to_set (map si_skill_slug impacts))))
    (PortfolioScoringError "every applicable mapped skill requires an independent score") ;;;
  res_map (map_one exercise skill_scores) impacts.

Definition gauntlet_child (gauntlet : ExerciseTypeConfig)
    (known_exercises : gmap (string * string) ExerciseTypeConfig) (reference : ChildExerciseRef)
    : res ExerciseTypeConfig :=
  match known_exercises !! (cr_exercise_type reference, cr_mapping_version reference) with
  | Some child =>
      raise_if (String.eqb (xt_slug child) (xt_slug gauntlet))
        (PortfolioScoringError "gauntlet child must be a concrete versioned exercise") ;;;
      Ok child
  | None => Err (PortfolioScoringError "gauntlet child must be a concrete versioned exercise")
  end.

Definition validate_gauntlet_children (gauntlet : ExerciseTypeConfig)
    (known_exercises : gmap (string * string) ExerciseTypeConfig) : res (list ExerciseTypeConfig) :=
  raise_if (negb (xt_component_scoring_required gauntlet)
            || negb (nonempty (xt_child_exercise_type_refs gauntlet)))
    (PortfolioScoringError "gauntlet requires concrete versioned child exercises") ;;;
  res_map (gauntlet_child gauntlet known_exercises) (xt_child_exercise_type_refs gauntlet).

End Portfolio.
