(* ===== verification/EvidenceContract.v ===== *)
(** * What the evidence calculators guarantee

    Theorems about [Evidence]: which evidence qualifies and what it does to a
    competency over a whole history, the scale of scores and weights, and the
    estimate of a skill: how events are selected, discounted and averaged. *)

From stdpp Require Import prelude list strings gmap.
From Stdlib Require Import ZArith Lia.
From S2P Require Import Prelude PyTime PyDecimal Evidence.
Import EvidenceConfig Scoring Qualification Trend Confidence.

(** ** Qualification *)

(** What the scoring contract asks of evidence that may move a level. *)
Record qualifying (f : FormulaConfig) (c : EvidenceCandidate) : Prop := {
  qu_rubric : ec_rubric_scored c = true;
  qu_mode : ec_practice_mode c ∈ ["independent_practice"; "timed_assessment"; "mock_interview";
                                  "real_interview"]%string;
  qu_assistance : ec_assistance c ∈ ["no_ai"; "ai_after_committed_attempt"]%string;
  qu_evaluator : ec_evaluator c ∈ ["self"; "ai_rubric_reviewer"; "peer"; "human_coach";
                                   "explicit_interviewer_feedback"]%string;
  qu_attempt : ec_attempt_kind c ≠ "attempt_b"%string;
  qu_independent : ec_practice_mode c = "independent_practice"%string →
                   ec_attempt_kind c = "attempt_a"%string;
  qu_selector : ec_required_precommit_field c ≠ None →
    ec_selector_committed_before_attempt c = true ∧
    ∃ s, ec_selected_competency c = Some s ∧ s ∈ ec_allowed_selected_competencies c;
}.

Lemma validate_formula_Ok f f' :
  validate_formula f = Ok f' →
  f' = f ∧ requires_rubric_score f = true ∧ independent_practice_requires_attempt_a f = true ∧
  attempt_b_qualifies f = false ∧ qualifying_modes f = expected_modes ∧
  qualifying_assistance f = expected_assistance.
Proof.
  unfold validate_formula. rewrite !raise_if_bind_Ok. intros (H1 & H2 & H3 & _ & _ & [= <-]).
  bool_prop. done.
Qed.

Lemma qualifies_iff f f' c :
  validate_formula f = Ok f' →
  qualifying_for_level (qualify_evidence c f) = true ↔ qualifying f c.
Proof.
  intros (_ & Hr & Hi & Hb & Hm & Ha)%validate_formula_Ok.
  unfold qualify_evidence. rewrite Hr, Hi, Hb, Hm, Ha. simpl negb.
  assert (∀ m : string, m ∈ expected_modes ↔ m ∈ ["independent_practice"; "timed_assessment";
    "mock_interview"; "real_interview"]%string) as Hmodes by (unfold expected_modes; set_solver).
  assert (∀ a : string, a ∈ expected_assistance ↔ a ∈ ["no_ai"; "ai_after_committed_attempt"]%string)
    as Hassist by (unfold expected_assistance; set_solver).
  split.
  - intros H. destruct (ec_rubric_scored c) eqn:Hscored; [|done].
    case_bool_decide as H1; [done|]. apply Hmodes in H1.
    case_bool_decide as H2; [done|]. apply Hassist in H2.
    destruct (str_in _ _) eqn:H3; [|done]. apply str_in_spec in H3.
    destruct (String.eqb_spec (ec_attempt_kind c) "attempt_b") as [|H4]; [done|].
    simpl in H.
    destruct (String.eqb_spec (ec_practice_mode c) "independent_practice") as [H5|H5];
    destruct (String.eqb_spec (ec_attempt_kind c) "attempt_a") as [H6|H6]; simpl in H; try done.
    all: split; try done.
    all: intros Hf; destruct (ec_required_precommit_field c) as [fld|]; [|done];
      destruct (ec_selected_competency c) as [s|]; [|done];
      destruct (ec_selector_committed_before_attempt c); simpl in H; [|done];
      case_bool_decide as H7; [done|]; split; [done|]; exists s; done.
  - intros [-> H1 H2 H3 H4 H5 H6]. simpl.
    rewrite (bool_decide_eq_false_2 (_ ∉ expected_modes)) by (apply Hmodes in H1; tauto).
    rewrite (bool_decide_eq_false_2 (_ ∉ expected_assistance)) by (apply Hassist in H2; tauto).
    rewrite (proj2 (str_in_spec _ _) H3). simpl.
    rewrite (proj2 (String.eqb_neq _ _) H4). simpl.
    destruct (String.eqb_spec (ec_practice_mode c) "independent_practice") as [Hp|]; simpl.
    1: rewrite (H5 Hp); simpl.
    all: destruct (ec_required_precommit_field c) as [fld|]; [|done];
      destruct H6 as (-> & s & -> & Hs); [done|]; simpl; by rewrite bool_decide_eq_false_2 by tauto.
Qed.

(** A competency from the start: its level and links after some evidence. *)
Definition advance_all (f : FormulaConfig) (l : list EvidenceCandidate) : res CompetencyAdvance :=
  res_fold (λ a c, advance_competency (ca_level a) c f (ca_qualifying_event_ids a))
    (MkAdvance not_started [] "") l.

(** The state of a competency after [seen]. *)
Record advance_ok (f : FormulaConfig) (seen : list EvidenceCandidate) (a : CompetencyAdvance) : Prop := {
  ao_nodup : NoDup (ca_qualifying_event_ids a);
  ao_level : ladder_index (ca_level a) = Z.min 2 (Z.of_nat (length (ca_qualifying_event_ids a)));
  ao_ids : ∀ i, i ∈ ca_qualifying_event_ids a ↔
      ∃ c, c ∈ seen ∧ qualifying_for_level (qualify_evidence c f) = true ∧ ec_event_id c = i;
}.

Lemma new_CompetencyAdvance_Ok level ids reason :
  NoDup ids → ladder_index level = Z.min 2 (Z.of_nat (length ids)) →
  new_CompetencyAdvance level ids reason = Ok (MkAdvance level ids reason).
Proof.
  intros Hnd Hl. unfold new_CompetencyAdvance.
  rewrite (bool_decide_eq_true_2 (NoDup ids)) by done. simpl.
  destruct level, ids; simpl in *; done || lia.
Qed.

Lemma advance_step f seen a c :
  advance_ok f seen a →
  ∃ a', advance_competency (ca_level a) c f (ca_qualifying_event_ids a) = Ok a' ∧
    advance_ok f (seen ++ [c]) a'.
Proof.
  intros [Hnd Hlev Hids]. unfold advance_competency.
  set (ids := ca_qualifying_event_ids a) in *.
  destruct (qualifying_for_level (qualify_evidence c f)) eqn:Hq; simpl.
  - case_bool_decide as Hin.
    + rewrite new_CompetencyAdvance_Ok by done. eexists; split; [done|]. split; simpl; try done.
      intros i. rewrite Hids. setoid_rewrite elem_of_app. setoid_rewrite list_elem_of_singleton.
      split; [naive_solver|]. intros (c' & [Hc'|Hc'] & H1 & H2); [naive_solver|].
      subst c' i. by apply Hids.
    + assert (NoDup (ids ++ [ec_event_id c])) as Hnd'.
      { apply NoDup_app. split; [done|]. split; [set_solver|apply NoDup_singleton]. }
      rewrite new_CompetencyAdvance_Ok; [|done|].
      * eexists; split; [done|]. split; simpl; [done| |].
        -- rewrite length_app. simpl. destruct (ca_level a); simpl in *; lia.
        -- intros i. rewrite elem_of_app, Hids, list_elem_of_singleton.
           setoid_rewrite elem_of_app. setoid_rewrite list_elem_of_singleton. naive_solver.
      * rewrite length_app. simpl. destruct (ca_level a); simpl in *; lia.
  - rewrite new_CompetencyAdvance_Ok by done. eexists; split; [done|]. split; simpl; try done.
    intros i. rewrite Hids. setoid_rewrite elem_of_app. setoid_rewrite list_elem_of_singleton.
    split; [naive_solver|]. intros (c' & [Hc'|Hc'] & H1 & H2); [naive_solver|]. subst c'. congruence.
Qed.

(** C35. A level rests on evidence anyone can check: over any history of evidence the
    rule never fails; the events it cites are exactly the distinct qualifying
    ones, each once; and the level is one step up the ladder per cited event,
    up to the top.  Under the scoring contract the cited events are rubric
    scored, unassisted, of a qualifying mode, never a second attempt, and
    selected before the attempt where that is required. *)
Theorem competency_history f f' l :
  validate_formula f = Ok f' →
  ∃ a, advance_all f l = Ok a ∧ NoDup (ca_qualifying_event_ids a) ∧
    ladder_index (ca_level a) = Z.min 2 (Z.of_nat (length (ca_qualifying_event_ids a))) ∧
    ∀ i, i ∈ ca_qualifying_event_ids a ↔ ∃ c, c ∈ l ∧ ec_event_id c = i ∧ qualifying f c.
Proof.
  intros Hf. assert (∃ a, advance_all f l = Ok a ∧ advance_ok f l a) as (a & Ha & Hok).
  { unfold advance_all. induction l as [|c l IH] using rev_ind.
    - eexists; split; [done|]. split; simpl; [apply NoDup_nil_2|done|]. set_solver.
    - destruct IH as (a & Ha & Hok). destruct (advance_step f l a c Hok) as (a' & Ha' & Hok').
      exists a'. split; [|done]. rewrite res_fold_app, Ha. simpl. by rewrite Ha'. }
  exists a. destruct Hok as [? ? Hids]. split; [done|]. split; [done|]. split; [done|].
  intros i. rewrite Hids. setoid_rewrite (qualifies_iff f f' _ Hf). naive_solver.
Qed.

(** ** Scores and weights *)

(** A rubric dimension as the schemas admit it: a score in thousandths from 0
    to 4, a weight in millionths above 0 and at most 1. *)
Record dimension_ok (d : DimensionScoreInput) : Prop := {
  dk_slug : blank (di_slug d) = false;
  dk_score_fixed : fixed 3 (di_score d);
  dk_score : 0 ≤ scaled 3 (di_score d) ≤ 4 * 10 ^ 3;
  dk_weight_fixed : fixed 6 (di_weight d);
  dk_weight : 0 < scaled 6 (di_weight d) ≤ 10 ^ 6;
}.

(** A weighted value: score times weight, in units of [10^-9]. *)
Definition weighted (l : list DimensionScoreInput) : Z :=
  sumZ (map (λ d, scaled 3 (di_score d) * scaled 6 (di_weight d)) l).
Definition weights (l : list DimensionScoreInput) : Z := sumZ (map (λ d, scaled 6 (di_weight d)) l).

Lemma weighted_bounds l :
  Forall dimension_ok l →
  0 ≤ weighted l ≤ 4 * 10 ^ 3 * weights l ∧ Z.of_nat (length l) ≤ weights l ≤ 10 ^ 6 * Z.of_nat (length l).
Proof.
  unfold weighted, weights.
  induction 1 as [|d l [_ _ Hs _ Hw] _ IH]; simpl; autorewrite with pysum; [lia|]. nia.
Qed.

Lemma add_dimensions l :
  Forall dimension_ok l → NoDup (map di_slug l) → Z.of_nat (length l) ≤ 10 ^ 15 →
  ∃ ws w, res_fold add_dimension ([], of_int 0, of_int 0) l = Ok (rev (map di_slug l), ws, w) ∧
    fixed 9 ws ∧ scaled 9 ws = weighted l ∧ fixed 6 w ∧ scaled 6 w = weights l.
Proof.
  induction l as [|d l IH] using rev_ind; intros Hok Hnd Hlen.
  { do 2 eexists. split; [done|]. by unfold fixed, scaled, weighted, weights. }
  pose proof Hok as Hok'. apply Forall_app in Hok as [Hok [Hd _]%Forall_cons].
  rewrite map_app in Hnd. apply NoDup_app in Hnd as (Hnd & Hdis & _).
  rewrite length_app in Hlen. simpl in Hlen.
  destruct IH as (ws & w & Hf & Hws & Hsws & Hw & Hsw); [done|done|lia|].
  destruct (weighted_bounds l Hok) as [Hb1 Hb2]. pose proof Hd as [Hbl Hs1 Hs Hw1 Hw2].
  rewrite res_fold_app, Hf. simpl.
  rewrite Hbl. simpl. destruct (str_in (di_slug d) (rev (map di_slug l))) eqn:Hin.
  { exfalso. apply str_in_spec, list_elem_of_In, in_rev, list_elem_of_In in Hin.
    apply (Hdis _ Hin). simpl. by left. }
  rewrite (dec_le_scaled 3 (of_int 0)), (dec_le_scaled 3 _ (of_int 4)), (dec_le_scaled 6 _ (of_int 0))
    by (done || unfold fixed; simpl; lia).
  change (scaled 3 (of_int 0)) with 0. change (scaled 3 (of_int 4)) with (4 * 10 ^ 3).
  change (scaled 6 (of_int 0)) with 0.
  rewrite (proj2 (Z.leb_le _ _) (proj1 Hs)), (proj2 (Z.leb_le _ _) (proj2 Hs)),
    (proj2 (Z.leb_gt _ _) (proj1 Hw2)). simpl.
  assert (10 ^ prec = 10 ^ 28) as Hp by done.
  destruct (dec_mul_exact 3 6 (di_score d) (di_weight d)) as [Hm Hsm]; [done|done|rewrite Hp; nia|].
  change (3 + 6) with 9 in *.
  destruct (dec_add_exact 9 ws (dec_mul (di_score d) (di_weight d))) as [Ha Hsa];
    [done|done|rewrite Hp, Hsws, Hsm; nia|].
  destruct (dec_add_exact 6 w (di_weight d)) as [Hw' Hsw']; [done|done|rewrite Hp; nia|].
  do 2 eexists. split; [rewrite map_app, rev_app_distr; reflexivity|].
  split; [exact Ha|]. split; [|split; [exact Hw'|]].
  - rewrite Hsa, Hsws, Hsm. unfold weighted. rewrite map_app. simpl. autorewrite with pysum. lia.
  - rewrite Hsw', Hsw. unfold weights. rewrite map_app. simpl. autorewrite with pysum. lia.
Qed.

(** C36. A performance score is always on the 0 to 4 scale: for a nonempty set of
    distinct rubric dimensions within their schema, the weighted mean never
    fails, in particular it never divides by zero or escapes the scale, and
    the result is a number of thousandths from 0 to 4. *)
Theorem performance_score_in_scale dims :
  dims ≠ [] → Forall dimension_ok dims → NoDup (map di_slug dims) → Z.of_nat (length dims) ≤ 10 ^ 15 →
  ∃ r c, calculate_performance_score dims = Ok r ∧ pf_score r = Dec c (-3) ∧ 0 ≤ c ≤ 4000 ∧
    scaled 9 (pf_weighted_sum r) = weighted dims ∧ scaled 6 (pf_weight_sum r) = weights dims.
Proof.
  intros Hne Hok Hnd Hlen. unfold calculate_performance_score.
  destruct (add_dimensions dims Hok Hnd Hlen) as (ws & w & -> & Hws & Hsws & Hw & Hsw).
  destruct (weighted_bounds dims Hok) as [Hb1 Hb2].
  assert (0 < Z.of_nat (length dims)) by (destruct dims; simpl; [done|lia]).
  assert (nonempty dims = true) as -> by (by destruct dims). simpl.
  rewrite (dec_le_scaled 6), Hsw by (done || unfold fixed; simpl; lia).
  change (scaled 6 (of_int 0)) with 0. rewrite (proj2 (Z.leb_gt _ _)) by lia. simpl.
  pose proof (scaled_weaken 6 9 w Hw ltac:(lia)) as Hw9. change (10 ^ (9 - 6)) with (10 ^ 3) in Hw9.
  destruct (mean_between ROUND_HALF_UP (-3) 9 4 ws w) as (c & Hmean & Hc);
    [lia|lia|done|done|by apply (fixed_weaken 6)|lia|lia|nia|].
  destruct (dec_div ws w) as [q|]; simpl in *; [|done]. unfold SCORE_QUANTUM. rewrite Hmean. simpl.
  change (4 * 10 ^ 3) with 4000 in Hc.
  rewrite !(dec_le_scaled 3) by (unfold fixed; simpl; lia). unfold scaled at 1 2 3 4. simpl.
  rewrite (proj2 (Z.leb_le _ _)), (proj2 (Z.leb_le _ _)) by lia. simpl.
  by exists (MkPerformance (Dec c (-3)) ws w), c.
Qed.

(** The numeric bounds the schema of the formula imposes. *)
Definition factor_ok (v : decimal) : Prop := 0 ≤ coef v ∧ dec_le v (Dec 115 (-2)) = true.

Record formula_ok (f : FormulaConfig) : Prop := {
  fk_contract : validate_formula f = Ok f;
  fk_practice : Forall (λ p, factor_ok p.2) (practice_mode_fields (practice_mode_factors f));
  fk_assistance : Forall (λ p, factor_ok p.2) (assistance_fields (assistance_factors f));
  fk_evaluator : Forall (λ p, factor_ok p.2) (evaluator_fields (evaluator_factors f));
  fk_difficulty : Forall (λ p, factor_ok p.2) (difficulty_fields (difficulty_factors f));
  fk_prior : fixed 6 (prior_weight f) ∧ 0 < scaled 6 (prior_weight f) ≤ 1000 * 10 ^ 6;
  fk_latest : 1 ≤ latest_qualifying_events f ≤ 1000;
  fk_same_day : fixed 6 (same_day_repetition_factor f) ∧
                0 < scaled 6 (same_day_repetition_factor f) < 10 ^ 6;
  fk_limit : 1 ≤ full_weight_same_day_limit f;
  fk_maximum : fixed 6 (maximum_effective_weight_per_event f) ∧
               0 < scaled 6 (maximum_effective_weight_per_event f) ≤ 1150000;
  fk_trend : 1 ≤ recent_event_count (trend_rules f) ∧ 1 ≤ preceding_event_count (trend_rules f);
}.

Lemma factor_ok_bounds v : factor_ok v → 0 ≤ coef v ∧ at_most 2 v.
Proof.
  intros [Hc Hle]. split; [done|]. set (k := Z.max 2 (- expo v)).
  rewrite (at_most_scaled k) by (unfold fixed; lia).
  rewrite (dec_le_scaled k), Z.leb_le in Hle by (unfold fixed; simpl; lia).
  unfold scaled at 2 in Hle. simpl in Hle.
  replace k with (2 + (k - 2)) by lia. replace (-2 + k) with (k - 2) in Hle by lia.
  rewrite pow10_split by lia. pose proof (pow10_pos (k - 2)). 
  replace (2 + (k - 2)) with k by lia. change (10 ^ 2) with 100. lia.
Qed.

Lemma factor_Ok fields name category :
  name ∈ map fst fields → Forall (λ p, factor_ok p.2) fields →
  ∃ v, factor fields name category = Ok v ∧ (name, v) ∈ fields ∧ 0 ≤ coef v ∧ at_most 2 v.
Proof.
  intros Hin Hok. unfold factor. destruct (find _ _) as [[n v]|] eqn:E.
  - exists v. split; [done|]. rewrite List.Forall_forall in Hok.
    apply find_some in E as [E Heq%String.eqb_eq]. simpl in Heq. subst n.
    split; [by apply list_elem_of_In|]. apply factor_ok_bounds, (Hok _ E).
  - exfalso. apply list_elem_of_In, in_map_iff in Hin as (p & <- & Hp).
    apply (find_none _ _ E) in Hp. simpl in Hp. by rewrite String.eqb_refl in Hp.
Qed.

Definition known_mode (mode : string) : Prop :=
  mode = "pipeline_only"%string ∨
  mode ∈ ["exposure_only"; "guided_practice"; "independent_practice"; "timed_assessment";
          "mock_interview"; "real_interview"]%string.
Definition known_conditions (assistance evaluator difficulty : string) : Prop :=
  assistance ∈ ["no_ai"; "ai_after_committed_attempt"; "ai_hints_during_attempt"; "ai_co_created";
                "ai_generated"]%string ∧
  evaluator ∈ ["self"; "ai_rubric_reviewer"; "peer"; "human_coach";
               "explicit_interviewer_feedback"]%string ∧
  difficulty ∈ ["introductory"; "standard"; "advanced"]%string.

Lemma factor_product_bounds i p a e d :
  0 ≤ coef i → at_most 1 i → 0 ≤ coef p → at_most 2 p → 0 ≤ coef a → at_most 2 a →
  0 ≤ coef e → at_most 2 e → 0 ≤ coef d → at_most 2 d →
  let product := dec_mul (dec_mul (dec_mul (dec_mul i p) a) e) d in
  0 ≤ coef product ∧ at_most 16 product.
Proof.
  intros ? ? ? ? ? ? ? ? ? ?. pose proof (pow10_le 2 26 ltac:(lia)) as Hpow.
  change (10 ^ 2) with 100 in Hpow.
  destruct (dec_mul_bounds 1 2 i p); [lia|lia|lia|assumption..|].
  destruct (dec_mul_bounds 2 2 (dec_mul i p) a); [lia|lia|lia|assumption..|].
  destruct (dec_mul_bounds 4 2 (dec_mul (dec_mul i p) a) e); [lia|lia|lia|assumption..|].
  apply (dec_mul_bounds 8 2); [lia|lia|lia|assumption..].
Qed.

Lemma at_most_mono d : at_most 1 d → at_most 2 d.
Proof.
  set (k := Z.max 0 (- expo d)). rewrite !(at_most_scaled k) by (unfold fixed; lia).
  pose proof (pow10_pos k). lia.
Qed.

(** The product of five factors with up to five decimal places is exact. *)
Lemma factor_product_exact i p a e d :
  Forall (fixed 5) [i; p; a; e; d] → Forall (λ x, 0 ≤ coef x ∧ at_most 2 x) [i; p; a; e; d] →
  let product := dec_mul (dec_mul (dec_mul (dec_mul i p) a) e) d in
  fixed 25 product ∧
  scaled 25 product = scaled 5 i * scaled 5 p * scaled 5 a * scaled 5 e * scaled 5 d.
Proof.
  intros Hfix Hb. repeat (apply List.Forall_cons_iff in Hfix as [? Hfix]).
  repeat (apply List.Forall_cons_iff in Hb as [[? ?] Hb]).
  assert (∀ x, fixed 5 x → 0 ≤ coef x → at_most 2 x → 0 ≤ scaled 5 x ≤ 200000) as Hs.
  { intros x Hf Hpos Hx. rewrite (at_most_scaled 5) in Hx by done. split; [|exact Hx].
    unfold scaled. pose proof (pow10_pos (expo x + 5) ltac:(unfold fixed in Hf; lia)). nia. }
  assert (∀ x X y, 0 ≤ x ≤ X → 0 ≤ y ≤ 200000 → 0 ≤ x * y ≤ X * 200000) as Hmul.
  { intros x X y ? ?. split; [lia|]. apply Z.mul_le_mono_nonneg; lia. }
  assert (∀ k X x y, fixed k x → fixed 5 y → 0 ≤ scaled k x ≤ X → 0 ≤ scaled 5 y ≤ 200000 →
            X * 200000 < 10 ^ 28 →
            fixed (k + 5) (dec_mul x y) ∧ scaled (k + 5) (dec_mul x y) = scaled k x * scaled 5 y ∧
            0 ≤ scaled (k + 5) (dec_mul x y) ≤ X * 200000) as Hstep.
  { intros k X x y Hx Hy Hbx Hby HX. pose proof (Hmul _ _ _ Hbx Hby) as [Hlo Hhi].
    destruct (dec_mul_exact k 5 x y) as [? ->]; [done|done| |done].
    rewrite Z.abs_eq by done. change (10 ^ prec) with (10 ^ 28). lia. }
  destruct (Hstep 5 200000 i p) as (F1 & S1 & B1); [auto..|done|].
  destruct (Hstep 10 (200000 * 200000) (dec_mul i p) a) as (F2 & S2 & B2); [auto..|done|].
  destruct (Hstep 15 (200000 * 200000 * 200000) (dec_mul (dec_mul i p) a) e) as (F3 & S3 & B3);
    [auto..|done|].
  destruct (Hstep 20 (200000 * 200000 * 200000 * 200000) (dec_mul (dec_mul (dec_mul i p) a) e) d)
    as (F4 & S4 & _); [auto..|done|].
  split; [done|]. change (20 + 5) with 25 in S4. change (15 + 5) with 20 in S3.
  change (10 + 5) with 15 in S2. change (5 + 5) with 10 in S1. by rewrite S4, S3, S2, S1.
Qed.

(** C37. No single event can weigh more than the formula allows: for any known mode,
    assistance, evaluator and difficulty the weight is computed without error
    from the impact and the four factors the formula lists under those names,
    with a factor of zero for pipeline work.  The raw weight is the product of
    the five, rounded half up to millionths: exactly the nearest integer number
    of millionths to that product when the factors have at most five decimal
    places.  The effective weight is the smaller of the raw weight and the
    configured maximum, is flagged as capped exactly when the maximum is the
    smaller, and pipeline work weighs nothing. *)
Theorem effective_weight_capped impact mode assistance evaluator difficulty f :
  formula_ok f → 0 ≤ coef impact → dec_le impact (of_int 1) = true →
  known_mode mode → known_conditions assistance evaluator difficulty →
  ∃ r p a e d raw eff,
    calculate_effective_weight impact mode assistance evaluator difficulty f = Ok r ∧
    (if String.eqb mode "pipeline_only" then p = of_int 0
     else (mode, p) ∈ practice_mode_fields (practice_mode_factors f)) ∧
    (assistance, a) ∈ assistance_fields (assistance_factors f) ∧
    (evaluator, e) ∈ evaluator_fields (evaluator_factors f) ∧
    (difficulty, d) ∈ difficulty_fields (difficulty_factors f) ∧
    ew_factors r = MkFactors impact p a e d ∧
    ew_raw_weight r = Dec raw (-6) ∧ ew_effective_weight r = Dec eff (-6) ∧
    quantize ROUND_HALF_UP (-6) (dec_mul (dec_mul (dec_mul (dec_mul impact p) a) e) d)
      = Ok (Dec raw (-6)) ∧
    (Forall (fixed 5) [impact; p; a; e; d] →
     raw = nearest (scaled 5 impact * scaled 5 p * scaled 5 a * scaled 5 e * scaled 5 d) (10 ^ 19)) ∧
    0 ≤ eff ∧ eff = Z.min raw (scaled 6 (maximum_effective_weight_per_event f)) ∧
    (ew_capped r = true ↔ scaled 6 (maximum_effective_weight_per_event f) < raw) ∧
    (mode = "pipeline_only"%string → eff = 0).
Proof.
  intros Hf Hi0 Hi1 Hmode (Ha & He & Hd). destruct Hf.
  unfold calculate_effective_weight.
  assert (at_most 1 impact) as Him by (by apply at_most_dec_le).
  assert (dec_le (of_int 0) impact = true) as Hi by (apply (nonneg_quantum 0 0 impact); lia).
  rewrite Hi, Hi1. cbn [res_bind raise_if negb andb].
  assert (∃ p, (if String.eqb mode "pipeline_only" then Ok (of_int 0)
                else factor (practice_mode_fields (practice_mode_factors f)) mode "practice mode") = Ok p
               ∧ (if String.eqb mode "pipeline_only" then p = of_int 0
                  else (mode, p) ∈ practice_mode_fields (practice_mode_factors f))
               ∧ 0 ≤ coef p ∧ at_most 2 p ∧ (mode = "pipeline_only"%string → p = of_int 0))
    as (p & -> & Hpin & Hp0 & Hp2 & Hpipe).
  { destruct (String.eqb_spec mode "pipeline_only") as [|Hne]; [by exists (of_int 0)|].
    destruct Hmode as [|Hm]; [done|].
    destruct (factor_Ok (practice_mode_fields (practice_mode_factors f)) mode "practice mode")
      as (p & Hp & ? & ? & ?); [done|done|]. by exists p. }
  destruct (factor_Ok (assistance_fields (assistance_factors f)) assistance "assistance")
    as (a & -> & Hain & Ha0 & Ha2); [done|done|].
  destruct (factor_Ok (evaluator_fields (evaluator_factors f)) evaluator "evaluator")
    as (e & -> & Hein & He0 & He2); [done|done|].
  destruct (factor_Ok (difficulty_fields (difficulty_factors f)) difficulty "difficulty")
    as (d & -> & Hdin & Hd0 & Hd2); [done|done|]. cbn [res_bind].
  assert (Forall (λ x, 0 ≤ coef x ∧ at_most 2 x) [impact; p; a; e; d]) as Hpos.
  { pose proof (at_most_mono _ Him). by repeat (apply List.Forall_cons; [by split|]). }
  pose proof (λ Hfix, factor_product_exact impact p a e d Hfix Hpos) as Hexact. cbv zeta in Hexact.
  set (product := dec_mul (dec_mul (dec_mul (dec_mul impact p) a) e) d) in *.
  destruct (factor_product_bounds impact p a e d) as [Hc Hle]; [done..|]. fold product in Hc, Hle.
  destruct (quantize_between ROUND_HALF_UP (-6) 16 product) as (raw & Hq & Hraw);
    [lia|lia|reflexivity|assumption..|].
  unfold WEIGHT_QUANTUM. rewrite Hq. cbn [res_bind]. destruct fk_maximum0 as [Hm1 Hm2].
  assert (quantize ROUND_HALF_UP (-6) (maximum_effective_weight_per_event f)
          = Ok (Dec (scaled 6 (maximum_effective_weight_per_event f)) (-6))) as ->.
  { apply (quantize_fixed ROUND_HALF_UP 6); [assumption|]. change (10 ^ prec) with (10 ^ 28). lia. }
  cbn [res_bind].
  remember (scaled 6 (maximum_effective_weight_per_event f)) as mx eqn:Hmx. clear Hmx.
  assert (dec_lt (Dec mx (-6)) (Dec raw (-6)) = (mx <? raw)) as Hlt.
  { rewrite (dec_lt_scaled 6) by (unfold fixed; simpl; lia). unfold scaled. simpl. by rewrite !Z.mul_1_r. }
  assert (dec_min (Dec raw (-6)) (Dec mx (-6)) = Dec (Z.min raw mx) (-6)) as Hmin.
  { unfold dec_min. rewrite Hlt. destruct (Z.ltb_spec mx raw); f_equal; lia. }
  exists (MkWeight (MkFactors impact p a e d) (Dec raw (-6)) (Dec (Z.min raw mx) (-6)) (mx <? raw)),
    p, a, e, d, raw, (Z.min raw mx).
  split; [by rewrite Hmin, Hlt|]. do 4 (split; [assumption|]).
  split; [reflexivity|]. split; [reflexivity|]. split; [reflexivity|]. split; [assumption|].
  split.
  { intros Hfix. destruct (Hexact Hfix) as [F S].
    rewrite <- S. exact (quantize_nearest 6 19 product (Dec raw (-6)) ltac:(lia) F Hc Hq). }
  cbn [ew_capped]. rewrite Z.ltb_lt.
  split; [lia|]. split; [done|]. split; [done|].
  intros Hpl. assert (raw = 0); [|lia].
  assert (coef product = 0) as Hz.
  { unfold product. rewrite (Hpipe Hpl). do 3 apply dec_mul_zero_l. by apply dec_mul_zero_r. }
  clearbody product.
  destruct (quantize_between ROUND_HALF_UP (-6) 0 product) as (c & Hq' & Hc');
    [lia|lia|reflexivity|assumption| |].
  { clear Hpin. unfold at_most. rewrite Hz. case_match; simpl; lia. }
  rewrite Hq in Hq'. injection Hq' as ->. lia.
Qed.

(** ** The estimate of a skill *)

(** Evidence as its schema and the scoring step produce it: a score in
    thousandths from 0 to 4, a weight in millionths up to the maximum. *)
Record evidence_ok (f : FormulaConfig) (e : SkillEvidence) : Prop := {
  ek_score_fixed : fixed 3 (se_performance_score e);
  ek_score : 0 ≤ scaled 3 (se_performance_score e) ≤ 4000;
  ek_weight_fixed : fixed 6 (se_effective_weight e);
  ek_weight : 0 ≤ scaled 6 (se_effective_weight e) ≤ scaled 6 (maximum_effective_weight_per_event f);
}.

(** The counter of a group is the number of events of the group seen so far. *)
Definition count_group (seen : list SkillEvidence) (g : string * string * Z) : Z :=
  Z.of_nat (length (filter (λ e, same_day_group e = g) seen)).
Definition repetitions_before (seen : list SkillEvidence) (e : SkillEvidence) : Z :=
  count_group seen (same_day_group e).

(** The weight an event keeps: all of it up to the daily limit of its group, a
    fraction after that. *)
Definition weighed_as (f : FormulaConfig) (seen : list SkillEvidence) (e : SkillEvidence)
    (used : Z) (item : EvidenceWeightManifestItem) : Prop :=
  0 ≤ used ≤ scaled 6 (se_effective_weight e) ∧
  item = MkManifest (se_event_id e) (Dec (scaled 6 (se_effective_weight e)) (-6)) (Dec used (-6))
    (if repetitions_before seen e <? full_weight_same_day_limit f then "included"
     else "discounted_same_day") ∧
  used = (if repetitions_before seen e <? full_weight_same_day_limit f
          then scaled 6 (se_effective_weight e)
          else nearest (scaled 6 (se_effective_weight e) * scaled 6 (same_day_repetition_factor f))
                 (10 ^ 6)).

Lemma weigh_event_step f acc seen e :
  formula_ok f → evidence_ok f e →
  (∀ g, default 0 (wg_group_counts acc !! g) = count_group seen g) →
  ∃ acc' used item, weigh_event f acc e = Ok acc' ∧ weighed_as f seen e used item ∧
    wg_adjusted acc' = wg_adjusted acc ++ [with_weight e (Dec used (-6))] ∧
    wg_manifest acc' = wg_manifest acc ++ [item] ∧
    (∀ g, default 0 (wg_group_counts acc' !! g) = count_group (seen ++ [e]) g).
Proof.
  intros Hf [_ _ Hw Hwb] Hcount. destruct Hf. destruct fk_maximum0 as [_ Hmax].
  destruct fk_same_day0 as [Hsf Hsb].
  unfold weigh_event. rewrite Hcount. fold (repetitions_before seen e).
  assert (quantize ROUND_HALF_UP (-6) (se_effective_weight e)
          = Ok (Dec (scaled 6 (se_effective_weight e)) (-6))) as Hraw.
  { apply (quantize_fixed ROUND_HALF_UP 6); [assumption|]. change (10 ^ prec) with (10 ^ 28). lia. }
  unfold WEIGHT_QUANTUM. rewrite Hraw. cbn [res_bind].
  remember (scaled 6 (se_effective_weight e)) as w eqn:Hweq.
  assert (∃ used, (if full_weight_same_day_limit f <? repetitions_before seen e + 1
                   then quantize ROUND_HALF_UP (-6) (dec_mul (Dec w (-6)) (same_day_repetition_factor f))
                   else Ok (Dec w (-6))) = Ok (Dec used (-6)) ∧ 0 ≤ used ≤ w ∧
            used = (if repetitions_before seen e <? full_weight_same_day_limit f then w
                    else nearest (w * scaled 6 (same_day_repetition_factor f)) (10 ^ 6)))
    as (used & -> & Hub & Hfull).
  { destruct (Z.ltb_spec (full_weight_same_day_limit f) (repetitions_before seen e + 1)).
    - destruct (dec_mul_exact 6 6 (Dec w (-6)) (same_day_repetition_factor f)) as [Hpf Hps];
        [by unfold fixed|done|change (10 ^ prec) with (10 ^ 28); change (scaled 6 (Dec w (-6))) with (w * 1); nia|].
      change (6 + 6) with 12 in *. change (scaled 6 (Dec w (-6))) with (w * 1) in Hps.
      set (p := dec_mul _ _) in *.
      assert (dec_le p (Dec w (-6)) = true) as Hhi.
      { rewrite (dec_le_scaled 12), Z.leb_le, Hps by (done || unfold fixed; simpl; lia).
        change (scaled 12 (Dec w (-6))) with (w * 10 ^ 6). nia. }
      assert (dec_le (Dec 0 (-6)) p = true) as Hlo.
      { rewrite (dec_le_scaled 12), Z.leb_le, Hps by (done || unfold fixed; simpl; lia).
        change (scaled 12 (Dec 0 (-6))) with 0. nia. }
      assert (dec_le (Dec (- w) (-6)) p = true) as Hlo'.
      { rewrite (dec_le_scaled 12), Z.leb_le, Hps by (done || unfold fixed; simpl; lia).
        change (scaled 12 (Dec (- w) (-6))) with (- w * 10 ^ 6). nia. }
      destruct (quantize_total ROUND_HALF_UP (-6) p w Hlo' Hhi) as [[c x] Hq];
        [change (10 ^ prec) with (10 ^ 28); lia|].
      pose proof (quantize_expo _ _ _ _ Hq) as Hx. simpl in Hx. subst x.
      exists c. split; [done|].
      split; [split; [apply (quantize_lower _ _ _ _ _ Hlo Hq)|apply (quantize_upper _ _ _ _ _ Hhi Hq)]|].
      rewrite (proj2 (Z.ltb_ge _ _)) by lia. rewrite Z.mul_1_r in Hps. rewrite <- Hps.
      apply (quantize_nearest 6 6 p (Dec c (-6))); [lia|done| |done].
      assert (0 ≤ scaled 12 p) as Hp0 by (rewrite Hps; nia). unfold scaled in Hp0.
      pose proof (pow10_pos (expo p + 12) ltac:(unfold fixed in Hpf; lia)). nia.
    - exists w. split; [done|]. split; [lia|]. by rewrite (proj2 (Z.ltb_lt _ _)) by lia. }
  cbn [res_bind]. eexists _, used, _. split; [reflexivity|]. simpl. subst w.
  split; [|split; [done|split; [reflexivity|]]].
  - split; [done|]. split; [|done]. f_equal.
    destruct (Z.ltb_spec (full_weight_same_day_limit f) (repetitions_before seen e + 1)),
      (Z.ltb_spec (repetitions_before seen e) (full_weight_same_day_limit f)); done || lia.
  - intros g. unfold repetitions_before, count_group in *.
    rewrite filter_app, length_app, filter_cons, lookup_insert.
    repeat case_decide; simplify_eq; simpl; rewrite ?Hcount; lia.
Qed.

(** What the loop over the selected events produces. *)
Definition weighed (f : FormulaConfig) (l : list SkillEvidence) (w : weighting) : Prop :=
  length (wg_adjusted w) = length l ∧ length (wg_manifest w) = length l ∧
  ∀ pre e post, l = pre ++ e :: post → ∃ used item,
    weighed_as f pre e used item ∧
    wg_adjusted w !! length pre = Some (with_weight e (Dec used (-6))) ∧
    wg_manifest w !! length pre = Some item.

Lemma weigh_events_ok f l :
  formula_ok f → Forall (evidence_ok f) l → ∃ w, weigh_events f l = Ok w ∧ weighed f l w ∧
    ∀ g, default 0 (wg_group_counts w !! g) = count_group l g.
Proof.
  intros Hf. unfold weigh_events. induction l as [|e l IH] using rev_ind; intros Hok.
  { eexists. split; [done|]. split; [|intros g; simpl; by rewrite lookup_empty].
    split; [done|]. split; [done|]. by intros [|] ? ?. }
  apply Forall_app in Hok as [Hok [He _]%Forall_cons].
  destruct (IH Hok) as (w & Hw & (Hla & Hlm & Hall) & Hcount).
  destruct (weigh_event_step f w l e Hf He Hcount)
    as (w' & used & item & Hw' & Hitem & Hadj & Hman & Hcount').
  exists w'. rewrite res_fold_app, Hw. simpl. rewrite Hw'. split; [done|]. split; [|done].
  split; [by rewrite Hadj, !length_app, Hla|]. split; [by rewrite Hman, !length_app, Hlm|].
  intros pre e0 post Heq. destruct post as [|e1 post _] using rev_ind.
  - apply app_inj_tail in Heq as [<- <-]. exists used, item. split; [done|].
    rewrite Hadj, Hman. rewrite !list_lookup_middle by done. done.
  - rewrite app_comm_cons, app_assoc in Heq. apply app_inj_tail in Heq as [Heq <-].
    destruct (Hall pre e0 post Heq) as (used0 & item0 & ? & Ha & Hm). exists used0, item0.
    split; [done|]. rewrite Hadj, Hman. split; by apply lookup_app_l_Some.
Qed.

(** *** Sums of weights and of weighted scores *)

(** What an average reads of an event: both evidence and trend events have it. *)
Record point := MkPoint { pt_score : decimal; pt_weight : decimal }.
Record point_ok (p : point) : Prop := {
  pk_score_fixed : fixed 3 (pt_score p);
  pk_score : 0 ≤ scaled 3 (pt_score p) ≤ 4000;
  pk_weight_fixed : fixed 6 (pt_weight p);
  pk_weight : 0 ≤ scaled 6 (pt_weight p) ≤ 1150000;
}.
Definition point_weights (l : list point) : Z := sumZ (map (λ p, scaled 6 (pt_weight p)) l).
Definition point_products (l : list point) : Z :=
  sumZ (map (λ p, scaled 3 (pt_score p) * scaled 6 (pt_weight p)) l).

Lemma point_bounds l :
  Forall point_ok l →
  0 ≤ point_weights l ≤ 1150000 * Z.of_nat (length l) ∧
  0 ≤ point_products l ≤ 4000 * point_weights l.
Proof.
  unfold point_weights, point_products.
  induction 1 as [|p l [_ Hs _ Hw] _ IH]; simpl; autorewrite with pysum; [lia|]. nia.
Qed.

Lemma point_sums l :
  Forall point_ok l → Z.of_nat (length l) ≤ 10 ^ 9 →
  (fixed 6 (dec_sum (map pt_weight l)) ∧ scaled 6 (dec_sum (map pt_weight l)) = point_weights l) ∧
  (fixed 9 (dec_sum (map (λ p, dec_mul (pt_score p) (pt_weight p)) l)) ∧
   scaled 9 (dec_sum (map (λ p, dec_mul (pt_score p) (pt_weight p)) l)) = point_products l).
Proof.
  intros Hok Hlen. destruct (point_bounds l Hok) as [Hw Hp].
  assert (10 ^ prec = 10 ^ 28) as Hprec by done.
  assert (∀ p, point_ok p → fixed 9 (dec_mul (pt_score p) (pt_weight p)) ∧
    scaled 9 (dec_mul (pt_score p) (pt_weight p)) = scaled 3 (pt_score p) * scaled 6 (pt_weight p)) as Hmul.
  { intros p [Hsf Hs Hwf Hwb]. apply (dec_mul_exact 3 6); [done|done|]. rewrite Hprec. nia. }
  split.
  - assert (sumZ (map (scaled 6) (map pt_weight l)) = point_weights l) as Hsum by (by rewrite map_map).
    rewrite <- Hsum. apply dec_sum_exact; [lia| |rewrite Hsum, Hprec; lia].
    apply Forall_map. eapply Forall_impl; [exact Hok|]. intros p [_ _ ? ?]. simpl. split; [done|lia].
  - assert (sumZ (map (scaled 9) (map (λ p, dec_mul (pt_score p) (pt_weight p)) l)) = point_products l) as Hsum.
    { rewrite map_map. unfold point_products. f_equal. apply map_ext_in.
      intros p Hin. rewrite List.Forall_forall in Hok. by apply Hmul, Hok. }
    rewrite <- Hsum. apply dec_sum_exact; [lia| |rewrite Hsum, Hprec; nia].
    apply Forall_map. eapply Forall_impl; [exact Hok|]. intros p Hpok. simpl.
    destruct (Hmul p Hpok) as [? ->]. destruct Hpok. split; [done|nia].
Qed.

Definition evidence_point (e : SkillEvidence) : point :=
  MkPoint (se_performance_score e) (se_effective_weight e).
Definition trend_point (t : TrendEvent) : point :=
  MkPoint (te_performance_score t) (te_effective_weight t).

Lemma evidence_point_ok f e : formula_ok f → evidence_ok f e → point_ok (evidence_point e).
Proof. intros [] []. split; simpl; try done. lia. Qed.

(** *** The trend of well-formed events always exists *)

Lemma weighted_average_ok l :
  Forall point_ok (map trend_point l) → Z.of_nat (length l) ≤ 10 ^ 9 →
  ∃ a, weighted_average l = Ok a ∧ (∀ q, a = Some q → 0 ≤ coef q ∧ at_most 4 q).
Proof.
  intros Hok Hlen.
  destruct (point_sums _ Hok) as [[Hwf Hws] [Hpf Hps]]; [by rewrite length_map|].
  destruct (point_bounds _ Hok) as [Hb1 Hb2]. rewrite !map_map in Hwf, Hws, Hpf, Hps. simpl in *.
  change (λ x, te_effective_weight x) with te_effective_weight in *.
  unfold weighted_average. rewrite (dec_le_scaled 6), Hws by (done || unfold fixed; simpl; lia).
  change (scaled 6 (of_int 0)) with 0.
  destruct (Z.leb_spec (point_weights (map trend_point l)) 0) as [|Hpos]; [by exists None|].
  pose proof (scaled_weaken 6 9 _ Hwf ltac:(lia)) as Hw9. change (10 ^ (9 - 6)) with 1000 in Hw9.
  edestruct (dec_div_bounds 9 4) as (q & Hq & Hq0 & Hq4);
    [| exact Hpf | by apply (fixed_weaken 6) |rewrite Hps; lia | rewrite Hw9; lia
     | rewrite Hw9, Hws, Hps; lia|]; [lia|].
  rewrite Hq. exists (Some q). split; [done|]. by intros ? [= ->].
Qed.

Lemma calculate_trend_ok l rules :
  Forall point_ok (map trend_point l) → Z.of_nat (length l) ≤ 10 ^ 9 →
  ∃ t, calculate_trend l rules = Ok t.
Proof.
  intros Hok Hlen. unfold calculate_trend.
  set (ordered := sort_by _ l). case_match; [eauto|].
  assert (Forall point_ok (map trend_point ordered) ∧ Z.of_nat (length ordered) ≤ 10 ^ 9) as [Hok' Hlen'].
  { unfold ordered. split; [|by rewrite length_sort_by]. by rewrite sort_by_perm. }
  set (selected := last_n _ ordered).
  assert (Forall point_ok (map trend_point selected) ∧ Z.of_nat (length selected) ≤ 10 ^ 9) as [Hok'' Hlen''].
  { unfold selected, last_n. rewrite <- skipn_map, length_drop. split; [by apply Forall_drop|lia]. }
  set (n := Z.to_nat _).
  destruct (weighted_average_ok (take n selected)) as (p & -> & Hp);
    [rewrite <- firstn_map; by apply Forall_take|rewrite length_take; lia|].
  destruct (weighted_average_ok (drop n selected)) as (r & -> & Hr);
    [rewrite <- skipn_map; by apply Forall_drop|rewrite length_drop; lia|].
  cbn [res_bind]. destruct p as [p|]; [|eauto]. destruct r as [r|]; [|eauto].
  destruct (Hp p eq_refl) as [Hp0 Hp4]. destruct (Hr r eq_refl) as [Hr0 Hr4].
  assert (4 * 10 ^ (- (-3)) < 10 ^ prec) as Hbound by done.
  assert (0 ≤ 4 < 10 ^ 26) as H426 by (split; [lia|done]).
  unfold TREND_QUANTUM.
  destruct (difference_between ROUND_HALF_UP (-3) 4 r p) as (d & -> & _); [lia|assumption..|].
  destruct (quantize_between ROUND_HALF_UP (-3) 4 p) as (p' & -> & _); [lia|lia|assumption..|].
  destruct (quantize_between ROUND_HALF_UP (-3) 4 r) as (r' & -> & _); [lia|lia|assumption..|].
  cbn [res_bind]. eauto.
Qed.

(** *** Selection *)

Lemma event_key_leb_total {A} at_ (id : A → EventId) x y :
  event_key_leb at_ id x y = true ∨ event_key_leb at_ id y x = true.
Proof.
  unfold event_key_leb. destruct (Z.lt_trichotomy (instant (at_ x)) (instant (at_ y))) as [H|[H|H]].
  - left. apply Z.ltb_lt in H. by rewrite H.
  - rewrite H, Z.ltb_irrefl, Z.eqb_refl. simpl. apply String_leb_total.
  - right. apply Z.ltb_lt in H. by rewrite H.
Qed.

Lemma event_key_leb_trans {A} at_ (id : A → EventId) x y z :
  event_key_leb at_ id x y = true → event_key_leb at_ id y z = true → event_key_leb at_ id x z = true.
Proof.
  unfold event_key_leb. rewrite !orb_true_iff, !andb_true_iff, !Z.ltb_lt, !Z.eqb_eq.
  intros [?|[? ?]] [?|[? ?]]; try (left; lia). right. split; [lia|]. by eapply String_leb_trans.
Qed.

Lemma elem_of_select f as_of events e :
  e ∈ select_events f as_of events → e ∈ events ∧ counts as_of e.
Proof.
  unfold select_events, last_n, sort_events. intros He%elem_of_drop_weaken.
  apply elem_of_sort_by, list_elem_of_filter in He as [? ?]. done.
Qed.

Lemma length_select f as_of events :
  1 ≤ latest_qualifying_events f →
  Z.of_nat (length (select_events f as_of events)) =
  Z.min (latest_qualifying_events f) (Z.of_nat (length (filter (counts as_of) events))).
Proof.
  intros Hn. unfold select_events, last_n, sort_events. rewrite length_drop, length_sort_by. lia.
Qed.

Lemma weighed_evidence_ok f l w :
  Forall (evidence_ok f) l → weighed f l w → Forall (evidence_ok f) (wg_adjusted w).
Proof.
  intros Hok (Hla & _ & Hall). apply Forall_lookup. intros i a Ha.
  assert (i < length l)%nat as Hi by (rewrite <- Hla; by eapply lookup_lt_Some).
  destruct (lookup_lt_is_Some_2 l i Hi) as [e He].
  pose proof (take_drop_middle _ _ _ He) as Hsplit.
  destruct (Hall (take i l) e (drop (S i) l)) as (used & item & (Hu & _) & Hadj & _); [done|].
  rewrite length_take_le in Hadj by lia. rewrite Ha in Hadj. injection Hadj as ->.
  eapply Forall_lookup in Hok as [? ? ? ?]; [|exact He].
  split; simpl; try done. change (scaled 6 (Dec used (-6))) with (used * 1). lia.
Qed.

Lemma classify_confidence_ok f as_of l :
  formula_ok f → aware as_of = true → Forall (evidence_ok f) l → Z.of_nat (length l) ≤ 10 ^ 9 →
  ∃ c, classify_confidence l f as_of = Ok c.
Proof.
  intros Hf Hao Hok Hlen. unfold classify_confidence, validate_as_of. rewrite Hao.
  cbn [res_bind raise_if negb]. set (q := sort_events _).
  assert (Forall point_ok (map evidence_point q) ∧ Z.of_nat (length q) ≤ 10 ^ 9) as [Hq Hql].
  { unfold q, sort_events. split.
    - apply Forall_map, Forall_forall. intros e He%elem_of_sort_by.
      apply list_elem_of_filter in He as [_ He]. rewrite Forall_forall in Hok.
      by eapply evidence_point_ok, Hok.
    - rewrite length_sort_by. pose proof (length_filter (counts as_of) l). lia. }
  destruct (point_sums _ Hq) as [[Hwf Hws] _]; [by rewrite length_map|].
  destruct (point_bounds _ Hq) as [Hb _]. rewrite length_map in Hb.
  rewrite map_map in Hwf, Hws. simpl in Hwf, Hws.
  change (λ x, se_effective_weight x) with se_effective_weight in *.
  assert (quantize ROUND_HALF_UP (-6) (dec_sum (map se_effective_weight q))
          = Ok (Dec (point_weights (map evidence_point q)) (-6))) as Hquant.
  { rewrite <- Hws. apply (quantize_fixed ROUND_HALF_UP 6); [done|].
    change (10 ^ prec) with (10 ^ 28). lia. }
  unfold WEIGHT_QUANTUM. rewrite Hquant. cbn [res_bind]. case_match. eauto.
Qed.

Lemma classify_recency_ok as_of rules l :
  aware as_of = true → ∃ r, classify_recency l rules as_of = Ok r.
Proof.
  intros Hao. unfold classify_recency, validate_as_of. rewrite Hao. cbn [res_bind raise_if negb].
  case_match; eauto.
Qed.

(** The mean of the baseline, at its prior weight, and the weighed evidence. *)
Lemma posterior_ok f baseline l w :
  formula_ok f → fixed 3 baseline → 0 ≤ scaled 3 baseline ≤ 4000 →
  Forall (evidence_ok f) l → Z.of_nat (length l) ≤ 10 ^ 9 →
  fixed 6 w → scaled 6 w = point_weights (map evidence_point l) →
  ∃ c, posterior baseline f l w = Ok (Dec c (-3)) ∧ 0 ≤ c ≤ 4000.
Proof.
  intros Hf Hbf Hb Hok Hlen Hwf Hw. destruct Hf as [? ? ? ? ? [Hpf Hpb] ? ? ? ? ?].
  assert (Forall point_ok (map evidence_point l)) as Hpts.
  { apply Forall_map. eapply Forall_impl; [exact Hok|]. intros e. by apply evidence_point_ok. }
  destruct (point_sums _ Hpts) as [_ [Hsf Hs]]; [by rewrite length_map|].
  destruct (point_bounds _ Hpts) as [Hwb Hsb]. rewrite length_map in Hwb.
  rewrite map_map in Hsf, Hs. simpl in Hsf, Hs.
  assert (10 ^ prec = 10 ^ 28) as Hprec by done.
  destruct (dec_mul_exact 3 6 baseline (prior_weight f)) as [Hmf Hm]; [done|done|rewrite Hprec; nia|].
  change (3 + 6) with 9 in *.
  destruct (dec_add_exact 6 (prior_weight f) w) as [Hdf Hd]; [done|done|rewrite Hprec; lia|].
  unfold posterior. set (sum := dec_sum _) in *.
  destruct (dec_add_exact 9 (dec_mul baseline (prior_weight f)) sum) as [Hnf Hn];
    [done|done|rewrite Hprec, Hm, Hs; nia|].
  pose proof (scaled_weaken 6 9 _ Hdf ltac:(lia)) as Hd9. change (10 ^ (9 - 6)) with 1000 in Hd9.
  destruct (mean_between ROUND_HALF_UP (-3) 9 4
    (dec_add (dec_mul baseline (prior_weight f)) sum) (dec_add (prior_weight f) w)) as (c & Hc & Hcb);
    [lia|lia|done|exact Hnf|by apply (fixed_weaken 6)|rewrite Hn, Hm, Hs; nia|rewrite Hd9; lia
    |rewrite Hn, Hd9, Hd, Hm, Hs, Hw; nia|].
  exists c. split; [exact Hc|]. change (4 * 10 ^ (- (-3))) with 4000 in Hcb. done.
Qed.

(** The inputs of an estimate that the schemas admit. *)
Record estimate_input_ok (f : FormulaConfig) (baseline month_one_target final_target : decimal)
    (events : list SkillEvidence) (as_of : datetime) : Prop := {
  ei_formula : formula_ok f;
  ei_as_of : aware as_of = true;
  ei_baseline : fixed 3 baseline ∧ 0 ≤ scaled 3 baseline ≤ 4000;
  ei_targets : in_scale month_one_target = true ∧ in_scale final_target = true;
  ei_events : Forall (evidence_ok f) events;
  ei_ids : NoDup (map se_event_id events);
  ei_count : Z.of_nat (length events) ≤ 10 ^ 9;
}.

Lemma existsb_over_maximum f events :
  formula_ok f → Forall (evidence_ok f) events →
  existsb (λ e, dec_lt (maximum_effective_weight_per_event f) (se_effective_weight e)) events = false.
Proof.
  intros [] Hev. destruct fk_maximum0 as [Hm _]. induction Hev as [|e l [_ _ Hw Hb] _ IH]; [done|].
  simpl. rewrite IH, orb_false_r, (dec_lt_scaled 6) by done. apply Z.ltb_ge. lia.
Qed.

Lemma estimate_skill_runs f baseline m1 fin events as_of :
  estimate_input_ok f baseline m1 fin events as_of →
  ∃ r w c, estimate_skill baseline m1 fin events f as_of = Ok r ∧
    weighed f (select_events f as_of events) w ∧
    weigh_events f (select_events f as_of events) = Ok w ∧
    es_estimate r = Dec c (-3) ∧ 0 ≤ c ≤ 4000 ∧
    es_contributing_event_ids r = map se_event_id (wg_adjusted w) ∧
    es_weight_manifest r = wg_manifest w ∧
    es_excluded_event_ids r = map se_event_id (sort_events
      (filter (λ e, se_event_id e ∉ map se_event_id (select_events f as_of events)) events)).
Proof.
  intros [Hf Hao [Hbf Hb] [Hm1 Hfin] Hev Hids Hn].
  set (selected := select_events f as_of events).
  assert (Forall (evidence_ok f) selected) as Hsel.
  { apply Forall_forall. intros e [He _]%elem_of_select. rewrite Forall_forall in Hev. by apply Hev. }
  assert (Z.of_nat (length selected) ≤ 10 ^ 9) as Hln.
  { unfold selected. destruct Hf. rewrite length_select by lia. pose proof (length_filter (counts as_of) events). lia. }
  destruct (weigh_events_ok f selected Hf Hsel) as (w & Hw & Hweighed & _).
  pose proof (weighed_evidence_ok f selected w Hsel Hweighed) as Hadj.
  destruct Hweighed as (Hla & Hrest). assert (Z.of_nat (length (wg_adjusted w)) ≤ 10 ^ 9) as Hlw by lia.
  assert (Forall point_ok (map evidence_point (wg_adjusted w))) as Hpts.
  { apply Forall_map. eapply Forall_impl; [exact Hadj|]. intros e. by apply evidence_point_ok. }
  destruct (point_sums _ Hpts) as [[Hwf Hws] _]; [by rewrite length_map|].
  destruct (point_bounds _ Hpts) as [Hpb _]. rewrite length_map in Hpb.
  rewrite map_map in Hwf, Hws. simpl in Hwf, Hws.
  change (λ x, se_effective_weight x) with se_effective_weight in *.
  set (total := point_weights (map evidence_point (wg_adjusted w))) in *.
  assert (quantize ROUND_HALF_UP (-6) (dec_sum (map se_effective_weight (wg_adjusted w)))
          = Ok (Dec total (-6))) as Hquant.
  { rewrite <- Hws. apply (quantize_fixed ROUND_HALF_UP 6); [done|]. change (10 ^ prec) with (10 ^ 28). lia. }
  destruct (posterior_ok f baseline (wg_adjusted w) (Dec total (-6))) as (c & Hc & Hcb); try done.
  { unfold scaled. simpl. lia. }
  destruct (classify_confidence_ok f as_of (wg_adjusted w)) as (conf & Hconf); try done.
  destruct (calculate_trend_ok (map trend_event (wg_adjusted w)) (trend_rules f)) as (t & Ht);
    [rewrite map_map; exact Hpts|by rewrite length_map|].
  destruct (classify_recency_ok as_of (recency_rules f) (wg_adjusted w) Hao) as (rec & Hrec).
  eexists _, w, c. split; [|split; [by split|split; [exact Hw|split; [|split; [exact Hcb|]]]]].
  - unfold estimate_skill, validate_as_of. rewrite Hao. unfold in_scale at 1.
    rewrite !(dec_le_scaled 3) by (done || unfold fixed; simpl; lia).
    change (scaled 3 (of_int 0)) with 0. change (scaled 3 (of_int 4)) with 4000.
    rewrite (proj2 (Z.leb_le _ _) (proj1 Hb)), (proj2 (Z.leb_le _ _) (proj2 Hb)), Hm1, Hfin.
    rewrite (bool_decide_eq_true_2 (NoDup _)) by done. cbn [res_bind raise_if negb andb].
    rewrite existsb_over_maximum by done. cbn [res_bind raise_if].
    fold selected. rewrite Hw. cbn [res_bind]. unfold WEIGHT_QUANTUM. rewrite Hquant. cbn [res_bind].
    rewrite Hc. cbn [res_bind]. rewrite Hconf. cbn [res_bind]. rewrite Ht. cbn [res_bind]. rewrite Hrec.
    cbn [res_bind]. reflexivity.
  - reflexivity.
  - simpl. done.
Qed.

Lemma select_partition f as_of events :
  NoDup (map se_event_id events) →
  select_events f as_of events ++
    filter (λ e, se_event_id e ∉ map se_event_id (select_events f as_of events)) events ≡ₚ events.
Proof.
  intros Hids. set (selected := select_events f as_of events).
  assert (NoDup events) as Hnd by (by eapply NoDup_fmap_1).
  assert (NoDup selected) as Hnds.
  { unfold selected, select_events, last_n, sort_events.
    eapply sublist_NoDup; [|apply sublist_drop]. rewrite sort_by_perm. by apply NoDup_filter. }
  apply NoDup_Permutation; [|done|].
  - apply NoDup_app. split; [done|]. split; [|by apply NoDup_filter].
    intros e He [Hno _]%list_elem_of_filter. apply Hno. by apply list_elem_of_In, in_map, list_elem_of_In.
  - intros e. rewrite elem_of_app, list_elem_of_filter. split.
    + intros [He|[_ He]]; [|done]. by apply elem_of_select in He as [? _].
    + intros He. destruct (decide (se_event_id e ∈ map se_event_id selected)) as [Hin|Hin]; [|by right].
      left. apply list_elem_of_In, in_map_iff in Hin as (e' & Heq & He'%list_elem_of_In).
      assert (e' = e) as <-; [|done]. eapply (NoDup_map_inj se_event_id); try done.
      by apply elem_of_select in He' as [? _].
Qed.

(** Events are ordered by instant, then by the text of their identifiers. *)
Lemma event_key_order x y :
  event_key_leb se_occurred_at se_event_id x y = true →
  instant (se_occurred_at x) < instant (se_occurred_at y) ∨
  (instant (se_occurred_at x) = instant (se_occurred_at y) ∧
   String.leb (id_text (se_event_id x)) (id_text (se_event_id y)) = true).
Proof. unfold event_key_leb. intros H. bool_prop. naive_solver. Qed.

Lemma select_order f as_of events e e' :
  e ∈ select_events f as_of events → e' ∈ events → counts as_of e' →
  e' ∉ select_events f as_of events →
  instant (se_occurred_at e') < instant (se_occurred_at e) ∨
  (instant (se_occurred_at e') = instant (se_occurred_at e) ∧
   String.leb (id_text (se_event_id e')) (id_text (se_event_id e)) = true).
Proof.
  unfold select_events, last_n. intros He He' Hc Hno.
  assert (e' ∈ sort_events (filter (counts as_of) events)) as Hs.
  { apply elem_of_sort_by, list_elem_of_filter. done. }
  rewrite <- (take_drop (length (sort_events (filter (counts as_of) events))
                         - Z.to_nat (latest_qualifying_events f))) in Hs.
  apply elem_of_app in Hs as [Hs|Hs]; [|done].
  apply event_key_order.
  eapply (StronglySorted_take_drop (λ x y, event_key_leb se_occurred_at se_event_id x y = true));
    [|exact Hs|exact He].
  apply sort_by_sorted; [apply event_key_leb_total|apply event_key_leb_trans].
Qed.

(** Position by position, the loop keeps the events it is given. *)
Lemma weighed_lookup f l w i e :
  weighed f l w → l !! i = Some e → ∃ used item,
    weighed_as f (take i l) e used item ∧
    wg_adjusted w !! i = Some (with_weight e (Dec used (-6))) ∧ wg_manifest w !! i = Some item.
Proof.
  intros (_ & _ & Hall) He. pose proof (take_drop_middle _ _ _ He) as Hsplit.
  destruct (Hall _ _ _ (eq_sym Hsplit)) as (used & item & Hitem & Ha & Hm).
  rewrite length_take_le in Ha, Hm by (apply lookup_lt_Some in He; lia). by exists used, item.
Qed.

Lemma weighed_ids f l w : weighed f l w → map se_event_id (wg_adjusted w) = map se_event_id l.
Proof.
  intros Hw. apply list_eq. intros i. rewrite !list_lookup_fmap.
  destruct (l !! i) as [e|] eqn:He.
  - destruct (weighed_lookup _ _ _ _ _ Hw He) as (used & item & _ & -> & _). done.
  - destruct Hw as (Hla & _). apply lookup_ge_None in He. by rewrite lookup_ge_None_2 by lia.
Qed.

(** C32. A skill estimate always exists and stays on the scale: for inputs within
    their schemas the computation never fails, in any of the sums, products,
    divisions and quantizations of the estimate, the confidence and the
    trend, and the estimate is a number of thousandths from 0 to 4. *)
Theorem skill_estimate_in_scale f baseline m1 fin events as_of :
  estimate_input_ok f baseline m1 fin events as_of →
  ∃ r c, estimate_skill baseline m1 fin events f as_of = Ok r ∧
    es_estimate r = Dec c (-3) ∧ 0 ≤ c ≤ 4000.
Proof.
  intros Hin. destruct (estimate_skill_runs _ _ _ _ _ _ Hin) as (r & w & c & Hr & _ & _ & He & Hc & _).
  by exists r, c.
Qed.

(** C33. An estimate reads exactly the latest qualifying evidence: every event is
    either contributing or excluded; the contributing ones qualify, are not
    later than the date of the estimate, number at most the configured
    window, and fill it when enough events qualify; and an excluded event
    that also counts is earlier than every contributing one, or as old with an
    identifier whose text is not greater. *)
Theorem estimate_reads_latest f baseline m1 fin events as_of r :
  estimate_input_ok f baseline m1 fin events as_of →
  estimate_skill baseline m1 fin events f as_of = Ok r →
  es_contributing_event_ids r ++ es_excluded_event_ids r ≡ₚ map se_event_id events ∧
  Z.of_nat (length (es_contributing_event_ids r)) =
    Z.min (latest_qualifying_events f) (Z.of_nat (length (filter (counts as_of) events))) ∧
  ∀ e, e ∈ events → se_event_id e ∈ es_contributing_event_ids r →
    counts as_of e ∧
    ∀ e', e' ∈ events → se_event_id e' ∈ es_excluded_event_ids r → counts as_of e' →
      instant (se_occurred_at e') < instant (se_occurred_at e) ∨
      (instant (se_occurred_at e') = instant (se_occurred_at e) ∧
       String.leb (id_text (se_event_id e')) (id_text (se_event_id e)) = true).
Proof.
  intros Hin Hrun.
  destruct (estimate_skill_runs _ _ _ _ _ _ Hin) as (r' & w & c & Hr & Hw & _ & _ & _ & Hcon & _ & Hexc).
  rewrite Hrun in Hr. injection Hr as <-. rewrite Hcon, Hexc, (weighed_ids _ _ _ Hw). clear Hrun Hcon Hexc Hw w c.
  destruct Hin as [Hf _ _ _ _ Hids _]. set (selected := select_events f as_of events).
  assert (∀ e, e ∈ events → se_event_id e ∈ map se_event_id selected → e ∈ selected) as Hsel.
  { intros e He (e' & Heq & He')%list_elem_of_In%in_map_iff. apply list_elem_of_In in He'.
    assert (e' = e) as <-; [|done]. eapply (NoDup_map_inj se_event_id); try done.
    by apply elem_of_select in He' as [? _]. }
  split; [|split].
  - unfold sort_events. rewrite (sort_by_perm _ (filter _ events)), <- map_app.
    apply Permutation_map. by apply select_partition.
  - rewrite length_map. apply length_select. destruct Hf; lia.
  - intros e He Hc. apply Hsel in Hc; [|done]. split; [by apply elem_of_select in Hc as [_ ?]|].
    intros e' He' Hex Hcount. eapply select_order; [exact Hc|done|done|].
    intros Hs. apply list_elem_of_In, in_map_iff in Hex as (e2 & Heq & Hin2%list_elem_of_In).
    apply elem_of_sort_by, list_elem_of_filter in Hin2 as [Hnot _]. apply Hnot. rewrite Heq.
    by apply list_elem_of_In, in_map, list_elem_of_In.
Qed.

(** C34. Repeating an exercise on one scenario in one day counts less: the weight
    manifest lists the contributing events in order, each with its weight in
    millionths; an event keeps its whole weight while fewer than the daily
    limit of contributing events of its group came before it, and from then on
    is recorded as discounted with its weight times the same-day factor, to the
    nearest millionth. *)
Theorem same_day_repetition_discounted f baseline m1 fin events as_of r i e :
  estimate_input_ok f baseline m1 fin events as_of →
  estimate_skill baseline m1 fin events f as_of = Ok r →
  select_events f as_of events !! i = Some e →
  ∃ used, es_weight_manifest r !! i =
      Some (MkManifest (se_event_id e) (Dec (scaled 6 (se_effective_weight e)) (-6)) (Dec used (-6))
              (if repetitions_before (take i (select_events f as_of events)) e
                  <? full_weight_same_day_limit f
               then "included" else "discounted_same_day")) ∧
    0 ≤ used ≤ scaled 6 (se_effective_weight e) ∧
    used = (if repetitions_before (take i (select_events f as_of events)) e
                 <? full_weight_same_day_limit f
            then scaled 6 (se_effective_weight e)
            else nearest (scaled 6 (se_effective_weight e) * scaled 6 (same_day_repetition_factor f))
                   (10 ^ 6)).
Proof.
  intros Hin Hrun He.
  destruct (estimate_skill_runs _ _ _ _ _ _ Hin) as (r' & w & c & Hr & Hw & _ & _ & _ & _ & Hman & _).
  rewrite Hrun in Hr. injection Hr as <-. rewrite Hman.
  destruct (weighed_lookup _ _ _ _ _ Hw He) as (used & item & (Hb & -> & Hfull) & _ & ->).
  by exists used.
Qed.

(** ** The checked-in formula, and witnesses *)

(** [formula] of config/tam-rubrics.yaml. *)
Definition seed_formula : FormulaConfig := {|
  fo_version := "seed-v1";
  prior_weight := Dec 20 (-1);
  latest_qualifying_events := 12;
  full_weight_same_day_limit := 2;
  same_day_repetition_factor := Dec 25 (-2);
  maximum_effective_weight_per_event := Dec 115 (-2);
  performance_scale_min := of_int 0;
  performance_scale_max := of_int 4;
  practice_mode_factors := MkPracticeModes (Dec 0 (-2)) (Dec 35 (-2)) (Dec 65 (-2)) (Dec 90 (-2))
                             (Dec 100 (-2)) (Dec 100 (-2));
  assistance_factors := MkAssistance (Dec 100 (-2)) (Dec 100 (-2)) (Dec 75 (-2)) (Dec 40 (-2)) (Dec 10 (-2));
  evaluator_factors := MkEvaluators (Dec 60 (-2)) (Dec 75 (-2)) (Dec 85 (-2)) (Dec 95 (-2)) (Dec 100 (-2));
  difficulty_factors := MkDifficulties (Dec 80 (-2)) (Dec 100 (-2)) (Dec 115 (-2));
  qualifying_modes := expected_modes;
  qualifying_assistance := expected_assistance;
  requires_rubric_score := true;
  independent_practice_requires_attempt_a := true;
  attempt_b_qualifies := false;
  confidence_rules := MkConfidenceRules (of_int 7) 3 21 true (of_int 3) 2 true;
  trend_rules := MkTrendRules 3 3 (Dec 25 (-2));
  recency_rules := MkRecencyRules 7 21;
|}.

Lemma seed_formula_ok : formula_ok seed_formula.
Proof.
  split.
  - vm_compute; reflexivity.
  - repeat (apply List.Forall_cons; [split; vm_compute; [discriminate|reflexivity]|]). apply List.Forall_nil.
  - repeat (apply List.Forall_cons; [split; vm_compute; [discriminate|reflexivity]|]). apply List.Forall_nil.
  - repeat (apply List.Forall_cons; [split; vm_compute; [discriminate|reflexivity]|]). apply List.Forall_nil.
  - repeat (apply List.Forall_cons; [split; vm_compute; [discriminate|reflexivity]|]). apply List.Forall_nil.
  - vm_compute. repeat split; discriminate.
  - simpl. lia.
  - vm_compute. repeat split; discriminate.
  - simpl. lia.
  - vm_compute. repeat split; discriminate.
  - simpl. lia.
Qed.

Definition ex_candidate (id : Z) (mode : string) : EvidenceCandidate :=
  MkCandidateEvidence (id_int id) true mode "no_ai" "peer" "attempt_a" "sql" "seed-v1" "k"
    (utc (days 739866)) "none" None None ∅ false.

Lemma competency_history_witness :
  let l := [ex_candidate 1 "guided_practice"; ex_candidate 2 "mock_interview"; ex_candidate 2 "mock_interview";
            ex_candidate 3 "timed_assessment"] in
  ∃ a, advance_all seed_formula l = Ok a ∧ ca_qualifying_event_ids a = [id_int 2; id_int 3] ∧
    ladder_index (ca_level a) = 2 ∧ qualifying seed_formula (ex_candidate 2 "mock_interview").
Proof.
  intros l. exists (MkAdvance demonstrated [id_int 2; id_int 3] "qualifies").
  assert (validate_formula seed_formula = Ok seed_formula) as Hf by (vm_compute; reflexivity).
  destruct (competency_history seed_formula seed_formula l Hf) as (a & Ha & _ & Hl & Hids).
  assert (a = MkAdvance demonstrated [id_int 2; id_int 3] "qualifies") as ->.
  { vm_compute in Ha. by injection Ha as <-. }
  split; [exact Ha|]. split; [done|]. split; [exact Hl|].
  destruct (proj1 (Hids (id_int 2))) as (c & Hc & Hid & Hq); [by left|].
  unfold l in Hc. rewrite !elem_of_cons, elem_of_nil in Hc.
  destruct Hc as [->|[->|[->|[->|[]]]]]; done.
Defined.

Definition ex_dimensions : list DimensionScoreInput :=
  [MkDimension "impact" (Dec 35 (-1)) (Dec 20 (-2)); MkDimension "clarity" (of_int 2) (Dec 15 (-2))].

Lemma performance_score_in_scale_witness :
  ∃ r c, calculate_performance_score ex_dimensions = Ok r ∧ pf_score r = Dec c (-3) ∧ 0 ≤ c ≤ 4000.
Proof.
  destruct (performance_score_in_scale ex_dimensions) as (r & c & Hr & Hs & Hc & _);
    [discriminate| | | |exists r, c; split; [exact Hr|split; [exact Hs|exact Hc]]].
  - apply List.Forall_cons; [|apply List.Forall_cons; [|apply List.Forall_nil]];
      split; try done; vm_compute; split; done.
  - vm_compute. repeat constructor; set_solver.
  - simpl. lia.
Defined.

Lemma effective_weight_capped_witness :
  ∃ r, calculate_effective_weight (Dec 8 (-1)) "mock_interview" "no_ai" "human_coach" "advanced"
         seed_formula = Ok r ∧ ew_raw_weight r = ew_effective_weight r ∧ ew_capped r = false.
Proof.
  destruct (effective_weight_capped (Dec 8 (-1)) "mock_interview" "no_ai" "human_coach" "advanced" seed_formula)
    as (r & p & a & e & d & raw & eff & Hr & Hp & Ha & He & Hd & Hf & Hraw & Heff & Hq & _ & H0 & Hmin & Hcap & _);
    [apply seed_formula_ok|done|done|right; set_solver|unfold known_conditions; set_solver|].
  exists r. split; [exact Hr|]. vm_compute in Hr. injection Hr as <-. by split.
Defined.

Definition ex_evidence (id : Z) (score at_ : Z) : SkillEvidence :=
  MkEvidence (id_int id) (Dec score (-3)) (Dec 855000 (-6)) true "sql" "k" (utc (days 739866 + seconds at_))
    "mock_interview" "attempt_a" true false.
Definition ex_events : list SkillEvidence :=
  [ex_evidence 1 3000 30; ex_evidence 2 2500 10; ex_evidence 3 3500 20].
Definition ex_as_of : datetime := utc (days 739870).

Lemma ex_input_ok : estimate_input_ok seed_formula (Dec 1500 (-3)) (of_int 3) (of_int 4) ex_events ex_as_of.
Proof.
  split; [apply seed_formula_ok|done|vm_compute; repeat split; discriminate|done| | |simpl; lia].
  - repeat (apply List.Forall_cons; [split; vm_compute; try done; split; discriminate|]). apply List.Forall_nil.
  - simpl. repeat constructor; set_solver.
Qed.

Lemma skill_estimate_in_scale_witness :
  ∃ r c, estimate_skill (Dec 1500 (-3)) (of_int 3) (of_int 4) ex_events seed_formula ex_as_of = Ok r ∧
    es_estimate r = Dec c (-3) ∧ 0 ≤ c ≤ 4000.
Proof. apply (skill_estimate_in_scale _ _ _ _ _ _ ex_input_ok). Defined.

Definition ex_estimate : SkillEstimateResult :=
  match estimate_skill (Dec 1500 (-3)) (of_int 3) (of_int 4) ex_events seed_formula ex_as_of with
  | Ok r => r
  | Err _ => MkEstimate "" (of_int 0) [] [] [] 0 [] (of_int 0) (of_int 0) (of_int 0)
               (MkConfidence "" "" (of_int 0) 0 []) (MkTrend "" None None None [])
               (MkRecency "" None None) None
  end.

Lemma ex_estimate_Ok :
  estimate_skill (Dec 1500 (-3)) (of_int 3) (of_int 4) ex_events seed_formula ex_as_of = Ok ex_estimate.
Proof. vm_compute. reflexivity. Qed.

Lemma estimate_reads_latest_witness :
  es_contributing_event_ids ex_estimate ++ es_excluded_event_ids ex_estimate ≡ₚ map se_event_id ex_events.
Proof. apply (estimate_reads_latest _ _ _ _ _ _ _ ex_input_ok ex_estimate_Ok). Defined.

Lemma same_day_repetition_discounted_witness :
  es_weight_manifest ex_estimate !! 2%nat =
    Some (MkManifest (id_int 1) (Dec 855000 (-6)) (Dec 213750 (-6)) "discounted_same_day").
Proof.
  destruct (same_day_repetition_discounted _ _ _ _ _ _ _ 2 (ex_evidence 1 3000 30) ex_input_ok ex_estimate_Ok)
    as (used & Hm & _ & ->); [vm_compute; reflexivity|]. exact Hm.
Defined.
