(* ===== verification/Interviews.v ===== *)
(** * Interviews

    packages/protocol's interviews.py (Module [Permission]) and the backend's
    interviews/policy.py (Module [Debriefing]), interviews/redaction.py (Module
    [Redaction]), interviews/timeline.py (Module [Timeline]) and
    interviews/recovery.py (Module [Recovery]).

    A transcript is a list of characters.  The SHA-256 digest is a parameter. *)

From stdpp Require Import prelude list strings sorting pretty.
From Stdlib Require Import ZArith Lia.
From S2P Require Import Prelude PyTime PyText PyDecimal.

(** ** Interviews and what may be recorded of them *)

Module Permission.

Definition ValidationError (msg : string) : exn := Exn "ValidationError" msg.
Definition InterviewError (msg : string) : exn := Exn "InterviewError" msg.

Inductive InterviewKind := k_practice | k_mock | k_real.
#[export] Instance InterviewKind_eq_dec : EqDecision InterviewKind.
Proof. solve_decision. Defined.
Definition OPPORTUNITY_LINKED_KINDS : list InterviewKind := [k_real].

Inductive PermissionScope := record_audio | store_transcript | release_to_claude_scope.
#[export] Instance PermissionScope_eq_dec : EqDecision PermissionScope.
Proof. solve_decision. Defined.

Inductive LockReason :=
  | none | not_applicable | permission_missing | permission_revoked | scope_not_granted.
#[export] Instance LockReason_eq_dec : EqDecision LockReason.
Proof. solve_decision. Defined.
Definition reason_name (r : LockReason) : string :=
  match r with
  | none => "none" | not_applicable => "not_applicable" | permission_missing => "permission_missing"
  | permission_revoked => "permission_revoked" | scope_not_granted => "scope_not_granted"
  end.
Inductive LockState := locked | unlocked.
#[export] Instance LockState_eq_dec : EqDecision LockState.
Proof. solve_decision. Defined.

Inductive SensitivityScope := sc_practice | sc_real_interview.
#[export] Instance SensitivityScope_eq_dec : EqDecision SensitivityScope.
Proof. solve_decision. Defined.
Definition SCOPE_PREFIXES (s : SensitivityScope) : string :=
  match s with sc_practice => "practice/" | sc_real_interview => "real/" end.

Record Interview := MkInterview {
  interview_id : Z;
  iv_owner_id : Z;
  iv_kind : InterviewKind;
  scheduled_for : datetime;
  opportunity_id : option Z;
  stage_label : option string;
}.

Definition PositiveId (x : Z) : bool := 0 <? x.
Definition Text (s : string) : bool :=
  (1 <=? str_len s) && (str_len s <=? 512) && has_non_space s.
Definition given {A} (ok : A → bool) (x : option A) : bool :=
  match x with Some x => ok x | None => true end.

Definition is_real (i : Interview) : bool := bool_decide (iv_kind i ∈ OPPORTUNITY_LINKED_KINDS).

Definition link_matches_the_kind (i : Interview) : res unit :=
  let linked := bool_decide (is_Some (opportunity_id i)) in
  raise_if (negb (Bool.eqb (is_real i) linked))
    (ValidationError "only a real interview names the opportunity it belongs to") ;;;
  raise_if (bool_decide (is_Some (stage_label i)) && negb linked)
    (ValidationError "an exercise has no stage in anyone's pipeline").

Definition new_Interview (i : Interview) : res Interview :=
  raise_if (negb (PositiveId (interview_id i) && PositiveId (iv_owner_id i)
                  && given PositiveId (opportunity_id i) && given Text (stage_label i)))
    (ValidationError "fields") ;;;
  raise_if (negb (aware (scheduled_for i))) (ValidationError "scheduled_for must be timezone-aware") ;;;
  link_matches_the_kind i ;;;
  Ok i.

Record RecordingPermission := MkPermission {
  rp_interview_id : Z;
  attested_by : string;
  attested_at : datetime;
  scopes : list PermissionScope;
  revoked_at : option datetime;
}.

Definition new_RecordingPermission (p : RecordingPermission) : res RecordingPermission :=
  raise_if (negb (PositiveId (rp_interview_id p) && Text (attested_by p)
                  && (1 <=? Z.of_nat (length (scopes p))) && (Z.of_nat (length (scopes p)) <=? 8)))
    (ValidationError "fields") ;;;
  raise_if (negb (aware (attested_at p) && given aware (revoked_at p)))
    (ValidationError "permission timestamps must be timezone-aware") ;;;
  let* early := match revoked_at p with Some t => dt_lt t (attested_at p) | None => Ok false end in
  raise_if early (ValidationError "permission cannot be revoked before it was given") ;;;
  raise_if (negb (bool_decide (NoDup (scopes p)))) (ValidationError "a scope is granted once") ;;;
  Ok p.

Definition active_at (p : RecordingPermission) (moment : datetime) : res bool :=
  match revoked_at p with None => Ok true | Some t => dt_lt moment t end.

Definition recording_lock (i : Interview) (permission : option RecordingPermission)
    (scope : PermissionScope) (now : datetime) : res (LockState * LockReason) :=
  raise_if (negb (aware now)) (InterviewError "the current time must be timezone-aware") ;;;
  if negb (is_real i) then Ok (locked, not_applicable)
  else
    match permission with
    | None => Ok (locked, permission_missing)
    | Some p =>
        if negb (rp_interview_id p =? interview_id i) then Ok (locked, permission_missing)
        else
          let* active := active_at p now in
          if negb active then Ok (locked, permission_revoked)
          else if negb (bool_decide (scope ∈ scopes p)) then Ok (locked, scope_not_granted)
          else Ok (unlocked, none)
    end.

Definition require_unlocked (i : Interview) (permission : option RecordingPermission)
    (scope : PermissionScope) (now : datetime) : res unit :=
  let* lock := recording_lock i permission scope now in
  raise_if (negb (bool_decide (lock.1 = unlocked)))
    (InterviewError ("recording is locked: " +:+ reason_name lock.2)).

Definition scope_of (i : Interview) : SensitivityScope :=
  if is_real i then sc_real_interview else sc_practice.

Definition storage_prefix (s : SensitivityScope) : string := SCOPE_PREFIXES s.

(** ["/" in s] *)
Fixpoint has_slash (s : string) : bool :=
  match s with
  | EmptyString => false
  | String c s' => char_in c [47]%N || has_slash s'
  end.

Definition artifact_key (i : Interview) (artifact_id : string) : res string :=
  raise_if (blank artifact_id || has_slash artifact_id)
    (InterviewError "an artifact id is a single non-empty segment") ;;;
  Ok (storage_prefix (scope_of i) +:+ pretty (interview_id i) +:+ "/" +:+ artifact_id).

Definition in_scope (key : string) (s : SensitivityScope) : bool := String.prefix (storage_prefix s) key.

Definition retrieve (keys : list string) (s : SensitivityScope) : list string :=
  List.filter (λ key, in_scope key s) keys.

Definition require_same_scope (a b : Interview) : res unit :=
  raise_if (negb (bool_decide (scope_of a = scope_of b)))
    (InterviewError "practice and real-interview material do not mix").

End Permission.

(** ** The debrief before any feedback *)

Module Debriefing.

Definition DebriefError (msg : string) : exn := Exn "DebriefError" msg.
Definition DEBRIEF_MAX_MINUTES : Z := 5.
Definition DEBRIEF_WINDOW_MINUTES : Z := 30.

Record Debrief := MkDebrief {
  db_interview_id : Z;
  db_owner_id : Z;
  interview_ended_at : datetime;
  committed_at : datetime;
  db_minutes : Z;
  db_notes : string;
}.

(** [Debrief.__post_init__]; the attribution has one value. *)
Definition new_Debrief (d : Debrief) : res Debrief :=
  raise_if (negb (aware (interview_ended_at d)) || negb (aware (committed_at d)))
    (DebriefError "debrief timestamps must be timezone-aware") ;;;
  raise_if ((db_interview_id d <=? 0) || (db_owner_id d <=? 0))
    (DebriefError "a debrief names its interview and its owner") ;;;
  raise_if (negb ((1 <=? db_minutes d) && (db_minutes d <=? DEBRIEF_MAX_MINUTES)))
    (DebriefError ("a debrief runs from 1 to " +:+ pretty DEBRIEF_MAX_MINUTES +:+ " minutes")) ;;;
  raise_if (blank (db_notes d)) (DebriefError "an empty debrief is not a debrief") ;;;
  let* early := dt_lt (committed_at d) (interview_ended_at d) in
  raise_if early (DebriefError "a debrief is written after the interview, not before") ;;;
  let* delay := dt_sub (committed_at d) (interview_ended_at d) in
  raise_if (minutes DEBRIEF_WINDOW_MINUTES <? delay)
    (DebriefError "too late to be a debrief; this is recollection") ;;;
  Ok d.

Definition require_debrief_before_release (d : option Debrief) (interview_id owner_id : Z)
    : res Debrief :=
  match d with
  | None => Err (DebriefError "feedback is released after the debrief, not before")
  | Some d =>
      raise_if (negb (db_interview_id d =? interview_id) || negb (db_owner_id d =? owner_id))
        (DebriefError "that debrief belongs to another interview or owner") ;;;
      Ok d
  end.

End Debriefing.

(** ** Redaction and release *)

Module Redaction.
Import Permission.

Abbreviation text := (list Ascii.ascii) (only parsing).

Definition RedactionError (msg : string) : exn := Exn "RedactionError" msg.

Inductive RedactionCategory :=
  | person_name | company_name | contact_detail | account_identifier | financial_figure.
Definition REDACTION_PLACEHOLDER : text := String.list_ascii_of_string "[redacted]".

Record RedactionSpan := MkSpan { sp_start : Z; sp_end : Z; sp_category : RedactionCategory }.

(** [RedactionSpan.__post_init__] *)
Definition new_RedactionSpan (s : RedactionSpan) : res RedactionSpan :=
  raise_if ((sp_start s <? 0) || (sp_end s <=? sp_start s))
    (RedactionError "a span covers a nonempty range") ;;;
  Ok s.

Definition by_start (a b : RedactionSpan) : bool := sp_start a <=? sp_start b.

(** The loop over neighbours. *)
Fixpoint overlaps (ordered : list RedactionSpan) : bool :=
  match ordered with
  | earlier :: rest =>
      match rest with
      | later :: _ => (sp_start later <? sp_end earlier) || overlaps rest
      | [] => false
      end
  | [] => false
  end.

(** [redacted[:start] + PLACEHOLDER + redacted[end:]], for a span's bounds. *)
Definition cut (s : RedactionSpan) (redacted : text) : text :=
  take (Z.to_nat (sp_start s)) redacted ++ REDACTION_PLACEHOLDER ++ drop (Z.to_nat (sp_end s)) redacted.

Definition redact (t : text) (spans : list RedactionSpan) : res text :=
  let ordered := sort_by by_start spans in
  raise_if (overlaps ordered) (RedactionError "spans overlap, so what would be sent is ambiguous") ;;;
  raise_if (match last ordered with Some s => Z.of_nat (length t) <? sp_end s | None => false end)
    (RedactionError "a span runs past the end of the text") ;;;
  Ok (fold_left (λ redacted s, cut s redacted) (rev ordered) t).

Record RedactionPreview := MkPreview {
  pv_interview_id : Z;
  pv_owner_id : Z;
  source_sha256 : string;
  pv_preview_sha256 : string;
  pv_spans : list RedactionSpan;
  generated_at : datetime;
}.

(** [RedactionPreview.__post_init__] *)
Definition new_RedactionPreview (p : RedactionPreview) : res RedactionPreview :=
  raise_if (negb (str_len (source_sha256 p) =? 64) || negb (str_len (pv_preview_sha256 p) =? 64))
    (RedactionError "a preview pins both the source and what it produces") ;;;
  raise_if (negb (aware (generated_at p))) (RedactionError "preview timestamps must be timezone-aware") ;;;
  Ok p.

Record ReleaseApproval := MkApproval { ap_preview_sha256 : string; ap_approved_by : string; ap_approved_at : datetime }.

(** [ReleaseApproval.__post_init__] *)
Definition new_ReleaseApproval (a : ReleaseApproval) : res ReleaseApproval :=
  raise_if (negb (str_len (ap_preview_sha256 a) =? 64))
    (RedactionError "an approval names the preview it approves") ;;;
  raise_if (blank (ap_approved_by a)) (RedactionError "an approval names who gave it") ;;;
  raise_if (negb (aware (ap_approved_at a))) (RedactionError "approval timestamps must be timezone-aware") ;;;
  Ok a.

Record ReleaseRecord := MkRelease {
  rr_interview_id : Z;
  rr_owner_id : Z;
  rr_source_sha256 : string;
  released_sha256 : string;
  rr_approved_by : string;
  released_at : datetime;
}.

Section digest.
Context (sha256 : text → string).   (* [sha256(text.encode("utf-8")).hexdigest()] *)

Definition digest (t : text) : string := sha256 t.

Definition build_preview (i : Interview) (owner_id : Z) (t : text) (spans : list RedactionSpan)
    (at_ : datetime) : res RedactionPreview :=
  let source := digest t in
  let* redacted := redact t spans in
  new_RedactionPreview (MkPreview (interview_id i) owner_id source (digest redacted) spans at_).
End digest.

Definition release_to_claude (i : Interview) (owner_id : Z) (permission : option RecordingPermission)
    (preview : RedactionPreview) (approval : ReleaseApproval) (now : datetime) : res ReleaseRecord :=
  raise_if (negb (pv_interview_id preview =? interview_id i) || negb (pv_owner_id preview =? owner_id))
    (RedactionError "that preview belongs to another interview or owner") ;;;
  let* lock := recording_lock i permission release_to_claude_scope now in
  raise_if (negb (bool_decide (lock.1 = unlocked)))
    (RedactionError ("release is not permitted: " +:+ reason_name lock.2)) ;;;
  raise_if (negb (String.eqb (ap_preview_sha256 approval) (pv_preview_sha256 preview)))
    (RedactionError "the approval does not match this preview") ;;;
  let* early := dt_lt (ap_approved_at approval) (generated_at preview) in
  raise_if early (RedactionError "a preview is approved after it is generated, not before") ;;;
  Ok (MkRelease (interview_id i) owner_id (source_sha256 preview) (pv_preview_sha256 preview)
        (ap_approved_by approval) now).

End Redaction.

(** ** One timeline over two tracks *)

Module Timeline.

Definition TimelineError (msg : string) : exn := Exn "TimelineError" msg.
Definition QUESTION_GAP_MS : Z := 2000.

(** Ordered as the strings are: "remote" before "user". *)
Inductive Speaker := remote | user.
#[export] Instance Speaker_eq_dec : EqDecision Speaker.
Proof. solve_decision. Defined.
Definition speaker_rank (s : Speaker) : Z := match s with remote => 0 | user => 1 end.

Record RecognizedWord := MkWord { rw_text : string; rw_start_ms : Z; rw_end_ms : Z }.

Record Utterance := MkUtterance { speaker : Speaker; start_ms : Z; end_ms : Z }.

(** [Utterance.__post_init__] *)
Definition new_Utterance (u : Utterance) : res Utterance :=
  raise_if (end_ms u <? start_ms u) (TimelineError "an utterance cannot end before it starts") ;;; Ok u.

Record QuestionTurn := MkTurn { index : Z; question : Utterance; answer : option Utterance }.
Definition answered (t : QuestionTurn) : bool := bool_decide (is_Some (answer t)).
Definition response_latency_ms (t : QuestionTurn) : option Z :=
  match answer t with
  | None => None
  | Some a => Some (Z.max 0 (start_ms a - end_ms (question t)))
  end.

Inductive ClaimLabel := observed_content | user_stated | inferred | unknown.
Record Claim := MkClaim { statement : string; label : ClaimLabel; confidence : decimal; turn_index : option Z }.

(** [Claim.__post_init__] *)
Definition new_Claim (c : Claim) : res Claim :=
  raise_if (blank (statement c)) (TimelineError "a claim says something") ;;;
  raise_if (negb (dec_le (of_int 0) (confidence c) && dec_le (confidence c) (of_int 1)))
    (TimelineError "confidence runs from zero to one") ;;;
  Ok c.

(** The loop of [_group]: the utterances so far and the open one. *)
Definition group_step (s : Speaker) (gap_ms : Z) (acc : list Utterance * (Z * Z)) (w : RecognizedWord)
    : res (list Utterance * (Z * Z)) :=
  let '(utterances, (start, end_)) := acc in
  if gap_ms <=? rw_start_ms w - end_ then
    let* u := new_Utterance (MkUtterance s start end_) in
    Ok (utterances ++ [u], (rw_start_ms w, Z.max end_ (rw_end_ms w)))
  else Ok (utterances, (start, Z.max end_ (rw_end_ms w))).

(** [_group] *)
Definition group (words : list RecognizedWord) (s : Speaker) (gap_ms : Z) : res (list Utterance) :=
  match words with
  | [] => Ok []
  | w :: rest =>
      let* closed := res_fold (group_step s gap_ms) ([], (rw_start_ms w, rw_end_ms w)) rest in
      let '(utterances, (start, end_)) := closed in
      let* u := new_Utterance (MkUtterance s start end_) in
      Ok (utterances ++ [u])
  end.

Definition utterance_key (u : Utterance) : list Z := [start_ms u; speaker_rank (speaker u)].

Definition build_timeline (microphone system_audio : list RecognizedWord) (gap_ms : Z)
    : res (list Utterance) :=
  raise_if (gap_ms <? 1)
    (TimelineError "a gap that starts a new utterance is at least one millisecond") ;;;
  let* users := group microphone user gap_ms in
  let* remotes := group system_audio remote gap_ms in
  Ok (sort_by (key_leb utterance_key) (users ++ remotes)).

(** The first answer between the question and the next one. *)
Definition answers_question (q : Utterance) (next_question : option Z) (a : Utterance) : bool :=
  (end_ms q <=? start_ms a)
  && match next_question with None => true | Some t => start_ms a <? t end.

Fixpoint pair_turns (i : Z) (questions answers : list Utterance) : list QuestionTurn :=
  match questions with
  | [] => []
  | q :: rest =>
      let next_question := start_ms <$> head rest in
      MkTurn i q (List.find (answers_question q next_question) answers)
      :: pair_turns (i + 1) rest answers
  end.

Definition segment_questions (microphone system_audio : list RecognizedWord) (gap_ms : Z)
    : res (list QuestionTurn) :=
  let* questions := group system_audio remote gap_ms in
  let* answers := group microphone user gap_ms in
  Ok (pair_turns 0 questions answers).

End Timeline.

(** ** Recovery after a bad interview *)

Module Recovery.

Definition RecoveryError (msg : string) : exn := Exn "RecoveryError" msg.
Definition TransferError (msg : string) : exn := Exn "TransferError" msg.

Definition REQUIRED_CORRECTIONS : Z := 2.
Definition MAX_COACHED_REPLAYS : Z := 1.
Definition MAX_SAVED_RESPONSES : Z := 1.

Record RecoveryStep := MkStep { target_skill : string; instruction : string; coached : bool }.

(** [RecoveryStep.__post_init__] *)
Definition new_RecoveryStep (s : RecoveryStep) : res RecoveryStep :=
  raise_if (blank (target_skill s) || blank (instruction s))
    (RecoveryError "a step names its skill and what to do") ;;;
  Ok s.

Record RecoveryPlan := MkPlan { rc_interview_id : Z; rc_owner_id : Z; steps : list RecoveryStep }.

(** [RecoveryPlan.__post_init__] *)
Definition new_RecoveryPlan (p : RecoveryPlan) : res RecoveryPlan :=
  raise_if ((rc_interview_id p <=? 0) || (rc_owner_id p <=? 0))
    (RecoveryError "a recovery plan names its interview and its owner") ;;;
  raise_if (negb (Z.of_nat (length (steps p)) =? REQUIRED_CORRECTIONS))
    (RecoveryError "recovery works on exactly two corrections") ;;;
  raise_if (negb (bool_decide (NoDup (map target_skill (steps p)))))
    (RecoveryError "two steps on one skill is one step") ;;;
  let coached_steps := Z.of_nat (length (List.filter coached (steps p))) in
  raise_if (negb (coached_steps =? MAX_COACHED_REPLAYS))
    (RecoveryError "recovery allows exactly one coached replay") ;;;
  raise_if (negb (Z.of_nat (length (steps p)) - coached_steps =? MAX_SAVED_RESPONSES))
    (RecoveryError "recovery allows exactly one saved response") ;;;
  Ok p.

(** [next(...)] raises [StopIteration] when there is none. *)
Definition next_step (p : RecoveryStep → bool) (l : list RecoveryStep) : res RecoveryStep :=
  match List.find p l with
  | Some s => Ok s
  | None => Err (Exn "StopIteration" "")
  end.
Definition coached_replay (p : RecoveryPlan) : res RecoveryStep := next_step coached (steps p).
Definition saved_response (p : RecoveryPlan) : res RecoveryStep :=
  next_step (λ s, negb (coached s)) (steps p).

Record QueuedRetrieval := MkQueued {
  qr_target_skill : string; source_scenario_key : string; source_core_prompt_sha256 : string;
  queued_from_attempt_b_id : Z
}.
Record TransferAttempt := MkAttempt { attempt_id : Z; scenario_key : string; core_prompt_sha256 : string }.

Definition require_material_difference (queued : QueuedRetrieval) (a : TransferAttempt) : res unit :=
  raise_if (String.eqb (core_prompt_sha256 a) (source_core_prompt_sha256 queued))
    (TransferError "a repeat of the original prompt cannot demonstrate transfer") ;;;
  raise_if (String.eqb (scenario_key a) (source_scenario_key queued))
    (TransferError "a repeat of the original scenario cannot demonstrate transfer") ;;;
  raise_if (attempt_id a =? queued_from_attempt_b_id queued)
    (TransferError "transfer needs a new attempt, not the one that queued it").

Definition schedule_unresolved (queued : QueuedRetrieval) (a : TransferAttempt) : res TransferAttempt :=
  require_material_difference queued a ;;; Ok a.

End Recovery.
