(* ===== verification/InterviewsContract.v ===== *)
(** * What the interview components promise

    Theorems about Interviews.v: redaction equals a left-to-right reference, a
    release needs a live permission and the approval of these very bytes, the
    timeline covers the words of both tracks, and storage scopes do not mix. *)

From stdpp Require Import prelude list strings sorting pretty.
From Stdlib Require Import ZArith Lia.
From S2P Require Import Prelude PyTime PyText Interviews.

(** ** Redaction *)

Section Redacting.
Import Redaction.

(** The reference: one pass from the left, from position [k] of the text on. *)
Fixpoint scan (k : Z) (t : text) (spans : list RedactionSpan) : text :=
  match spans with
  | [] => t
  | s :: rest =>
      take (Z.to_nat (sp_start s - k)) t ++ REDACTION_PLACEHOLDER
      ++ scan (sp_end s) (drop (Z.to_nat (sp_end s - k)) t) rest
  end.

(** Spans in order from position [k] up to [n], none reaching into the next. *)
Fixpoint laid_out (k n : Z) (spans : list RedactionSpan) : Prop :=
  match spans with
  | [] => k ≤ n
  | s :: rest => k ≤ sp_start s < sp_end s ∧ laid_out (sp_end s) n rest
  end.

Lemma laid_out_le k n spans : laid_out k n spans → k ≤ n.
Proof. revert k; induction spans as [|s l IH]; intros k; simpl; [done|]. intros [? ?%IH]. lia. Qed.

(** Cutting from the right keeps the text before position [k]. *)
Lemma cuts_scan k t spans :
  0 ≤ k → laid_out k (Z.of_nat (length t)) spans →
  foldr cut t spans = take (Z.to_nat k) t ++ scan k (drop (Z.to_nat k) t) spans.
Proof.
  revert k; induction spans as [|s l IH]; intros k Hk Hl; simpl.
  - by rewrite take_drop.
  - destruct Hl as [Hs Hl]. apply laid_out_le in Hl as Hn. rewrite (IH (sp_end s)) by (lia || done).
    unfold cut. rewrite take_app_le by (rewrite length_take; lia). rewrite take_take.
    rewrite drop_app_ge by (rewrite length_take; lia). rewrite length_take, drop_drop.
    replace (Z.to_nat (sp_start s) `min` Z.to_nat (sp_end s))%nat with (Z.to_nat (sp_start s)) by lia.
    replace (Z.to_nat (sp_end s) - Z.to_nat (sp_end s) `min` length t)%nat with 0%nat by lia.
    rewrite drop_0. replace (Z.to_nat k + Z.to_nat (sp_end s - k))%nat with (Z.to_nat (sp_end s)) by lia.
    rewrite (app_assoc (take (Z.to_nat k) t)). f_equal.
    rewrite <- (take_drop (Z.to_nat k) (take (Z.to_nat (sp_start s)) t)), take_take.
    replace (Z.to_nat k `min` Z.to_nat (sp_start s))%nat with (Z.to_nat k) by lia. f_equal.
    rewrite skipn_firstn_comm. f_equal. lia.
Qed.

Definition covers_range (s : RedactionSpan) : Prop := 0 ≤ sp_start s < sp_end s.

Lemma new_RedactionSpan_Ok s : new_RedactionSpan s = Ok s ↔ covers_range s.
Proof.
  unfold new_RedactionSpan, covers_range. rewrite raise_if_bind_Ok, orb_false_iff, Z.ltb_ge, Z.leb_gt.
  naive_solver.
Qed.

Lemma overlaps_laid_out k n l :
  Forall covers_range l →
  laid_out k n l ↔
    overlaps l = false ∧ match head l with Some s => k ≤ sp_start s | None => k ≤ n end ∧
    match last l with Some s => sp_end s ≤ n | None => True end.
Proof.
  intros Hl. revert k; induction Hl as [|s l Hs _ IH]; intros k; [naive_solver|].
  cbn [laid_out overlaps head last]. rewrite IH. unfold covers_range in Hs. destruct l as [|s' l]; simpl.
  - lia.
  - rewrite orb_false_iff, Z.ltb_ge. split; intros; destruct_and?; repeat split; try done; lia.
Qed.

Lemma laid_out_sorted k n l :
  laid_out k n l → StronglySorted (λ a b, sp_start a < sp_start b) l ∧ Forall (λ s, k ≤ sp_start s) l.
Proof.
  revert k; induction l as [|s l IH]; intros k; simpl; [by repeat constructor|].
  intros [Hs [Hsorted Hall]%IH]. split; constructor; try done; [|lia|].
  - eapply Forall_impl; [exact Hall|]. simpl. intros x Hx. lia.
  - eapply Forall_impl; [exact Hall|]. simpl. intros x Hx. lia.
Qed.

Lemma by_start_total a b : by_start a b = true ∨ by_start b a = true.
Proof. unfold by_start. rewrite !Z.leb_le. lia. Qed.
Lemma by_start_trans a b c : by_start a b = true → by_start b c = true → by_start a c = true.
Proof. unfold by_start. rewrite !Z.leb_le. lia. Qed.

(** Spans laid out one after the other are the sorted spans. *)
Lemma laid_out_unique k n l spans : laid_out k n l → l ≡ₚ spans → sort_by by_start spans = l.
Proof.
  intros [Hs _]%laid_out_sorted Hp. symmetry.
  apply (StronglySorted_unique_strong (λ a b, by_start a b = true)).
  - intros x y Hx Hy. unfold by_start. rewrite !Z.leb_le. intros Hxy Hyx.
    apply elem_of_sort_by in Hy. rewrite <- Hp in Hy.
    apply (NoDup_map_inj sp_start l); [|done|done|lia]. apply StronglySorted_NoDup_map, Hs.
  - eapply StronglySorted_impl; [|exact Hs]. unfold by_start. intros x y. simpl. rewrite Z.leb_le. lia.
  - apply sort_by_sorted; [apply by_start_total|apply by_start_trans].
  - by rewrite sort_by_perm.
Qed.

(** C19. Redaction is one pass from the left: for spans the code accepts, in any
    order, [redact] returns exactly the text in which each span is replaced by
    the placeholder and everything else is kept, and it returns only when the
    spans lie in the text and none reaches into the next. *)
Theorem redaction_is_one_pass t spans r :
  Forall (λ s, new_RedactionSpan s = Ok s) spans →
  redact t spans = Ok r ↔
  ∃ ordered, ordered ≡ₚ spans ∧ laid_out 0 (Z.of_nat (length t)) ordered ∧ r = scan 0 t ordered.
Proof.
  intros Hv. assert (Forall covers_range spans) as Hr.
  { eapply Forall_impl; [exact Hv|]. intros s. apply new_RedactionSpan_Ok. }
  set (sorted := sort_by by_start spans). assert (Forall covers_range sorted) as Hrs.
  { unfold sorted. by rewrite sort_by_perm. }
  assert (redact t spans = Ok r ↔
          laid_out 0 (Z.of_nat (length t)) sorted ∧ r = foldr cut t sorted) as ->.
  { unfold redact. fold sorted. rewrite !raise_if_bind_Ok, overlaps_laid_out by done.
    rewrite <- fold_left_rev_right, rev_involutive.
    assert (match head sorted with Some s => 0 ≤ sp_start s | None => 0 ≤ Z.of_nat (length t) end) as Hh.
    { destruct Hrs as [|s l Hs _]; simpl; [lia|apply Hs]. }
    destruct (last sorted); rewrite ?Z.ltb_ge; naive_solver. }
  split.
  - intros [Hl ->]. exists sorted. split; [apply sort_by_perm|]. split; [done|].
    by rewrite (cuts_scan 0) by done.
  - intros (ordered & Hp & Hl & ->). assert (sorted = ordered) as -> by by eapply laid_out_unique.
    split; [done|]. by rewrite (cuts_scan 0) by done.
Qed.
End Redacting.

(** ** Permission and release *)

Section Releasing.
Import Permission Redaction.

(** The attestation that opens a scope of an interview at a moment. *)
Definition open_scope (i : Interview) (p : RecordingPermission) (scope : PermissionScope) (now : datetime) : Prop :=
  is_real i = true ∧ rp_interview_id p = interview_id i ∧ scope ∈ scopes p ∧
  match revoked_at p with None => True | Some t => aware t = true ∧ instant now < instant t end.

Lemma recording_lock_unlocked i permission scope now reason :
  recording_lock i permission scope now = Ok (unlocked, reason) ↔
  aware now = true ∧ reason = none ∧ ∃ p, permission = Some p ∧ open_scope i p scope now.
Proof.
  unfold recording_lock, open_scope. rewrite raise_if_bind_Ok, negb_false_iff.
  destruct (is_real i); simpl; [|naive_solver].
  destruct permission as [p|]; [|naive_solver].
  destruct (Z.eqb_spec (rp_interview_id p) (interview_id i)) as [Hid|Hid]; simpl; [|naive_solver].
  unfold active_at. destruct (revoked_at p) as [t|] eqn:Hrev; simpl.
  - unfold dt_lt. split.
    + intros [Hn H]. rewrite Hn in *. destruct (aware t) eqn:Ht; simpl in H; [|done].
      destruct (Z.ltb_spec (instant now) (instant t)); simpl in H; [|done].
      case_bool_decide; simpl in H; [|done]. injection H as <-. split; [done|]. split; [done|].
      exists p. rewrite Hrev. done.
    + intros (Hn & -> & p' & [= <-] & _ & _ & Hs & Hr). rewrite Hrev in Hr. destruct Hr as [Ht Hlt].
      rewrite Hn, Ht. simpl. rewrite (proj2 (Z.ltb_lt _ _) Hlt). simpl. by rewrite bool_decide_eq_true_2.
  - case_bool_decide; simpl; split.
    + intros [Hn [= <-]]. split; [done|]. split; [done|]. exists p. by rewrite Hrev.
    + naive_solver.
    + naive_solver.
    + naive_solver.
Qed.

(** C18. Nothing is released without permission and approval: [release_to_claude]
    returns a record exactly when the preview is of this interview and owner,
    the interview is real, an attestation of it that is not revoked at that
    moment grants the release, and the approval names the digest of the preview
    and was given no earlier than the preview; the record then names the
    digests, the approver and the moment. *)
Theorem release_needs_permission_and_approval i owner permission preview approval now rec :
  new_RedactionPreview preview = Ok preview → new_ReleaseApproval approval = Ok approval →
  release_to_claude i owner permission preview approval now = Ok rec ↔
  aware now = true ∧ pv_interview_id preview = interview_id i ∧ pv_owner_id preview = owner ∧
  (∃ p, permission = Some p ∧ open_scope i p release_to_claude_scope now) ∧
  ap_preview_sha256 approval = pv_preview_sha256 preview ∧
  instant (generated_at preview) ≤ instant (ap_approved_at approval) ∧
  rec = MkRelease (interview_id i) owner (source_sha256 preview) (pv_preview_sha256 preview)
          (ap_approved_by approval) now.
Proof.
  intros (_ & (Hg & _)%raise_if_bind_Ok)%raise_if_bind_Ok
    (_ & (_ & (Ha & _)%raise_if_bind_Ok)%raise_if_bind_Ok)%raise_if_bind_Ok.
  apply negb_false_iff in Hg, Ha. unfold release_to_claude.
  rewrite raise_if_bind_Ok, orb_false_iff, !negb_false_iff, !Z.eqb_eq, res_bind_Ok, dt_lt_aware by done.
  cbn [res_bind]. split.
  - intros ([Hi Ho] & [st reason] & Hlock & H). rewrite !raise_if_bind_Ok, Z.ltb_ge in H.
    destruct H as (Hu & Hs & Hle & [= <-]). apply negb_false_iff, bool_decide_eq_true in Hu. simpl in Hu. subst st.
    apply negb_false_iff, String.eqb_eq in Hs.
    apply recording_lock_unlocked in Hlock as (Hn & _ & Hp). rewrite Ho. done.
  - intros (Hn & Hi & Ho & Hp & Hs & Hle & ->). split; [done|].
    exists (unlocked, none). split; [by apply recording_lock_unlocked|].
    rewrite !raise_if_bind_Ok, Hs, String.eqb_refl, Z.ltb_ge. done.
Qed.

(** What a preview pins: the redaction of the text it was built from. *)
Lemma build_preview_Ok sha256 i owner t spans at_ preview :
  build_preview sha256 i owner t spans at_ = Ok preview →
  ∃ redacted, redact t spans = Ok redacted ∧ pv_preview_sha256 preview = sha256 redacted ∧
    source_sha256 preview = sha256 t ∧ new_RedactionPreview preview = Ok preview.
Proof.
  unfold build_preview, digest. intros (redacted & Hr & H)%res_bind_Ok. exists redacted. split; [done|].
  assert (∀ p, new_RedactionPreview p = Ok preview → p = preview) as Heq.
  { intros p. unfold new_RedactionPreview. intros (_ & (_ & [= ->])%raise_if_bind_Ok)%raise_if_bind_Ok. done. }
  pose proof (Heq _ H) as <-. done.
Qed.

(** *** Storage *)

Lemma prefix_app_self a b : String.prefix a (a +:+ b) = true.
Proof. induction a as [|c a IH]; simpl; [by destruct b|]. by destruct (Ascii.ascii_dec c c). Qed.

Lemma in_scope_iff i artifact key s :
  artifact_key i artifact = Ok key → in_scope key s = true ↔ scope_of i = s.
Proof.
  unfold artifact_key, in_scope, storage_prefix. intros [_ [= <-]]%raise_if_bind_Ok.
  destruct (scope_of i), s; split; intros H; try discriminate H; try reflexivity; apply prefix_app_self.
Qed.

Lemma has_slash_app a b : has_slash (a +:+ b) = has_slash a || has_slash b.
Proof. induction a as [|c a IH]; simpl; [done|]. by rewrite IH, orb_assoc. Qed.

(** Two segments without a slash are read back from either side of it. *)
Lemma slash_split a b a' b' :
  has_slash a = false → has_slash a' = false →
  a +:+ "/" +:+ b = a' +:+ "/" +:+ b' → a = a' ∧ b = b'.
Proof.
  revert a'. induction a as [|c a IH]; intros [|c' a'] Ha Ha' H; simpl in *.
  - by injection H.
  - injection H as <- _. discriminate.
  - injection H as -> _. discriminate.
  - apply orb_false_iff in Ha as [_ Ha], Ha' as [_ Ha']. injection H as <- H.
    destruct (IH a' Ha Ha' H) as [-> ->]. done.
Qed.
End Releasing.

(** *** Keys *)

Section Keys.
Import Permission.

Lemma digits_no_slash s : all_chars is_digit s = true → has_slash s = false.
Proof.
  induction s as [|c s IH]; simpl; [done|]. intros [Hc Hs]%andb_true_iff. rewrite IH by done.
  rewrite orb_false_r. unfold char_in, is_digit in *. simpl. rewrite orb_false_r.
  apply N.eqb_neq. rewrite andb_true_iff, !N.leb_le in Hc. lia.
Qed.

(** An artifact key names one interview and one artifact, and lies in one
    scope: two accepted interviews that build the same key are of the same
    scope and number and store the same artifact under it, and a retrieval for
    a scope returns the key, if it is stored, exactly when the interview
    belongs to that scope. *)
Theorem artifact_keys_do_not_mix i j a b key :
  new_Interview i = Ok i → new_Interview j = Ok j →
  artifact_key i a = Ok key →
  (artifact_key j b = Ok key → scope_of i = scope_of j ∧ interview_id i = interview_id j ∧ a = b) ∧
  ∀ keys s, key ∈ retrieve keys s ↔ key ∈ keys ∧ scope_of i = s.
Proof.
  assert (∀ k, new_Interview k = Ok k → has_slash (pretty (interview_id k)) = false) as Hslash.
  { intros k (Hf & _)%raise_if_bind_Ok. apply negb_false_iff in Hf. rewrite !andb_true_iff in Hf.
    apply digits_no_slash, pretty_digits. destruct Hf as [[[Hid _] _] _].
    unfold PositiveId in Hid. apply Z.ltb_lt in Hid. lia. }
  intros Hi Hj Hk. split.
  - intros Hk'. assert (scope_of i = scope_of j) as Hs.
    { symmetry. apply (in_scope_iff _ _ _ _ Hk'). by apply (in_scope_iff _ _ _ _ Hk). }
    split; [done|]. unfold artifact_key in Hk, Hk'. rewrite Hs in Hk.
    apply raise_if_bind_Ok in Hk as [_ [= Hk]], Hk' as [_ [= Hk']].
    rewrite <- Hk' in Hk. apply (inj (String.append _)) in Hk.
    apply slash_split in Hk as [Hp ->]; [|by apply Hslash..]. split; [|done]. by apply (inj pretty) in Hp.
  - intros keys s. unfold retrieve. rewrite list_elem_of_In, filter_In, <- list_elem_of_In.
    by rewrite (in_scope_iff _ _ _ _ Hk).
Qed.
End Keys.

(** ** The timeline *)

Section Timelines.
Import Timeline.

(** The words of a track: in the order they start, none ending before. *)
Definition words_in_order (words : list RecognizedWord) : Prop :=
  StronglySorted (λ v w, rw_start_ms v ≤ rw_start_ms w) words ∧
  Forall (λ w, rw_start_ms w ≤ rw_end_ms w) words.

Definition covers (u : Utterance) (w : RecognizedWord) : Prop :=
  start_ms u ≤ rw_start_ms w ∧ rw_end_ms w ≤ end_ms u.

(** What the utterances of one track are to its words. *)
Record track_of (s : Speaker) (gap : Z) (words : list RecognizedWord) (us : list Utterance) : Prop := {
  tr_speaker : ∀ u, u ∈ us → speaker u = s;
  tr_covered : ∀ w, w ∈ words → ∃ u, u ∈ us ∧ covers u w;
  tr_bounds : ∀ u, u ∈ us → start_ms u ≤ end_ms u ∧
    ∃ v w, v ∈ words ∧ w ∈ words ∧ start_ms u = rw_start_ms v ∧ end_ms u = rw_end_ms w;
  tr_apart : StronglySorted (λ u v, end_ms u + gap ≤ start_ms v) us;
}.

Lemma StronglySorted_snoc {A} (R : relation A) l x :
  StronglySorted R l → (∀ y, y ∈ l → R y x) → StronglySorted R (l ++ [x]).
Proof.
  intros Hl Hx. apply StronglySorted_app_2; [|done|by repeat constructor].
  intros y z Hy Hz%list_elem_of_singleton. subst z. by apply Hx.
Qed.

Lemma in_snoc {A} (x y : A) l : x ∈ l ++ [y] ↔ x ∈ l ∨ x = y.
Proof. by rewrite elem_of_app, list_elem_of_singleton. Qed.

Section grouping.
Context (s : Speaker) (gap : Z) (pre : list RecognizedWord) (us : list Utterance) (st en : Z) (w : RecognizedWord).
Let open := MkUtterance s st en.
Hypothesis Hgap : 1 ≤ gap.
Hypothesis Htrack : track_of s gap pre (us ++ [open]).
Hypothesis Hst : st ≤ rw_start_ms w.
Hypothesis Hw : rw_start_ms w ≤ rw_end_ms w.

Lemma closed_apart u : u ∈ us → end_ms u + gap ≤ st.
Proof. intros Hu. apply (StronglySorted_app_1_elem_of _ _ _ u open (tr_apart _ _ _ _ Htrack)); set_solver. Qed.

Lemma kept_bounds u :
  u ∈ us ++ [open] → start_ms u ≤ end_ms u ∧
  ∃ v w', v ∈ pre ++ [w] ∧ w' ∈ pre ++ [w] ∧ start_ms u = rw_start_ms v ∧ end_ms u = rw_end_ms w'.
Proof.
  intros Hu. destruct (tr_bounds _ _ _ _ Htrack u Hu) as [Hle (v & w' & Hv & Hw' & Heq)].
  split; [done|]. exists v, w'. rewrite !in_snoc. tauto.
Qed.

Lemma next_utterance :
  gap ≤ rw_start_ms w - en →
  track_of s gap (pre ++ [w]) ((us ++ [open]) ++ [MkUtterance s (rw_start_ms w) (rw_end_ms w)]).
Proof.
  intros Hnew. pose proof (tr_bounds _ _ _ _ Htrack open) as [Hse _]; [set_solver|]. simpl in Hse. constructor.
  - intros u [Hu| ->]%in_snoc; [by apply Htrack|done].
  - intros v [Hv| ->]%in_snoc.
    + destruct (tr_covered _ _ _ _ Htrack v Hv) as (u & Hu & Hc). exists u. rewrite in_snoc. tauto.
    + exists (MkUtterance s (rw_start_ms w) (rw_end_ms w)). rewrite in_snoc. split; [by right|]. split; simpl; lia.
  - intros u [Hu| ->]%in_snoc; [by apply kept_bounds|]. simpl. split; [done|]. exists w, w. rewrite in_snoc. tauto.
  - apply StronglySorted_snoc; [apply Htrack|]. intros u [Hu| ->]%in_snoc; simpl; [|lia].
    pose proof (closed_apart u Hu). lia.
Qed.

Lemma longer_utterance :
  track_of s gap (pre ++ [w]) (us ++ [MkUtterance s st (Z.max en (rw_end_ms w))]).
Proof.
  pose proof (tr_bounds _ _ _ _ Htrack open) as [Hse (v0 & w0 & Hv0 & Hw0 & Hs0 & He0)]; [set_solver|].
  simpl in Hse, Hs0, He0. constructor.
  - intros u [Hu| ->]%in_snoc; [|done]. apply Htrack. set_solver.
  - intros v [Hv| ->]%in_snoc.
    + destruct (tr_covered _ _ _ _ Htrack v Hv) as (u & [Hu| ->]%in_snoc & Hc1 & Hc2).
      * exists u. rewrite in_snoc. split; [by left|done].
      * eexists. rewrite in_snoc. split; [by right|]. split; simpl in *; lia.
    + eexists. rewrite in_snoc. split; [by right|]. split; simpl; lia.
  - intros u [Hu| ->]%in_snoc; [apply kept_bounds; set_solver|]. simpl. split; [lia|].
    destruct (Z.max_spec en (rw_end_ms w)) as [[_ ->]|[_ ->]];
      [exists v0, w|exists v0, w0]; rewrite !in_snoc; tauto.
  - apply StronglySorted_snoc; [by eapply StronglySorted_app_1_l, Htrack|]. simpl. apply closed_apart.
Qed.

(** One word extends the open utterance or starts the next one. *)
Lemma group_step_track :
  ∃ us' st' en', group_step s gap (us, (st, en)) w = Ok (us', (st', en')) ∧
    track_of s gap (pre ++ [w]) (us' ++ [MkUtterance s st' en']) ∧ st' ≤ rw_start_ms w.
Proof.
  unfold group_step. destruct (Z.leb_spec gap (rw_start_ms w - en)) as [Hnew|Hext].
  - pose proof (tr_bounds _ _ _ _ Htrack open) as [Hse _]; [set_solver|]. simpl in Hse.
    unfold new_Utterance. simpl. rewrite (proj2 (Z.ltb_ge en st)) by done. simpl.
    rewrite (Z.max_r en) by lia. do 3 eexists. split; [reflexivity|]. split; [|lia]. by apply next_utterance.
  - do 3 eexists. split; [reflexivity|]. split; [apply longer_utterance|done].
Qed.
End grouping.

Lemma group_fold_track s gap pre rest us st en :
  1 ≤ gap → track_of s gap pre (us ++ [MkUtterance s st en]) →
  Forall (λ w, st ≤ rw_start_ms w) rest → words_in_order rest →
  ∃ us' st' en', res_fold (group_step s gap) (us, (st, en)) rest = Ok (us', (st', en')) ∧
    track_of s gap (pre ++ rest) (us' ++ [MkUtterance s st' en']).
Proof.
  intros Hgap. revert pre us st en. induction rest as [|w rest IH]; intros pre us st en Ht Hst [Hs Hw].
  - rewrite app_nil_r. simpl. eauto.
  - apply StronglySorted_inv in Hs as [Hs Hsw]. apply Forall_cons in Hst as [Hst _], Hw as [Hw Hws].
    destruct (group_step_track s gap pre us st en w) as (us' & st' & en' & Hstep & Ht' & Hle); [done..|].
    cbn [res_fold]. rewrite Hstep. cbn [res_bind]. rewrite (cons_middle w pre rest), app_assoc. apply IH; [done| |done].
    eapply Forall_impl; [exact Hsw|]. simpl. intros x Hx. lia.
Qed.

(** [_group] returns, and what it returns is a track of the words. *)
Lemma group_track s gap words :
  1 ≤ gap → words_in_order words → ∃ us, group words s gap = Ok us ∧ track_of s gap words us.
Proof.
  intros Hgap [Hs Hw]. unfold group. destruct words as [|w rest].
  { exists []. split; [done|]. constructor; try set_solver. constructor. }
  apply StronglySorted_inv in Hs as [Hs Hsw]. apply Forall_cons in Hw as [Hw Hws].
  destruct (group_fold_track s gap [w] rest [] (rw_start_ms w) (rw_end_ms w)) as (us & st & en & -> & Ht); try done.
  - simpl. constructor; simpl.
    + intros u ->%list_elem_of_singleton. done.
    + intros v ->%list_elem_of_singleton. eexists. split; [by left|]. by split.
    + intros u ->%list_elem_of_singleton. simpl. split; [done|]. exists w, w. set_solver.
    + by repeat constructor.
  - simpl. pose proof (tr_bounds _ _ _ _ Ht (MkUtterance s st en)) as [Hse _]; [set_solver|]. simpl in Hse.
    unfold new_Utterance. simpl. rewrite (proj2 (Z.ltb_ge en st)) by done. simpl. eauto.
Qed.

(** The timeline covers both tracks: for words in the order they start, it
    is returned, sorted by start with the remote speaker first on a tie; every
    word lies in an utterance of its own track, every utterance starts with a
    word and ends with a word of its track, and two utterances of one speaker
    are at least the gap apart. *)
Theorem timeline_covers_both_tracks microphone system_audio gap :
  1 ≤ gap → words_in_order microphone → words_in_order system_audio →
  ∃ us, build_timeline microphone system_audio gap = Ok us ∧
    StronglySorted (λ u v, key_leb utterance_key u v = true) us ∧
    ∀ s, let words := match s with user => microphone | remote => system_audio end in
      (∀ w, w ∈ words → ∃ u, u ∈ us ∧ speaker u = s ∧ covers u w) ∧
      (∀ u, u ∈ us → speaker u = s → start_ms u ≤ end_ms u ∧
         ∃ v w, v ∈ words ∧ w ∈ words ∧ start_ms u = rw_start_ms v ∧ end_ms u = rw_end_ms w) ∧
      (∀ u v, u ∈ us → v ∈ us → speaker u = s → speaker v = s → u ≠ v →
         end_ms u + gap ≤ start_ms v ∨ end_ms v + gap ≤ start_ms u).
Proof.
  intros Hgap Hmic Hsys. destruct (group_track user gap microphone Hgap Hmic) as (us & Hus & Hu).
  destruct (group_track remote gap system_audio Hgap Hsys) as (rs & Hrs & Hr).
  exists (sort_by (key_leb utterance_key) (us ++ rs)). unfold build_timeline.
  rewrite (proj2 (Z.ltb_ge gap 1)) by done. simpl. rewrite Hus, Hrs. split; [done|].
  split; [apply sort_by_sorted; eauto|].
  assert (∀ s, ∃ l, track_of s gap (match s with user => microphone | remote => system_audio end) l ∧
            ∀ u, u ∈ sort_by (key_leb utterance_key) (us ++ rs) ∧ speaker u = s ↔ u ∈ l) as Htracks.
  { intros s. setoid_rewrite elem_of_sort_by. setoid_rewrite elem_of_app. destruct s.
    - exists rs. split; [done|]. intros u. split; [|intros Hin; split; [by right|by apply Hr]].
      intros [[Hin|Hin] Hs]; [|done]. by rewrite (tr_speaker _ _ _ _ Hu u Hin) in Hs.
    - exists us. split; [done|]. intros u. split; [|intros Hin; split; [by left|by apply Hu]].
      intros [[Hin|Hin] Hs]; [done|]. by rewrite (tr_speaker _ _ _ _ Hr u Hin) in Hs. }
  intros s. destruct (Htracks s) as (l & [Hsp Hcov Hb Hap] & Hl). cbv zeta. split; [|split].
  - intros w Hw. destruct (Hcov w Hw) as (u & Hin & Hc). exists u. apply Hl in Hin as [? ?]. done.
  - intros u Hin Hs. apply Hb, Hl. done.
  - intros u v Hin Hin' Hs Hs' Hne. assert (u ∈ l) as Hul by (by apply Hl). assert (v ∈ l) as Hvl by (by apply Hl).
    by apply (StronglySorted_distinct (λ u v, end_ms u + gap ≤ start_ms v) l).
Qed.
End Timelines.

(** ** The debrief and the recovery *)

Section AfterInterview.
Import Debriefing Recovery.

(** An accepted debrief was written within half an hour of the interview's end. *)
Lemma debrief_is_prompt d d' :
  new_Debrief d = Ok d' → d' = d ∧ 1 ≤ db_minutes d ≤ 5 ∧
  instant (interview_ended_at d) ≤ instant (committed_at d) ≤ instant (interview_ended_at d) + minutes 30.
Proof.
  unfold new_Debrief, dt_lt, dt_sub. intros H. inv_ok_prop.
  unfold DEBRIEF_MAX_MINUTES in *. change (minutes 30) with 1800000000.
  match goal with H : _ ≤ Z.pos (30 * _) |- _ => change (Z.pos (30 * (60 * 1000000))) with 1800000000 in H end.
  split; [done|]. lia.
Qed.

(** An accepted recovery plan has one coached replay and one unaided response,
    on two skills, and nothing else. *)
Lemma recovery_plan_is_one_of_each p q :
  new_RecoveryPlan p = Ok q →
  ∃ replay response, coached_replay q = Ok replay ∧ saved_response q = Ok response ∧
    coached replay = true ∧ coached response = false ∧
    target_skill replay ≠ target_skill response ∧ steps q ≡ₚ [replay; response].
Proof.
  unfold new_RecoveryPlan, REQUIRED_CORRECTIONS, MAX_COACHED_REPLAYS. intros H. inv_ok_prop.
  unfold coached_replay, saved_response, next_step.
  destruct (steps q) as [|a [|b [|c l]]] eqn:Hs; simpl in *; try lia.
  assert (target_skill a ≠ target_skill b) as Hne.
  { match goal with H : NoDup _ |- _ => apply NoDup_cons in H as [H _] end. set_solver. }
  destruct (coached a) eqn:Ha, (coached b) eqn:Hb; simpl in *; try lia.
  - exists a, b. rewrite Hb. done.
  - exists b, a. rewrite Hb. repeat split; try done. by apply Permutation_swap.
Qed.
End AfterInterview.

(** ** Concrete inputs *)

Section Witnesses.
Import Permission Redaction Timeline.

Definition demo_text : list Ascii.ascii := String.list_ascii_of_string "I met Ana at Northwind today".
Definition demo_spans : list RedactionSpan := [MkSpan 13 22 company_name; MkSpan 6 9 person_name].
Definition demo_redacted : list Ascii.ascii :=
  String.list_ascii_of_string "I met [redacted] at [redacted] today".

Lemma redaction_is_one_pass_witness :
  redact demo_text demo_spans = Ok demo_redacted ∧
  ∃ ordered, ordered ≡ₚ demo_spans ∧ laid_out 0 28 ordered ∧ demo_redacted = scan 0 demo_text ordered.
Proof.
  assert (redact demo_text demo_spans = Ok demo_redacted) as Hr by (vm_compute; reflexivity).
  split; [exact Hr|]. apply (redaction_is_one_pass demo_text demo_spans demo_redacted); [|exact Hr].
  repeat constructor.
Defined.

Definition demo_at (n : Z) : datetime := utc (days 738000 + minutes n).
Definition demo_interview : Interview := MkInterview 7 1 k_real (demo_at 0) (Some 3) (Some "panel"%string).
Definition demo_practice : Interview := MkInterview 7 1 k_practice (demo_at 0) None None.
Definition demo_permission : RecordingPermission :=
  MkPermission 7 "recruiter" (demo_at 0) [record_audio; release_to_claude_scope] (Some (demo_at 90)).
Definition sha_a : string := "aaaaaaaaaaaaaaaaaaaaaaaaaaaaaaaaaaaaaaaaaaaaaaaaaaaaaaaaaaaaaaaa".
Definition sha_b : string := "bbbbbbbbbbbbbbbbbbbbbbbbbbbbbbbbbbbbbbbbbbbbbbbbbbbbbbbbbbbbbbbb".
Definition demo_preview : RedactionPreview := MkPreview 7 1 sha_a sha_b demo_spans (demo_at 60).
Definition demo_approval : ReleaseApproval := MkApproval sha_b "ada" (demo_at 61).
Definition demo_release : ReleaseRecord := MkRelease 7 1 sha_a sha_b "ada" (demo_at 62).

Lemma release_needs_permission_and_approval_witness :
  release_to_claude demo_interview 1 (Some demo_permission) demo_preview demo_approval (demo_at 62)
    = Ok demo_release ∧
  is_ok (release_to_claude demo_interview 1 (Some demo_permission) demo_preview demo_approval (demo_at 95))
    = false.
Proof.
  split; [|vm_compute; reflexivity].
  apply release_needs_permission_and_approval; [vm_compute; reflexivity..|].
  split; [reflexivity|]. split; [reflexivity|]. split; [reflexivity|]. split.
  - exists demo_permission. split; [reflexivity|]. split; [vm_compute; reflexivity|]. split; [reflexivity|].
    split; [apply elem_of_cons; right; apply elem_of_cons; left; reflexivity|].
    split; [reflexivity|vm_compute; reflexivity].
  - split; [reflexivity|]. split; [vm_compute; discriminate|reflexivity].
Defined.

Lemma artifact_keys_do_not_mix_witness :
  artifact_key demo_interview "audio" = Ok "real/7/audio"%string ∧
  (artifact_key demo_practice "audio" = Ok "real/7/audio"%string →
     scope_of demo_interview = scope_of demo_practice ∧ 7 = 7 ∧ "audio"%string = "audio"%string) ∧
  ∀ keys s, "real/7/audio"%string ∈ retrieve keys s ↔
    "real/7/audio"%string ∈ keys ∧ scope_of demo_interview = s.
Proof.
  assert (artifact_key demo_interview "audio" = Ok "real/7/audio"%string) as Hk by (vm_compute; reflexivity).
  split; [exact Hk|].
  apply (artifact_keys_do_not_mix demo_interview demo_practice "audio" "audio" "real/7/audio");
    [vm_compute; reflexivity|vm_compute; reflexivity|exact Hk].
Defined.

Definition demo_mic : list RecognizedWord := [MkWord "well" 5000 5400; MkWord "yes" 5500 5900].
Definition demo_sys : list RecognizedWord := [MkWord "why" 100 400; MkWord "now" 4000 4300].

Lemma timeline_covers_both_tracks_witness :
  build_timeline demo_mic demo_sys 2000 =
    Ok [MkUtterance remote 100 400; MkUtterance remote 4000 4300; MkUtterance user 5000 5900] ∧
  ∃ us, build_timeline demo_mic demo_sys 2000 = Ok us ∧
    ∀ w, w ∈ demo_mic → ∃ u, u ∈ us ∧ speaker u = user ∧ covers u w.
Proof.
  split; [vm_compute; reflexivity|].
  assert (words_in_order demo_mic) as Hm by (split; repeat constructor; simpl; lia).
  assert (words_in_order demo_sys) as Hs by (split; repeat constructor; simpl; lia).
  destruct (timeline_covers_both_tracks demo_mic demo_sys 2000 ltac:(lia) Hm Hs) as (us & Hus & _ & Hall).
  exists us. split; [exact Hus|]. apply (Hall user).
Defined.
End Witnesses.
