(* ===== verification/Notifications.v ===== *)
(** * Notifications, the outbox and the status stream

    notifications/policy.py, notifications/repository.py,
    notifications/service.py and notifications/sse.py, with the rows of
    notifications/models.py.

    A [Store] is the content of the two tables.  Each repository call is one
    transaction.  Timestamps read from the database are instants.  The zone
    database is a parameter: the weekday an instant has in a named zone, or
    nothing for a name it does not know.  So are the rows other transactions
    hold locked and the JSON text of an event. *)

From stdpp Require Import prelude list strings gmap sorting pretty.
From Stdlib Require Import ZArith Lia.
From S2P Require Import Prelude PyTime PyText.

(** ** Policy *)

Definition NotificationPolicyError (msg : string) : exn := Exn "NotificationPolicyError" msg.
Definition NotificationNotFound (msg : string) : exn := Exn "NotificationNotFound" msg.
Definition NotificationInvalidRequest (msg : string) : exn := Exn "NotificationInvalidRequest" msg.

Definition NOTIFICATION_TYPES : list string :=
  ["feedback_ready"; "correction_due"; "upcoming_real_interview"; "saturday_assessment";
   "processing_failure_requires_action"].
Definition SUBJECT_KINDS : list string :=
  ["activity"; "correction"; "interview"; "study_day"; "processing_status"].

Record NotificationCandidate := MkCandidate {
  nc_notification_type : string;
  nc_subject_kind : string;
  nc_subject_id : Z;
  nc_occurred_at : datetime;
  nc_timezone : string;
}.

Definition EVENT_MAPPING : list (string * string * (string * string)) :=
  [ ("activity.feedback_ready", "activity", ("feedback_ready", "activity"));
    ("correction.due", "correction", ("correction_due", "correction"));
    ("interview.upcoming", "interview", ("upcoming_real_interview", "interview"));
    ("study_day.saturday_assessment", "study_day", ("saturday_assessment", "study_day"));
    ("processing_status.needs_attention", "processing_status",
      ("processing_failure_requires_action", "processing_status")) ]%string.

(** [_EVENT_MAPPING.get((event_type, aggregate_type))] *)
Definition mapped (event_type aggregate_type : string) : option (string * string) :=
  match List.find (λ '(e, a, _), String.eqb e event_type && String.eqb a aggregate_type) EVENT_MAPPING with
  | Some (_, _, m) => Some m
  | None => None
  end.

Section policy.
Context (local_weekday : string → Z → option Z).

Definition validate_notification_candidate (c : NotificationCandidate) : res unit :=
  raise_if (negb (str_in (nc_notification_type c) NOTIFICATION_TYPES))
    (NotificationPolicyError "notification type is not allowed") ;;;
  raise_if (negb (str_in (nc_subject_kind c) SUBJECT_KINDS) || (nc_subject_id c <=? 0))
    (NotificationPolicyError "notification subject is invalid") ;;;
  raise_if (negb (aware (nc_occurred_at c)))
    (NotificationPolicyError "notification timestamp must be timezone-aware") ;;;
  match local_weekday (nc_timezone c) (instant (nc_occurred_at c)) with
  | None => Err (NotificationPolicyError "learner timezone is invalid")
  | Some day =>
      raise_if (String.eqb (nc_notification_type c) "saturday_assessment" && negb (day =? 5))
        (NotificationPolicyError "Saturday assessment notification requires Saturday") ;;;
      raise_if (String.eqb (nc_notification_type c) "correction_due" && (day =? 6))
        (NotificationPolicyError "Sunday correction reminders are disabled")
  end.

Definition notification_candidate_from_event (event_type aggregate_type : string) (subject_id : Z)
    (occurred_at : datetime) (timezone : string) : option NotificationCandidate :=
  match mapped event_type aggregate_type with
  | None => None
  | Some (notification_type, subject_kind) =>
      let c := MkCandidate notification_type subject_kind subject_id occurred_at timezone in
      if is_ok (validate_notification_candidate c) then Some c else None
  end.
End policy.

(** ** Rows *)

Record OutboxRow := MkOutbox {
  ox_id : Z;
  ox_owner_id : Z;
  ox_aggregate_type : string;
  ox_aggregate_id : Z;
  ox_event_type : string;
  ox_subject_id : Z;
  ox_related_id : option Z;
  ox_occurred_at : Z;
  ox_published_at : option Z;
  ox_attempts : Z;
}.

Record Notification := MkNotification {
  nt_id : Z;
  nt_owner_id : Z;
  nt_notification_type : string;
  nt_subject_kind : string;
  nt_subject_id : Z;
  nt_created_at : Z;
  nt_read_at : option Z;
}.

Record NotificationResponse := MkResponse {
  nr_id : Z; nr_notification_type : string; nr_subject_kind : string; nr_subject_id : Z;
  nr_created_at : Z; nr_read_at : option Z
}.
Definition notification_response (n : Notification) : NotificationResponse :=
  MkResponse (nt_id n) (nt_notification_type n) (nt_subject_kind n) (nt_subject_id n)
    (nt_created_at n) (nt_read_at n).
Record NotificationPage := MkPage { pg_items : list NotificationResponse; pg_next_cursor : option Z }.
Record StatusEventResponse := MkStatus {
  se_id : Z; se_event_type : string; se_aggregate_type : string; se_aggregate_id : Z;
  se_subject_id : Z; se_related_id : option Z; se_occurred_at : Z
}.
Record DeliveryBatch := MkBatch { db_published_event_ids : list Z; db_notification_ids : list Z }.

Record Store := MkStore {
  st_outbox : gmap Z OutboxRow;
  st_notifications : gmap Z Notification;
  st_next_id : Z;                      (** of the notifications *)
  st_timezone : Z → option string;     (** the learner settings *)
}.

Definition rows (st : Store) : list OutboxRow := (map_to_list (st_outbox st)).*2.
Definition notes (st : Store) : list Notification := (map_to_list (st_notifications st)).*2.

(** ** The repository *)

Section repository.
Context (local_weekday : string → Z → option Z).

Definition delivery_now (clock : datetime) : res Z :=
  raise_if (negb (aware clock)) (NotificationInvalidRequest "repository clock must be timezone-aware") ;;;
  Ok (instant clock).

(** [value or "UTC"] *)
Definition learner_timezone (st : Store) (owner_id : Z) : string :=
  match st_timezone st owner_id with
  | Some "" | None => "UTC"
  | Some zone => zone
  end.

Definition unpublished (locked : gset Z) (r : OutboxRow) : Prop :=
  ox_published_at r = None ∧ ox_id r ∉ locked.
#[export] Instance unpublished_dec locked r : Decision (unpublished locked r).
Proof. unfold unpublished. apply _. Defined.

Definition outbox_key (r : OutboxRow) : list Z := [ox_occurred_at r; ox_id r].

(** The rows the delivering query returns. *)
Definition due_events (st : Store) (locked : gset Z) (limit : Z) : list OutboxRow :=
  take (Z.to_nat limit) (sort_by (key_leb outbox_key) (filter (unpublished locked) (rows st))).

Definition candidate_of (st : Store) (r : OutboxRow) : option NotificationCandidate :=
  notification_candidate_from_event local_weekday (ox_event_type r) (ox_aggregate_type r)
    (ox_subject_id r) (utc (ox_occurred_at r)) (learner_timezone st (ox_owner_id r)).

Definition published_row (now : Z) (r : OutboxRow) : OutboxRow :=
  MkOutbox (ox_id r) (ox_owner_id r) (ox_aggregate_type r) (ox_aggregate_id r) (ox_event_type r)
    (ox_subject_id r) (ox_related_id r) (ox_occurred_at r) (Some (Z.max now (ox_occurred_at r)))
    (ox_attempts r + 1).

Definition notification_of (id now : Z) (r : OutboxRow) (c : NotificationCandidate) : Notification :=
  MkNotification id (ox_owner_id r) (nc_notification_type c) (nc_subject_kind c) (nc_subject_id c)
    (Z.max now (ox_occurred_at r)) None.

Definition add_notification (st : Store) (n : Notification) : Store :=
  MkStore (st_outbox st) (<[nt_id n := n]> (st_notifications st)) (st_next_id st + 1) (st_timezone st).
Definition update_outbox (st : Store) (r : OutboxRow) : Store :=
  MkStore (<[ox_id r := r]> (st_outbox st)) (st_notifications st) (st_next_id st) (st_timezone st).

(** The body of the delivering loop. *)
Definition deliver_one (now : Z) (acc : Store * DeliveryBatch) (r : OutboxRow) : Store * DeliveryBatch :=
  let '(st, batch) := acc in
  let '(st, added) :=
    match candidate_of st r with
    | Some c => (add_notification st (notification_of (st_next_id st) now r c), [st_next_id st])
    | None => (st, [])
    end in
  (update_outbox st (published_row now r),
   MkBatch (db_published_event_ids batch ++ [ox_id r]) (db_notification_ids batch ++ added)).

Definition deliver_outbox (st : Store) (clock : datetime) (locked : gset Z) (limit : Z)
    : res (Store * DeliveryBatch) :=
  raise_if (negb ((1 <=? limit) && (limit <=? 100)))
    (NotificationInvalidRequest "delivery batch limit is invalid") ;;;
  let* now := delivery_now clock in
  Ok (fold_left (deliver_one now) (due_events st locked limit) (st, MkBatch [] [])).
End repository.

Definition newest_key (n : Notification) : list Z := [nt_id n].

Definition listed (owner_id : Z) (cursor : option Z) (n : Notification) : Prop :=
  nt_owner_id n = owner_id ∧ from_option (λ c, nt_id n < c) True cursor.
#[export] Instance listed_dec owner_id cursor n : Decision (listed owner_id cursor n).
Proof. unfold listed. destruct cursor; simpl; apply _. Defined.

Definition list_notifications (st : Store) (owner_id : Z) (cursor : option Z) (limit : Z)
    : NotificationPage :=
  let fetched := take (Z.to_nat (limit + 1))
                   (sort_by (key_geb newest_key) (filter (listed owner_id cursor) (notes st))) in
  let has_more := limit <? Z.of_nat (length fetched) in
  let selected := take (Z.to_nat limit) fetched in
  MkPage (map notification_response selected) (if has_more then nt_id <$> last selected else None).

Definition mark_read (st : Store) (clock : datetime) (owner_id notification_id : Z)
    : res (Store * NotificationResponse) :=
  let* now := delivery_now clock in
  match st_notifications st !! notification_id with
  | Some n =>
      if negb (nt_owner_id n =? owner_id) then Err (NotificationNotFound "notification was not found")
      else
        match nt_read_at n with
        | Some _ => Ok (st, notification_response n)
        | None =>
            let read := MkNotification (nt_id n) (nt_owner_id n) (nt_notification_type n)
              (nt_subject_kind n) (nt_subject_id n) (nt_created_at n) (Some (Z.max now (nt_created_at n))) in
            Ok (MkStore (st_outbox st) (<[nt_id n := read]> (st_notifications st)) (st_next_id st)
                  (st_timezone st), notification_response read)
        end
  | None => Err (NotificationNotFound "notification was not found")
  end.

Definition status_key (r : OutboxRow) : list Z := [ox_id r].
Definition status_response (r : OutboxRow) : StatusEventResponse :=
  MkStatus (ox_id r) (ox_event_type r) (ox_aggregate_type r) (ox_aggregate_id r) (ox_subject_id r)
    (ox_related_id r) (ox_occurred_at r).

Definition streamable (owner_id after_event_id : Z) (r : OutboxRow) : Prop :=
  ox_owner_id r = owner_id ∧ is_Some (ox_published_at r) ∧ after_event_id < ox_id r.
#[export] Instance streamable_dec owner_id after r : Decision (streamable owner_id after r).
Proof. unfold streamable. apply _. Defined.

Definition list_status_events (st : Store) (owner_id after_event_id limit : Z) : list StatusEventResponse :=
  map status_response (take (Z.to_nat limit)
    (sort_by (key_leb status_key) (filter (streamable owner_id after_event_id) (rows st)))).

(** ** The service *)

Module NotificationService.

Definition page (owner_id : Z) (cursor : option Z) (limit : Z) : res unit :=
  raise_if ((owner_id <=? 0) || match cursor with Some c => c <=? 0 | None => false end)
    (NotificationInvalidRequest "notification cursor is invalid") ;;;
  raise_if (negb ((1 <=? limit) && (limit <=? 100)))
    (NotificationInvalidRequest "notification page limit is invalid").

Definition service_list_notifications (st : Store) (owner_id : Z) (cursor : option Z) (limit : Z)
    : res NotificationPage :=
  page owner_id cursor limit ;;; Ok (list_notifications st owner_id cursor limit).

Definition service_mark_read (st : Store) (clock : datetime) (owner_id notification_id : Z)
    : res (Store * NotificationResponse) :=
  raise_if ((owner_id <=? 0) || (notification_id <=? 0))
    (NotificationInvalidRequest "notification identity is invalid") ;;;
  mark_read st clock owner_id notification_id.

Definition service_list_status_events (st : Store) (owner_id after_event_id limit : Z)
    : res (list StatusEventResponse) :=
  raise_if ((owner_id <=? 0) || (after_event_id <? 0) || negb ((1 <=? limit) && (limit <=? 100)))
    (NotificationInvalidRequest "status event cursor is invalid") ;;;
  Ok (list_status_events st owner_id after_event_id limit).

End NotificationService.

(** ** The status stream *)

Definition parse_last_event_id (value : option string) : res Z :=
  match value with
  | None | Some EmptyString => Ok 0
  | Some text =>
      match python_int text with
      | None => Err (Exn "ValueError" "Last-Event-ID is invalid")
      | Some parsed =>
          raise_if (negb ((0 <=? parsed) && (parsed <=? 2 ^ 63 - 1)))
            (Exn "ValueError" "Last-Event-ID is invalid") ;;;
          Ok parsed
      end
  end.

Definition LF : string := String (Ascii.ascii_of_N 10) EmptyString.

Section stream.
(** The JSON text of an event, the readings of the monotonic clock and the
    test [now - last_emit >= keepalive_seconds] on them. *)
Context (model_dump_json : StatusEventResponse → string).
Context {clock : Type} (keepalive_due : clock → clock → bool).

Definition encode_sse_event (event : StatusEventResponse) : string :=
  "id: " +:+ pretty (se_id event) +:+ LF +:+ "event: status" +:+ LF +:+
  "data: " +:+ model_dump_json event +:+ LF +:+ LF.

(** What the stream sends: an event or a comment that keeps it open. *)
Inductive Chunk := EventChunk (event : StatusEventResponse) | KeepaliveChunk.

Definition chunk_text (c : Chunk) : string :=
  match c with
  | EventChunk event => encode_sse_event event
  | KeepaliveChunk => ": keepalive" +:+ LF +:+ LF
  end.

(** What one turn of the loop meets: whether the client has gone, the tables
    when it queries them, and the answers of the session check and of the
    clock in the order it asks for them. *)
Record Turn := MkTurn {
  tn_disconnected : bool;
  tn_store : Store;
  tn_active : nat → bool;
  tn_clock : nat → clock;
}.

Record StreamState := MkStream { ss_cursor : Z; ss_last_emit : clock }.

(** The loop over the events of a turn; [i] counts the questions asked.  It
    gives the state, the chunks and whether the stream goes on. *)
Fixpoint emit_events (t : Turn) (i : nat) (s : StreamState) (events : list StatusEventResponse)
    : StreamState * list Chunk * bool :=
  match events with
  | [] => (s, [], true)
  | event :: rest =>
      if se_id event <=? ss_cursor s then emit_events t i s rest
      else if negb (tn_active t i) then (s, [], false)
      else
        let '(s', chunks, alive) := emit_events t (S i) (MkStream (se_id event) (tn_clock t i)) rest in
        (s', EventChunk event :: chunks, alive)
  end.

Definition stream_turn (owner_id : Z) (s : StreamState) (t : Turn)
    : res (StreamState * list Chunk * bool) :=
  if tn_disconnected t then Ok (s, [], false)
  else if negb (tn_active t 0) then Ok (s, [], false)
  else
    let* events := NotificationService.service_list_status_events (tn_store t) owner_id (ss_cursor s) 100 in
    match events with
    | [] =>
        let now := tn_clock t 0 in
        if keepalive_due now (ss_last_emit s) then Ok (MkStream (ss_cursor s) now, [KeepaliveChunk], true)
        else Ok (s, [], true)
    | _ => Ok (emit_events t 1 s events)
    end.

(** The loop, over the turns it meets. *)
Fixpoint stream_loop (owner_id : Z) (s : StreamState) (turns : list Turn)
    : res (StreamState * list Chunk) :=
  match turns with
  | [] => Ok (s, [])
  | t :: rest =>
      let* out := stream_turn owner_id s t in
      let '(s1, chunks, alive) := out in
      if alive then
        let* tail := stream_loop owner_id s1 rest in Ok (tail.1, chunks ++ tail.2)
      else Ok (s1, chunks)
  end.

Definition status_event_stream (owner_id after_event_id : Z) (start : clock) (turns : list Turn)
    : res (StreamState * list Chunk) :=
  stream_loop owner_id (MkStream after_event_id start) turns.
End stream.
