(* ===== verification/NotificationsContract.v ===== *)
(** * What the outbox and the status stream promise

    Theorems about Notifications.v: a delivery publishes its batch and adds the
    notifications of it and nothing else; no event is published twice, and
    enough deliveries publish all of them; the status stream sends events in
    the order of their identifiers, and the identifier of a frame can be sent
    back to resume. *)

From stdpp Require Import prelude list list_numbers strings gmap sorting pretty.
From Stdlib Require Import ZArith Lia.
From S2P Require Import Prelude PyTime PyText Notifications.

(** ** Delivery *)

(** The keys of the tables are the rows' own identifiers, and no notification
    has an identifier that is still to be given. *)
Record store_ok (st : Store) : Prop := {
  ok_outbox : ∀ i r, st_outbox st !! i = Some r → ox_id r = i;
  ok_notes : ∀ i n, st_notifications st !! i = Some n → nt_id n = i ∧ i < st_next_id st;
}.

Lemma elem_of_rows st r : store_ok st → r ∈ rows st ↔ st_outbox st !! ox_id r = Some r.
Proof.
  intros Hok. unfold rows. rewrite list_elem_of_fmap. split.
  - intros ([i r'] & -> & Hir). apply elem_of_map_to_list in Hir. simpl.
    by rewrite (ok_outbox st Hok _ _ Hir).
  - intros Hr. exists (ox_id r, r). split; [done|]. by apply elem_of_map_to_list.
Qed.

Lemma NoDup_rows_ids st : store_ok st → NoDup (map ox_id (rows st)).
Proof.
  intros Hok. unfold rows. replace (map ox_id (map_to_list (st_outbox st)).*2) with (map_to_list (st_outbox st)).*1.
  { apply NoDup_fst_map_to_list. }
  change (map ox_id (map_to_list (st_outbox st)).*2) with (ox_id <$> (map_to_list (st_outbox st)).*2).
  rewrite <- list_fmap_compose. apply list_fmap_ext. intros k [i r] Hk. simpl.
  apply list_elem_of_lookup_2, elem_of_map_to_list in Hk. symmetry. by apply (ok_outbox st Hok).
Qed.

Lemma elem_of_due st locked limit r :
  store_ok st → r ∈ due_events st locked limit → st_outbox st !! ox_id r = Some r ∧ unpublished locked r.
Proof.
  intros Hok Hr. unfold due_events in Hr. apply elem_of_take in Hr as (k & Hk & _).
  apply list_elem_of_lookup_2 in Hk. rewrite elem_of_sort_by, list_elem_of_filter in Hk.
  rewrite <- elem_of_rows by done. tauto.
Qed.





Lemma NoDup_due_ids st locked limit : store_ok st → NoDup (map ox_id (due_events st locked limit)).
Proof.
  intros Hok. unfold due_events.
  assert (NoDup (map ox_id (sort_by (key_leb outbox_key) (filter (unpublished locked) (rows st))))) as Hnd.
  { eapply NoDup_Permutation_proper; [apply fmap_Permutation, sort_by_perm|].
    eapply sublist_NoDup; [by apply NoDup_rows_ids|]. apply (fmap_sublist ox_id), sublist_filter. }
  eapply sublist_NoDup; [exact Hnd|]. apply (fmap_sublist ox_id), sublist_take.
Qed.

Section delivery.
Context (local_weekday : string → Z → option Z).

(** The rows of a batch that make a notification, with their candidate. *)
Definition noted (st : Store) (batch : list OutboxRow) : list (OutboxRow * NotificationCandidate) :=
  omap (λ r, (r,.) <$> candidate_of local_weekday st r) batch.

(** What the delivering loop has done after the rows [pre]. *)
Record delivered (st : Store) (now : Z) (pre : list OutboxRow) (st' : Store) (b : DeliveryBatch) : Prop := {
  dv_published : db_published_event_ids b = map ox_id pre;
  dv_outbox : ∀ i, st_outbox st' !! i =
    if base.decide (i ∈ map ox_id pre) then published_row now <$> st_outbox st !! i else st_outbox st !! i;
  dv_timezone : st_timezone st' = st_timezone st;
  dv_next : st_next_id st' = st_next_id st + Z.of_nat (length (noted st pre));
  dv_ids : db_notification_ids b = seqZ (st_next_id st) (Z.of_nat (length (noted st pre)));
  dv_old : ∀ i, i < st_next_id st → st_notifications st' !! i = st_notifications st !! i;
  dv_new : ∀ k r c, noted st pre !! k = Some (r, c) →
    st_notifications st' !! (st_next_id st + Z.of_nat k) =
    Some (notification_of (st_next_id st + Z.of_nat k) now r c);
  dv_ok : store_ok st';
}.

Lemma candidate_of_timezone st st' r :
  st_timezone st' = st_timezone st → candidate_of local_weekday st' r = candidate_of local_weekday st r.
Proof. intros H. unfold candidate_of, learner_timezone. by rewrite H. Qed.

Lemma noted_snoc st pre r :
  noted st (pre ++ [r]) = noted st pre ++ option_list ((r,.) <$> candidate_of local_weekday st r).
Proof. unfold noted. rewrite omap_app. simpl. by destruct (candidate_of local_weekday st r). Qed.

Lemma deliver_one_step st now pre st' b r :
  store_ok st → st_outbox st !! ox_id r = Some r → ox_id r ∉ map ox_id pre →
  delivered st now pre st' b →
  delivered st now (pre ++ [r]) (deliver_one local_weekday now (st', b) r).1
    (deliver_one local_weekday now (st', b) r).2.
Proof.
  intros Hst Hr Hfresh Hd. unfold deliver_one.
  rewrite (candidate_of_timezone st st' r (dv_timezone _ _ _ _ _ Hd)).
  assert (∀ i, (<[ox_id r := published_row now r]> (st_outbox st')) !! i =
    if base.decide (i ∈ map ox_id (pre ++ [r])) then published_row now <$> st_outbox st !! i
    else st_outbox st !! i) as Hout.
  { intros i. destruct (base.decide (i = ox_id r)) as [->|Hi].
    - rewrite lookup_insert_eq, Hr, decide_True; [done|]. rewrite map_app. set_solver.
    - rewrite lookup_insert_ne, (dv_outbox _ _ _ _ _ Hd) by done. rewrite map_app. simpl.
      repeat case_decide; set_solver. }
  pose proof (ok_outbox _ (dv_ok _ _ _ _ _ Hd)) as Hkeys.
  pose proof (ok_notes _ (dv_ok _ _ _ _ _ Hd)) as Hnotes.
  assert (∀ i x, (<[ox_id r := published_row now r]> (st_outbox st')) !! i = Some x → ox_id x = i) as Hkeys'.
  { intros i x [[<- <-]|[_ Hx]]%lookup_insert_Some; [done|by apply Hkeys]. }
  pose proof (dv_next _ _ _ _ _ Hd) as Hnext.
  destruct (candidate_of local_weekday st r) as [c|] eqn:Hc; constructor; simpl;
    rewrite ?noted_snoc, ?Hc; simpl; rewrite ?app_nil_r;
    try apply Hd; try exact Hout; try (split; simpl; [exact Hkeys'|]).
  - rewrite (dv_published _ _ _ _ _ Hd). by rewrite map_app.
  - rewrite length_app. simpl. lia.
  - rewrite (dv_ids _ _ _ _ _ Hd), length_app. simpl. rewrite Nat2Z.inj_add, seqZ_app by lia.
    by rewrite Hnext.
  - intros i Hi. rewrite lookup_insert_ne by lia. by apply Hd.
  - intros k x cx [Hk|[Hk Hx]]%lookup_app_Some.
    + pose proof (lookup_lt_Some _ _ _ Hk). rewrite lookup_insert_ne by lia. by apply Hd.
    + apply list_lookup_singleton_Some in Hx as [Hk0 [= -> ->]].
      replace (st_next_id st + Z.of_nat k) with (st_next_id st') by lia. by rewrite lookup_insert_eq.
  - intros i n [[<- <-]|[_ Hn]]%lookup_insert_Some; simpl; [lia|]. apply Hnotes in Hn. lia.
  - rewrite (dv_published _ _ _ _ _ Hd). by rewrite map_app.
  - exact Hnotes.
Qed.

Lemma deliver_outbox_delivered st clock locked limit st' b :
  store_ok st → deliver_outbox local_weekday st clock locked limit = Ok (st', b) →
  1 ≤ limit ≤ 100 ∧ aware clock = true ∧
  delivered st (instant clock) (due_events st locked limit) st' b.
Proof.
  intros Hst Hd. unfold deliver_outbox, delivery_now in Hd. inv_ok_prop.
  split; [done|]. split; [by destruct (aware clock)|].
  match goal with H : fold_left _ _ _ = _ |- _ => rename H into Hloop end.
  pose proof (NoDup_due_ids st locked limit Hst) as Hnd.
  pose proof (elem_of_due st locked limit) as Hdue.
  revert Hnd Hdue Hloop. generalize (due_events st locked limit) as l. intros l Hnd Hdue Hloop.
  assert (∀ l1 l2, l = l1 ++ l2 → delivered st (instant clock) l1
    (fold_left (deliver_one local_weekday (instant clock)) l1 (st, MkBatch [] [])).1
    (fold_left (deliver_one local_weekday (instant clock)) l1 (st, MkBatch [] [])).2) as Hall.
  { intros l1. induction l1 as [|r l1 IH] using rev_ind; intros l2 Hl.
    - by constructor; simpl; try done; try lia; rewrite ?Z.add_0_r.
    - rewrite fold_left_app. simpl. rewrite <- app_assoc in Hl. specialize (IH _ Hl).
      destruct (fold_left _ l1 _) as [s1 b1]. apply deliver_one_step; [done| | |exact IH].
      + apply Hdue; [done|]. rewrite Hl. set_solver.
      + rewrite Hl, !map_app in Hnd. apply NoDup_app in Hnd as (_ & Hnd & _).
        intros Hin. apply (Hnd _ Hin). simpl. set_solver. }
  specialize (Hall l [] (eq_sym (app_nil_r l))). by rewrite Hloop in Hall.
Qed.

(** The identifiers of the events that are not published. *)
Definition pending (st : Store) : gset Z :=
  list_to_set (map ox_id (filter (unpublished ∅) (rows st))).

Lemma elem_of_pending st i :
  store_ok st → i ∈ pending st ↔ ∃ r, st_outbox st !! i = Some r ∧ ox_published_at r = None.
Proof.
  intros Hst. unfold pending. rewrite elem_of_list_to_set, list_elem_of_fmap. split.
  - intros (r & -> & Hr). rewrite list_elem_of_filter, elem_of_rows in Hr by done.
    destruct Hr as [[Hr _] Hin]. eauto.
  - intros (r & Hr & Hp). pose proof (ok_outbox st Hst _ _ Hr) as <-. exists r. split; [done|].
    rewrite list_elem_of_filter, elem_of_rows by done. by split; [split; [|set_solver]|].
Qed.

Lemma NoDup_pending st : store_ok st → NoDup (map ox_id (filter (unpublished ∅) (rows st))).
Proof.
  intros Hst. eapply sublist_NoDup; [by apply NoDup_rows_ids|]. apply (fmap_sublist ox_id), sublist_filter.
Qed.

Lemma size_pending st : store_ok st → size (pending st) = length (filter (unpublished ∅) (rows st)).
Proof.
  intros Hst. unfold pending. rewrite size_list_to_set by by apply NoDup_pending. apply length_map.
Qed.

Lemma length_due_unlocked st limit :
  store_ok st → length (due_events st ∅ limit) = Nat.min (Z.to_nat limit) (size (pending st)).
Proof. intros Hst. unfold due_events. by rewrite length_take, length_sort_by, size_pending. Qed.

(** A delivery takes its batch out of the pending events and nothing else. *)
Lemma pending_delivered st now locked limit st' b :
  store_ok st → delivered st now (due_events st locked limit) st' b →
  pending st' = pending st ∖ list_to_set (map ox_id (due_events st locked limit)).
Proof.
  intros Hst Hd. apply set_eq. intros i.
  rewrite elem_of_difference, !elem_of_pending, elem_of_list_to_set by (done || apply Hd).
  rewrite (dv_outbox _ _ _ _ _ Hd). case_decide as Hi; [|tauto]. split; [|tauto].
  intros (r & Hr & Hp). destruct (st_outbox st !! i); simpl in Hr; simplify_eq.
Qed.

Lemma due_pending st locked limit :
  store_ok st → (list_to_set (map ox_id (due_events st locked limit)) : gset Z) ⊆ pending st.
Proof.
  intros Hst i. rewrite elem_of_list_to_set, elem_of_pending, list_elem_of_fmap by done.
  intros (r & -> & Hr). apply elem_of_due in Hr as [? [? _]]; eauto.
Qed.

Lemma size_pending_delivered st now limit st' b :
  store_ok st → delivered st now (due_events st ∅ limit) st' b →
  size (pending st') = (size (pending st) - Z.to_nat limit)%nat.
Proof.
  intros Hst Hd. rewrite (pending_delivered _ _ _ _ _ _ Hst Hd).
  rewrite size_difference by by apply due_pending.
  rewrite size_list_to_set by by apply NoDup_due_ids. rewrite length_map, length_due_unlocked by done. lia.
Qed.

(** [n] deliveries one after the other. *)
Fixpoint deliver_times (n : nat) (st : Store) (clock : datetime) (limit : Z) : res Store :=
  match n with
  | O => Ok st
  | S n => let* out := deliver_outbox local_weekday st clock ∅ limit in deliver_times n out.1 clock limit
  end.





(** C14. Deliveries that no other transaction blocks drain the outbox: enough of
    them for the number of pending events leave none unpublished. *)
Theorem deliveries_drain_the_outbox n st clock limit :
  store_ok st → aware clock = true → 1 ≤ limit ≤ 100 → Z.of_nat (size (pending st)) ≤ Z.of_nat n * limit →
  ∃ st', deliver_times n st clock limit = Ok st' ∧
    ∀ i r, st_outbox st' !! i = Some r → is_Some (ox_published_at r).
Proof.
  intros Hst Hc Hl. revert st Hst. induction n as [|n IH]; intros st Hst Hn.
  - exists st. split; [done|]. intros i r Hr. destruct (ox_published_at r) eqn:Hp; [done|].
    assert (i ∈ pending st) as Hi by (apply elem_of_pending; eauto).
    assert (size (pending st) = 0%nat) as Hz by lia.
    apply size_empty_inv in Hz. set_solver.
  - cbn [deliver_times].
    destruct (deliver_outbox local_weekday st clock ∅ limit) as [[st1 b]|e] eqn:Hd.
    + apply deliver_outbox_delivered in Hd as (_ & _ & Hd); [|done].
      pose proof (size_pending_delivered _ _ _ _ _ Hst Hd) as Hsz. cbn [res_bind fst]. apply (IH st1); [apply Hd|]. rewrite Nat2Z.inj_succ, Z.mul_succ_l in Hn. rewrite Hsz. nia.
    + exfalso. unfold deliver_outbox, delivery_now in Hd.
      destruct (Z.leb_spec 1 limit), (Z.leb_spec limit 100); try lia. by rewrite Hc in Hd.
Qed.
End delivery.

(** ** The status stream *)

Section stream.
Context {clock : Type} (keepalive_due : clock → clock → bool).

Definition events_of (chunks : list Chunk) : list StatusEventResponse :=
  omap (λ c, match c with EventChunk e => Some e | KeepaliveChunk => None end) chunks.

Lemma events_of_app a b : events_of (a ++ b) = events_of a ++ events_of b.
Proof. apply omap_app. Qed.

(** The events [es] come in the order of their identifiers, after [lo] and not
    after [hi]. *)
Record ascending (lo hi : Z) (es : list StatusEventResponse) : Prop := {
  asc_sorted : StronglySorted (λ a b, se_id a < se_id b) es;
  asc_bounds : Forall (λ e, lo < se_id e ≤ hi) es;
  asc_le : lo ≤ hi;
}.

Lemma ascending_nil lo : ascending lo lo [].
Proof. split; [constructor|constructor|lia]. Qed.

Lemma ascending_app lo mid hi es es' :
  ascending lo mid es → ascending mid hi es' → ascending lo hi (es ++ es').
Proof.
  intros [Hs Hb Hl] [Hs' Hb' Hl']. rewrite Forall_forall in Hb, Hb'. split; [| |lia].
  - apply StronglySorted_app_2; [|done..]. intros x y Hx Hy. specialize (Hb x Hx). specialize (Hb' y Hy). lia.
  - apply Forall_forall. intros e [He|He]%elem_of_app.
    + specialize (Hb e He). lia.
    + specialize (Hb' e He). lia.
Qed.

Lemma ascending_cons lo hi e es :
  lo < se_id e → ascending (se_id e) hi es → ascending lo hi (e :: es).
Proof.
  intros Hlo H. apply (ascending_app lo (se_id e) hi [e]); [|done].
  split; [repeat constructor| |lia]. repeat constructor; lia.
Qed.

Lemma emit_events_spec (t : Turn (clock := clock)) i s events s' chunks alive :
  emit_events t i s events = (s', chunks, alive) →
  ascending (ss_cursor s) (ss_cursor s') (events_of chunks) ∧
  (∀ e, e ∈ events_of chunks → e ∈ events).
Proof.
  revert i s s' chunks alive. induction events as [|e events IH]; intros i s s' chunks alive; simpl.
  { intros [= <- <- <-]. split; [apply ascending_nil|set_solver]. }
  destruct (Z.leb_spec (se_id e) (ss_cursor s)).
  { intros [Ha Hin]%IH. split; [done|]. intros x Hx. right. auto. }
  destruct (tn_active t i); simpl.
  2: { intros [= <- <- <-]. split; [apply ascending_nil|set_solver]. }
  destruct (emit_events t (S i) _ events) as [[s1 chunks1] alive1] eqn:E. intros [= <- <- <-].
  apply IH in E as [Ha Hin]. cbn in Ha. split; [by apply ascending_cons|].
  intros x [->|Hx]%elem_of_cons; [by left|right; auto].
Qed.

(** Nothing else is sent than published events of the owner. *)
Definition published_event (owner_id : Z) (t : Turn (clock := clock)) (e : StatusEventResponse) : Prop :=
  ∃ r, r ∈ rows (tn_store t) ∧ ox_owner_id r = owner_id ∧ is_Some (ox_published_at r) ∧
       e = status_response r.

Lemma elem_of_status_events st owner_id after limit e :
  e ∈ list_status_events st owner_id after limit →
  ∃ r, r ∈ rows st ∧ streamable owner_id after r ∧ e = status_response r.
Proof.
  unfold list_status_events. intros (r & -> & Hr)%list_elem_of_fmap. exists r.
  apply elem_of_take in Hr as (k & Hk & _).
  apply list_elem_of_lookup_2 in Hk. rewrite elem_of_sort_by, list_elem_of_filter in Hk. tauto.
Qed.

Lemma stream_turn_spec owner_id s t s' chunks alive :
  stream_turn keepalive_due owner_id s t = Ok (s', chunks, alive) →
  ascending (ss_cursor s) (ss_cursor s') (events_of chunks) ∧
  (∀ e, e ∈ events_of chunks → published_event owner_id t e).
Proof.
  unfold stream_turn. destruct (tn_disconnected t).
  { intros [= <- <- <-]. split; [apply ascending_nil|set_solver]. }
  destruct (tn_active t 0); simpl.
  2: { intros [= <- <- <-]. split; [apply ascending_nil|set_solver]. }
  unfold NotificationService.service_list_status_events. intros (events & Hev & H)%res_bind_Ok. inv_ok.
  - split; [apply ascending_nil|set_solver].
  - split; [apply ascending_nil|set_solver].
  - apply (emit_events_spec t 1 s (_ :: _)) in H as [Ha Hin].
    split; [done|]. intros e He. apply Hin in He.
    match goal with H : list_status_events _ _ _ _ = _ |- _ => rewrite <- H in He end.
    apply elem_of_status_events in He as (r & Hr & [Ho [Hp _]] & ->). exists r. auto.
Qed.

(** Whatever the tables hold from one turn to the next, a stream sends
    published events of its owner only, in strictly increasing order of their
    identifiers and all after the identifier it resumed from. *)
Theorem stream_sends_in_order owner_id after start turns s chunks :
  status_event_stream keepalive_due owner_id after start turns = Ok (s, chunks) →
  StronglySorted (λ a b, se_id a < se_id b) (events_of chunks) ∧
  Forall (λ e, after < se_id e ≤ ss_cursor s) (events_of chunks) ∧
  ∀ e, e ∈ events_of chunks → ∃ t, t ∈ turns ∧ published_event owner_id t e.
Proof.
  unfold status_event_stream. intros H.
  assert (ascending after (ss_cursor s) (events_of chunks) ∧
    ∀ e, e ∈ events_of chunks → ∃ t, t ∈ turns ∧ published_event owner_id t e) as [[] ?]; [|done].
  change after with (ss_cursor (MkStream after start)). revert H.
  generalize (MkStream after start) as s0. revert s chunks.
  induction turns as [|t turns IH]; intros s chunks s0; cbn [stream_loop].
  { intros [= <- <-]. split; [apply ascending_nil|set_solver]. }
  intros ([[s1 c1] alive] & Ht & H)%res_bind_Ok. apply stream_turn_spec in Ht as [Ha Hin].
  destruct alive; inv_ok.
  - match goal with H : stream_loop _ _ _ _ = Ok ?x |- _ => destruct x as [s2 c2]; apply IH in H as [Ha' Hin'] end.
    simpl. rewrite events_of_app. split; [by eapply ascending_app|].
    intros e [He|He]%elem_of_app; [exists t; split; [by left|auto]|].
    apply Hin' in He as (t' & ? & ?). exists t'. split; [by right|done].
  - split; [done|]. intros e He. exists t. split; [by left|auto].
Qed.

(** The owner's published events after an identifier, in order. *)
Definition published_after (st : Store) (owner_id after : Z) : list OutboxRow :=
  sort_by (key_leb status_key) (filter (streamable owner_id after) (rows st)).

Lemma elem_of_published_after st owner_id after r :
  r ∈ published_after st owner_id after ↔ streamable owner_id after r ∧ r ∈ rows st.
Proof. unfold published_after. by rewrite elem_of_sort_by, list_elem_of_filter. Qed.

Lemma published_after_sorted st owner_id after :
  store_ok st → StronglySorted (λ a b, ox_id a < ox_id b) (published_after st owner_id after).
Proof.
  intros Hst. assert (NoDup (map ox_id (published_after st owner_id after))) as Hnd.
  { unfold published_after. eapply NoDup_Permutation_proper; [apply fmap_Permutation, sort_by_perm|].
    eapply sublist_NoDup; [by apply NoDup_rows_ids|]. apply (fmap_sublist ox_id), sublist_filter. }
  revert Hnd. unfold published_after.
  assert (StronglySorted (λ x y, key_leb status_key x y = true)
    (sort_by (key_leb status_key) (filter (streamable owner_id after) (rows st)))) as Hs
    by (apply sort_by_sorted; eauto).
  induction Hs as [|x l _ IH Hx]; simpl; [constructor|]. intros [Hin Hnd]%NoDup_cons.
  constructor; [auto|]. rewrite Forall_forall in Hx |- *. intros y Hy. specialize (Hx y Hy).
  unfold key_leb, status_key in Hx. rewrite lex_leb_cons in Hx. destruct Hx as [?|[Heq _]]; [done|].
  exfalso. apply Hin. rewrite Heq. by apply list_elem_of_fmap_2.
Qed.

(** Resuming after one of the events leaves the events behind it. *)
Lemma published_after_resume st owner_id after l1 r l2 :
  store_ok st → published_after st owner_id after = l1 ++ r :: l2 →
  published_after st owner_id (ox_id r) = l2.
Proof.
  intros Hst Heq. pose proof (published_after_sorted st owner_id after Hst) as Hs. rewrite Heq in Hs.
  pose proof (published_after_sorted st owner_id (ox_id r) Hst) as Hr.
  assert (r ∈ published_after st owner_id after) as Hin by (rewrite Heq; set_solver).
  apply elem_of_published_after in Hin as [(Ho & Hp & Ha) Hrows].
  pose proof (StronglySorted_app_1_r _ _ _ Hs) as [Hl2 Hgt]%StronglySorted_inv.
  eapply StronglySorted_unique_strong; [|exact Hr|exact Hl2|].
  { simpl. intros x1 x2 _ _ ? ?. lia. }
  apply NoDup_Permutation.
  - eapply (NoDup_fmap_1 ox_id), StronglySorted_NoDup_map, Hr.
  - eapply (NoDup_fmap_1 ox_id), StronglySorted_NoDup_map, Hl2.
  - intros x. rewrite elem_of_published_after. split.
    + intros [(Hxo & Hxp & Hxa) Hxr].
      assert (x ∈ published_after st owner_id after) as Hx.
      { apply elem_of_published_after. split; [|done]. split; [done|]. split; [done|]. lia. }
      rewrite Heq in Hx. apply elem_of_app in Hx as [Hx|[->|Hx]%elem_of_cons]; [|lia|done].
      assert (ox_id x < ox_id r); [|lia].
      eapply (StronglySorted_app_1_elem_of (λ a b, ox_id a < ox_id b)); [exact Hs|exact Hx|by left].
    + intros Hx. rewrite Forall_forall in Hgt. specialize (Hgt x Hx). simpl in Hgt.
      assert (x ∈ published_after st owner_id after) as Hx' by (rewrite Heq; set_solver).
      apply elem_of_published_after in Hx' as [(? & ? & ?) ?]. by repeat split.
Qed.

(** A turn of a stream that stays open, on the tables [st]. *)
Definition open_turn (st : Store) (t : Turn (clock := clock)) : Prop :=
  tn_disconnected t = false ∧ tn_store t = st ∧ ∀ i, tn_active t i = true.

Lemma emit_events_all st (t : Turn (clock := clock)) i s events :
  open_turn st t → StronglySorted (λ a b, se_id a < se_id b) events →
  Forall (λ e, ss_cursor s < se_id e) events →
  ∃ s', emit_events t i s events = (s', map EventChunk events, true) ∧
        ss_cursor s' = default (ss_cursor s) (se_id <$> last events).
Proof.
  intros (_ & _ & Hact) Hs Hlo. revert i s Hlo.
  induction Hs as [|e events _ IH Hgt]; intros i s Hlo; [by exists s|]. cbn [emit_events map].
  apply Forall_cons in Hlo as [He _]. rewrite (proj2 (Z.leb_gt _ _)), Hact by done. simpl.
  destruct (IH (S i) (MkStream (se_id e) (tn_clock t i)) Hgt) as (s' & -> & Hc).
  exists s'. split; [done|]. rewrite Hc. simpl. by destruct events as [|x l]; [|rewrite last_cons_cons; destruct (last (x :: l)) eqn:E; [|apply last_None in E]].
Qed.

Lemma events_of_map es : events_of (map EventChunk es) = es.
Proof. unfold events_of. induction es as [|e es IH]; [done|]. exact (f_equal (cons e) IH). Qed.

(** One turn sends the next hundred events and moves past them. *)
Lemma stream_turn_open st owner_id s t :
  store_ok st → 0 < owner_id → 0 ≤ ss_cursor s → open_turn st t →
  ∃ s' chunks, stream_turn keepalive_due owner_id s t = Ok (s', chunks, true) ∧
    events_of chunks = map status_response (take 100 (published_after st owner_id (ss_cursor s))) ∧
    0 ≤ ss_cursor s' ∧
    published_after st owner_id (ss_cursor s') = drop 100 (published_after st owner_id (ss_cursor s)).
Proof.
  intros Hst Ho Hc Ht. pose proof Ht as (Hd & Hs & Hact). unfold stream_turn. rewrite Hd, Hact, Hs. simpl.
  unfold NotificationService.service_list_status_events, list_status_events.
  rewrite (proj2 (Z.leb_gt _ _)), (proj2 (Z.ltb_ge _ _)) by done. cbn [orb andb negb res_bind raise_if Z.leb Z.compare Pos.compare Pos.compare_cont].
  change (sort_by _ _) with (published_after st owner_id (ss_cursor s)).
  change (Z.to_nat 100) with 100%nat.
  pose proof (published_after_sorted st owner_id (ss_cursor s) Hst) as Hsorted.
  pose proof (elem_of_published_after st owner_id (ss_cursor s)) as Hel.
  pose proof (λ l1 r l2, published_after_resume st owner_id (ss_cursor s) l1 r l2 Hst) as Hres.
  set (all := published_after st owner_id (ss_cursor s)) in *.
  destruct (take 100 all) as [|r batch] eqn:Etake; cbn [map].
  { assert (all = []) as Hnil by (destruct all; [done|discriminate Etake]).
    case_match; eexists _, _; (split; [done|]); simpl; split; try done; split; try done; by rewrite Hnil. }
  pose proof (take_drop 100 all) as Htd. rewrite Etake in Htd.
  destruct (emit_events_all st t 1 s (map status_response (r :: batch)) Ht) as (s' & Hem & Hcur).
  - rewrite <- Htd in Hsorted. apply StronglySorted_app_1_l in Hsorted.
    revert Hsorted. generalize (r :: batch). clear. intros l. induction 1 as [|x l _ IH Hx]; simpl; constructor; [done|].
    apply Forall_fmap. eapply Forall_impl; [exact Hx|done].
  - apply Forall_fmap, Forall_forall. intros x Hx.
    assert (x ∈ all) as Hx' by (rewrite <- Htd; set_solver). apply Hel in Hx' as [(_ & _ & ?) _]. done.
  - cbn [map] in Hem. rewrite Hem. eexists s', _. split; [done|]. split; [exact (events_of_map (map status_response (r :: batch)))|].
    destruct (exists_last (l := r :: batch) ltac:(done)) as (l1 & z & Hl1).
    assert (ss_cursor s' = ox_id z) as Hz.
    { rewrite Hcur, Hl1, map_app. simpl. by rewrite last_snoc. }
    rewrite Hz. rewrite Hl1, <- app_assoc in Htd. split.
    + assert (z ∈ all) as Hz' by (rewrite <- Htd; set_solver). apply Hel in Hz' as [(_ & _ & ?) _]. lia.
    + by apply (Hres l1 z).
Qed.

(** While nothing else is written, a stream that stays open sends the
    owner's published events after the identifier it resumed from, all of them
    and each once, a hundred a turn. *)
Theorem stream_catches_up st owner_id after start turns :
  store_ok st → 0 < owner_id → 0 ≤ after → Forall (open_turn st) turns →
  ∃ s chunks, status_event_stream keepalive_due owner_id after start turns = Ok (s, chunks) ∧
    events_of chunks =
      map status_response (take (100 * length turns) (published_after st owner_id after)).
Proof.
  intros Hst Ho Ha Ht. unfold status_event_stream.
  change after with (ss_cursor (MkStream after start)) in Ha |- * at 2.
  revert Ha. generalize (MkStream after start) as s0. induction Ht as [|t turns Ht _ IH]; intros s0 Ha.
  { exists s0, []. by rewrite Nat.mul_0_r. }
  destruct (stream_turn_open st owner_id s0 t Hst Ho Ha Ht) as (s1 & c1 & Hturn & Hc1 & Ha1 & Hrest).
  destruct (IH s1 Ha1) as (s2 & c2 & Hloop & Hc2). exists s2, (c1 ++ c2).
  cbn [stream_loop]. rewrite Hturn. cbn [res_bind]. rewrite Hloop. split; [done|].
  rewrite events_of_app, Hc1, Hc2, Hrest, <- map_app. f_equal.
  cbn [length]. replace (100 * S (length turns))%nat with (100 + 100 * length turns)%nat by lia.
  rewrite <- (take_drop 100 (published_after st owner_id (ss_cursor s0))) at 3.
  destruct (Nat.le_gt_cases 100 (length (published_after st owner_id (ss_cursor s0)))).
  - rewrite take_app_add' by (rewrite length_take; lia). done.
  - rewrite (drop_ge _ 100), take_nil, !app_nil_r by lia. rewrite (take_ge _ 100) by lia. symmetry. apply take_ge. lia.
Qed.
End stream.

(** ** The identifier of a frame *)

(** What a client of the stream keeps of a frame: the text of its [id] line. *)
Fixpoint first_line (s : string) : string :=
  match s with
  | EmptyString => EmptyString
  | String c s' => if char_in c [10%N] then EmptyString else String c (first_line s')
  end.
Fixpoint string_drop (n : nat) (s : string) : string :=
  match n, s with S n, String _ s' => string_drop n s' | _, _ => s end.
Definition frame_id (frame : string) : option string :=
  if String.prefix "id: " frame then Some (first_line (string_drop 4 frame)) else None.

Lemma first_line_digits s rest : all_chars is_digit s = true → first_line (s +:+ LF +:+ rest) = s.
Proof.
  induction s as [|c s IH]; [done|]. simpl. rewrite andb_true_iff. intros [Hc Hs].
  apply digit_char in Hc as (_ & _ & _ & _ & Hlf). simpl in Hlf. rewrite Hlf. f_equal. by apply IH.
Qed.

(** The identifier line of the frame an event is sent in gives the event's
    identifier back when a client resumes with it, and whatever header a client
    sends, the identifier read from it is in the range of the table's keys. *)
Theorem last_event_id_roundtrip model_dump_json event :
  0 ≤ se_id event ≤ 2 ^ 63 - 1 →
  (∃ text, frame_id (encode_sse_event model_dump_json event) = Some text ∧
           parse_last_event_id (Some text) = Ok (se_id event)) ∧
  ∀ value parsed, parse_last_event_id value = Ok parsed → 0 ≤ parsed ≤ 2 ^ 63 - 1.
Proof.
  intros Hid. destruct (pretty_digits (se_id event) ltac:(lia)) as (Hne & Hd & _). split.
  - exists (pretty (se_id event)). split.
    + unfold frame_id, encode_sse_event. cbn [String.prefix string_drop String.append].
      unfold String.append; fold String.append. cbn [String.prefix string_drop].
      repeat (destruct (Ascii.ascii_dec _ _); [|done]).
      replace (String.prefix "" _) with true by by destruct (pretty (se_id event)).
      cbn [first_line]. f_equal. by apply first_line_digits.
    + unfold parse_last_event_id. rewrite python_int_pretty by done.
      rewrite (proj2 (Z.leb_le _ _)), (proj2 (Z.leb_le _ _)) by lia. by destruct (pretty (se_id event)).
  - intros value parsed. unfold parse_last_event_id. intros H.
    destruct value as [[|c s]|]; [|inv_ok_prop|]; simplify_eq; lia.
Qed.

(** ** Concrete tables *)

Definition sample_event (id occurred_at : Z) : OutboxRow :=
  MkOutbox id 7 "activity" 31 "activity.feedback_ready" 31 None occurred_at None 0.

(** Two events; the later identifier happened first. *)
Definition sample_store : Store :=
  MkStore (list_to_map [(1, sample_event 1 20); (2, sample_event 2 10)]) ∅ 1 (λ _, Some "UTC"%string).
Definition any_weekday (zone : string) (us : Z) : option Z := Some 2.
Definition run_delivery (st : Store) : Store * DeliveryBatch :=
  match deliver_outbox any_weekday st (utc 100) ∅ 1 with Ok out => out | Err _ => (st, MkBatch [] []) end.
Definition sample_turn (st : Store) : Turn (clock := Z) := MkTurn false st (λ _, true) Z.of_nat.
Definition sample_stream (after : Z) (turns : list Turn) : list Z :=
  match status_event_stream (λ now last, 15 <=? now - last) 7 after 0 turns with
  | Ok (_, chunks) => map se_id (events_of chunks)
  | Err _ => []
  end.

Lemma store_ok_sample : store_ok sample_store.
Proof.
  split; [|done]. intros i r Hr. apply elem_of_list_to_map_2 in Hr.
  repeat (apply elem_of_cons in Hr as [[= -> ->]|Hr]; [done|]). by apply elem_of_nil in Hr.
Qed.


Lemma deliveries_drain_the_outbox_witness :
  size (pending sample_store) = 2%nat ∧
  ∃ st', deliver_times any_weekday 2 sample_store (utc 100) 1 = Ok st' ∧
    ∀ i r, st_outbox st' !! i = Some r → is_Some (ox_published_at r).
Proof.
  split; [vm_compute; reflexivity|].
  apply (deliveries_drain_the_outbox any_weekday 2 sample_store (utc 100) 1);
    [exact store_ok_sample|reflexivity|lia|vm_compute; discriminate].
Defined.

Lemma stream_sends_in_order_witness :
  let st := (run_delivery (run_delivery sample_store).1).1 in
  match status_event_stream (λ now last, 15 <=? now - last) 7 0 0 [sample_turn st] with
  | Ok (s, chunks) => map se_id (events_of chunks) = [1; 2] ∧
                      Forall (λ e, 0 < se_id e ≤ ss_cursor s) (events_of chunks)
  | Err _ => False
  end.
Proof.
  intros st.
  pose proof (stream_sends_in_order (λ now last, 15 <=? now - last) 7 0 0 [sample_turn st]) as H.
  assert (sample_stream 0 [sample_turn st] = [1; 2]) as Hs by (vm_compute; reflexivity).
  unfold sample_stream in Hs. destruct (status_event_stream _ _ _ _ _) as [[s chunks]|e]; [|discriminate Hs].
  split; [exact Hs|]. apply (H s chunks eq_refl).
Defined.

Lemma store_ok_delivered : store_ok (run_delivery (run_delivery sample_store).1).1.
Proof.
  assert (∀ st, store_ok st → store_ok (run_delivery st).1) as Hstep; [|by apply Hstep, Hstep, store_ok_sample].
  intros st Hst. unfold run_delivery. destruct (deliver_outbox _ _ _ _ _) as [[st' b]|e] eqn:Hd; [|done].
  apply deliver_outbox_delivered in Hd as (_ & _ & Hd); [|done]. apply Hd.
Qed.

Lemma stream_catches_up_witness :
  let st := (run_delivery (run_delivery sample_store).1).1 in
  ∃ s chunks,
    status_event_stream (λ now last, 15 <=? now - last) 7 1 0 [sample_turn st] = Ok (s, chunks) ∧
    events_of chunks = map status_response (take 100 (published_after st 7 1)) ∧
    map ox_id (published_after st 7 1) = [2].
Proof.
  intros st.
  destruct (stream_catches_up (λ now last, 15 <=? now - last) st 7 1 0 [sample_turn st]
    store_ok_delivered) as (s & chunks & H1 & H2); [lia|lia|repeat constructor|].
  exists s, chunks. split; [exact H1|]. split; [exact H2|vm_compute; reflexivity].
Defined.

Lemma last_event_id_roundtrip_witness :
  ∃ text, frame_id (encode_sse_event (λ _, "{}"%string) (status_response (sample_event 42 20))) = Some text ∧
          parse_last_event_id (Some text) = Ok 42.
Proof. apply (last_event_id_roundtrip (λ _, "{}"%string) (status_response (sample_event 42 20))). simpl. lia. Defined.

(** An event whose identifier is below the stream's cursor when it is published
    is never sent: deliveries go by the time an event occurred, or past rows
    other transactions hold, and the cursor goes by identifiers. *)
Lemma late_publication_is_skipped :
  let first := (run_delivery sample_store).1 in
  let second := (run_delivery first).1 in
  map ox_id (published_after second 7 0) = [1; 2] ∧
  sample_stream 0 [sample_turn first; sample_turn second; sample_turn second] = [2].
Proof. vm_compute. by split. Qed.
