(* ===== verification/Operations.v ===== *)
(** * Operations: backups and retention

    operations/backup_policy.py (Module [Backup]) and operations/retention.py
    (Module [Retention]).  Error messages that quote a list are cut before it. *)

From stdpp Require Import prelude list strings gmap sorting pretty.
From Stdlib Require Import ZArith Lia.
From S2P Require Import Prelude PyTime PyText.

(** ** The rotation of backups *)

Module Backup.

Definition BackupPolicyError (msg : string) : exn := Exn "BackupPolicyError" msg.

Definition CADENCE : timedelta := days 1.
Definition RETENTION_DAILY : Z := 7.
Definition RETENTION_WEEKLY : Z := 5.
Definition RETENTION_MONTHLY : Z := 12.
Definition MAX_RPO_MINUTES : Z := 24 * 60 + 60.
Definition MAX_RTO_MINUTES : Z := 60.

Record BackupPolicy := MkPolicy {
  cadence : timedelta;
  encrypted_with : string;
  versioned : bool;
  keep_daily : Z;
  keep_weekly : Z;
  keep_monthly : Z;
  max_rpo_minutes : Z;
  max_rto_minutes : Z;
}.

(** [BackupPolicy.__post_init__]; the float quotient is exact for cadences
    below 285 years. *)
Definition new_BackupPolicy (p : BackupPolicy) : res BackupPolicy :=
  raise_if (cadence p <=? 0) (BackupPolicyError "cadence is positive") ;;;
  raise_if (negb (versioned p))
    (BackupPolicyError "backups are versioned; an overwrite is not a backup") ;;;
  raise_if (Z.min (keep_daily p) (Z.min (keep_weekly p) (keep_monthly p)) <? 1)
    (BackupPolicyError "every rotation tier keeps at least one restore point") ;;;
  raise_if (max_rpo_minutes p <? cadence p `div` us_per_minute)
    (BackupPolicyError "the RPO bound cannot be tighter than the cadence") ;;;
  Ok p.

Definition APPROVED : BackupPolicy :=
  MkPolicy CADENCE "AES-256-GCM" true RETENTION_DAILY RETENTION_WEEKLY RETENTION_MONTHLY
    MAX_RPO_MINUTES MAX_RTO_MINUTES.

Definition is_due (p : BackupPolicy) (last_backup_at : option datetime) (now : datetime) : res bool :=
  match last_backup_at with
  | None => Ok true
  | Some t => let* age := dt_sub now t in Ok (cadence p <=? age)
  end.

Record RestorePoint := MkPoint {
  rp_name : string;
  captured_at : datetime;
  rp_encrypted : bool;
  rp_verified : bool;
  rp_prefix : string;
}.

Definition valid_point (p : RestorePoint) : Prop := rp_verified p = true ∧ rp_encrypted p = true.
#[export] Instance valid_point_dec p : Decision (valid_point p).
Proof. unfold valid_point. apply _. Defined.

(** [key=lambda p: p.captured_at, reverse=True] *)
Definition newer (a b : RestorePoint) : bool := instant (captured_at b) <=? instant (captured_at a).

(** Sorting compares some pair of a mixed list, which is a [TypeError]. *)
Definition comparable (l : list RestorePoint) : bool :=
  match l with
  | [] => true
  | p :: l' => forallb (λ q, Bool.eqb (aware (captured_at p)) (aware (captured_at q))) l'
  end.

Definition valid_points (points : list RestorePoint) : res (list RestorePoint) :=
  let valid := filter valid_point points in
  raise_if (negb (comparable valid))
    (TypeError "can't compare offset-naive and offset-aware datetimes") ;;;
  Ok (sort_by newer valid).

(** The values of a dict filled by [d.setdefault(key(p), p)]. *)
Definition firsts {K} `{EqDecision K} (key : RestorePoint → K) (l : list RestorePoint)
    : list RestorePoint :=
  fold_left (λ kept p, if bool_decide (key p ∈ map key kept) then kept else kept ++ [p]) l [].

Definition iso_week (p : RestorePoint) : Z * Z := iso_year_week (dt_date (captured_at p)).
Definition month (p : RestorePoint) : Z * Z :=
  (date_year (dt_date (captured_at p)), date_month (dt_date (captured_at p))).

Definition head_slice (l : list RestorePoint) (n : Z) : list RestorePoint := take (Z.to_nat n) l.
Definition names (l : list RestorePoint) : gset string := list_to_set (map rp_name l).

Definition keep_set (points : list RestorePoint) (policy : BackupPolicy) (now : datetime)
    : res (gset string) :=
  let* valid := valid_points points in
  Ok (names (match head valid with Some p => [p] | None => [] end)
      ∪ names (head_slice valid (keep_daily policy))
      ∪ names (head_slice (firsts iso_week valid) (keep_weekly policy))
      ∪ names (head_slice (firsts month valid) (keep_monthly policy))
      ∪ names (filter (λ p, rp_verified p = false) points)).

(** [s.endswith("/")] *)
Fixpoint ends_with_slash (s : string) : bool :=
  match s with
  | EmptyString => false
  | String c EmptyString => char_in c [47]%N
  | String _ s' => ends_with_slash s'
  end.

Definition prune_candidates (points : list RestorePoint) (policy : BackupPolicy) (now : datetime)
    (prefix : string) : res (list string) :=
  raise_if (negb (ends_with_slash prefix) || str_in prefix ["/"; ""]%string)
    (BackupPolicyError "prune operates on one fully resolved backup prefix") ;;;
  raise_if (negb (forallb (λ p, String.eqb (rp_prefix p) prefix) points))
    (BackupPolicyError "restore points outside the backup prefix: ") ;;;
  let* keep := keep_set points policy now in
  Ok (sort_by String.leb (map rp_name (filter (λ p, rp_name p ∉ keep) points))).

Record DrillEvidence := MkDrill {
  dr_environment : string;
  dr_is_production : bool;
  dr_verified_artifacts : Z;
  dr_rpo_minutes : Z;
  dr_rto_minutes : Z;
  dr_encrypted : bool;
}.

Definition reason (b : bool) (msg : string) : list string := if b then [msg] else [].

Definition evidence_meets (policy : BackupPolicy) (e : DrillEvidence) : list string :=
  reason (dr_is_production e) "the drill ran against production and proves nothing"
  ++ reason (dr_verified_artifacts e <? 1) "no artifact was verified"
  ++ reason (negb (dr_encrypted e)) "the backup was not encrypted"
  ++ reason (max_rpo_minutes policy <? dr_rpo_minutes e)
       ("RPO " +:+ pretty (dr_rpo_minutes e) +:+ " min exceeds " +:+ pretty (max_rpo_minutes policy))
  ++ reason (max_rto_minutes policy <? dr_rto_minutes e)
       ("RTO " +:+ pretty (dr_rto_minutes e) +:+ " min exceeds " +:+ pretty (max_rto_minutes policy)).

End Backup.

(** ** Retention and deletion *)

Module Retention.

Inductive Sensitivity := original_audio | transcript | derived_analysis | operational_log.
#[export] Instance Sensitivity_eq_dec : EqDecision Sensitivity.
Proof. solve_decision. Defined.

(** [effective] is a state of the type that [state] never returns. *)
Inductive DeletionState := requested | approved | withdrawn | effective.
#[export] Instance DeletionState_eq_dec : EqDecision DeletionState.
Proof. solve_decision. Defined.

Definition RetentionError (msg : string) : exn := Exn "RetentionError" msg.
Definition ApprovalRequired (msg : string) : exn := Exn "ApprovalRequired" msg.
Definition StillRecoverable (msg : string) : exn := Exn "StillRecoverable" msg.

Record RetentionPolicy := MkPolicy {
  rp_sensitivity : Sensitivity;
  archive_after_days : Z;
  grace_days : Z;
  delete_after_days : option Z;
}.

(** [RetentionPolicy.__post_init__] *)
Definition new_RetentionPolicy (p : RetentionPolicy) : res RetentionPolicy :=
  raise_if ((archive_after_days p <? 1) || (grace_days p <? 1))
    (RetentionError "archive and grace periods must be positive") ;;;
  raise_if (match delete_after_days p with Some d => d <? archive_after_days p | None => false end)
    (RetentionError "material is archived before it is ever due for deletion") ;;;
  Ok p.

Definition DEFAULT_POLICIES (s : Sensitivity) : RetentionPolicy :=
  match s with
  | original_audio => MkPolicy original_audio 30 30 (Some 365)
  | transcript => MkPolicy transcript 90 14 (Some 730)
  | derived_analysis => MkPolicy derived_analysis 180 14 None
  | operational_log => MkPolicy operational_log 7 7 (Some 90)
  end.

Record ArchiveRecord := MkArchive {
  ar_subject_id : string;
  ar_sensitivity : Sensitivity;
  ar_content_sha256 : string;
  archived_at : datetime;
  archive_location : string;
}.

(** [ArchiveRecord.__post_init__] *)
Definition new_ArchiveRecord (r : ArchiveRecord) : res ArchiveRecord :=
  raise_if (blank (ar_subject_id r) || blank (archive_location r))
    (RetentionError "an archive record identifies what it archived and where") ;;;
  raise_if (negb (str_len (ar_content_sha256 r) =? 64))
    (RetentionError "an archive record pins the content it copied") ;;;
  Ok r.

Record Tombstone := MkTombstone {
  tb_subject_id : string;
  tb_sensitivity : Sensitivity;
  tb_content_sha256 : string;
  deleted_at : datetime;
  tb_approved_by : string;
  tb_archive_location : option string;
}.

(** [Tombstone.__post_init__] *)
Definition new_Tombstone (t : Tombstone) : res Tombstone :=
  raise_if (blank (tb_approved_by t)) (RetentionError "a tombstone names who approved the deletion") ;;;
  Ok t.

Record DeletionRequest := MkDeletion {
  dq_subject_id : string;
  dq_sensitivity : Sensitivity;
  requested_at : datetime;
  approved_at : option datetime;
  approved_by : option string;
  withdrawn_at : option datetime;
}.

Definition naive (t : option datetime) : bool :=
  match t with Some t => negb (aware t) | None => false end.

(** [DeletionRequest.__post_init__] *)
Definition new_DeletionRequest (r : DeletionRequest) : res DeletionRequest :=
  raise_if (blank (dq_subject_id r)) (RetentionError "a deletion request names its subject") ;;;
  raise_if (negb (Bool.eqb (bool_decide (approved_at r = None)) (bool_decide (approved_by r = None))))
    (RetentionError "an approval has both a time and a person") ;;;
  raise_if (naive (approved_at r) || naive (withdrawn_at r) || naive (Some (requested_at r)))
    (RetentionError "retention timestamps must be timezone-aware") ;;;
  let* early := match approved_at r with Some t => dt_lt t (requested_at r) | None => Ok false end in
  raise_if early (RetentionError "an approval cannot precede its request") ;;;
  Ok r.

Definition state (r : DeletionRequest) : DeletionState :=
  if bool_decide (withdrawn_at r = None) then
    if bool_decide (approved_at r = None) then requested else approved
  else withdrawn.

Definition effective_at (r : DeletionRequest) (policy : RetentionPolicy) : res datetime :=
  match approved_at r with
  | None => Err (ApprovalRequired "deletion has not been approved")
  | Some t => let* grace := td_of_days (grace_days policy) in dt_plus t grace
  end.

Definition due_for_archive (created_at now : datetime) (policy : RetentionPolicy) : res bool :=
  let* age := dt_sub now created_at in
  let* limit := td_of_days (archive_after_days policy) in
  Ok (limit <=? age).

Definition due_for_deletion (created_at now : datetime) (policy : RetentionPolicy) : res bool :=
  match delete_after_days policy with
  | None => Ok false
  | Some d =>
      let* age := dt_sub now created_at in
      let* limit := td_of_days d in
      Ok (limit <=? age)
  end.

Definition archive (subject_id : string) (sensitivity : Sensitivity) (content_sha256 : string)
    (at_ : datetime) (location : string) : res ArchiveRecord :=
  new_ArchiveRecord (MkArchive subject_id sensitivity content_sha256 at_ location).

Definition carry_out (r : DeletionRequest) (policy : RetentionPolicy) (now : datetime)
    (content_sha256 : string) (archive_record : option ArchiveRecord) : res Tombstone :=
  raise_if (bool_decide (state r = withdrawn)) (RetentionError "a withdrawn request deletes nothing") ;;;
  match approved_at r, approved_by r with
  | Some _, Some person =>
      let* end_of_grace := effective_at r policy in
      let* early := dt_lt now end_of_grace in
      raise_if early (StillRecoverable "the grace period has not run out") ;;;
      raise_if (negb (bool_decide (rp_sensitivity policy = dq_sensitivity r)))
        (RetentionError "this policy governs a different kind of material") ;;;
      raise_if (bool_decide (archive_record = None) && negb (bool_decide (delete_after_days policy = None)))
        (RetentionError "nothing may be deleted before it has been archived") ;;;
      raise_if (match archive_record with
                | Some a => negb (String.eqb (ar_content_sha256 a) content_sha256)
                | None => false
                end)
        (RetentionError "the archive does not hold the content being deleted") ;;;
      new_Tombstone (MkTombstone (dq_subject_id r) (dq_sensitivity r) content_sha256 now person
        (archive_location <$> archive_record))
  | _, _ => Err (ApprovalRequired "deletion has not been approved")
  end.

End Retention.
