(* ===== verification/OperationsContract.v ===== *)
(** * What the operations rules promise

    Theorems about Operations.v: the rotation prunes neither an unverified
    restore point nor one of the newest; a deletion leaves a tombstone exactly
    when it was approved, its grace has passed and its archive matches. *)

From stdpp Require Import prelude list strings gmap sorting pretty.
From Stdlib Require Import ZArith Lia.
From S2P Require Import Prelude PyTime PyText Operations.

(** ** The rotation *)

Section Rotation.
Import Backup.

Lemma newer_total a b : newer a b = true ∨ newer b a = true.
Proof. unfold newer. rewrite !Z.leb_le. lia. Qed.

Lemma newer_trans a b c : newer a b = true → newer b c = true → newer a c = true.
Proof. unfold newer. rewrite !Z.leb_le. lia. Qed.

Lemma elem_of_names n l : n ∈ names l ↔ ∃ p, p ∈ l ∧ rp_name p = n.
Proof. unfold names. rewrite elem_of_list_to_set, list_elem_of_fmap. naive_solver. Qed.

Lemma size_union_le (X Y : gset string) : (size (X ∪ Y) ≤ size X + size Y)%nat.
Proof.
  rewrite size_union_alt. assert (Y ∖ X ⊆ Y) as Hsub by set_solver. apply subseteq_size in Hsub. lia.
Qed.

Lemma size_names l : (size (names l) ≤ length l)%nat.
Proof.
  unfold names. induction l as [|p l IH]; [done|]. cbn [map list_to_set].
  etrans; [apply size_union_le|]. rewrite size_singleton. simpl. lia.
Qed.

Lemma valid_points_Ok points valid :
  valid_points points = Ok valid → valid = sort_by newer (filter valid_point points).
Proof. unfold valid_points. by intros [_ [= <-]]%raise_if_bind_Ok. Qed.

(** An element of a list sorted from the newest that few others match in age
    is among the first. *)
Lemma newest_in_slice valid p n :
  StronglySorted (λ a b, newer a b = true) valid → p ∈ valid →
  Z.of_nat (length (filter (λ q, instant (captured_at p) ≤ instant (captured_at q)) valid)) ≤ n →
  p ∈ head_slice valid n.
Proof.
  intros Hs [i Hi]%list_elem_of_lookup Hn. unfold head_slice.
  apply list_elem_of_lookup. exists i. apply lookup_take_Some. split; [done|].
  destruct (decide (i < Z.to_nat n)%nat) as [|Hge]; [done|exfalso].
  set (P := λ q, instant (captured_at p) ≤ instant (captured_at q)) in *.
  assert (filter P (take (S i) valid) = take (S i) valid) as Hall.
  { apply list_filter_all. intros q Hq. unfold P. rewrite (take_S_r _ _ _ Hi) in Hq.
    apply elem_of_app in Hq as [Hq|Hq%list_elem_of_singleton]; [|by subst q].
    assert (newer q p = true) as Hqp; [|unfold newer in Hqp; by apply Z.leb_le].
    eapply (StronglySorted_take_drop _ valid i Hs); [done|].
    apply list_elem_of_lookup. exists 0%nat. by rewrite lookup_drop, Nat.add_0_r. }
  pose proof (lookup_lt_Some _ _ _ Hi).
  rewrite <- (take_drop (S i) valid), filter_app, length_app, Hall, length_take in Hn. lia.
Qed.

Lemma head_slice_one l n : 1 ≤ n → names (match head l with Some p => [p] | None => [] end) ⊆ names (head_slice l n).
Proof.
  intros Hn x. rewrite !elem_of_names. intros (p & Hp & <-). exists p. split; [|done].
  destruct l as [|q l]; [by apply elem_of_nil in Hp|]. unfold head_slice. destruct (Z.to_nat n) eqn:E; [lia|]. simpl in *. set_solver.
Qed.

Lemma size_slice l n : 1 ≤ n → Z.of_nat (size (names (head_slice l n))) ≤ n.
Proof. intros Hn. pose proof (size_names (head_slice l n)). unfold head_slice in *. rewrite length_take in H. lia. Qed.

Lemma new_BackupPolicy_Ok p q :
  new_BackupPolicy p = Ok q → 1 ≤ keep_daily p ∧ 1 ≤ keep_weekly p ∧ 1 ≤ keep_monthly p.
Proof.
  unfold new_BackupPolicy. intros (_ & (_ & (Hm & _)%raise_if_bind_Ok)%raise_if_bind_Ok)%raise_if_bind_Ok.
  apply Z.ltb_ge in Hm. lia.
Qed.

Lemma keep_set_size points policy now keep :
  new_BackupPolicy policy = Ok policy → keep_set points policy now = Ok keep →
  Z.of_nat (size keep) ≤ keep_daily policy + keep_weekly policy + keep_monthly policy
    + Z.of_nat (length (filter (λ p, rp_verified p = false) points)).
Proof.
  intros (Hd & Hw & Hm)%new_BackupPolicy_Ok (valid & _ & [= <-])%res_bind_Ok.
  pose proof (size_slice valid _ Hd). pose proof (size_slice (firsts iso_week valid) _ Hw).
  pose proof (size_slice (firsts month valid) _ Hm).
  pose proof (size_names (filter (λ p, rp_verified p = false) points)).
  rewrite (subseteq_union_1_L (names _) (names (head_slice valid _))) by (by apply head_slice_one).
  match goal with |- context [size (?A ∪ ?B ∪ ?C ∪ ?D)] =>
    pose proof (size_union_le (A ∪ B ∪ C) D); pose proof (size_union_le (A ∪ B) C);
    pose proof (size_union_le A B) end.
  lia.
Qed.

Lemma prune_candidates_Ok points policy now prefix doomed :
  prune_candidates points policy now prefix = Ok doomed →
  (∀ p, p ∈ points → rp_prefix p = prefix) ∧
  ∃ keep, keep_set points policy now = Ok keep ∧
    StronglySorted (λ a b, String.leb a b = true) doomed ∧
    ∀ n, n ∈ doomed ↔ n ∉ keep ∧ ∃ p, p ∈ points ∧ rp_name p = n.
Proof.
  unfold prune_candidates. intros (_ & (Hp & (keep & Hk & [= <-])%res_bind_Ok)%raise_if_bind_Ok)%raise_if_bind_Ok.
  apply negb_false_iff in Hp. rewrite forallb_forall in Hp. split.
  - intros p Hin%list_elem_of_In. by apply String.eqb_eq, Hp.
  - exists keep. split; [done|]. split.
    + apply sort_by_sorted; [apply String_leb_total|apply String_leb_trans].
    + intros n. rewrite elem_of_sort_by, list_elem_of_fmap. setoid_rewrite list_elem_of_filter. naive_solver.
Qed.

(** The rotation keeps what can be restored: when it returns names to
    prune, none is the name of an unverified point; no valid point is pruned
    while at most [keep_daily] valid points are as new, and the newest never;
    the names are exactly those of the points under the prefix that it does
    not keep, in order; and it keeps at most one name for each daily, weekly
    and monthly slot beside the unverified ones. *)
Theorem rotation_keeps_restore_points points policy now prefix doomed :
  new_BackupPolicy policy = Ok policy → prune_candidates points policy now prefix = Ok doomed →
  let valid := filter valid_point points in
  (∀ p, p ∈ points → rp_verified p = false → rp_name p ∉ doomed) ∧
  (∀ p, p ∈ valid →
     Z.of_nat (length (filter (λ q, instant (captured_at p) ≤ instant (captured_at q)) valid))
       ≤ keep_daily policy → rp_name p ∉ doomed) ∧
  (valid ≠ [] → ∃ p, p ∈ valid ∧ rp_name p ∉ doomed ∧
     ∀ q, q ∈ valid → instant (captured_at q) ≤ instant (captured_at p)) ∧
  (∀ p, p ∈ points → rp_prefix p = prefix) ∧
  StronglySorted (λ a b, String.leb a b = true) doomed ∧
  ∃ kept : gset string,
    (∀ n, n ∈ doomed ↔ n ∉ kept ∧ ∃ p, p ∈ points ∧ rp_name p = n) ∧
    Z.of_nat (size kept) ≤ keep_daily policy + keep_weekly policy + keep_monthly policy
      + Z.of_nat (length (filter (λ p, rp_verified p = false) points)).
Proof.
  intros Hpol (Hprefix & keep & Hk & Hsorted & Hdoomed)%prune_candidates_Ok valid.
  pose proof (keep_set_size _ _ _ _ Hpol Hk) as Hsize. apply new_BackupPolicy_Ok in Hpol as (Hd & _).
  apply res_bind_Ok in Hk as (sorted & ->%valid_points_Ok & [= <-]). fold valid in Hdoomed, Hsize.
  assert (∀ p, p ∈ points → rp_verified p = false → rp_name p ∉ doomed) as Hunverified.
  { intros p Hp Hv (Hn & _)%Hdoomed. apply Hn. apply elem_of_union_r, elem_of_names.
    exists p. split; [by apply list_elem_of_filter|done]. }
  split; [done|]. split; [|split; [|split; [done|split; [done|eauto]]]].
  - intros p Hp Hage (Hn & _)%Hdoomed. apply Hn. apply elem_of_union_l, elem_of_union_l, elem_of_union_l, elem_of_union_r.
    apply elem_of_names. exists p. split; [|done]. apply newest_in_slice.
    + apply sort_by_sorted; [apply newer_total|apply newer_trans].
    + by apply elem_of_sort_by.
    + by rewrite sort_by_perm.
  - intros Hne. destruct (sort_by newer valid) as [|p rest] eqn:E.
    + destruct Hne. apply Permutation_nil_r. by rewrite <- (sort_by_perm newer), E.
    + apply (sort_by_head_least newer newer_total newer_trans) in E as [Hp Hmax]. exists p.
      split; [done|]. split; [|intros q Hq; apply Hmax in Hq; unfold newer in Hq; lia].
      intros (Hn & _)%Hdoomed. apply Hn. set_solver.
Qed.
End Rotation.

(** ** Deletion *)

Section Deletion.
Import Retention.

(** The approval of a request, and when it takes effect under a policy. *)
Lemma effective_at_Ok r policy t :
  effective_at r policy = Ok t →
  ∃ granted, approved_at r = Some granted ∧
    instant t = instant granted + days (grace_days policy) ∧ aware t = aware granted.
Proof.
  unfold effective_at. destruct (approved_at r) as [granted|]; [|done].
  unfold td_of_days, dt_plus. intros H. inv_ok. exists granted. split; [done|].
  by rewrite instant_add, aware_add.
Qed.

Lemma new_DeletionRequest_Ok r q :
  new_DeletionRequest r = Ok q →
  (approved_at r = None ↔ approved_by r = None) ∧ aware (requested_at r) = true ∧
  ∀ t, approved_at r = Some t → aware t = true ∧ instant (requested_at r) ≤ instant t.
Proof.
  unfold new_DeletionRequest, naive.
  intros (_ & (Hpair & (Hnaive & H)%raise_if_bind_Ok)%raise_if_bind_Ok)%raise_if_bind_Ok.
  rewrite !orb_false_iff, negb_false_iff in Hnaive. destruct Hnaive as [[Ha _] Hr].
  apply negb_false_iff, eqb_prop in Hpair. split; [by repeat case_bool_decide|]. split; [done|].
  intros t Ht. rewrite Ht in *. apply negb_false_iff in Ha. split; [done|].
  apply res_bind_Ok in H as (early & He & [-> _]%raise_if_bind_Ok).
  rewrite dt_lt_aware in He by done. injection He as He. by apply Z.ltb_ge.
Qed.

(** C22. A deletion needs consent, time and an archive: for a request the
    code accepts whose grace ends within the calendar, [carry_out] leaves a tombstone exactly when the
    request was not withdrawn, a named person approved it, the grace period has
    passed since the approval, the policy governs this kind of material, and
    the archive is there, unless the policy never calls for deletion, and
    holds the content being deleted; the tombstone then names the subject, its
    content, the approver and the archive. *)
Theorem deletion_needs_consent r policy now content archive_record tomb :
  new_DeletionRequest r = Ok r → aware now = true →
  is_ok (effective_at r policy) = true ∨ approved_at r = None →
  carry_out r policy now content archive_record = Ok tomb ↔
  withdrawn_at r = None ∧
  ∃ granted person,
    approved_at r = Some granted ∧ approved_by r = Some person ∧ blank person = false ∧
    instant granted + days (grace_days policy) ≤ instant now ∧
    rp_sensitivity policy = dq_sensitivity r ∧
    (archive_record = None → delete_after_days policy = None) ∧
    (∀ a, archive_record = Some a → ar_content_sha256 a = content) ∧
    tomb = MkTombstone (dq_subject_id r) (dq_sensitivity r) content now person
             (archive_location <$> archive_record).
Proof.
  intros (Hpair & _ & Haware)%new_DeletionRequest_Ok Hnow Heff. unfold carry_out, state.
  rewrite raise_if_bind_Ok, bool_decide_eq_false. destruct (withdrawn_at r); simpl.
  { split; [by intros [? _]|by intros [? _]]. }
  destruct (approved_at r) as [granted|] eqn:Hg.
  2: { split; [intros [_ H]|]; [by destruct (approved_by r)|]. naive_solver. }
  destruct (approved_by r) as [person|] eqn:Hp.
  2: { exfalso. naive_solver. }
  destruct Heff as [Heff|]; [|done]. apply is_ok_spec in Heff as [t Ht]. rewrite Ht. simpl.
  apply effective_at_Ok in Ht as (g & Hg' & Hi & Ha). rewrite Hg in Hg'. injection Hg' as <-.
  destruct (Haware _ eq_refl) as [Hga _]. rewrite dt_lt_aware by congruence. simpl.
  unfold new_Tombstone. simpl. rewrite !raise_if_bind_Ok, negb_false_iff, bool_decide_eq_true, Z.ltb_ge, Hi.
  split.
  - intros (_ & Hle & Hs & Harch & Hhash & Hb & [= <-]). split; [done|]. exists granted, person.
    repeat split; try done.
    + intros ->. by destruct (delete_after_days policy).
    + intros a ->. by apply negb_false_iff, String.eqb_eq in Hhash.
  - intros (_ & g & p & [= <-] & [= <-] & Hb & Hle & Hs & Harch & Hhash & ->).
    split; [done|]. repeat split; try done.
    + destruct archive_record; [done|]. by rewrite (Harch eq_refl).
    + destruct archive_record as [a|]; [|done]. by rewrite (Hhash a eq_refl), String.eqb_refl.
Qed.
End Deletion.

(** ** Concrete inputs *)

Section Witnesses.

Definition demo_day (n : Z) : datetime := utc (days (738000 + n)).
(** Ten daily points, an old valid one and an old unverified one. *)
Definition demo_points : list Backup.RestorePoint :=
  map (λ n, Backup.MkPoint ("day" +:+ pretty n) (demo_day n) true true "backups/") (seqZ 0 10)
  ++ [Backup.MkPoint "old" (demo_day (-3)) true true "backups/";
      Backup.MkPoint "odd" (demo_day (-2)) true false "backups/"].
Definition demo_doomed : list string :=
  match Backup.prune_candidates demo_points Backup.APPROVED (demo_day 10) "backups/" with
  | Ok l => l | Err _ => [] end.

Lemma rotation_keeps_restore_points_witness :
  demo_doomed = ["day0"; "day1"; "old"]%string ∧
  Backup.prune_candidates demo_points Backup.APPROVED (demo_day 10) "backups/" = Ok demo_doomed ∧
  (∀ p, p ∈ demo_points → Backup.rp_verified p = false → Backup.rp_name p ∉ demo_doomed).
Proof.
  assert (Backup.prune_candidates demo_points Backup.APPROVED (demo_day 10) "backups/" = Ok demo_doomed) as Hp
    by (vm_compute; reflexivity).
  split; [vm_compute; reflexivity|]. split; [exact Hp|].
  apply (rotation_keeps_restore_points demo_points Backup.APPROVED (demo_day 10) "backups/" demo_doomed);
    [vm_compute; reflexivity|exact Hp].
Defined.

Definition demo_deletion : Retention.DeletionRequest :=
  Retention.MkDeletion "recording-7" Retention.original_audio (demo_day 0) (Some (demo_day 1))
    (Some "ada"%string) None.
Definition demo_sha : string := "0123456789abcdef0123456789abcdef0123456789abcdef0123456789abcdef".
Definition demo_archive : Retention.ArchiveRecord :=
  Retention.MkArchive "recording-7" Retention.original_audio demo_sha (demo_day 0) "s3://archive/7".
Definition demo_tombstone : Retention.Tombstone :=
  Retention.MkTombstone "recording-7" Retention.original_audio demo_sha (demo_day 31) "ada"
    (Some "s3://archive/7"%string).

Lemma deletion_needs_consent_witness :
  Retention.carry_out demo_deletion (Retention.DEFAULT_POLICIES Retention.original_audio) (demo_day 31)
    demo_sha (Some demo_archive) = Ok demo_tombstone ∧
  is_ok (Retention.carry_out demo_deletion (Retention.DEFAULT_POLICIES Retention.original_audio)
           (demo_day 30) demo_sha (Some demo_archive)) = false.
Proof.
  split; [|vm_compute; reflexivity].
  apply deletion_needs_consent; [vm_compute; reflexivity|reflexivity|left; vm_compute; reflexivity|].
  split; [reflexivity|]. exists (demo_day 1), "ada"%string.
  split; [reflexivity|]. split; [reflexivity|]. split; [reflexivity|]. split; [vm_compute; discriminate|].
  split; [reflexivity|]. split; [discriminate|]. split; [|reflexivity].
  intros a [= <-]. reflexivity.
Defined.
End Witnesses.
