(* ===== verification/Agents.v ===== *)
(** * Agent runs: contracts, classification, runtime and tools

    agents/contracts.py, agents/classification.py, agents/runtime.py and
    agents/tools/registry.py.

    Module [Contracts] has the lifecycle and tool audit contracts, [Submission]
    what may be sent to a model, [Runtime] the bounded run with its one repair,
    and [Tools] the registry every tool call goes through.  The transport, the
    schema validators, the tool handlers and the clocks are parameters; a
    validator and the audit sink are assumed to return. *)

From stdpp Require Import prelude list list_numbers strings gmap sorting.
From Stdlib Require Import ZArith Lia.
From S2P Require Import Prelude PyText.

(** Pydantic turns the [InvalidProvenance] a validator raises, a [ValueError],
    into a [ValidationError] of the model being built. *)
Definition ValidationError (model : string) : exn := Exn "ValidationError" model.
Definition StateConflict : exn := Exn "StateConflict" "model provenance state conflict".

(** ** Contracts *)

Module Contracts.

Definition alphanumeric (c : Ascii.ascii) : bool := is_lower c || is_upper c || is_digit c.

(** [^[A-Za-z0-9][A-Za-z0-9._:-]{0,127}$] *)
Definition Key : string → bool :=
  bounded_name alphanumeric (λ c, alphanumeric c || char_in c [46; 95; 58; 45]%N) 127.

(** [^[a-f0-9]{64}$] *)
Definition Hash (s : string) : bool :=
  (str_len s =? 64) &&
  all_chars (λ c, is_digit c || ((97 <=? Ascii.N_of_ascii c) && (Ascii.N_of_ascii c <=? 102))%N) s.

Definition Count (n : Z) : bool := (0 <=? n) && (n <=? 2147483647).
Definition Ordinal (n : Z) : bool := (0 <=? n) && (n <=? 63).

Inductive State := registered | running | succeeded | failed | cancelled.
#[export] Instance State_eq_dec : EqDecision State.
Proof. solve_decision. Defined.

Inductive Failure := invalid_input | permission_required | transient_dependency | resource_exhausted
  | processing_failure | internal_error | was_cancelled.
#[export] Instance Failure_eq_dec : EqDecision Failure.
Proof. solve_decision. Defined.

Inductive RetryDisposition := no_retry | retryable | exhausted.
#[export] Instance RetryDisposition_eq_dec : EqDecision RetryDisposition.
Proof. solve_decision. Defined.

Definition opt (p : string → bool) (o : option string) : bool := from_option p true o.
Definition present {A} (o : option A) : bool := bool_decide (is_Some o).

Record Lifecycle := MkLifecycle {
  lc_state : State;
  lc_elapsed_ms : Z;
  lc_resolved_model : option string;
  lc_sdk_version : option string;
  lc_cli_version : option string;
  lc_output_hash : option string;
  lc_error_category : option Failure;
  lc_retry_disposition : RetryDisposition;
}.
#[export] Instance Lifecycle_eq_dec : EqDecision Lifecycle.
Proof. solve_decision. Defined.

(** [coherent], in the order of its tests. *)
Definition coherent_lifecycle (e : Lifecycle) : bool :=
  (if bool_decide (lc_state e = running)
   then present (lc_resolved_model e) && (present (lc_sdk_version e) || present (lc_cli_version e))
   else negb (present (lc_resolved_model e) || present (lc_sdk_version e) || present (lc_cli_version e))) &&
  Bool.eqb (bool_decide (lc_state e = failed ∨ lc_state e = cancelled)) (present (lc_error_category e)) &&
  negb (bool_decide (lc_state e ≠ succeeded) && present (lc_output_hash e)) &&
  negb (bool_decide (lc_state e ≠ failed) && bool_decide (lc_retry_disposition e ≠ no_retry)).

(** [Lifecycle.model_validate] *)
Definition new_Lifecycle (e : Lifecycle) : res Lifecycle :=
  raise_if (bool_decide (lc_state e = registered) || negb (Count (lc_elapsed_ms e)) ||
            negb (opt Key (lc_resolved_model e)) || negb (opt Key (lc_sdk_version e)) ||
            negb (opt Key (lc_cli_version e)) || negb (opt Hash (lc_output_hash e)) ||
            negb (coherent_lifecycle e)) (ValidationError "Lifecycle") ;;;
  Ok e.

Definition allowed (previous : State) : list State :=
  match previous with
  | registered => [running; failed; cancelled]
  | running => [succeeded; failed; cancelled]
  | _ => []
  end.

Definition validate_transition (previous : State) (event : Lifecycle) : res unit :=
  raise_if (negb (bool_decide (lc_state event ∈ allowed previous))) StateConflict.

Inductive Phase := request | call_succeeded | call_failed | call_cancelled.
#[export] Instance Phase_eq_dec : EqDecision Phase.
Proof. solve_decision. Defined.

Record ToolAudit := MkAudit {
  ta_call_key : string;
  ta_phase : Phase;
  ta_tool_name : string;
  ta_tool_version : string;
  ta_schema_hash : string;
  ta_elapsed_ms : Z;
  ta_context_ordinals : list Z;
  ta_item_count : option Z;
  ta_error_category : option Failure;
}.
#[export] Instance ToolAudit_eq_dec : EqDecision ToolAudit.
Proof. solve_decision. Defined.

Definition coherent_audit (a : ToolAudit) : bool :=
  bool_decide (NoDup (ta_context_ordinals a)) &&
  Bool.eqb (bool_decide (ta_phase a = call_failed ∨ ta_phase a = call_cancelled)) (present (ta_error_category a)).

Definition new_ToolAudit (a : ToolAudit) : res ToolAudit :=
  raise_if (negb (Key (ta_call_key a)) || negb (Key (ta_tool_name a)) || negb (Key (ta_tool_version a)) ||
            negb (Hash (ta_schema_hash a)) || negb (Count (ta_elapsed_ms a)) ||
            negb (forallb Ordinal (ta_context_ordinals a)) ||
            (64 <? Z.of_nat (length (ta_context_ordinals a))) ||
            negb (from_option Count true (ta_item_count a)) || negb (coherent_audit a)) (ValidationError "ToolAudit") ;;;
  Ok a.

End Contracts.

(** ** What may be sent *)

Module Submission.

Inductive SensitivityScope := RELEASABLE | REDACTION_REQUIRED | RESTRICTED.
#[export] Instance SensitivityScope_eq_dec : EqDecision SensitivityScope.
Proof. solve_decision. Defined.

Inductive ConsentBasis := LEARNER_SUBMISSION | EXPLICIT_RELEASE | NOT_GRANTED.
#[export] Instance ConsentBasis_eq_dec : EqDecision ConsentBasis.
Proof. solve_decision. Defined.

Inductive RedactionDecision := NOT_REQUIRED | PENDING | APPROVED.
#[export] Instance RedactionDecision_eq_dec : EqDecision RedactionDecision.
Proof. solve_decision. Defined.

Record SubmissionClassification := MkClassification {
  sc_scope : SensitivityScope;
  sc_redaction : RedactionDecision;
  sc_consent : ConsentBasis;
}.
#[export] Instance SubmissionClassification_eq_dec : EqDecision SubmissionClassification.
Proof. solve_decision. Defined.

(** The validator [permitted], on construction. *)
Definition permitted (c : SubmissionClassification) : bool :=
  if bool_decide (sc_scope c = RESTRICTED) then false
  else if bool_decide (sc_consent c = NOT_GRANTED) then false
  else if bool_decide (sc_scope c = REDACTION_REQUIRED) then
    negb (bool_decide (sc_redaction c ≠ APPROVED) || bool_decide (sc_consent c ≠ EXPLICIT_RELEASE))
  else bool_decide (sc_redaction c = NOT_REQUIRED).

Definition new_SubmissionClassification (c : SubmissionClassification) : res SubmissionClassification :=
  raise_if (negb (permitted c)) (ValidationError "SubmissionClassification") ;;;
  Ok c.

(** [_ORDER.index] *)
Definition order_index (s : SensitivityScope) : Z :=
  match s with RELEASABLE => 0 | REDACTION_REQUIRED => 1 | RESTRICTED => 2 end.

Definition SCOPE_BY_ARTIFACT_CLASS : gmap string SensitivityScope := list_to_map
  [ ("original_audio", RESTRICTED); ("export", RESTRICTED); ("transcript", REDACTION_REQUIRED);
    ("written_output", RELEASABLE); ("sql_output", RELEASABLE); ("case_artifact", RELEASABLE);
    ("recall_note", RELEASABLE); ("analysis", RELEASABLE) ]%string.

Definition scope_of (artifact_class : string) : SensitivityScope :=
  default RESTRICTED (SCOPE_BY_ARTIFACT_CLASS !! artifact_class).

(** [max(scopes, key=..., default=...)] keeps the first of the greatest. *)
Definition most_restrictive (scopes : list SensitivityScope) : SensitivityScope :=
  match scopes with
  | [] => RELEASABLE
  | s :: rest => fold_left (λ best x, if order_index best <? order_index x then x else best) rest s
  end.

Definition derive_submission_scope (attempt_kind : string) (cited_artifact_classes : list string)
    : SensitivityScope :=
  most_restrictive (map scope_of cited_artifact_classes ++
    [if String.eqb attempt_kind "real_interview" then REDACTION_REQUIRED else RELEASABLE]).

Definition understates (declared : SubmissionClassification) (derived : SensitivityScope) : bool :=
  order_index (sc_scope declared) <? order_index derived.

End Submission.

(** ** The bounded run *)

Module Runtime.

Definition MAX_REPAIR_ATTEMPTS : Z := 1.

Definition AgentRuntimeError (msg : string) : exn := Exn "AgentRuntimeError" msg.
Definition AgentTimeout : exn := Exn "AgentTimeout" "the run exceeded its wall-time budget".
Definition AgentTurnsExceeded : exn :=
  Exn "AgentTurnsExceeded" "the run used more turns than it was allowed".
Definition AgentServiceUnavailable : exn :=
  Exn "AgentServiceUnavailable" "the agent runtime failed to complete".
Definition AgentOutputInvalid : exn :=
  Exn "AgentOutputInvalid" "output did not satisfy the pinned schema after one repair".
Definition TimeoutError : exn := Exn "TimeoutError" "".

(** [AgentRuntimeError] and its subclasses. *)
Definition agent_errors : list string :=
  ["AgentRuntimeError"; "AgentTimeout"; "AgentTurnsExceeded"; "AgentQuotaExhausted";
   "AgentAuthenticationFailed"; "AgentServiceUnavailable"; "AgentOutputInvalid"].

(** The bound on the wall time is a float of which the code reads the sign; when
    it passes is an answer of the transport. *)
Record PreparedAgentRun := MkPrepared {
  pr_run_key : string;
  pr_job_type : string;
  pr_model : string;
  pr_schema_id : string;
  pr_prompt_version : string;
  pr_max_turns : Z;
  pr_wall_time : Z;
}.

Definition new_PreparedAgentRun (p : PreparedAgentRun) : res PreparedAgentRun :=
  raise_if (blank (pr_run_key p)) (AgentRuntimeError "a run needs an idempotency key") ;;;
  raise_if ((pr_max_turns p <? 1) || (pr_wall_time p <=? 0))
    (AgentRuntimeError "turn and wall-time bounds must be positive") ;;;
  Ok p.

Section runtime.
(** The payloads, the pinned schema's validator, the world the transport acts
    on, and the transport. *)
Context {payload world : Type} (validate : payload → list string).

Record ValidatedAgentResult := MkValidated {
  vr_run_key : string;
  vr_model : string;
  vr_schema_id : string;
  vr_payload : payload;
  vr_turns : Z;
  vr_repaired : bool;
}.

Record TransportResult := MkTransport { tr_payload : payload; tr_turns : Z }.

(** How a call of the transport ends: it returns, it raises, or the deadline
    of the run interrupts it. *)
Inductive Answer := Returned (result : TransportResult) | Raised (e : exn) | Interrupted.

Context (invoke : world → PreparedAgentRun → list string → world * Answer).

Definition translated (answer : Answer) : res TransportResult :=
  match answer with
  | Returned result => Ok result
  | Interrupted => Err TimeoutError
  | Raised e =>
      if str_in (exn_class e) (agent_errors ++ ["CancelledError"; "TimeoutError"]) then Err e
      else Err AgentServiceUnavailable
  end.

(** The loop of [_attempt] over the attempts left.  The list holds the
    [repair_errors] of each call of the transport. *)
Fixpoint attempt_from (attempts : list Z) (prepared : PreparedAgentRun) (errors : list string) (w : world)
    : world * list (list string) * res ValidatedAgentResult :=
  match attempts with
  | [] => (w, [], Err AgentOutputInvalid)
  | attempt :: rest =>
      let '(w, answer) := invoke w prepared errors in
      match translated answer with
      | Err e => (w, [errors], Err e)
      | Ok result =>
          if pr_max_turns prepared <? tr_turns result then (w, [errors], Err AgentTurnsExceeded)
          else
            match validate (tr_payload result) with
            | [] =>
                (w, [errors], Ok (MkValidated (pr_run_key prepared) (pr_model prepared) (pr_schema_id prepared)
                                    (tr_payload result) (tr_turns result) (0 <? attempt)))
            | found =>
                let '(w, calls, out) := attempt_from rest prepared found w in
                (w, errors :: calls, out)
            end
      end
  end.

Definition attempt (prepared : PreparedAgentRun) (w : world) : world * list (list string) * res ValidatedAgentResult :=
  attempt_from (seqZ 0 (MAX_REPAIR_ATTEMPTS + 1)) prepared [] w.

Definition run (prepared : PreparedAgentRun) (w : world) : world * list (list string) * res ValidatedAgentResult :=
  let '(w, calls, out) := attempt prepared w in
  (w, calls,
   match out with
   | Err e => if String.eqb (exn_class e) "TimeoutError" then Err AgentTimeout else Err e
   | Ok result => Ok result
   end).
End runtime.
End Runtime.

(** ** The tool registry *)

Module Tools.
Import Contracts.

Definition MAX_ITEM_LIMIT : Z := 200.

Inductive AgentRole := PLANNER | TUTOR | COACH | REVIEWER | ANALYST | INTERVIEWER.
#[export] Instance AgentRole_eq_dec : EqDecision AgentRole.
Proof. solve_decision. Defined.

Definition ToolNotFound : exn := Exn "ToolNotFound" "no tool is registered under that name".
Definition ToolNotAuthorized : exn := Exn "ToolNotAuthorized" "this role may not use this tool".
Definition ToolInputInvalid (msg : string) : exn := Exn "ToolInputInvalid" msg.
Definition ToolContextForbidden : exn :=
  Exn "ToolContextForbidden" "the call asked for context this run was not granted".
Definition ToolFailed : exn := Exn "ToolFailed" "the tool handler failed".

(** [ToolError] and its subclasses. *)
Definition tool_errors : list string :=
  ["ToolError"; "ToolNotFound"; "ToolNotAuthorized"; "ToolInputInvalid"; "ToolContextForbidden"; "ToolFailed"].

Record ToolContext := MkContext {
  tc_owner_id : Z;
  tc_activity_id : Z;
  tc_allowed_context_ordinals : gset Z;
  tc_opportunity_id : option Z;
}.

Section registry.
(** The arguments of a call, what a schema makes of them, what a handler
    returns and the world it acts on. *)
Context {arguments body result world : Type}.

(** A validated payload: the two attributes the registry reads, where the
    schema has them, and the rest. *)
Record Payload := MkPayload {
  pl_context_ordinals : list Z;   (** [getattr(payload, "context_ordinals", ())] *)
  pl_limit : option Z;            (** [limit] when it is an [int] *)
  pl_body : body;
}.

Record ToolSpec := MkSpec {
  sp_name : string;
  sp_version : string;
  sp_roles : list AgentRole;
  sp_schema : arguments → option Payload;                                 (** [model_validate] *)
  sp_handler : Payload → ToolContext → world → world * (result + exn);
  sp_schema_hash : string;
}.

Definition new_ToolSpec (spec : ToolSpec) : res ToolSpec :=
  raise_if (bool_decide (sp_roles spec = []))
    (Exn "ValueError" "a tool nobody may call should not be registered") ;;;
  Ok spec.

Definition Registry : Type := gmap string ToolSpec.

Definition register (registry : Registry) (spec : ToolSpec) : res Registry :=
  raise_if (bool_decide (is_Some (registry !! sp_name spec)))
    (Exn "ValueError" "a tool name is registered once") ;;;
  Ok (<[sp_name spec := spec]> registry).

(** The names come out sorted. *)
Definition authorized (registry : Registry) (role : AgentRole) : list string :=
  sort_by String.leb (filter (λ name, role ∈ from_option sp_roles [] (registry !! name))
                        (map_to_list registry).*1).

Definition prepare (spec : ToolSpec) (role : AgentRole) (args : arguments) (context : ToolContext)
    : res Payload :=
  raise_if (negb (bool_decide (role ∈ sp_roles spec))) ToolNotAuthorized ;;;
  match sp_schema spec args with
  | None => Err (ToolInputInvalid "arguments did not satisfy the tool schema")
  | Some payload =>
      raise_if (from_option (λ limit, MAX_ITEM_LIMIT <? limit) false (pl_limit payload))
        (ToolInputInvalid "requested more items than any tool may return") ;;;
      raise_if (negb (bool_decide (list_to_set (pl_context_ordinals payload) ⊆ tc_allowed_context_ordinals context)))
        ToolContextForbidden ;;;
      Ok payload
  end.

Definition category (refusal : exn) : Failure :=
  if String.eqb (exn_class refusal) "ToolInputInvalid" then invalid_input
  else if str_in (exn_class refusal) ["ToolNotAuthorized"; "ToolContextForbidden"] then permission_required
  else processing_failure.

(** The tuple of a frozenset of ordinals; Python leaves its order open. *)
Definition requested (payload : Payload) : list Z :=
  elements (list_to_set (pl_context_ordinals payload) : gset Z).

(** The state of a call: the audit sink and the world. *)
Record CallState := MkCall { cs_audits : list ToolAudit; cs_world : world }.

(** [_record]: [elapsed] is [int((monotonic() - started) * 1000)]. *)
Definition record_audit (spec : ToolSpec) (call_key : string) (phase : Phase) (elapsed : Z)
    (ordinals : list Z) (error_category : option Failure) : action CallState unit := λ s,
  match new_ToolAudit (MkAudit call_key phase (sp_name spec) (sp_version spec) (sp_schema_hash spec)
                         (Z.max 0 elapsed) ordinals None error_category) with
  | Ok audit => (MkCall (cs_audits s ++ [audit]) (cs_world s), Ok tt)
  | Err e => (s, Err e)
  end.

(** The body of the [try]. *)
Definition attempt_call (spec : ToolSpec) (role : AgentRole) (args : arguments) (context : ToolContext)
    : action CallState (Payload * result) := λ s,
  match prepare spec role args context with
  | Err e => (s, Err e)
  | Ok payload =>
      match sp_handler spec payload context (cs_world s) with
      | (w, inl r) => (MkCall (cs_audits s) w, Ok (payload, r))
      | (w, inr e) => (MkCall (cs_audits s) w, Err e)
      end
  end.

(** [call_key] is the fresh UUID and [elapsed] the two readings of the clock.  A
    cancellation is not an [Exception] and passes unrecorded. *)
Definition settle_call (spec : ToolSpec) (call_key : string) (elapsed : Z) (outcome : res (Payload * result))
    : action CallState result :=
  match outcome with
  | Ok (payload, r) =>
      record_audit spec call_key call_succeeded elapsed (requested payload) None ;; mret r
  | Err e =>
      if String.eqb (exn_class e) "CancelledError" then throw e
      else if str_in (exn_class e) tool_errors
      then record_audit spec call_key call_failed elapsed [] (Some (category e)) ;; throw e
      else record_audit spec call_key call_failed elapsed [] (Some processing_failure) ;; throw ToolFailed
  end.

Definition attempted (m : action CallState (Payload * result)) : action CallState (res (Payload * result)) :=
  λ s, let '(s, outcome) := m s in (s, Ok outcome).

Definition call (registry : Registry) (role : AgentRole) (name : string) (args : arguments)
    (context : ToolContext) (call_key : string) (elapsed : Z * Z) : action CallState result :=
  match registry !! name with
  | None => throw ToolNotFound
  | Some spec =>
      record_audit spec call_key request elapsed.1 [] None ;;
      outcome ← attempted (attempt_call spec role args context);
      settle_call spec call_key elapsed.2 outcome
  end.
End registry.
End Tools.
