(* ===== verification/AgentsContract.v ===== *)
(** * What the agent boundary promises

    Theorems about Agents.v: what may be sent to a model, the bounded run with
    its one repair, and the checks and the audit of a tool call. *)

From stdpp Require Import prelude list list_numbers strings gmap sorting.
From Stdlib Require Import ZArith Lia.
From S2P Require Import Prelude PyText Agents.

(** ** The lifecycle of a run *)

Section lifecycle.
Import Contracts.

(** The events of a run, each accepted in the state the one before left. *)
Fixpoint trail (previous : State) (events : list Lifecycle) : Prop :=
  match events with
  | [] => True
  | e :: rest => new_Lifecycle e = Ok e ∧ validate_transition previous e = Ok tt ∧ trail (lc_state e) rest
  end.

Lemma validate_transition_Ok previous e :
  validate_transition previous e = Ok tt ↔ lc_state e ∈ allowed previous.
Proof. unfold validate_transition. by rewrite raise_if_Ok, negb_false_iff, bool_decide_eq_true. Qed.

(** A trail from the registered run is at most two events long, and every event
    but the last says that the run is running, with the model it resolved. *)
Lemma lifecycle_trail events :
  trail registered events → (length events ≤ 2)%nat ∧
  ∀ e rest, events = e :: rest → rest ≠ [] → lc_state e = running ∧ is_Some (lc_resolved_model e).
Proof.
  destruct events as [|e [|e' rest]]; simpl; [split; [lia|done]|split; [lia|naive_solver]|].
  intros (He & H1%validate_transition_Ok & He' & H2%validate_transition_Ok & Hrest).
  assert (lc_state e = running) as Hs by (destruct (lc_state e); simpl in *; set_solver).
  rewrite Hs in H2. split.
  - destruct rest as [|e3 rest]; simpl; [lia|]. destruct Hrest as (_ & H3%validate_transition_Ok & _).
    exfalso. destruct (lc_state e'); simpl in *; set_solver.
  - intros ? ? [= <- <-] _. split; [done|]. unfold new_Lifecycle, coherent_lifecycle in He. rewrite Hs in He.
    destruct (lc_resolved_model e); [done|]. simpl in He. by rewrite orb_true_r in He.
Qed.
End lifecycle.

(** ** Submissions *)

Section submissions.
Import Submission.

Lemma fold_max_ge best l :
  let best' := fold_left (λ best x, if order_index best <? order_index x then x else best) l best in
  order_index best ≤ order_index best' ∧ ∀ x, x ∈ l → order_index x ≤ order_index best'.
Proof.
  revert best. induction l as [|y l IH]; intros best; simpl; [split; [lia|by intros x ?%elem_of_nil]|].
  destruct (IH (if order_index best <? order_index y then y else best)) as [H1 H2].
  destruct (Z.ltb_spec (order_index best) (order_index y));
    (split; [lia|]); intros x [->|Hx]%elem_of_cons; auto; lia.
Qed.

Lemma most_restrictive_ge l x : x ∈ l → order_index x ≤ order_index (most_restrictive l).
Proof.
  destruct l as [|y l]; [by intros ?%elem_of_nil|]. simpl.
  destruct (fold_max_ge y l) as [H1 H2]. intros [->|Hx]%elem_of_cons; auto.
Qed.

Lemma most_restrictive_in l : l ≠ [] → most_restrictive l ∈ l.
Proof.
  destruct l as [|y l]; [done|]. intros _. simpl. revert y.
  induction l as [|z l IH]; intros y; simpl; [by left|].
  specialize (IH (if order_index y <? order_index z then z else y)).
  destruct (order_index y <? order_index z); set_solver.
Qed.

Lemma new_classification_Ok c c' :
  new_SubmissionClassification c = Ok c' ↔
  c' = c ∧ sc_scope c ≠ RESTRICTED ∧ sc_consent c ≠ NOT_GRANTED ∧
  (sc_scope c = REDACTION_REQUIRED → sc_redaction c = APPROVED ∧ sc_consent c = EXPLICIT_RELEASE) ∧
  (sc_scope c = RELEASABLE → sc_redaction c = NOT_REQUIRED).
Proof.
  destruct c as [[] [] []]; unfold new_SubmissionClassification, permitted; simpl; split;
    try (intros [= <-]; repeat split; congruence || done); naive_solver.
Qed.

(** A classification can be constructed that does not understate a
    submission exactly when nothing the submission cites is restricted; and
    when something cited asks for redaction, or the attempt is a real
    interview, every such classification has an approved redaction and an
    explicit release. *)
Theorem submission_needs_release attempt_kind cited :
  (∀ c, new_SubmissionClassification c = Ok c →
     understates c (derive_submission_scope attempt_kind cited) = false →
     (∀ x, x ∈ cited → scope_of x ≠ RESTRICTED) ∧ sc_consent c ≠ NOT_GRANTED ∧
     ((attempt_kind = "real_interview"%string ∨ ∃ x, x ∈ cited ∧ scope_of x = REDACTION_REQUIRED) →
      sc_redaction c = APPROVED ∧ sc_consent c = EXPLICIT_RELEASE)) ∧
  ((∀ x, x ∈ cited → scope_of x ≠ RESTRICTED) →
   ∃ c, new_SubmissionClassification c = Ok c ∧
        understates c (derive_submission_scope attempt_kind cited) = false).
Proof.
  unfold derive_submission_scope. set (scopes := map scope_of cited ++ _).
  assert (∀ x, x ∈ cited → scope_of x ∈ scopes) as Hcited.
  { intros x Hx. apply elem_of_app. left. by apply list_elem_of_fmap_2. }
  split.
  - intros c (_ & Hscope & Hconsent & Hred & _)%new_classification_Ok Hu.
    unfold understates in Hu. apply Z.ltb_ge in Hu. split; [|split; [done|]].
    + intros x Hx Hr. pose proof (most_restrictive_ge _ _ (Hcited x Hx)) as Hge.
      rewrite Hr in Hge. destruct (sc_scope c); simpl in *; done || lia.
    + intros Hask. apply Hred.
      assert (REDACTION_REQUIRED ∈ scopes) as Hin.
      { destruct Hask as [->|(x & Hx & <-)]; [|auto]. apply elem_of_app. right. by left. }
      apply most_restrictive_ge in Hin. destruct (sc_scope c); simpl in *; done || lia.
  - intros Hnone. assert (most_restrictive scopes ≠ RESTRICTED) as Hm.
    { intros Hm. assert (RESTRICTED ∈ scopes) as Hin.
      { rewrite <- Hm. apply most_restrictive_in. by destruct (map scope_of cited). }
      apply elem_of_app in Hin as [(x & Hx & Hin)%list_elem_of_fmap|Hin].
      - by apply (Hnone x Hin).
      - apply list_elem_of_singleton in Hin. by destruct (String.eqb _ _). }
    exists (MkClassification REDACTION_REQUIRED APPROVED EXPLICIT_RELEASE). split; [done|].
    unfold understates. simpl. apply Z.ltb_ge. destruct (most_restrictive scopes); simpl; done || lia.
Qed.
End submissions.

(** ** The bounded run *)

Section runs.
Import Runtime.
Context {payload world : Type} (validate : payload → list string).
Context (invoke : world → PreparedAgentRun → list string → world * Answer (payload := payload)).

(** The exceptions of the transport that pass through the run: the runtime's
    own, whose messages name no content, and the caller's cancellation. *)
Definition passes_through (e : exn) : Prop :=
  exn_class e ∈ agent_errors ∨ exn_class e = "CancelledError"%string.

(** What a run makes of the last answer of the transport. *)
Definition settles (prepared : PreparedAgentRun) (repaired : bool) (answer : Answer (payload := payload))
    (out : res (ValidatedAgentResult (payload := payload))) : Prop :=
  match answer with
  | Interrupted => out = Err AgentTimeout
  | Raised e =>
      (exn_class e = "TimeoutError"%string → out = Err AgentTimeout) ∧
      (passes_through e → out = Err e) ∧
      (exn_class e ≠ "TimeoutError"%string → ¬ passes_through e → out = Err AgentServiceUnavailable)
  | Returned r =>
      (pr_max_turns prepared < tr_turns r → out = Err AgentTurnsExceeded) ∧
      (tr_turns r ≤ pr_max_turns prepared → validate (tr_payload r) ≠ [] → out = Err AgentOutputInvalid) ∧
      (tr_turns r ≤ pr_max_turns prepared → validate (tr_payload r) = [] →
         out = Ok (MkValidated (pr_run_key prepared) (pr_model prepared) (pr_schema_id prepared)
                     (tr_payload r) (tr_turns r) repaired))
  end.

(** The answer that buys a repair: a payload within the turns that falls short. *)
Definition falls_short (prepared : PreparedAgentRun) (answer : Answer (payload := payload)) (found : list string) : Prop :=
  ∃ r, answer = Returned r ∧ tr_turns r ≤ pr_max_turns prepared ∧ validate (tr_payload r) = found ∧ found ≠ [].

(** What [run] does with the outcome of [_attempt]. *)
Definition timed_out (out : res (ValidatedAgentResult (payload := payload))) :
    res (ValidatedAgentResult (payload := payload)) :=
  match out with
  | Err e => if String.eqb (exn_class e) "TimeoutError" then Err AgentTimeout else Err e
  | Ok result => Ok result
  end.

Lemma passes_through_spec e :
  str_in (exn_class e) (agent_errors ++ ["CancelledError"; "TimeoutError"]%string) = true ↔
  passes_through e ∨ exn_class e = "TimeoutError"%string.
Proof. rewrite str_in_spec. unfold passes_through. set_solver. Qed.

Lemma passes_through_not_timeout e : passes_through e → exn_class e ≠ "TimeoutError"%string.
Proof. intros [H|H] E; rewrite E in H; [|done]. unfold agent_errors in H. set_solver. Qed.

(** One turn of the loop: it settles the answer, or the answer falls short and
    the errors go to the next attempt. *)
Lemma attempt_from_step a rest prepared errors w w1 answer :
  invoke w prepared errors = (w1, answer) →
  (∃ found, falls_short prepared answer found ∧
     attempt_from validate invoke (a :: rest) prepared errors w =
       (let '(w', calls, out) := attempt_from validate invoke rest prepared found w1 in (w', errors :: calls, out))) ∨
  (¬ (∃ found, falls_short prepared answer found) ∧
   ∃ out, attempt_from validate invoke (a :: rest) prepared errors w = (w1, [errors], out) ∧
     settles prepared (0 <? a) answer (timed_out out)).
Proof.
  intros Hinv. cbn [attempt_from]. rewrite Hinv. destruct answer as [r|e|].
  - cbn [translated]. destruct (Z.ltb_spec (pr_max_turns prepared) (tr_turns r)) as [Hmax|Hmax].
    { right. split; [intros (f & r' & [= <-] & Hle & _); lia|].
      eexists. split; [reflexivity|]. split; [done|]. split; intros; lia. }
    destruct (validate (tr_payload r)) as [|x xs] eqn:Hv.
    + right. split; [intros (f & r' & [= <-] & _ & <- & Hne); by rewrite Hv in Hne|].
      eexists. split; [reflexivity|]. split; [intros; lia|]. split; [by intros _ []|done].
    + left. exists (x :: xs). split; [|done]. by exists r.
  - right. split; [intros (f & r' & Heq & _); discriminate Heq|]. cbn [translated].
    destruct (str_in _ _) eqn:Hin; (eexists; split; [reflexivity|]); cbn [settles timed_out].
    + apply passes_through_spec in Hin. destruct (String.eqb_spec (exn_class e) "TimeoutError") as [Ht|Ht].
      * split; [done|]. split; [|done]. by intros Hp%passes_through_not_timeout.
      * destruct Hin as [Hp|]; [|done]. split; [done|]. by split.
    + assert (¬ (passes_through e ∨ exn_class e = "TimeoutError"%string)) as Hno.
      { rewrite <- passes_through_spec, Hin. done. }
      split; [intros Ht; by destruct Hno; right|]. split; [intros Hp; by destruct Hno; left|done].
  - right. split; [intros (f & r' & Heq & _); discriminate Heq|]. eexists. by split.
Qed.

(** C20. Whatever the transport does, a run ends after at most two calls of it.
    The first call carries no errors; a second is made exactly when the first
    answer is a payload within the turns that falls short of the schema, and
    carries exactly the errors found.  The last answer settles the run: a
    payload the schema accepts, within the turns allowed, is returned under the
    run's key, model and schema, marked as repaired when it took the second
    call; too many turns, a second payload that falls short and the deadline
    raise the error that says so; and of the transport's own exceptions only
    the runtime's errors and a cancellation pass through. *)
Theorem run_ends_after_one_repair prepared w :
  ∃ w' calls out answer,
    run validate invoke prepared w = (w', calls, out) ∧
    ((calls = [[]] ∧ invoke w prepared [] = (w', answer) ∧ ¬ (∃ found, falls_short prepared answer found) ∧
      settles prepared false answer out) ∨
     ∃ w1 first found, invoke w prepared [] = (w1, first) ∧ falls_short prepared first found ∧
       calls = [[]; found] ∧ invoke w1 prepared found = (w', answer) ∧ settles prepared true answer out).
Proof.
  unfold run, attempt. change (seqZ 0 (MAX_REPAIR_ATTEMPTS + 1)) with [0; 1].
  destruct (invoke w prepared []) as [w1 first] eqn:H1.
  destruct (attempt_from_step 0 [1] prepared [] w w1 first H1) as [(found & Hshort & ->)|(Hno & out & -> & Hout)].
  2: { exists w1, [[]], (timed_out out), first. split; [done|]. by left. }
  destruct (invoke w1 prepared found) as [w2 answer] eqn:H2.
  destruct (attempt_from_step 1 [] prepared found w1 w2 answer H2) as [(found' & (r & -> & Hle & <- & Hne) & ->)|(_ & out & -> & Hout)].
  - do 4 eexists. split; [reflexivity|]. right. exists w1, first, found. split; [done|]. split; [done|].
    split; [done|]. split; [done|]. split; [intros; lia|]. by split; intros.
  - do 4 eexists. split; [reflexivity|]. right. exists w1, first, found. done.
Qed.
End runs.

(** ** Tool calls *)

Section tools.
Import Contracts Tools.
Context {arguments body result world : Type}.
Notation ToolSpec := (ToolSpec (arguments := arguments) (body := body) (result := result) (world := world)).
Notation Registry := (Registry (arguments := arguments) (body := body) (result := result) (world := world)).
Notation CallState := (CallState (world := world)).


















End tools.

(** ** Concrete inputs *)

Lemma submission_needs_release_witness :
  let c := Submission.MkClassification Submission.REDACTION_REQUIRED Submission.APPROVED
             Submission.EXPLICIT_RELEASE in
  Submission.understates c (Submission.derive_submission_scope "real_interview" ["transcript"%string]) = false ∧
  Submission.sc_redaction c = Submission.APPROVED.
Proof.
  intros c. split; [reflexivity|].
  apply (proj1 (submission_needs_release "real_interview" ["transcript"%string]) c); [reflexivity|reflexivity|].
  left. reflexivity.
Defined.

Section sample_run.
Import Runtime.
Definition sample_run : PreparedAgentRun := MkPrepared "run-1" "review" "model" "schema" "v1" 3 60.

(** A transport that answers well on the second call; the world counts calls. *)
Definition flaky (w : Z) (p : PreparedAgentRun) (errors : list string) : Z * Answer (payload := bool) :=
  (w + 1, Returned (MkTransport (bool_decide (errors ≠ [])) 2)).
Definition wants_true (b : bool) : list string := if b then [] else ["expected true"%string].

Lemma run_ends_after_one_repair_witness :
  run wants_true flaky sample_run 0 =
    (2, [[]; ["expected true"%string]], Ok (MkValidated "run-1" "model" "schema" true 2 true)) ∧
  ∃ w' calls out, run wants_true flaky sample_run 0 = (w', calls, out) ∧ (length calls ≤ 2)%nat.
Proof.
  split; [vm_compute; reflexivity|].
  destruct (run_ends_after_one_repair wants_true flaky sample_run 0)
    as (w' & calls & out & answer & Hrun & [(-> & _)|(w1 & first & found & _ & _ & -> & _)]);
    eexists _, _, _; (split; [exact Hrun|simpl; lia]).
Defined.
End sample_run.

Section sample_tool.
Import Contracts Tools.


End sample_tool.
