(* ===== verification/Memory.v ===== *)
(** * What the system remembers about the learner

    packages/protocol's memory.py (Module [Ledger]) and the backend's
    memory/policy.py (Module [MemoryPolicy]), memory/service.py (Module
    [Review]) and memory/context.py (Module [Context]).

    A ledger is the list of its revisions.  A review is a mutable object: its
    methods are [action]s, which keep what they had changed when they raise.
    A confidence is the rational value of the float. *)

From stdpp Require Import prelude list strings gmap countable pretty.
From Stdlib Require Import ZArith QArith Lia.
From S2P Require Import Prelude PyTime PyText.
#[local] Open Scope Z_scope.

(** ** Revisions and the ledger *)

Module Ledger.

Definition ValidationError (msg : string) : exn := Exn "ValidationError" msg.
Definition MemoryError (msg : string) : exn := Exn "MemoryError" msg.

Inductive MemoryKind := episodic | semantic | hypothesis | procedural.
#[export] Instance MemoryKind_eq_dec : EqDecision MemoryKind.
Proof. solve_decision. Defined.

Inductive MemoryScope :=
  | s_global | s_role | s_roadmap | s_activity | s_case | s_opportunity | s_interview.
#[export] Instance MemoryScope_eq_dec : EqDecision MemoryScope.
Proof. solve_decision. Defined.
Definition scope_name (s : MemoryScope) : string :=
  match s with
  | s_global => "global" | s_role => "role" | s_roadmap => "roadmap" | s_activity => "activity"
  | s_case => "case" | s_opportunity => "opportunity" | s_interview => "interview"
  end.
Definition SCOPED_KINDS : list MemoryScope :=
  [s_role; s_roadmap; s_activity; s_case; s_opportunity; s_interview].

Inductive Sensitivity := routine | personal | real_interview.
#[export] Instance Sensitivity_eq_dec : EqDecision Sensitivity.
Proof. solve_decision. Defined.
Definition SENSITIVITY_RANK (s : Sensitivity) : Z :=
  match s with routine => 0 | personal => 1 | real_interview => 2 end.

Inductive Role := planner | tutor | coach | reviewer | analyst | interviewer.
#[export] Instance Role_eq_dec : EqDecision Role.
Proof. solve_decision. Defined.
#[export] Instance Role_countable : Countable Role.
Proof.
  refine (inj_countable'
    (λ r, match r with planner => 0 | tutor => 1 | coach => 2 | reviewer => 3 | analyst => 4
                  | interviewer => 5 end)%nat
    (λ n, match n with 0 => planner | 1 => tutor | 2 => coach | 3 => reviewer | 4 => analyst
                  | _ => interviewer end)%nat _).
  by intros [].
Defined.

Inductive EvidenceKind :=
  | e_activity | e_assessment | e_interview | e_conversation | e_report | e_user_statement.
#[export] Instance EvidenceKind_eq_dec : EqDecision EvidenceKind.
Proof. solve_decision. Defined.

Inductive Approval := proposed | approved | rejected.
#[export] Instance Approval_eq_dec : EqDecision Approval.
Proof. solve_decision. Defined.

Definition KINDS_NEVER_APPROVED : list MemoryKind := [hypothesis].

Record EvidenceLink := MkLink { el_kind : EvidenceKind; el_reference_id : Z }.

Inductive PAuthor := p_learner | p_role (r : Role).
Record Provenance := MkProvenance { pv_author : PAuthor; pv_model_run_id : option Z }.

Record MemoryRevision := MkRevision {
  memory_id : Z;
  revision_id : Z;
  revision_number : Z;
  mr_kind : MemoryKind;
  mr_scope : MemoryScope;
  scope_reference_id : option Z;
  mr_claim : string;
  mr_confidence : Q;
  mr_sensitivity : Sensitivity;
  mr_visible_to : gset Role;
  mr_evidence : list EvidenceLink;
  mr_provenance : Provenance;
  valid_from : datetime;
  valid_to : option datetime;
  expires_at : option datetime;
  supersedes_revision_id : option Z;
  contradicts_revision_ids : gset Z;
  mr_approval : Approval;
  recorded_at : datetime;
}.

(** *** Validation on construction

    A model with a bad field is refused before its validators run; they run in
    the order of their definition and the first one that raises ends. *)

Definition PositiveId (x : Z) : bool := 0 <? x.
Definition optional_id (x : option Z) : bool :=
  match x with Some x => PositiveId x | None => true end.
Definition Text (s : string) : bool :=
  (1 <=? str_len s) && (str_len s <=? 2000) && has_non_space s.
Definition Confidence (q : Q) : bool := Qle_bool 0 q && Qle_bool q 1.

Definition new_EvidenceLink (l : EvidenceLink) : res EvidenceLink :=
  raise_if (negb (PositiveId (el_reference_id l))) (ValidationError "reference_id") ;;; Ok l.

Definition new_Provenance (p : Provenance) : res Provenance :=
  raise_if (negb (optional_id (pv_model_run_id p))) (ValidationError "model_run_id") ;;;
  raise_if (match pv_author p, pv_model_run_id p with p_learner, Some _ => true | _, _ => false end)
    (ValidationError "a learner statement has no model run behind it") ;;;
  Ok p.

Definition revision_fields (r : MemoryRevision) : bool :=
  PositiveId (memory_id r) && PositiveId (revision_id r) && (1 <=? revision_number r)
  && optional_id (scope_reference_id r) && Text (mr_claim r) && Confidence (mr_confidence r)
  && optional_id (supersedes_revision_id r)
  && bool_decide (set_Forall (λ i, 0 < i) (contradicts_revision_ids r)).

Definition claims_rest_on_evidence (r : MemoryRevision) : res unit :=
  raise_if (bool_decide (length (mr_evidence r) = 0%nat))
    (ValidationError "a memory with no evidence is an opinion; name what it rests on").

Definition scopes_point_at_one_thing (r : MemoryRevision) : res unit :=
  raise_if (bool_decide (mr_scope r = s_global) && bool_decide (is_Some (scope_reference_id r)))
    (ValidationError "a global memory points at nothing") ;;;
  raise_if (bool_decide (mr_scope r ∈ SCOPED_KINDS) && bool_decide (scope_reference_id r = None))
    (ValidationError ("a " +:+ scope_name (mr_scope r) +:+ "-scoped memory must name which "
                      +:+ scope_name (mr_scope r))).

Definition somebody_must_be_able_to_see_it (r : MemoryRevision) : res unit :=
  raise_if (bool_decide (mr_visible_to r = ∅))
    (ValidationError "a memory no role may see is a memory nobody can act on").

Definition first_revisions_supersede_nothing (r : MemoryRevision) : res unit :=
  raise_if ((revision_number r =? 1) && bool_decide (is_Some (supersedes_revision_id r)))
    (ValidationError "the first revision of a memory has nothing to supersede") ;;;
  raise_if ((1 <? revision_number r) && bool_decide (supersedes_revision_id r = None))
    (ValidationError "a later revision must name the revision it supersedes") ;;;
  raise_if (bool_decide (supersedes_revision_id r = Some (revision_id r)))
    (ValidationError "a revision cannot supersede itself").

(** [t is not None and t <= start] *)
Definition not_after (t : option datetime) (start : datetime) : res bool :=
  match t with Some t => dt_le t start | None => Ok false end.

Definition time_runs_forward (r : MemoryRevision) : res unit :=
  let* early := not_after (valid_to r) (valid_from r) in
  raise_if early (ValidationError "valid_to must come after valid_from") ;;;
  let* early := not_after (expires_at r) (valid_from r) in
  raise_if early (ValidationError "expires_at must come after valid_from").

Definition a_hypothesis_is_never_approved_into_a_fact (r : MemoryRevision) : res unit :=
  raise_if (bool_decide (mr_kind r ∈ KINDS_NEVER_APPROVED) && bool_decide (mr_approval r = approved))
    (ValidationError "a hypothesis is a guess; confirming it means writing a semantic memory").

Definition episodes_do_not_expire (r : MemoryRevision) : res unit :=
  raise_if (bool_decide (mr_kind r = episodic) && bool_decide (is_Some (expires_at r)))
    (ValidationError "something that happened never becomes false; episodes do not expire").

Definition new_MemoryRevision (r : MemoryRevision) : res MemoryRevision :=
  raise_if (negb (revision_fields r)) (ValidationError "fields") ;;;
  claims_rest_on_evidence r ;;;
  scopes_point_at_one_thing r ;;;
  somebody_must_be_able_to_see_it r ;;;
  first_revisions_supersede_nothing r ;;;
  time_runs_forward r ;;;
  a_hypothesis_is_never_approved_into_a_fact r ;;;
  episodes_do_not_expire r ;;;
  Ok r.

Definition in_force (r : MemoryRevision) (at_ : datetime) : res bool :=
  let* early := dt_lt at_ (valid_from r) in
  if early then Ok false
  else
    let* over := not_after (valid_to r) at_ in
    if over then Ok false
    else match expires_at r with None => Ok true | Some t => dt_lt at_ t end.

(** *** The ledger *)

Abbreviation MemoryLedger := (list MemoryRevision) (only parsing).

Definition duplicate_id (id : Z) : string :=
  "revision " +:+ pretty id +:+ " already exists and cannot be rewritten".

(** [_revision_ids_are_permanent] *)
Fixpoint revision_ids_are_permanent (seen : gset Z) (l : MemoryLedger) : res unit :=
  match l with
  | [] => Ok tt
  | r :: l' =>
      raise_if (bool_decide (revision_id r ∈ seen)) (ValidationError (duplicate_id (revision_id r))) ;;;
      revision_ids_are_permanent ({[revision_id r]} ∪ seen) l'
  end.

Definition new_MemoryLedger (l : MemoryLedger) : res MemoryLedger :=
  revision_ids_are_permanent ∅ l ;;; Ok l.

Definition history (l : MemoryLedger) (id : Z) : list MemoryRevision :=
  filter (λ r, memory_id r = id) l.

Definition current (l : MemoryLedger) (id : Z) : option MemoryRevision := last (history l id).

Definition check_next (latest : option MemoryRevision) (r : MemoryRevision) : res unit :=
  match latest with
  | None => raise_if (negb (revision_number r =? 1)) (MemoryError "a memory starts at revision 1")
  | Some latest =>
      raise_if (negb (revision_number r =? revision_number latest + 1))
        (MemoryError ("expected revision " +:+ pretty (revision_number latest + 1)
                      +:+ ", got " +:+ pretty (revision_number r))) ;;;
      raise_if (negb (bool_decide (supersedes_revision_id r = Some (revision_id latest))))
        (MemoryError "a new revision must supersede the current one, not an older one") ;;;
      raise_if (negb (bool_decide (mr_kind r = mr_kind latest)))
        (MemoryError "a memory keeps its kind; a different kind is a different memory")
  end.

(** The identifiers are tried in some order of the set. *)
Definition check_contradicts (l : MemoryLedger) (r : MemoryRevision) : res unit :=
  res_fold (λ _ c,
    raise_if (negb (existsb (λ e, revision_id e =? c) l))
      (MemoryError ("cannot contradict revision " +:+ pretty c +:+ ": it is not in the ledger")))
    tt (elements (contradicts_revision_ids r)).

Definition append (l : MemoryLedger) (r : MemoryRevision) : res MemoryLedger :=
  raise_if (existsb (λ e, revision_id e =? revision_id r) l)
    (MemoryError (duplicate_id (revision_id r))) ;;;
  check_next (last (history l (memory_id r))) r ;;;
  check_contradicts l r ;;;
  new_MemoryLedger (l ++ [r]).

(** [_unique]: the keys of a dict, in the order of their first insertion. *)
Definition unique (ids : list Z) : list Z :=
  fold_left (λ seen v, if bool_decide (v ∈ seen) then seen else seen ++ [v]) ids [].

Definition in_scope (scope : option MemoryScope) (reference_id : option Z) (r : MemoryRevision) : bool :=
  match scope with
  | None => true
  | Some s => bool_decide (mr_scope r = s) && bool_decide (scope_reference_id r = reference_id)
  end.

(** One turn of the loop: does the current revision of the memory go out? *)
Definition readable (role : Role) (at_ : datetime) (ceiling : Sensitivity)
    (scope : option MemoryScope) (reference_id : option Z) (r : MemoryRevision) : res bool :=
  if negb (bool_decide (mr_approval r = approved)) then Ok false
  else if negb (bool_decide (role ∈ mr_visible_to r)) then Ok false
  else if SENSITIVITY_RANK ceiling <? SENSITIVITY_RANK (mr_sensitivity r) then Ok false
  else
    let* now := in_force r at_ in
    if negb now then Ok false
    else Ok (in_scope scope reference_id r).

Definition visible (l : MemoryLedger) (role : Role) (at_ : datetime) (ceiling : Sensitivity)
    (scope : option MemoryScope) (reference_id : option Z) : res (list MemoryRevision) :=
  res_fold (λ out id,
    match current l id with
    | None => Ok out
    | Some r =>
        let* b := readable role at_ ceiling scope reference_id r in
        Ok (if b then out ++ [r] else out)
    end) [] (unique (map memory_id l)).

End Ledger.

(** ** Who decides what becomes a memory *)

Module MemoryPolicy.
Import Ledger.

Definition PolicyError (msg : string) : exn := Exn "PolicyError" msg.

Inductive Decision := AUTO_ACCEPT | STORE_HYPOTHESIS | REQUIRE_USER_APPROVAL | REJECT.
#[export] Instance Decision_eq_dec : EqDecision Decision.
Proof. solve_decision. Defined.

Inductive ReasonCode :=
  | verified_fact | explicit_preference | agent_pattern | single_event_not_a_trait
  | sensitive_inference | personal_inference | no_provenance | no_evidence
  | coach_mode_current_content | transcript_instruction | unknown_author.
#[export] Instance ReasonCode_eq_dec : EqDecision ReasonCode.
Proof. solve_decision. Defined.

Inductive Origin := o_system | o_evidence | learner_statement | agent_inference.
#[export] Instance Origin_eq_dec : EqDecision Origin.
Proof. solve_decision. Defined.

Inductive Author := a_system | a_learner | a_role (r : Role).
#[export] Instance Author_eq_dec : EqDecision Author.
Proof. solve_decision. Defined.

Definition VERIFIED_EVIDENCE : list EvidenceKind := [e_activity; e_assessment; e_report].
Definition MIN_EVENTS_FOR_TRAIT : Z := 3.

Definition RETENTION (k : MemoryKind) : option timedelta :=
  match k with
  | episodic => None
  | semantic => Some (days 180)
  | hypothesis => Some (days 30)
  | procedural => Some (days 365)
  end.

Definition INSTRUCTION (claim : string) : bool :=
  opens_with ["ignore"; "disregard"; "forget"; "remember that you"; "from now on"; "you must";
              "always say"; "never say"; "system prompt"; "as an ai"; "override"]%string claim.
Definition SENSITIVE_TOPICS (claim : string) : bool :=
  has_word ["health"; "medical"; "diagnos"; "pregnan"; "religio"; "politic"; "ethnic"; "sexual";
            "disabilit"; "salary"; "visa"; "immigration"; "mental"; "therapy"; "divorce"]%string claim.

Record MemoryProposal := MkProposal {
  mp_kind : MemoryKind;
  mp_claim : string;
  mp_origin : Origin;
  mp_author : Author;
  mp_model_run_id : option Z;
  mp_evidence_kinds : list EvidenceKind;
  mp_event_count : Z;
  mp_sensitivity : Sensitivity;
  mp_quoted_source : option string;
  mp_coach_mode_current_answer : bool;
  mp_about_the_person : bool;
}.

Definition by_agent (a : Author) : bool := match a with a_role _ => true | _ => false end.

(** [MemoryProposal.__post_init__] *)
Definition new_MemoryProposal (p : MemoryProposal) : res MemoryProposal :=
  raise_if (blank (mp_claim p)) (PolicyError "an empty claim proposes nothing") ;;;
  raise_if (mp_event_count p <? 0) (PolicyError "event_count cannot be negative") ;;;
  raise_if (by_agent (mp_author p) && bool_decide (mp_model_run_id p = None))
    (PolicyError "an agent proposal names the model run that produced it") ;;;
  Ok p.

Record PolicyOutcome := MkPolicy {
  po_decision : Decision;
  po_reason : ReasonCode;
  po_stored_kind : option MemoryKind;
  po_retention : option timedelta;
  po_visible_to : gset Role;
  po_required_evidence : Z;
}.

Definition ALL_ROLES : gset Role := {[planner; tutor; coach; reviewer; analyst]}.
Definition LEARNER_FACING : gset Role := {[tutor; coach; planner]}.

Definition reject_outcome (reason : ReasonCode) : PolicyOutcome := MkPolicy REJECT reason None None ∅ 0.

Definition known_author (a : Author) : bool :=
  match a with a_role r => bool_decide (r ∈ ALL_ROLES) | _ => true end.

Definition sensitive (p : MemoryProposal) : bool :=
  bool_decide (mp_sensitivity p = real_interview) || SENSITIVE_TOPICS (mp_claim p).

Definition verified (p : MemoryProposal) : bool :=
  bool_decide (mp_origin p ∈ [o_system; o_evidence])
  && existsb (λ k, bool_decide (k ∈ VERIFIED_EVIDENCE)) (mp_evidence_kinds p).

(** [bool(proposal.quoted_source)] *)
Definition quoted (p : MemoryProposal) : bool :=
  match mp_quoted_source p with Some s => negb (String.eqb s "") | None => false end.

Definition decide (p : MemoryProposal) : PolicyOutcome :=
  if mp_coach_mode_current_answer p then reject_outcome coach_mode_current_content
  else if INSTRUCTION (mp_claim p) then reject_outcome transcript_instruction
  else if negb (known_author (mp_author p)) then reject_outcome unknown_author
  else if bool_decide (mp_origin p = agent_inference) && bool_decide (mp_model_run_id p = None)
  then reject_outcome no_provenance
  else if bool_decide (length (mp_evidence_kinds p) = 0%nat) then reject_outcome no_evidence
  else if verified p then
    if sensitive p then
      MkPolicy REQUIRE_USER_APPROVAL sensitive_inference (Some (mp_kind p)) (RETENTION (mp_kind p))
        LEARNER_FACING 1
    else MkPolicy AUTO_ACCEPT verified_fact (Some (mp_kind p)) (RETENTION (mp_kind p)) ALL_ROLES 1
  else if bool_decide (mp_origin p = learner_statement) && quoted p then
    if sensitive p then
      MkPolicy REQUIRE_USER_APPROVAL sensitive_inference (Some (mp_kind p)) (RETENTION (mp_kind p))
        LEARNER_FACING 1
    else
      MkPolicy AUTO_ACCEPT explicit_preference (Some (mp_kind p)) (RETENTION (mp_kind p))
        LEARNER_FACING 1
  else if bool_decide (mp_origin p = learner_statement) then reject_outcome no_provenance
  else if sensitive p || mp_about_the_person p then
    MkPolicy REQUIRE_USER_APPROVAL
      (if sensitive p then sensitive_inference else personal_inference) (Some hypothesis)
      (RETENTION hypothesis) {[coach]} MIN_EVENTS_FOR_TRAIT
  else if (mp_event_count p <? MIN_EVENTS_FOR_TRAIT) && negb (bool_decide (mp_kind p = episodic)) then
    MkPolicy STORE_HYPOTHESIS single_event_not_a_trait (Some hypothesis) (RETENTION hypothesis)
      LEARNER_FACING MIN_EVENTS_FOR_TRAIT
  else
    MkPolicy STORE_HYPOTHESIS agent_pattern (Some hypothesis) (RETENTION hypothesis)
      LEARNER_FACING MIN_EVENTS_FOR_TRAIT.

End MemoryPolicy.

(** ** Proposals in, revisions out *)

Module Review.
Import Ledger MemoryPolicy.

Definition ReviewError (msg : string) : exn := Exn "ReviewError" msg.

Inductive ProposalStatus := written | pending_approval | st_rejected | st_approved | promoted.
#[export] Instance ProposalStatus_eq_dec : EqDecision ProposalStatus.
Proof. solve_decision. Defined.

Record ProposalRecord := MkRecord {
  pr_proposal_id : Z;
  pr_proposal : MemoryProposal;
  pr_outcome : PolicyOutcome;
  pr_status : ProposalStatus;
  pr_revision_id : option Z;
  pr_decided_at : datetime;
  pr_reviewed_by : option string;
  pr_promoted_to_revision_id : option Z;
}.

Record MemoryReview := MkReview {
  ledger : list MemoryRevision;
  records : gmap Z ProposalRecord;
  next_proposal : Z;
  next_memory : Z;
  next_revision : Z;
}.

Definition new_review : MemoryReview := MkReview [] ∅ 1 1 1.

Definition set_ledger (l : list MemoryRevision) (m : MemoryReview) : MemoryReview :=
  MkReview l (records m) (next_proposal m) (next_memory m) (next_revision m).
Definition store_record (r : ProposalRecord) (m : MemoryReview) : MemoryReview :=
  MkReview (ledger m) (<[pr_proposal_id r := r]> (records m)) (next_proposal m) (next_memory m)
    (next_revision m).
Definition count_proposal (m : MemoryReview) : MemoryReview :=
  MkReview (ledger m) (records m) (next_proposal m + 1) (next_memory m) (next_revision m).
Definition count_memory (m : MemoryReview) : MemoryReview :=
  MkReview (ledger m) (records m) (next_proposal m) (next_memory m + 1) (next_revision m).
Definition count_revision (m : MemoryReview) : MemoryReview :=
  MkReview (ledger m) (records m) (next_proposal m) (next_memory m) (next_revision m + 1).

(** A system fact is recorded as the learner's own. *)
Definition provenance (p : MemoryProposal) : res Provenance :=
  match mp_author p with
  | a_learner | a_system => new_Provenance (MkProvenance p_learner None)
  | a_role r => new_Provenance (MkProvenance (p_role r) (mp_model_run_id p))
  end.

(** The floats 0.5 and 0.8. *)
Definition half_confidence : Q := 1 # 2.
Definition high_confidence : Q := 3602879701896397 # 4503599627370496.

(** [(now + retention) if retention else None] *)
Definition expiry (now : datetime) (retention : option timedelta) : res (option datetime) :=
  match retention with
  | Some td => if td =? 0 then Ok None else let* t := dt_plus now td in Ok (Some t)
  | None => Ok None
  end.

(** The revision [_write] builds, with the identifiers the review hands out. *)
Definition first_revision (memory revision : Z) (p : MemoryProposal) (kind : MemoryKind)
    (outcome : PolicyOutcome) (now : datetime) (approval : Approval) (evidence : list EvidenceLink)
    : res MemoryRevision :=
  let* author := provenance p in
  let* expires := expiry now (po_retention outcome) in
  new_MemoryRevision (MkRevision memory revision 1 kind s_global None (mp_claim p)
    (if bool_decide (kind = hypothesis) then half_confidence else high_confidence)
    (mp_sensitivity p) (po_visible_to outcome) evidence author now None expires None ∅ approval now).

(** No caller passes a scope: it is always the global one. *)
Definition write (p : MemoryProposal) (outcome : PolicyOutcome) (now : datetime)
    (approval : Approval) (evidence : list EvidenceLink) : action MemoryReview MemoryRevision :=
  match po_stored_kind outcome with
  | None => throw (Exn "AssertionError" "")
  | Some kind =>
      memory ← gets next_memory;
      revision ← gets next_revision;
      r ← lift (first_revision memory revision p kind outcome now approval evidence);
      l ← gets ledger;
      l' ← lift (append l r);
      modify (set_ledger l');;
      modify count_memory;;
      modify count_revision;;
      mret r
  end.

Definition num (l : list EvidenceLink) : Z := Z.of_nat (length l).

(** What a decided proposal becomes: its status, and its revision when it is written. *)
Definition settle (p : MemoryProposal) (outcome : PolicyOutcome) (evidence : list EvidenceLink)
    (now : datetime) : action MemoryReview (ProposalStatus * option Z) :=
  match po_decision outcome with
  | AUTO_ACCEPT =>
      r ← write p outcome now approved evidence; mret (written, Some (revision_id r))
  | STORE_HYPOTHESIS =>
      r ← write p outcome now proposed evidence; mret (written, Some (revision_id r))
  | REQUIRE_USER_APPROVAL => mret (pending_approval, None)
  | REJECT => mret (st_rejected, None)
  end.

Definition propose (p : MemoryProposal) (evidence : list EvidenceLink) (now : datetime)
    : action MemoryReview ProposalRecord :=
  let outcome := decide p in
  if (num evidence <? po_required_evidence outcome)
     && bool_decide (po_decision outcome = AUTO_ACCEPT)
  then throw (ReviewError "an accepted fact must cite the evidence it rests on")
  else
    id ← gets next_proposal;
    modify count_proposal;;
    settled ← settle p outcome evidence now;
    let record := MkRecord id p outcome settled.1 settled.2 now None None in
    modify (store_record record);;
    mret record.

Definition pending (m : MemoryReview) (id : Z) : option ProposalRecord :=
  match records m !! id with
  | Some r => if bool_decide (pr_status r = pending_approval) then Some r else None
  | None => None
  end.

(** What the learner confirmed is written as a fact. *)
Definition confirmed (r : ProposalRecord) : PolicyOutcome :=
  let o := pr_outcome r in
  MkPolicy (po_decision o) (po_reason o)
    (Some (if bool_decide (mp_kind (pr_proposal r) = hypothesis) then semantic
           else mp_kind (pr_proposal r)))
    (po_retention o) (po_visible_to o) (po_required_evidence o).

Definition needs_evidence (what : string) (o : PolicyOutcome) (evidence : list EvidenceLink) : exn :=
  ReviewError (what +:+ " needs " +:+ pretty (po_required_evidence o)
               +:+ " pieces of evidence, got " +:+ pretty (num evidence)).

Definition approve (id : Z) (by_ : string) (evidence : list EvidenceLink) (now : datetime)
    : action MemoryReview ProposalRecord :=
  found ← gets (λ m, pending m id);
  match found with
  | None => throw (ReviewError "only a pending proposal can be approved")
  | Some r =>
      let o := pr_outcome r in
      if num evidence <? po_required_evidence o then throw (needs_evidence "approval" o evidence)
      else
        revision ← write (pr_proposal r) (confirmed r) now approved evidence;
        let updated := MkRecord id (pr_proposal r) o st_approved (Some (revision_id revision)) now
                         (Some by_) None in
        modify (store_record updated);;
        mret updated
  end.

Definition reject (id : Z) (by_ : string) (now : datetime) : action MemoryReview ProposalRecord :=
  found ← gets (λ m, pending m id);
  match found with
  | None => throw (ReviewError "only a pending proposal can be rejected")
  | Some r =>
      let updated := MkRecord id (pr_proposal r) (pr_outcome r) st_rejected None now (Some by_) None in
      modify (store_record updated);;
      mret updated
  end.

(** [_memory_of] *)
Definition memory_of (l : list MemoryRevision) (id : Z) : res Z :=
  match filter (λ r, revision_id r = id) l with
  | r :: _ => Ok (memory_id r)
  | [] => Err (ReviewError ("revision " +:+ pretty id +:+ " is not in the ledger"))
  end.

(** The stored hypothesis of a record, and its revision. *)
Definition promotable (m : MemoryReview) (id : Z) : option (ProposalRecord * Z) :=
  match records m !! id with
  | Some r =>
      match pr_revision_id r with
      | Some rid =>
          if bool_decide (po_stored_kind (pr_outcome r) = Some hypothesis) then Some (r, rid) else None
      | None => None
      end
  | None => None
  end.

Definition promote (id : Z) (evidence : list EvidenceLink) (now : datetime)
    : action MemoryReview ProposalRecord :=
  found ← gets (λ m, promotable m id);
  match found with
  | None => throw (ReviewError "only a stored hypothesis can be promoted")
  | Some (r, rid) =>
      let o := pr_outcome r in
      if bool_decide (pr_status r = promoted) then throw (ReviewError "already promoted")
      else if num evidence <? po_required_evidence o then throw (needs_evidence "promotion" o evidence)
      else
        l ← gets ledger;
        memory ← lift (memory_of l rid);
        if bool_decide (current l memory = None) then throw (Exn "AssertionError" "")
        else
          revision ← write (pr_proposal r)
            (MkPolicy AUTO_ACCEPT verified_fact (Some semantic) (po_retention o) (po_visible_to o)
               (po_required_evidence o)) now approved evidence;
          let updated := MkRecord id (pr_proposal r) o promoted (Some rid) now None
                           (Some (revision_id revision)) in
          modify (store_record updated);;
          mret updated
  end.

(** [current.model_copy(update=...)]: the copy is not validated. *)
Definition next_of (c : MemoryRevision) (rid : Z) (claim : string) (ends : option datetime)
    (now : datetime) : MemoryRevision :=
  MkRevision (memory_id c) rid (revision_number c + 1) (mr_kind c) (mr_scope c)
    (scope_reference_id c) claim (mr_confidence c) (mr_sensitivity c) (mr_visible_to c)
    (mr_evidence c) (mr_provenance c) (valid_from c) ends (expires_at c) (Some (revision_id c))
    (contradicts_revision_ids c) (mr_approval c) now.

(** The current revision of a memory, when it is the one named. *)
Definition current_at (l : list MemoryRevision) (rid : Z) (e : exn) : res MemoryRevision :=
  let* memory := memory_of l rid in
  match current l memory with
  | Some c => if revision_id c =? rid then Ok c else Err e
  | None => Err e
  end.

(** [except MemoryError as error: raise ReviewError(str(error))] *)
Definition memory_error_as_review {A} (m : res A) : res A :=
  match m with
  | Err e => if String.eqb (exn_class e) "MemoryError" then Err (ReviewError (exn_message e)) else m
  | Ok _ => m
  end.

Definition correct (rid : Z) (claim : string) (now : datetime) : action MemoryReview MemoryRevision :=
  l ← gets ledger;
  c ← lift (current_at l rid (ReviewError "only the current revision of a memory can be corrected"));
  next ← gets next_revision;
  let r := next_of c next claim (valid_to c) now in
  l' ← lift (memory_error_as_review (append l r));
  modify (set_ledger l');;
  modify count_revision;;
  mret r.

Definition expire (rid : Z) (at_ : datetime) (now : datetime) : action MemoryReview MemoryRevision :=
  l ← gets ledger;
  c ← lift (current_at l rid (ReviewError "only the current revision of a memory can be expired"));
  next ← gets next_revision;
  let r := next_of c next (mr_claim c) (Some at_) now in
  l' ← lift (append l r);
  modify (set_ledger l');;
  modify count_revision;;
  mret r.

End Review.

(** ** The packet of a model run *)

Module Context.
Import Ledger.

Definition ContextError (msg : string) : exn := Exn "ContextError" msg.

Inductive Tier :=
  | current_assignment | current_subject | rubric_contract | active_corrections
  | related_evidence | active_company | verified_role_memory | broader_history.
#[export] Instance Tier_eq_dec : EqDecision Tier.
Proof. solve_decision. Defined.

Definition HIERARCHY : list Tier :=
  [current_assignment; current_subject; rubric_contract; active_corrections; related_evidence;
   active_company; verified_role_memory; broader_history].

(** [HIERARCHY.index(tier)] *)
Fixpoint tier_index (tiers : list Tier) (t : Tier) : Z :=
  match tiers with
  | [] => 0
  | t' :: rest => if bool_decide (t' = t) then 0 else 1 + tier_index rest t
  end.

Inductive ExclusionReason :=
  | interviewer_excluded | role_not_allowed | sensitivity_above_ceiling | other_owner
  | other_company | not_current | coach_current_answer_hidden | over_budget.
#[export] Instance ExclusionReason_eq_dec : EqDecision ExclusionReason.
Proof. solve_decision. Defined.

Definition TIERS_BY_ROLE (r : Role) : list Tier :=
  match r with
  | planner | coach | analyst => HIERARCHY
  | tutor => filter (λ t, t ≠ broader_history) HIERARCHY
  | reviewer => filter (λ t, t ≠ active_company ∧ t ≠ broader_history) HIERARCHY
  | interviewer => []
  end.

Definition MAX_ACTIVE_CORRECTIONS : Z := 2.
Definition CHARS_PER_TOKEN : Z := 4.

Record ContextSource := MkSource {
  cs_source_id : string;
  cs_tier : Tier;
  cs_owner_id : Z;
  cs_text : string;
  cs_sensitivity : Sensitivity;
  cs_company_id : option Z;
  cs_revision_id : option Z;
  cs_is_current_answer : bool;
}.

Definition tokens (s : ContextSource) : Z := Z.max 1 (str_len (cs_text s) `div` CHARS_PER_TOKEN).

Record ContextRequest := MkRequest {
  cr_owner_id : Z;
  cr_role : Role;
  cr_ceiling : Sensitivity;
  cr_at : datetime;
  cr_token_budget : Z;
  cr_company_id : option Z;
}.

(** [ContextRequest.__post_init__] *)
Definition new_ContextRequest (r : ContextRequest) : res ContextRequest :=
  raise_if (cr_owner_id r <=? 0) (ContextError "a packet is always for one owner") ;;;
  raise_if (cr_token_budget r <=? 0) (ContextError "token budget must be positive") ;;;
  Ok r.

Record Included := MkIncluded {
  in_source_id : string; in_tier : Tier; in_position : Z; in_tokens : Z; in_revision_id : option Z
}.
Record Excluded := MkExcluded { ex_source_id : string; ex_tier : Tier; ex_reason : ExclusionReason }.

Record ContextPacket := MkPacket {
  cp_owner_id : Z;
  cp_role : Role;
  cp_ceiling : Sensitivity;
  cp_token_budget : Z;
  cp_tokens_used : Z;
  cp_included : list Included;
  cp_excluded : list Excluded;
}.

Definition sources_seen (p : ContextPacket) : Z :=
  Z.of_nat (length (cp_included p)) + Z.of_nat (length (cp_excluded p)).

Definition differs (a b : option Z) : bool :=
  match a, b with Some a, Some b => negb (a =? b) | _, _ => false end.

Definition exclusion (s : ContextSource) (r : ContextRequest) (current_revisions : gset Z)
    : option ExclusionReason :=
  if bool_decide (cr_role r = interviewer) then Some interviewer_excluded
  else if negb (bool_decide (cs_tier s ∈ TIERS_BY_ROLE (cr_role r))) then Some role_not_allowed
  else if negb (cs_owner_id s =? cr_owner_id r) then Some other_owner
  else if SENSITIVITY_RANK (cr_ceiling r) <? SENSITIVITY_RANK (cs_sensitivity s)
  then Some sensitivity_above_ceiling
  else if differs (cs_company_id s) (cr_company_id r) then Some other_company
  else if match cs_revision_id s with
          | Some i => negb (bool_decide (i ∈ current_revisions))
          | None => false
          end then Some not_current
  else if bool_decide (cr_role r = coach) && cs_is_current_answer s
  then Some coach_current_answer_hidden
  else None.

Definition exclude (s : ContextSource) (reason : ExclusionReason) : Excluded :=
  MkExcluded (cs_source_id s) (cs_tier s) reason.

(** The loop over the sources: the survivors, and the excluded ones in order. *)
Definition sieve (r : ContextRequest) (current_revisions : gset Z)
    (acc : list ContextSource * list Excluded) (s : ContextSource)
    : list ContextSource * list Excluded :=
  match exclusion s r current_revisions with
  | None => (acc.1 ++ [s], acc.2)
  | Some reason => (acc.1, acc.2 ++ [exclude s reason])
  end.

(** [(HIERARCHY.index(s.tier), s.source_id)] *)
Definition survivor_leb (a b : ContextSource) : bool :=
  let i := tier_index HIERARCHY (cs_tier a) in
  let j := tier_index HIERARCHY (cs_tier b) in
  (i <? j) || ((i =? j) && String.leb (cs_source_id a) (cs_source_id b)).

Record packing := MkPacking {
  pk_corrections : Z; pk_used : Z; pk_included : list Included; pk_excluded : list Excluded
}.

Definition include (s : ContextSource) (position : Z) : Included :=
  MkIncluded (cs_source_id s) (cs_tier s) position (tokens s) (cs_revision_id s).

(** One turn of the loop over the survivors. *)
Definition pack (budget : Z) (k : packing) (s : ContextSource) : packing :=
  let over c := MkPacking c (pk_used k) (pk_included k) (pk_excluded k ++ [exclude s over_budget]) in
  let correction := bool_decide (cs_tier s = active_corrections) in
  if correction && (MAX_ACTIVE_CORRECTIONS <=? pk_corrections k) then over (pk_corrections k)
  else
    let c := if correction then pk_corrections k + 1 else pk_corrections k in
    if budget <? pk_used k + tokens s then over c
    else
      MkPacking c (pk_used k + tokens s)
        (pk_included k ++ [include s (Z.of_nat (length (pk_included k)))]) (pk_excluded k).

Definition build_context (sources : list ContextSource) (r : ContextRequest)
    (l : list MemoryRevision) : res ContextPacket :=
  let* seen := visible l (cr_role r) (cr_at r) (cr_ceiling r) None None in
  let current_revisions : gset Z := list_to_set (map revision_id seen) in
  let '(survivors, excluded) := fold_left (sieve r current_revisions) sources ([], []) in
  let k := fold_left (pack (cr_token_budget r)) (sort_by survivor_leb survivors)
             (MkPacking 0 0 [] excluded) in
  Ok (MkPacket (cr_owner_id r) (cr_role r) (cr_ceiling r) (cr_token_budget r) (pk_used k)
        (pk_included k) (pk_excluded k)).

End Context.
