(* ===== verification/MemoryContract.v ===== *)
(** * What the memory components promise

    Theorems about Memory.v: the ledger only grows and its histories are
    chains; a role reads exactly what it may; nothing becomes an approved
    memory without its warrant; a packet decides every source. *)

From stdpp Require Import prelude list strings gmap sorting pretty.
From Stdlib Require Import ZArith QArith Lia.
From S2P Require Import Prelude PyTime PyText Memory.
Import Ledger.
#[local] Open Scope Z_scope.

(** ** The ledger *)

Lemma revision_ids_permanent_Ok l seen :
  revision_ids_are_permanent seen l = Ok tt ↔
  NoDup (map revision_id l) ∧ ∀ r, r ∈ l → revision_id r ∉ seen.
Proof.
  revert seen; induction l as [|r l IH]; intros seen; simpl.
  - split; [|done]. intros _. split; [constructor|]. by intros r ?%elem_of_nil.
  - rewrite raise_if_bind_Ok, bool_decide_eq_false, IH, NoDup_cons. split.
    + intros (Hr & Hnd & Hl). split; [split; [|done]|].
      * intros (r' & Heq & Hin)%list_elem_of_fmap. apply (Hl r' Hin). set_solver.
      * intros r' [->|Hin]%elem_of_cons; [done|]. specialize (Hl r' Hin). set_solver.
    + intros [[Hnr Hnd] Hall]. split; [apply Hall; by left|]. split; [done|].
      intros r' Hin [Heq%elem_of_singleton|Hs]%elem_of_union.
      * apply Hnr. rewrite <- Heq. by apply (list_elem_of_fmap_2 revision_id).
      * eapply Hall; [by right|done].
Qed.

Lemma check_contradicts_Ok l r :
  check_contradicts l r = Ok tt ↔
  ∀ c, c ∈ contradicts_revision_ids r → ∃ e, e ∈ l ∧ revision_id e = c.
Proof.
  unfold check_contradicts. setoid_rewrite <- (elem_of_elements (contradicts_revision_ids r)).
  generalize (elements (contradicts_revision_ids r)). intros cs.
  induction cs as [|c cs IH]; simpl.
  - split; [|done]. by intros _ c ?%elem_of_nil.
  - rewrite res_bind_Ok. setoid_rewrite raise_if_Ok. setoid_rewrite negb_false_iff.
    setoid_rewrite existsb_exists. setoid_rewrite Z.eqb_eq. setoid_rewrite <- list_elem_of_In. split.
    + intros ([] & H1 & H2) c' [->|Hc]%elem_of_cons; [done|]. by eapply IH.
    + intros H. exists tt. split; [apply H; by left|]. apply IH. intros c' Hc. apply H. by right.
Qed.

(** What an accepted append checks of the revision against what is there. *)
Record follows (l : list MemoryRevision) (r : MemoryRevision) : Prop := {
  fol_new : ∀ e, e ∈ l → revision_id e ≠ revision_id r;
  fol_next : match current l (memory_id r) with
             | None => revision_number r = 1
             | Some c => revision_number r = revision_number c + 1 ∧
                         supersedes_revision_id r = Some (revision_id c) ∧ mr_kind r = mr_kind c
             end;
  fol_contradicts : ∀ c, c ∈ contradicts_revision_ids r → ∃ e, e ∈ l ∧ revision_id e = c;
}.

Lemma NoDup_new_id l r :
  NoDup (map revision_id l) → (∀ e, e ∈ l → revision_id e ≠ revision_id r) →
  NoDup (map revision_id (l ++ [r])).
Proof.
  intros Hnd Hnew. rewrite map_app. apply NoDup_app. split; [done|].
  split; [|repeat constructor; set_solver].
  intros i (e & -> & He)%list_elem_of_fmap Heq%list_elem_of_singleton. by eapply Hnew.
Qed.

Lemma check_next_Ok latest r :
  check_next latest r = Ok tt ↔
  match latest with
  | None => revision_number r = 1
  | Some c => revision_number r = revision_number c + 1 ∧
              supersedes_revision_id r = Some (revision_id c) ∧ mr_kind r = mr_kind c
  end.
Proof.
  destruct latest as [c|]; simpl.
  - rewrite !raise_if_bind_Ok, raise_if_Ok, !negb_false_iff, Z.eqb_eq, !bool_decide_eq_true. done.
  - by rewrite raise_if_Ok, negb_false_iff, Z.eqb_eq.
Qed.

Lemma append_Ok l r l' :
  append l r = Ok l' ↔ l' = l ++ [r] ∧ follows l r ∧ NoDup (map revision_id l).
Proof.
  unfold append, new_MemoryLedger. rewrite raise_if_bind_Ok, res_bind_Ok.
  setoid_rewrite res_bind_Ok. setoid_rewrite res_bind_Ok. rewrite <- not_true_iff_false, existsb_exists.
  setoid_rewrite Z.eqb_eq. setoid_rewrite <- list_elem_of_In.
  split.
  - intros (Hnew & [] & Hnext & [] & Hc & [] & Hp & [= <-]).
    rewrite check_next_Ok in Hnext. rewrite check_contradicts_Ok in Hc.
    apply revision_ids_permanent_Ok in Hp as [Hnd _]. rewrite map_app in Hnd.
    apply NoDup_app in Hnd as [Hnd _]. split; [done|]. split; [|done]. constructor; [|done..].
    intros e He Heq. apply Hnew. eauto.
  - intros (-> & [Hnew Hnext Hc] & Hnd).
    rewrite <- check_next_Ok in Hnext. rewrite <- check_contradicts_Ok in Hc.
    split; [intros (e & He & Heq); by eapply Hnew|]. exists tt; split; [done|]. exists tt; split; [done|].
    exists tt. split; [|done]. apply revision_ids_permanent_Ok. split; [|set_solver].
    by apply NoDup_new_id.
Qed.

(** A ledger that appends made. *)
Inductive grown : list MemoryRevision → Prop :=
  | grown_nil : grown []
  | grown_append l r l' : grown l → append l r = Ok l' → grown l'.

Lemma grown_NoDup l : grown l → NoDup (map revision_id l).
Proof.
  destruct 1 as [|l r l' _ (-> & [Hnew _ _] & Hnd)%append_Ok]; [constructor|].
  by apply NoDup_new_id.
Qed.







(** ** Reading the ledger *)

Lemma elem_of_unique v ids : v ∈ unique ids ↔ v ∈ ids.
Proof.
  unfold unique. induction ids as [|x ids IH] using rev_ind; [done|].
  rewrite fold_left_app. simpl. rewrite elem_of_app, list_elem_of_singleton, <- IH.
  case_bool_decide; [naive_solver|]. by rewrite elem_of_app, list_elem_of_singleton.
Qed.

Lemma NoDup_unique ids : NoDup (unique ids).
Proof.
  unfold unique. induction ids as [|x ids IH] using rev_ind; [constructor|].
  rewrite fold_left_app. simpl. case_bool_decide; [done|].
  apply NoDup_app. split; [done|]. split; [set_solver|]. by repeat constructor; set_solver.
Qed.

Lemma current_Some l id r : current l id = Some r → r ∈ l ∧ memory_id r = id.
Proof.
  unfold current, history. intros H%last_Some_elem_of%list_elem_of_filter. tauto.
Qed.

Lemma current_None l id : current l id = None ↔ ∀ r, r ∈ l → memory_id r ≠ id.
Proof.
  unfold current. rewrite last_None. unfold history. split.
  - intros H r Hr Hid. assert (r ∈ filter (λ r, memory_id r = id) l) as Hin.
    { by apply list_elem_of_filter. }
    rewrite H in Hin. by apply elem_of_nil in Hin.
  - intros H. apply list_filter_none. auto.
Qed.

(** The loop of [visible]: when every turn returns, the loop filters. *)
Lemma visible_loop l (f : MemoryRevision → bool) (g : MemoryRevision → res bool) ids out :
  (∀ id r, id ∈ ids → current l id = Some r → g r = Ok (f r)) →
  res_fold (λ out id,
    match current l id with
    | None => Ok out
    | Some r => let* b := g r in Ok (if b then out ++ [r] else out)
    end) out ids = Ok (out ++ filter (λ r, f r = true) (omap (current l) ids)).
Proof.
  revert out; induction ids as [|id ids IH]; intros out Hg; simpl; [by rewrite app_nil_r|].
  assert (∀ id r, id ∈ ids → current l id = Some r → g r = Ok (f r)) as Hg'.
  { intros. eapply Hg; [by right|done]. }
  destruct (current l id) as [r|] eqn:Hc; simpl; [|by apply IH].
  rewrite (Hg id r) by (done || by left). simpl. rewrite IH by done. rewrite filter_cons.
  destruct (f r); case_decide; try done. by rewrite <- app_assoc.
Qed.

(** Current revisions of distinct memories are revisions of distinct memories. *)
Lemma NoDup_current_filter l (f : MemoryRevision → bool) ids :
  NoDup ids → NoDup (map memory_id (filter (λ r, f r = true) (omap (current l) ids))).
Proof.
  induction 1 as [|id ids Hid _ IH]; simpl; [constructor|].
  destruct (current l id) as [r|] eqn:Hc; [|done].
  rewrite filter_cons. case_decide; [|done]. simpl. apply NoDup_cons. split; [|done].
  intros (r' & Heq & Hr')%list_elem_of_fmap. apply Hid.
  apply list_elem_of_filter in Hr' as [_ (id' & Hid' & Hc')%list_elem_of_omap].
  apply current_Some in Hc as [_ <-]. apply current_Some in Hc' as [_ <-]. by rewrite Heq.
Qed.

Definition times_aware (r : MemoryRevision) : Prop :=
  aware (valid_from r) = true ∧
  (∀ t, valid_to r = Some t ∨ expires_at r = Some t → aware t = true).

(** [now] lies between the start of the claim and both of its ends. *)
Definition holds_at (r : MemoryRevision) (now : datetime) : bool :=
  (instant (valid_from r) <=? instant now)
  && match valid_to r with Some t => instant now <? instant t | None => true end
  && match expires_at r with Some t => instant now <? instant t | None => true end.

Lemma in_force_aware r now :
  times_aware r → aware now = true → in_force r now = Ok (holds_at r now).
Proof.
  intros [Hf Ht] Hn. unfold in_force, holds_at, not_after. rewrite dt_lt_aware by done. simpl.
  rewrite Z.ltb_antisym. destruct (_ <=? _); simpl; [|done].
  destruct (valid_to r) as [t|] eqn:E1; simpl.
  - rewrite dt_le_aware by (try done; apply Ht; by left). simpl. rewrite Z.leb_antisym.
    destruct (_ <? _); simpl; [|done].
    destruct (expires_at r) as [t'|] eqn:E2; [|done]. apply dt_lt_aware; [done|]. apply Ht. by right.
  - destruct (expires_at r) as [t'|] eqn:E2; [|done]. apply dt_lt_aware; [done|]. apply Ht. by right.
Qed.

(** What the role may read at that moment and that ceiling. *)
Definition may_read (role : Role) (now : datetime) (ceiling : Sensitivity)
    (scope : option MemoryScope) (reference_id : option Z) (r : MemoryRevision) : bool :=
  bool_decide (mr_approval r = approved) && bool_decide (role ∈ mr_visible_to r)
  && (SENSITIVITY_RANK (mr_sensitivity r) <=? SENSITIVITY_RANK ceiling) && holds_at r now
  && in_scope scope reference_id r.

Lemma readable_aware role now ceiling scope ref r :
  times_aware r → aware now = true →
  readable role now ceiling scope ref r = Ok (may_read role now ceiling scope ref r).
Proof.
  intros Hr Hn. unfold readable, may_read.
  destruct (bool_decide (mr_approval r = approved)); simpl; [|done].
  destruct (bool_decide (role ∈ mr_visible_to r)); simpl; [|done].
  rewrite Z.ltb_antisym. destruct (_ <=? _); simpl; [|done].
  rewrite in_force_aware by done. simpl. by destruct (holds_at r now).
Qed.

(** A loop over aware times returns. *)
Lemma visible_value l role now ceiling scope ref :
  Forall times_aware l → aware now = true →
  visible l role now ceiling scope ref =
    Ok (filter (λ r, may_read role now ceiling scope ref r = true)
          (omap (current l) (unique (map memory_id l)))).
Proof.
  intros Hl Hn. unfold visible. rewrite (visible_loop l (may_read role now ceiling scope ref)); [done|].
  intros id r _ [Hr _]%current_Some. rewrite Forall_forall in Hl. by apply readable_aware; [apply Hl|].
Qed.

(** What a role reads: at an aware moment, of a ledger whose times are
    aware, [visible] returns exactly the current revision of each memory that
    is approved, names the role, is no more sensitive than the ceiling, holds
    at that moment and lies in the scope asked for; each memory comes out at
    most once. *)
Theorem visible_exact l role now ceiling scope ref :
  Forall times_aware l → aware now = true →
  ∃ out, visible l role now ceiling scope ref = Ok out ∧
    NoDup (map memory_id out) ∧
    ∀ r, r ∈ out ↔
      current l (memory_id r) = Some r ∧ mr_approval r = approved ∧ role ∈ mr_visible_to r ∧
      SENSITIVITY_RANK (mr_sensitivity r) ≤ SENSITIVITY_RANK ceiling ∧
      holds_at r now = true ∧ in_scope scope ref r = true.
Proof.
  intros Hl Hn. rewrite visible_value by done. eexists. split; [done|split].
  - simpl. apply NoDup_current_filter, NoDup_unique.
  - intros r. simpl. rewrite list_elem_of_filter, list_elem_of_omap.
    unfold may_read. rewrite !andb_true_iff, !bool_decide_eq_true, Z.leb_le. split.
    + intros (H & id & _ & Hc). apply current_Some in Hc as Hid. destruct Hid as [_ <-]. tauto.
    + intros (Hc & H). split; [tauto|]. exists (memory_id r). split; [|done].
      apply elem_of_unique. by apply list_elem_of_fmap_2, (current_Some _ _ _ Hc).
Qed.

(** ** Histories of review calls *)

Import MemoryPolicy Review.

Inductive review_call :=
  | rc_propose (p : MemoryProposal) (evidence : list EvidenceLink) (now : datetime)
  | rc_approve (id : Z) (by_ : string) (evidence : list EvidenceLink) (now : datetime)
  | rc_reject (id : Z) (by_ : string) (now : datetime)
  | rc_promote (id : Z) (evidence : list EvidenceLink) (now : datetime)
  | rc_correct (rid : Z) (claim : string) (now : datetime)
  | rc_expire (rid : Z) (at_ now : datetime).

(** The review after the call, whether it returned or raised. *)
Definition run_call (m : MemoryReview) (c : review_call) : MemoryReview :=
  match c with
  | rc_propose p ev now => (propose p ev now m).1
  | rc_approve id b ev now => (approve id b ev now m).1
  | rc_reject id b now => (reject id b now m).1
  | rc_promote id ev now => (promote id ev now m).1
  | rc_correct rid claim now => (correct rid claim now m).1
  | rc_expire rid t now => (expire rid t now m).1
  end.

Definition reviewed (calls : list review_call) : MemoryReview := fold_left run_call calls new_review.

(** *** Writing *)

(** The review after a revision of a new memory is written. *)
Definition wrote (m : MemoryReview) (r : MemoryRevision) : MemoryReview :=
  MkReview (ledger m ++ [r]) (records m) (next_proposal m) (next_memory m + 1) (next_revision m + 1).

Lemma write_Err p o now a ev m m' e : write p o now a ev m = (m', Err e) → m' = m.
Proof.
  unfold write. destruct (po_stored_kind o) as [k|]; [|by intros [= <- _]].
  unfold mbind, action_bind, gets, lift, modify. cbn.
  destruct (first_revision _ _ _ _ _ _ _ _) as [r|e']; [|by intros [= <- _]].
  destruct (append _ _) as [l'|e']; [|by intros [= <- _]]. done.
Qed.

Lemma first_revision_Ok memory rev p k o now a ev r :
  first_revision memory rev p k o now a ev = Ok r →
  new_MemoryRevision r = Ok r ∧ memory_id r = memory ∧ revision_id r = rev ∧
  revision_number r = 1 ∧ mr_kind r = k ∧ mr_claim r = mp_claim p ∧
  mr_visible_to r = po_visible_to o ∧ mr_evidence r = ev ∧ mr_approval r = a ∧
  mr_sensitivity r = mp_sensitivity p ∧ contradicts_revision_ids r = ∅.
Proof.
  unfold first_revision. intros H. apply res_bind_Ok in H as (pv & _ & H).
  apply res_bind_Ok in H as (x & _ & H).
  assert (∀ r0, new_MemoryRevision r0 = Ok r → r0 = r) as Heq.
  { intros r0. unfold new_MemoryRevision. intros Hn.
    repeat (apply res_bind_Ok in Hn as (? & _ & Hn)). by injection Hn. }
  pose proof (Heq _ H) as <-. done.
Qed.

Lemma write_Ok p o now a ev m m' r :
  write p o now a ev m = (m', Ok r) →
  ∃ k, po_stored_kind o = Some k ∧ m' = wrote m r ∧
    first_revision (next_memory m) (next_revision m) p k o now a ev = Ok r ∧
    append (ledger m) r = Ok (ledger m').
Proof.
  unfold write. destruct (po_stored_kind o) as [k|]; [|done].
  unfold mbind, action_bind, gets, lift, modify, mret, action_ret. cbn.
  destruct (first_revision _ _ _ _ _ _ _ _) as [r'|e'] eqn:Hf; [|done].
  destruct (append _ _) as [l'|e'] eqn:Ha; [|done]. intros [= <- <-].
  apply append_Ok in Ha as Hl. destruct Hl as [-> _]. eauto 10.
Qed.

(** *** Moves

    What a call may do to a review. *)

(** A revision of a memory that was not there, written on a record's word. *)
Record written_for (m : MemoryReview) (o : PolicyOutcome) (r : MemoryRevision) : Prop := {
  wf_valid : new_MemoryRevision r = Ok r;
  wf_memory : memory_id r = next_memory m;
  wf_revision : revision_id r = next_revision m;
  wf_number : revision_number r = 1;
  wf_visible : mr_visible_to r = po_visible_to o;
  wf_append : append (ledger m) r = Ok (ledger m ++ [r]);
}.

Inductive move (m : MemoryReview) : MemoryReview → Prop :=
  | mv_refused : move m m
  | mv_lost : move m (count_proposal m)
  | mv_settled rec :
      pr_proposal_id rec = next_proposal m → pr_outcome rec = decide (pr_proposal rec) →
      pr_revision_id rec = None → pr_promoted_to_revision_id rec = None →
      pr_status rec = (match po_decision (pr_outcome rec) with REJECT => st_rejected
                       | _ => pending_approval end) →
      po_decision (pr_outcome rec) ∈ [REQUIRE_USER_APPROVAL; REJECT] →
      move m (store_record rec (count_proposal m))
  | mv_written rec r :
      pr_proposal_id rec = next_proposal m → pr_outcome rec = decide (pr_proposal rec) →
      pr_revision_id rec = Some (revision_id r) → pr_promoted_to_revision_id rec = None →
      pr_status rec = written → mr_claim r = mp_claim (pr_proposal rec) →
      (po_decision (pr_outcome rec) = AUTO_ACCEPT ∧ mr_approval r = approved ∧
         po_required_evidence (pr_outcome rec) ≤ num (mr_evidence r)
       ∨ po_decision (pr_outcome rec) = STORE_HYPOTHESIS ∧ mr_approval r = proposed) →
      written_for m (pr_outcome rec) r →
      move m (store_record rec (wrote (count_proposal m) r))
  | mv_rejected rec rec' :
      records m !! pr_proposal_id rec' = Some rec → pr_status rec = pending_approval →
      pr_status rec' = st_rejected → pr_proposal rec' = pr_proposal rec →
      pr_outcome rec' = pr_outcome rec → pr_revision_id rec' = None →
      pr_promoted_to_revision_id rec' = None → is_Some (pr_reviewed_by rec') →
      move m (store_record rec' m)
  | mv_approved rec rec' r :
      records m !! pr_proposal_id rec' = Some rec → pr_status rec = pending_approval →
      pr_status rec' = st_approved → pr_proposal rec' = pr_proposal rec →
      pr_outcome rec' = pr_outcome rec → pr_revision_id rec' = Some (revision_id r) →
      pr_promoted_to_revision_id rec' = None → is_Some (pr_reviewed_by rec') →
      mr_approval r = approved → mr_claim r = mp_claim (pr_proposal rec) →
      po_required_evidence (pr_outcome rec) ≤ num (mr_evidence r) →
      written_for m (pr_outcome rec) r →
      move m (store_record rec' (wrote m r))
  | mv_promoted rec rec' r rid :
      records m !! pr_proposal_id rec' = Some rec → pr_revision_id rec = Some rid →
      po_stored_kind (pr_outcome rec) = Some hypothesis → pr_status rec ≠ promoted →
      pr_status rec' = promoted → pr_proposal rec' = pr_proposal rec →
      pr_outcome rec' = pr_outcome rec → pr_revision_id rec' = Some rid →
      pr_promoted_to_revision_id rec' = Some (revision_id r) →
      mr_approval r = approved → mr_claim r = mp_claim (pr_proposal rec) →
      po_required_evidence (pr_outcome rec) ≤ num (mr_evidence r) →
      written_for m (pr_outcome rec) r →
      move m (store_record rec' (wrote m r))
  | mv_revised c claim ends now :
      current (ledger m) (memory_id c) = Some c →
      append (ledger m) (next_of c (next_revision m) claim ends now)
        = Ok (ledger m ++ [next_of c (next_revision m) claim ends now]) →
      move m (count_revision (set_ledger (ledger m ++ [next_of c (next_revision m) claim ends now]) m)).

Lemma write_written_for p o now a ev m m' r :
  write p o now a ev m = (m', Ok r) →
  m' = wrote m r ∧ written_for m o r ∧ mr_approval r = a ∧ mr_claim r = mp_claim p ∧ mr_evidence r = ev.
Proof.
  intros (k & _ & -> & Hf & Ha)%write_Ok. simpl in Ha.
  apply first_revision_Ok in Hf as (? & ? & ? & ? & ? & ? & ? & ? & ? & ? & ?). done.
Qed.

Lemma propose_move p ev now m : move m (propose p ev now m).1.
Proof.
  unfold propose. destruct (_ && _) eqn:Hguard; [constructor|].
  unfold mbind, action_bind, gets, modify, settle. cbn.
  destruct (po_decision (decide p)) eqn:Hd; cbn.
  - unfold mbind, action_bind. destruct (write _ _ _ _ _ _) as [m' [r|e]] eqn:Hw; cbn.
    + apply write_written_for in Hw as (-> & Hwf & Ha & Hc & Hev).
      apply mv_written; try done; [|by destruct Hwf]. cbn. left. split; [done|]. split; [done|].
      rewrite Hev. rewrite bool_decide_eq_true_2, andb_true_r in Hguard by done. lia.
    + apply write_Err in Hw as ->. constructor.
  - unfold mbind, action_bind. destruct (write _ _ _ _ _ _) as [m' [r|e]] eqn:Hw; cbn.
    + apply write_written_for in Hw as (-> & Hwf & Ha & Hc & Hev).
      apply mv_written; try done; [|by destruct Hwf]. right. by split.
    + apply write_Err in Hw as ->. constructor.
  - apply mv_settled; cbn; rewrite ?Hd; try done. set_solver.
  - apply mv_settled; cbn; rewrite ?Hd; try done. set_solver.
Qed.

Lemma pending_Some m id rec :
  pending m id = Some rec ↔ records m !! id = Some rec ∧ pr_status rec = pending_approval.
Proof. unfold pending. destruct (records m !! id); [case_bool_decide|]; naive_solver. Qed.

Lemma promotable_Some m id rec rid :
  promotable m id = Some (rec, rid) ↔
  records m !! id = Some rec ∧ pr_revision_id rec = Some rid ∧
  po_stored_kind (pr_outcome rec) = Some hypothesis.
Proof.
  unfold promotable. destruct (records m !! id) as [r|]; [|naive_solver].
  destruct (pr_revision_id r) eqn:?; [case_bool_decide|]; naive_solver.
Qed.

Lemma approve_move id b ev now m : move m (approve id b ev now m).1.
Proof.
  unfold approve. unfold mbind at 1, action_bind at 1, gets at 1.
  destruct (pending m id) as [rec|] eqn:Hp; [|constructor]. apply pending_Some in Hp as [Hrec Hst].
  destruct (_ <? _) eqn:Hev; [constructor|]. apply Z.ltb_ge in Hev.
  unfold mbind, action_bind. destruct (write _ _ _ _ _ _) as [m' [r|e]] eqn:Hw; cbn.
  - apply write_written_for in Hw as (-> & Hwf & Ha & Hc & Hr).
    apply (mv_approved _ rec); try done; [by rewrite Hr|]. by destruct Hwf.
  - apply write_Err in Hw as ->. constructor.
Qed.

Lemma reject_move id b now m : move m (reject id b now m).1.
Proof.
  unfold reject, mbind, action_bind, gets.
  destruct (pending m id) as [rec|] eqn:Hp; [|constructor]. apply pending_Some in Hp as [Hrec Hst].
  by apply (mv_rejected _ rec).
Qed.

Lemma promote_move id ev now m : move m (promote id ev now m).1.
Proof.
  unfold promote. unfold mbind at 1, action_bind at 1, gets at 1.
  destruct (promotable m id) as [[rec rid]|] eqn:Hp; [|constructor].
  apply promotable_Some in Hp as (Hrec & Hrid & Hk).
  case_bool_decide as Hst; [constructor|]. destruct (_ <? _) eqn:Hev; [constructor|].
  apply Z.ltb_ge in Hev. unfold mbind, action_bind, gets, lift.
  destruct (memory_of (ledger m) rid) as [i|e]; [|constructor].
  case_bool_decide; [constructor|].
  destruct (write _ _ _ _ _ _) as [m' [r|e]] eqn:Hw; cbn.
  - apply write_written_for in Hw as (-> & Hwf & Ha & Hc & Hr).
    apply (mv_promoted _ rec _ _ rid); try done; [by rewrite Hr|]. by destruct Hwf.
  - apply write_Err in Hw as ->. constructor.
Qed.

Lemma current_at_Ok l rid e c :
  current_at l rid e = Ok c → current l (memory_id c) = Some c ∧ revision_id c = rid.
Proof.
  unfold current_at. intros (i & _ & H)%res_bind_Ok.
  destruct (current l i) as [c'|] eqn:Hc; [|done]. destruct (_ =? _) eqn:Hid; [|done].
  injection H as <-. apply current_Some in Hc as Hi. destruct Hi as [_ ->].
  split; [done|]. by apply Z.eqb_eq.
Qed.

Lemma memory_error_as_review_Ok {A} (m : res A) a : memory_error_as_review m = Ok a ↔ m = Ok a.
Proof. destruct m as [|e]; simpl; [done|]. by destruct (String.eqb _ _). Qed.

Lemma revise_move m c claim ends now l' :
  current (ledger m) (memory_id c) = Some c →
  append (ledger m) (next_of c (next_revision m) claim ends now) = Ok l' →
  move m (count_revision (set_ledger l' m)).
Proof.
  intros Hc Ha. apply append_Ok in Ha as Hl. destruct Hl as [-> _]. by apply mv_revised.
Qed.

Lemma correct_move rid claim now m : move m (correct rid claim now m).1.
Proof.
  unfold correct, mbind, action_bind, gets, lift.
  destruct (current_at _ _ _) as [c|e] eqn:Hc; [|constructor]. apply current_at_Ok in Hc as [Hc _].
  destruct (memory_error_as_review _) as [l'|e] eqn:Ha; [|constructor]. cbn.
  rewrite memory_error_as_review_Ok in Ha. by eapply revise_move.
Qed.

Lemma expire_move rid t now m : move m (expire rid t now m).1.
Proof.
  unfold expire, mbind, action_bind, gets, lift.
  destruct (current_at _ _ _) as [c|e] eqn:Hc; [|constructor]. apply current_at_Ok in Hc as [Hc _].
  destruct (append _ _) as [l'|e] eqn:Ha; [|constructor]. cbn. by eapply revise_move.
Qed.

Lemma run_call_move m c : move m (run_call m c).
Proof.
  destruct c; [apply propose_move|apply approve_move|apply reject_move|apply promote_move
              |apply correct_move|apply expire_move].
Qed.

Lemma reviewed_invariant (P : MemoryReview → Prop) calls :
  P new_review → (∀ m m', P m → move m m' → P m') → P (reviewed calls).
Proof.
  intros H0 Hstep. unfold reviewed. apply (fold_left_prefix_invariant (λ _, P)); [done|].
  intros _ c m _ Hm. eapply Hstep; [exact Hm|apply run_call_move].
Qed.

(** *** The invariant of a review *)

(** The record whose decision allowed the memory of [r] to be written, and the
    first revision of that memory. *)
Definition warrants (m : MemoryReview) (rec : ProposalRecord) (root r : MemoryRevision) : Prop :=
  records m !! pr_proposal_id rec = Some rec ∧ root ∈ ledger m ∧ memory_id root = memory_id r ∧
  pr_outcome rec = decide (pr_proposal rec) ∧ mr_claim root = mp_claim (pr_proposal rec) ∧
  mr_visible_to r = po_visible_to (pr_outcome rec) ∧
  (pr_revision_id rec = Some (revision_id root)
   ∨ pr_promoted_to_revision_id rec = Some (revision_id root)) ∧
  (mr_approval r = approved →
     po_required_evidence (pr_outcome rec) ≤ num (mr_evidence r) ∧
     (po_decision (pr_outcome rec) = AUTO_ACCEPT
      ∨ po_decision (pr_outcome rec) = REQUIRE_USER_APPROVAL ∧
          pr_status rec ∈ [st_approved; promoted]
      ∨ po_decision (pr_outcome rec) = STORE_HYPOTHESIS ∧ pr_status rec = promoted)).

Record record_ok (rec : ProposalRecord) : Prop := {
  ro_decided : pr_outcome rec = decide (pr_proposal rec);
  ro_status : match po_decision (pr_outcome rec) with
              | REJECT => pr_status rec = st_rejected ∧ pr_revision_id rec = None
              | AUTO_ACCEPT | STORE_HYPOTHESIS => pr_status rec ∈ [written; promoted]
              | REQUIRE_USER_APPROVAL => pr_status rec ≠ written
              end;
  ro_unwritten : pr_status rec ∈ [pending_approval; st_rejected] → pr_revision_id rec = None;
  ro_unpromoted : pr_status rec ≠ promoted → pr_promoted_to_revision_id rec = None;
}.

Record review_ok (m : MemoryReview) : Prop := {
  rv_grown : grown (ledger m);
  rv_fresh : ∀ r, r ∈ ledger m → memory_id r < next_memory m ∧ revision_id r < next_revision m;
  rv_hypotheses : ∀ r, r ∈ ledger m → mr_kind r = hypothesis → mr_approval r ≠ approved;
  rv_records : ∀ i rec, records m !! i = Some rec →
    pr_proposal_id rec = i ∧ i < next_proposal m ∧ record_ok rec;
  rv_warrants : ∀ r, r ∈ ledger m → ∃ rec root, warrants m rec root r;
}.

Lemma decide_visible p : interviewer ∉ po_visible_to (decide p).
Proof.
  unfold decide, reject_outcome, LEARNER_FACING, ALL_ROLES.
  repeat case_match; simpl; set_solver.
Qed.

(** What a move may do to a record that was there. *)
Definition upgrade (rec rec' : ProposalRecord) : Prop :=
  rec' = rec ∨
  pr_proposal_id rec' = pr_proposal_id rec ∧ pr_proposal rec' = pr_proposal rec ∧
  pr_outcome rec' = pr_outcome rec ∧ pr_revision_id rec' = pr_revision_id rec ∧
  pr_promoted_to_revision_id rec = None ∧ pr_status rec' = promoted.

Definition keeps_warrants (m m' : MemoryReview) : Prop :=
  (∀ r, r ∈ ledger m → r ∈ ledger m') ∧
  ∀ i rec, records m !! i = Some rec →
    (pr_revision_id rec = None ∧ pr_promoted_to_revision_id rec = None)
    ∨ ∃ rec', records m' !! i = Some rec' ∧ upgrade rec rec'.

Lemma warrants_kept m m' rec root r :
  keeps_warrants m m' → warrants m rec root r → ∃ rec', warrants m' rec' root r.
Proof.
  intros [Hl Hrec] (Hin & Hroot & Hid & Hd & Hc & Hv & Hlink & Ha).
  destruct (Hrec _ _ Hin) as [[Hn Hn']|(rec' & Hin' & [->|(Hi & Hp & Ho & Hr & Hnp & Hst)])].
  - destruct Hlink; congruence.
  - exists rec. repeat split; auto; apply Ha; done.
  - exists rec'. rewrite Hnp in Hlink. destruct Hlink as [Hlink|]; [|done].
    unfold warrants. rewrite Hi, Hp, Ho, Hr, Hst. repeat split; auto.
    + by apply Ha.
    + destruct (Ha H) as [_ [?|[[? _]|[? _]]]]; [by left|right; left|right; right]; split; try done.
      set_solver.
Qed.

(** A record in a new slot leaves the others. *)
Lemma keeps_fresh_record m m' rec :
  review_ok m → pr_proposal_id rec = next_proposal m → (∀ r, r ∈ ledger m → r ∈ ledger m') →
  records m' = <[pr_proposal_id rec := rec]> (records m) → keeps_warrants m m'.
Proof.
  intros [_ _ _ Hrec _] Hi Hl Hr. split; [done|]. intros i x Hx. right. exists x. split; [|by left].
  rewrite Hr, lookup_insert_ne; [done|]. destruct (Hrec _ _ Hx) as (_ & ? & _). lia.
Qed.

Lemma keeps_same_records m m' :
  records m' = records m → (∀ r, r ∈ ledger m → r ∈ ledger m') → keeps_warrants m m'.
Proof. intros Hr Hl. split; [done|]. intros i x Hx. rewrite Hr. right. exists x. split; [done|by left]. Qed.

(** A record that replaces one of its own number. *)
Lemma keeps_replaced m m' rec rec' :
  records m !! pr_proposal_id rec' = Some rec →
  (pr_revision_id rec = None ∧ pr_promoted_to_revision_id rec = None ∨ upgrade rec rec') →
  records m' = <[pr_proposal_id rec' := rec']> (records m) →
  (∀ r, r ∈ ledger m → r ∈ ledger m') → keeps_warrants m m'.
Proof.
  intros Hrec Hup Hr Hl. split; [done|]. intros i x Hx. rewrite Hr.
  destruct (base.decide (pr_proposal_id rec' = i)) as [<-|Hne].
  - rewrite Hrec in Hx. injection Hx as <-. destruct Hup; [by left|]. right. exists rec'.
    by rewrite lookup_insert_eq.
  - right. exists x. rewrite lookup_insert_ne by done. split; [done|by left].
Qed.

Lemma valid_hypothesis r :
  new_MemoryRevision r = Ok r → mr_kind r = hypothesis → mr_approval r ≠ approved.
Proof.
  unfold new_MemoryRevision. intros H Hk Ha.
  repeat (apply res_bind_Ok in H as (? & ? & H)).
  match goal with H : a_hypothesis_is_never_approved_into_a_fact r = _ |- _ => revert H end.
  unfold a_hypothesis_is_never_approved_into_a_fact. rewrite Hk, Ha. done.
Qed.

Lemma review_ok_step m m' new :
  review_ok m → ledger m' = ledger m ++ new → grown (ledger m') →
  next_memory m ≤ next_memory m' → next_revision m ≤ next_revision m' →
  (∀ r, r ∈ new → memory_id r < next_memory m' ∧ revision_id r < next_revision m' ∧
     (mr_kind r = hypothesis → mr_approval r ≠ approved) ∧ ∃ rec root, warrants m' rec root r) →
  (∀ i rec, records m' !! i = Some rec →
     pr_proposal_id rec = i ∧ i < next_proposal m' ∧ record_ok rec) →
  keeps_warrants m m' → review_ok m'.
Proof.
  intros [_ Hfresh Hhyp _ Hwar] Hl Hg Hm Hr Hnew Hrec Hkeep. constructor; [done| | |done|].
  - intros r. rewrite Hl. intros [Hin|Hin]%elem_of_app; [|by destruct (Hnew _ Hin) as (? & ? & _)].
    destruct (Hfresh _ Hin). lia.
  - intros r. rewrite Hl. intros [Hin|Hin]%elem_of_app; [by apply Hhyp|].
    by destruct (Hnew _ Hin) as (_ & _ & ? & _).
  - intros r. rewrite Hl. intros [Hin|Hin]%elem_of_app.
    + destruct (Hwar _ Hin) as (rec & root & Hw). eapply warrants_kept in Hw as [rec' ?]; eauto.
    + by destruct (Hnew _ Hin) as (_ & _ & _ & ?).
Qed.

Lemma records_store m rec np :
  review_ok m → next_proposal m ≤ np → pr_proposal_id rec < np → record_ok rec →
  ∀ i x, <[pr_proposal_id rec := rec]> (records m) !! i = Some x →
    pr_proposal_id x = i ∧ i < np ∧ record_ok x.
Proof.
  intros [_ _ _ Hrec _] Hnp Hi Hok i x [[<- <-]|[_ Hx]]%lookup_insert_Some; [done|].
  destruct (Hrec _ _ Hx) as (? & ? & ?). split; [done|]. split; [lia|done].
Qed.

(** A revision written on the word of a record that is stored with it. *)
Lemma wrote_review_ok m0 m rec r o :
  review_ok m0 → ledger m = ledger m0 → records m = records m0 →
  next_memory m = next_memory m0 → next_revision m = next_revision m0 →
  next_proposal m0 ≤ next_proposal m → pr_proposal_id rec < next_proposal m →
  o = pr_outcome rec → record_ok rec → written_for m0 o r →
  keeps_warrants m0 (store_record rec (wrote m r)) →
  warrants (store_record rec (wrote m r)) rec r r →
  review_ok (store_record rec (wrote m r)).
Proof.
  intros Hok Hl Hr Hnm Hnr Hnp Hi -> Hro [Hv Hm Hrv _ _ Ha] Hkeep Hw.
  apply (review_ok_step m0 _ [r]); simpl; rewrite ?Hl, ?Hnm, ?Hnr; try lia; try done.
  - eapply grown_append; [by apply rv_grown|done].
  - intros r' ->%list_elem_of_singleton. split; [lia|]. split; [lia|]. split; [by apply valid_hypothesis|].
    by exists rec, r.
  - rewrite Hr. by apply records_store.
Qed.

Lemma record_ok_rejected rec rec' :
  record_ok rec → pr_status rec = pending_approval → pr_status rec' = st_rejected →
  pr_proposal rec' = pr_proposal rec → pr_outcome rec' = pr_outcome rec →
  pr_revision_id rec' = None → pr_promoted_to_revision_id rec' = None → record_ok rec'.
Proof.
  intros [Hd Hs _ _] Hst Hst' Hp Ho Hr Hn. constructor; rewrite ?Hp, ?Ho; try done.
  rewrite Hst'. rewrite Hst in Hs. destruct (po_decision _); set_solver.
Qed.

Lemma record_ok_approved rec rec' :
  record_ok rec → pr_status rec = pending_approval → pr_status rec' = st_approved →
  pr_proposal rec' = pr_proposal rec → pr_outcome rec' = pr_outcome rec →
  pr_promoted_to_revision_id rec' = None →
  record_ok rec' ∧ po_decision (pr_outcome rec) = REQUIRE_USER_APPROVAL.
Proof.
  intros [Hd Hs _ _] Hst Hst' Hp Ho Hn. rewrite Hst in Hs.
  assert (po_decision (pr_outcome rec) = REQUIRE_USER_APPROVAL) as Hreq.
  { destruct (po_decision _); set_solver. }
  split; [|done]. constructor; rewrite ?Hp, ?Ho; try done; rewrite ?Hreq, Hst'; set_solver.
Qed.

Lemma record_ok_promoted rec rec' rid :
  record_ok rec → pr_revision_id rec = Some rid → pr_status rec' = promoted →
  pr_proposal rec' = pr_proposal rec → pr_outcome rec' = pr_outcome rec →
  record_ok rec' ∧ po_decision (pr_outcome rec) ≠ REJECT.
Proof.
  intros [Hd Hs _ _] Hrid Hst' Hp Ho. split.
  - constructor; rewrite ?Hp, ?Ho; try done; rewrite ?Hst'; [|set_solver].
    destruct (po_decision _); set_solver.
  - intros E. rewrite E in Hs. destruct Hs; congruence.
Qed.

Lemma record_ok_settled rec :
  pr_outcome rec = decide (pr_proposal rec) → pr_revision_id rec = None →
  pr_promoted_to_revision_id rec = None →
  pr_status rec = (match po_decision (pr_outcome rec) with REJECT => st_rejected
                   | _ => pending_approval end) →
  po_decision (pr_outcome rec) ∈ [REQUIRE_USER_APPROVAL; REJECT] → record_ok rec.
Proof.
  intros Hd Hr Hp Hst Hdec. constructor; try done.
  destruct (po_decision _); rewrite Hst; try done; set_solver.
Qed.

Lemma record_ok_written rec :
  pr_outcome rec = decide (pr_proposal rec) → pr_status rec = written →
  pr_promoted_to_revision_id rec = None →
  po_decision (pr_outcome rec) ∈ [AUTO_ACCEPT; STORE_HYPOTHESIS] → record_ok rec.
Proof.
  intros Hd Hst Hp Hdec. constructor; try done; rewrite ?Hst; [|set_solver].
  destruct (po_decision _); set_solver.
Qed.

Lemma warrants_next m rec root c rev claim ends now :
  warrants m rec root c → warrants m rec root (next_of c rev claim ends now).
Proof. done. Qed.

(** A revised memory keeps the invariant. *)
Lemma revised_review_ok m c claim ends now :
  review_ok m → current (ledger m) (memory_id c) = Some c →
  append (ledger m) (next_of c (next_revision m) claim ends now)
    = Ok (ledger m ++ [next_of c (next_revision m) claim ends now]) →
  review_ok (count_revision (set_ledger (ledger m ++ [next_of c (next_revision m) claim ends now]) m)).
Proof.
  intros Hok Hcur Happ. apply current_Some in Hcur as [Hc _].
  assert (keeps_warrants m (count_revision
            (set_ledger (ledger m ++ [next_of c (next_revision m) claim ends now]) m))) as Hkeep.
  { apply keeps_same_records; [done|]. simpl. set_solver. }
  apply (review_ok_step m _ [next_of c (next_revision m) claim ends now]); simpl; try lia; try done.
  - eapply grown_append; [by apply rv_grown|done].
  - intros r ->%list_elem_of_singleton. simpl. destruct (rv_fresh _ Hok _ Hc). split; [done|].
    split; [lia|]. split; [by apply (rv_hypotheses _ Hok)|].
    destruct (rv_warrants _ Hok _ Hc) as (rec & root & Hw). eapply warrants_kept in Hw as [rec' ?]; [|done].
    by exists rec', root.
  - intros i x Hx. by apply (rv_records _ Hok).
Qed.

Lemma pending_unlinked rec :
  record_ok rec → pr_status rec = pending_approval →
  pr_revision_id rec = None ∧ pr_promoted_to_revision_id rec = None.
Proof. intros [_ _ Hu Hup] Hst. rewrite Hst in Hu, Hup. split; [apply Hu; set_solver|by apply Hup]. Qed.

(** The record stored with a new revision warrants it. *)
Lemma warrants_new m rec r :
  record_ok rec → mr_claim r = mp_claim (pr_proposal rec) → written_for m (pr_outcome rec) r →
  pr_revision_id rec = Some (revision_id r) ∨ pr_promoted_to_revision_id rec = Some (revision_id r) →
  (mr_approval r = approved →
     po_required_evidence (pr_outcome rec) ≤ num (mr_evidence r) ∧
     (po_decision (pr_outcome rec) = AUTO_ACCEPT
      ∨ po_decision (pr_outcome rec) = REQUIRE_USER_APPROVAL ∧
          pr_status rec ∈ [st_approved; promoted]
      ∨ po_decision (pr_outcome rec) = STORE_HYPOTHESIS ∧ pr_status rec = promoted)) →
  ∀ m', ledger m' = ledger m ++ [r] → records m' = <[pr_proposal_id rec := rec]> (records m) →
  warrants m' rec r r.
Proof.
  intros Hro Hc Hwf Hlink Ha m' Hl Hr. unfold warrants. rewrite Hl, Hr, lookup_insert_eq.
  split; [done|]. split; [set_solver|]. split; [done|]. split; [by apply ro_decided|]. split; [done|].
  split; [by destruct Hwf|]. done.
Qed.

(** Every move keeps the invariant. *)
Lemma move_review_ok m m' : review_ok m → move m m' → review_ok m'.
Proof.
  intros Hok Hmove. destruct Hmove as
    [| |rec Hi Hd Hn Hn' Hst Hdec|rec r Hi Hd Hrid Hn' Hst Hc Hcase Hwf
    |rec rec' Hin Hst Hst' Hp Ho Hr Hn Hby|rec rec' r Hin Hst Hst' Hp Ho Hr Hn Hby Ha Hc Hev Hwf
    |rec rec' r rid Hin Hrid Hk Hst Hst' Hp Ho Hr Hn Ha Hc Hev Hwf|c claim ends now Hcur Happ];
  try (destruct (rv_records _ Hok _ _ Hin) as (Hid & Hlt & Hro)).
  - done.
  - apply (review_ok_step m _ []); simpl; rewrite ?app_nil_r; try lia; try done; try apply Hok.
    + by intros r ?%elem_of_nil.
    + intros i x Hx. destruct (rv_records _ Hok _ _ Hx) as (? & ? & ?). split; [done|]. split; [lia|done].
    + by apply keeps_same_records.
  - apply (review_ok_step m _ []); simpl; rewrite ?app_nil_r; try lia; try done; try apply Hok.
    + by intros r ?%elem_of_nil.
    + apply records_store; [done|lia|lia|]. by apply record_ok_settled.
    + by apply (keeps_fresh_record _ _ rec).
  - assert (record_ok rec) as Hro.
    { apply record_ok_written; try done. destruct Hcase as [[-> _]|[-> _]]; set_solver. }
    apply (wrote_review_ok m _ _ _ (pr_outcome rec)); simpl; try lia; try done.
    + apply (keeps_fresh_record _ _ rec); simpl; try done. set_solver.
    + apply (warrants_new m); try done; [by left|]. intros Ha.
      destruct Hcase as [(?&?&?)|[? Hpr]]; [|congruence]. split; [done|by left].
  - apply (review_ok_step m _ []); simpl; rewrite ?app_nil_r; try lia; try done; try apply Hok.
    + by intros r ?%elem_of_nil.
    + apply records_store; [done|lia|lia|]. by eapply record_ok_rejected.
    + apply (keeps_replaced _ _ rec rec'); try done. left. by apply pending_unlinked.
  - destruct (record_ok_approved rec rec') as [Hro' Hreq]; try done. rewrite <- Ho in *. rewrite <- Hp in *.
    apply (wrote_review_ok m _ _ _ (pr_outcome rec')); simpl; try lia; try done.
    + apply (keeps_replaced _ _ rec rec'); simpl; try done; [|set_solver]. left. by apply pending_unlinked.
    + apply (warrants_new m); try done; [by left|]. intros _. split; [done|]. right; left.
      rewrite Hst'. split; [done|set_solver].
  - destruct (record_ok_promoted rec rec' rid) as [Hro' Hnr]; try done.
    assert (upgrade rec rec') as Hup.
    { right. repeat split; try done; try congruence. by apply ro_unpromoted. }
    rewrite <- Ho in *. rewrite <- Hp in *.
    apply (wrote_review_ok m _ _ _ (pr_outcome rec')); simpl; try lia; try done.
    + apply (keeps_replaced _ _ rec rec'); simpl; try done; [by right|set_solver].
    + apply (warrants_new m); try done; [by right|]. intros _. split; [done|]. rewrite Hst'.
      destruct (po_decision (pr_outcome rec')); try done; [by left|by right; right|].
      right; left. split; [done|set_solver].
  - by apply revised_review_ok.
Qed.

Lemma new_review_ok : review_ok new_review.
Proof. constructor; simpl; [constructor|by intros ? ?%elem_of_nil..|done|by intros ? ?%elem_of_nil]. Qed.

Lemma reviewed_ok calls : review_ok (reviewed calls).
Proof. apply reviewed_invariant; [apply new_review_ok|]. intros m m'. apply move_review_ok. Qed.


(** ** What holds after any calls *)


(** The Interviewer reads no memory: after any calls, at any moment, any
    ceiling and any scope, what it sees is empty, without an error. *)
Theorem interviewer_reads_nothing calls now ceiling scope ref :
  visible (ledger (reviewed calls)) interviewer now ceiling scope ref = Ok [].
Proof.
  unfold visible. rewrite (visible_loop _ (λ _, false)).
  - f_equal. apply list_filter_none. done.
  - intros id r _ [Hr _]%current_Some. unfold readable. case_bool_decide; simpl; [|done].
    rewrite bool_decide_eq_false_2; [done|].
    destruct (rv_warrants _ (reviewed_ok calls) _ Hr) as (rec & root & Hw).
    destruct Hw as (_ & _ & _ & -> & _ & -> & _). apply decide_visible.
Qed.

(** C15. No approved memory without its warrant: after any calls, an approved
    revision is not a hypothesis, and the first revision of its memory repeats
    the claim of a recorded proposal that the policy did not reject; the policy
    accepted it at once, or the learner approved it, or it is a hypothesis that
    was promoted, and the revision cites at least as much evidence as the
    policy asked for. *)
Theorem approved_memory_is_warranted calls r :
  r ∈ ledger (reviewed calls) → mr_approval r = approved →
  mr_kind r ≠ hypothesis ∧
  ∃ id rec root,
    records (reviewed calls) !! id = Some rec ∧ root ∈ ledger (reviewed calls) ∧
    memory_id root = memory_id r ∧ mr_claim root = mp_claim (pr_proposal rec) ∧
    let o := decide (pr_proposal rec) in
    mr_visible_to r = po_visible_to o ∧ po_required_evidence o ≤ num (mr_evidence r) ∧
    (po_decision o = AUTO_ACCEPT
     ∨ po_decision o = REQUIRE_USER_APPROVAL ∧ pr_status rec ∈ [st_approved; promoted]
     ∨ po_decision o = STORE_HYPOTHESIS ∧ pr_status rec = promoted).
Proof.
  intros Hr Ha. pose proof (reviewed_ok calls) as Hok. split.
  - intros Hk. by apply (rv_hypotheses _ Hok _ Hr Hk).
  - destruct (rv_warrants _ Hok _ Hr) as (rec & root & Hrec & Hroot & Hid & Hd & Hc & Hv & _ & Hw).
    rewrite Hd in Hv, Hw. destruct (Hw Ha). exists (pr_proposal_id rec), rec, root. done.
Qed.

(** ** Settling a pending proposal *)

Lemma reviewed_counters calls : 1 ≤ next_memory (reviewed calls) ∧ 1 ≤ next_revision (reviewed calls).
Proof.
  apply (reviewed_invariant (λ m, 1 ≤ next_memory m ∧ 1 ≤ next_revision m)); [done|].
  intros m m' Hm Hmove. destruct Hmove; simpl; lia.
Qed.

(** The policy leaves to the learner only what may be shown to somebody and
    asks for evidence; what was not verified nor quoted is kept as a hypothesis. *)
Lemma decide_pending p :
  po_decision (decide p) = REQUIRE_USER_APPROVAL →
  coach ∈ po_visible_to (decide p) ∧ 1 ≤ po_required_evidence (decide p) ∧
  (po_stored_kind (decide p) = Some (mp_kind p) ∧ po_retention (decide p) = RETENTION (mp_kind p)
   ∨ po_stored_kind (decide p) = Some hypothesis ∧ po_retention (decide p) = Some (days 30)).
Proof.
  unfold decide, MIN_EVENTS_FOR_TRAIT, LEARNER_FACING.
  repeat case_match; simpl; intros Hd; try discriminate Hd.
  all: split; [set_solver|]; split; [lia|]; tauto.
Qed.

Lemma fresh_follows m r :
  review_ok m → memory_id r = next_memory m → revision_id r = next_revision m →
  revision_number r = 1 → contradicts_revision_ids r = ∅ → follows (ledger m) r.
Proof.
  intros Hok Hm Hr Hn Hc. constructor.
  - intros e He Heq. destruct (rv_fresh _ Hok _ He). lia.
  - rewrite (proj2 (current_None _ _)); [done|]. intros e He Heq. destruct (rv_fresh _ Hok _ He). lia.
  - rewrite Hc. set_solver.
Qed.

(** A revision that validates is written. *)
Lemma write_returns p o k now a ev m r :
  review_ok m → po_stored_kind o = Some k →
  first_revision (next_memory m) (next_revision m) p k o now a ev = Ok r →
  write p o now a ev m = (wrote m r, Ok r).
Proof.
  intros Hok Hk Hf. unfold write. rewrite Hk.
  unfold mbind, action_bind, gets, lift, modify, mret, action_ret. cbn. rewrite Hf.
  apply first_revision_Ok in Hf as (_ & Hm & Hrv & Hn & _ & _ & _ & _ & _ & _ & Hc).
  assert (append (ledger m) r = Ok (ledger m ++ [r])) as ->; [|done].
  apply append_Ok. split; [done|]. split; [by apply fresh_follows|].
  by apply grown_NoDup, rv_grown.
Qed.

(** What the fields of a proposal need for its revision to validate. *)
Record storable (p : MemoryProposal) : Prop := {
  sb_checked : new_MemoryProposal p = Ok p;
  sb_length : str_len (mp_claim p) ≤ 2000;
  sb_run : ∀ i, mp_model_run_id p = Some i → 0 < i;
}.

Lemma storable_text p : storable p → Text (mp_claim p) = true.
Proof.
  intros [Hc Hl _]. unfold new_MemoryProposal in Hc. apply raise_if_bind_Ok in Hc as [Hb _].
  unfold Text. rewrite (not_blank_has_non_space _ Hb), andb_true_r, andb_true_iff, !Z.leb_le.
  split; [|done]. destruct (mp_claim p); [done|]. unfold str_len. simpl. lia.
Qed.

Lemma storable_provenance p : storable p → ∃ pv, provenance p = Ok pv.
Proof.
  intros [_ _ Hr]. unfold provenance, new_Provenance. destruct (mp_author p) as [| |r]; simpl; eauto.
  destruct (mp_model_run_id p) as [i|]; simpl; eauto.
  unfold PositiveId. rewrite (proj2 (Z.ltb_lt 0 i)) by auto. simpl. eauto.
Qed.

Lemma expiry_later now retention t :
  (∀ td, retention = Some td → 0 < td) → expiry now retention = Ok (Some t) →
  not_after (Some t) now = Ok false.
Proof.
  intros Hpos. unfold expiry. destruct retention as [td|]; [|done].
  specialize (Hpos _ eq_refl). rewrite (proj2 (Z.eqb_neq td 0)) by lia.
  unfold dt_plus. intros (t' & H & [= <-])%res_bind_Ok. apply raise_if_bind_Ok in H as [_ [= <-]].
  unfold not_after, dt_le. rewrite aware_add, eqb_reflx, instant_add. f_equal. apply Z.leb_gt. lia.
Qed.

Lemma expiry_None now retention x :
  expiry now retention = Ok x → retention = None → x = None.
Proof. intros H ->. by injection H. Qed.

(** A fact that says enough validates. *)
Lemma fact_validates memory rev p k o now ev x :
  1 ≤ memory → 1 ≤ rev → storable p → k ≠ hypothesis → coach ∈ po_visible_to o → 1 ≤ num ev →
  expiry now (po_retention o) = Ok x → (∀ td, po_retention o = Some td → 0 < td) →
  (k = episodic → po_retention o = None) →
  ∃ r, first_revision memory rev p k o now approved ev = Ok r.
Proof.
  intros Hm Hrv Hp Hk Hv Hev Hx Hpos Hep. unfold first_revision.
  destruct (storable_provenance p Hp) as [pv ->]. rewrite Hx. cbn [res_bind].
  rewrite (bool_decide_eq_false_2 (k = hypothesis)) by done.
  eexists. unfold new_MemoryRevision.
  match goal with |- context [revision_fields ?r] => set (rev_ := r) end.
  assert (revision_fields rev_ = true) as ->.
  { unfold revision_fields, PositiveId, rev_. simpl.
    rewrite (proj2 (Z.ltb_lt 0 memory)), (proj2 (Z.ltb_lt 0 rev)), storable_text by (done || lia). done. }
  assert (claims_rest_on_evidence rev_ = Ok tt) as ->.
  { unfold claims_rest_on_evidence, rev_. simpl. rewrite bool_decide_eq_false_2; [done|].
    unfold num in Hev. lia. }
  assert (somebody_must_be_able_to_see_it rev_ = Ok tt) as ->.
  { unfold somebody_must_be_able_to_see_it, rev_. simpl. rewrite bool_decide_eq_false_2; [done|set_solver]. }
  assert (time_runs_forward rev_ = Ok tt) as ->.
  { unfold time_runs_forward, rev_. simpl. destruct x as [t|]; [|done].
    by rewrite (expiry_later now (po_retention o)). }
  assert (a_hypothesis_is_never_approved_into_a_fact rev_ = Ok tt) as ->.
  { unfold a_hypothesis_is_never_approved_into_a_fact, KINDS_NEVER_APPROVED, rev_. simpl.
    rewrite bool_decide_eq_false_2; [done|]. by intros ?%list_elem_of_singleton. }
  assert (episodes_do_not_expire rev_ = Ok tt) as ->; [|done].
  unfold episodes_do_not_expire, rev_. simpl. case_bool_decide as He; [|done].
  by rewrite (expiry_None _ _ _ Hx (Hep He)).
Qed.

Lemma confirmed_kind rec :
  ∃ k, po_stored_kind (confirmed rec) = Some k ∧ k ≠ hypothesis ∧
    (k = episodic → mp_kind (pr_proposal rec) = episodic).
Proof. unfold confirmed. simpl. case_bool_decide; eexists; (split; [reflexivity|]); by split. Qed.

(** A claim waiting for the learner is never stuck: after any calls, a
    pending proposal can be rejected; and it can be approved with the evidence
    the policy asks for, which writes an approved revision with its claim,
    unless it is an inferred episode, its text or its run number does not fit
    the schema, or its expiry is past the calendar. *)
Theorem pending_claim_is_never_stuck calls id rec by_ ev now :
  records (reviewed calls) !! id = Some rec → pr_status rec = pending_approval →
  let p := pr_proposal rec in let o := decide p in
  (∃ rec', (reject id by_ now (reviewed calls)).2 = Ok rec' ∧ pr_status rec' = st_rejected) ∧
  (storable p → po_required_evidence o ≤ num ev → is_ok (expiry now (po_retention o)) = true →
   ¬ (mp_kind p = episodic ∧ po_stored_kind o = Some hypothesis) →
   ∃ m' rec' r, approve id by_ ev now (reviewed calls) = (m', Ok rec') ∧
     pr_status rec' = st_approved ∧ pr_revision_id rec' = Some (revision_id r) ∧
     ledger m' = ledger (reviewed calls) ++ [r] ∧
     mr_approval r = approved ∧ mr_claim r = mp_claim p ∧ mr_visible_to r = po_visible_to o).
Proof.
  intros Hrec Hst p o. pose proof (reviewed_ok calls) as Hok.
  assert (pending (reviewed calls) id = Some rec) as Hpend by by apply pending_Some.
  split.
  { unfold reject, mbind, action_bind, gets. rewrite Hpend. simpl. eauto. }
  intros Hp Hev [x Hx]%is_ok_spec Hne.
  destruct (rv_records _ Hok _ _ Hrec) as (_ & _ & Hro). pose proof (ro_decided _ Hro) as Hd.
  destruct (reviewed_counters calls) as [Hm Hrv].
  assert (po_decision o = REQUIRE_USER_APPROVAL) as Hreq.
  { pose proof (ro_status _ Hro) as Hs. rewrite Hst, Hd in Hs. fold p o in Hs.
    destruct (po_decision o); set_solver. }
  destruct (decide_pending p Hreq) as (Hv & Hmin & Hkinds). fold o in Hv, Hmin, Hkinds.
  destruct (confirmed_kind rec) as (k & Hk & Hnk & Hep).
  destruct (fact_validates (next_memory (reviewed calls)) (next_revision (reviewed calls)) p k
              (confirmed rec) now ev x) as [r Hr]; unfold confirmed; simpl; rewrite ?Hd; fold p o; try done; try lia.
  - intros td Htd. destruct Hkinds as [[_ E]|[_ E]]; rewrite E in Htd; [|by injection Htd as <-].
    destruct (mp_kind p); simpl in Htd; try discriminate Htd; by injection Htd as <-.
  - intros He%Hep. fold p in He. destruct Hkinds as [[_ ->]|[E _]]; [by rewrite He|by destruct Hne].
  - assert (po_required_evidence (pr_outcome rec) ≤ num ev) as Hle by by rewrite Hd.
    apply Z.ltb_ge in Hle. unfold approve, mbind, action_bind, gets. rewrite Hpend, Hle.
    rewrite (write_returns _ _ k _ _ _ _ r) by done.
    apply first_revision_Ok in Hr as (_ & _ & _ & _ & _ & Hc & Hvis & _ & Ha & _).
    eexists _, _, r. split; [reflexivity|]. rewrite Hvis. simpl. by rewrite Hd.
Qed.

(** An inferred episode can never be approved: a proposal of kind episodic
    that the policy keeps for the learner as a hypothesis is given thirty days
    to live, but is written as an episode, which may not expire; so every
    approval raises and changes nothing. *)
Theorem inferred_episode_is_never_approved calls id rec by_ ev now :
  records (reviewed calls) !! id = Some rec →
  mp_kind (pr_proposal rec) = episodic → po_stored_kind (pr_outcome rec) = Some hypothesis →
  (approve id by_ ev now (reviewed calls)).1 = reviewed calls ∧
  is_ok (approve id by_ ev now (reviewed calls)).2 = false.
Proof.
  intros Hrec Hk Hh. pose proof (reviewed_ok calls) as Hok.
  unfold approve, mbind, action_bind, gets.
  destruct (pending _ _) as [rec'|] eqn:Hp; [|done]. apply pending_Some in Hp as [Hrec' Hst].
  rewrite Hrec in Hrec'. injection Hrec' as <-.
  destruct (num ev <? po_required_evidence (pr_outcome rec)); [done|].
  destruct (write _ _ _ _ _ _) as [m' [r|e]] eqn:Hw; [|apply write_Err in Hw; subst m'; done].
  exfalso. apply write_Ok in Hw as (k & Hck & _ & Hf & _).
  destruct (rv_records _ Hok _ _ Hrec) as (_ & _ & Hro).
  pose proof (ro_decided _ Hro) as Hd. pose proof (ro_status _ Hro) as Hs. rewrite Hst, Hd in Hs.
  destruct (po_decision (decide (pr_proposal rec))) eqn:Hreq; try (exfalso; set_solver).
  destruct (decide_pending _ Hreq) as (_ & _ & Hkinds). rewrite <- Hd in Hkinds.
  assert (po_retention (pr_outcome rec) = Some (days 30)) as Hret by (destruct Hkinds as [[E _]|[_ E]]; congruence).
  unfold confirmed in Hck. simpl in Hck. rewrite Hk in Hck. injection Hck as <-.
  unfold first_revision in Hf. simpl in Hf. rewrite Hret in Hf.
  apply res_bind_Ok in Hf as (pv & _ & (x & Hx & Hf)%res_bind_Ok).
  assert (is_Some x) as Hsome by (revert Hx; unfold expiry; simpl; intros (t & _ & [= <-])%res_bind_Ok; eauto).
  unfold new_MemoryRevision in Hf. repeat (apply res_bind_Ok in Hf as (? & ? & Hf)).
  match goal with H : episodes_do_not_expire _ = _ |- _ => revert H end.
  unfold episodes_do_not_expire. simpl. by rewrite (bool_decide_eq_true_2 (is_Some x)).
Qed.

(** ** The packet *)

Import Context.

Lemma StronglySorted_sublist {A} (R : relation A) (l k : list A) :
  sublist l k → StronglySorted R k → StronglySorted R l.
Proof.
  induction 1 as [|x l k Hs IH|x l k Hs IH]; intros Hk; [done|..]; apply StronglySorted_inv in Hk as [Hk Hx].
  - constructor; [by apply IH|]. rewrite Forall_forall in Hx. apply Forall_forall. intros y Hy.
    apply Hx. by eapply elem_of_sublist.
  - by apply IH.
Qed.

Lemma survivor_leb_total a b : survivor_leb a b = true ∨ survivor_leb b a = true.
Proof.
  unfold survivor_leb. cbv zeta.
  destruct (Z.lt_trichotomy (tier_index HIERARCHY (cs_tier a)) (tier_index HIERARCHY (cs_tier b))) as [H|[H|H]].
  - left. by rewrite (proj2 (Z.ltb_lt _ _) H).
  - rewrite H, Z.ltb_irrefl, Z.eqb_refl. simpl. apply String_leb_total.
  - right. by rewrite (proj2 (Z.ltb_lt _ _) H).
Qed.

Lemma survivor_leb_spec a b :
  survivor_leb a b = true ↔
  tier_index HIERARCHY (cs_tier a) < tier_index HIERARCHY (cs_tier b)
  ∨ tier_index HIERARCHY (cs_tier a) = tier_index HIERARCHY (cs_tier b)
    ∧ String.leb (cs_source_id a) (cs_source_id b) = true.
Proof. unfold survivor_leb. by rewrite orb_true_iff, andb_true_iff, Z.ltb_lt, Z.eqb_eq. Qed.

Lemma survivor_leb_trans a b c :
  survivor_leb a b = true → survivor_leb b c = true → survivor_leb a c = true.
Proof.
  rewrite !survivor_leb_spec. intros [?|[E ?]] [?|[E' ?]]; [left; lia|left; lia|left; lia|right].
  split; [lia|]. by eapply String_leb_trans.
Qed.

Lemma sieve_fold r cur sources s0 e0 :
  fold_left (sieve r cur) sources (s0, e0) =
  (s0 ++ filter (λ s, exclusion s r cur = None) sources,
   e0 ++ omap (λ s, exclude s <$> exclusion s r cur) sources).
Proof.
  revert s0 e0; induction sources as [|s l IH]; intros s0 e0; simpl; [by rewrite !app_nil_r|].
  rewrite filter_cons. unfold sieve at 2.
  destruct (exclusion s r cur) eqn:E; simpl; rewrite IH; by rewrite <- app_assoc.
Qed.

Definition is_correction (s : ContextSource) : Prop := cs_tier s = active_corrections.
#[local] Instance is_correction_dec s : base.Decision (is_correction s).
Proof. unfold is_correction. apply _. Defined.

Definition total_tokens (l : list ContextSource) : Z := sumZ (map tokens l).
Definition corrections (l : list ContextSource) : Z := Z.of_nat (length (filter is_correction l)).

(** What the packing loop has done with the survivors it has seen. *)
Record packed (budget : Z) (e0 : list Excluded) (pre : list ContextSource) (k : packing)
    (kept over : list ContextSource) : Prop := {
  pkd_split : pre ≡ₚ kept ++ over;
  pkd_kept : sublist kept pre;
  pkd_included : pk_included k = imap (λ i s, include s (Z.of_nat i)) kept;
  pkd_excluded : pk_excluded k = e0 ++ map (λ s, exclude s over_budget) over;
  pkd_used : pk_used k = total_tokens kept;
  pkd_budget : total_tokens kept ≤ budget;
  pkd_corrections : corrections kept ≤ pk_corrections k ≤ MAX_ACTIVE_CORRECTIONS;
  pkd_tight : ∀ s, s ∈ over → is_correction s ∨ budget < total_tokens kept + tokens s;
}.

Lemma total_tokens_snoc l s : total_tokens (l ++ [s]) = total_tokens l + tokens s.
Proof. unfold total_tokens. rewrite map_app. autorewrite with pysum. simpl. autorewrite with pysum. lia. Qed.

Lemma corrections_snoc l s :
  corrections (l ++ [s]) = corrections l + if bool_decide (is_correction s) then 1 else 0.
Proof.
  unfold corrections. rewrite filter_app, length_app, filter_cons.
  case_bool_decide; case_decide; simpl; try done; lia.
Qed.

Lemma tokens_pos s : 1 ≤ tokens s.
Proof. unfold tokens. lia. Qed.

Lemma packed_over budget e0 pre k kept over s c :
  packed budget e0 pre k kept over →
  corrections kept ≤ c ≤ MAX_ACTIVE_CORRECTIONS →
  is_correction s ∨ budget < total_tokens kept + tokens s →
  packed budget e0 (pre ++ [s])
    (MkPacking c (pk_used k) (pk_included k) (pk_excluded k ++ [exclude s over_budget]))
    kept (over ++ [s]).
Proof.
  intros [Hp Hk Hi He Hu Hb Hc Ht] Hc' Hs. constructor; simpl; try done.
  - by rewrite Hp, app_assoc.
  - by apply sublist_inserts_r.
  - by rewrite He, map_app, app_assoc.
  - intros x [Hx|Heq%list_elem_of_singleton]%elem_of_app; [by apply Ht|by subst x].
Qed.

Lemma packed_kept budget e0 pre k kept over s c :
  packed budget e0 pre k kept over →
  corrections (kept ++ [s]) ≤ c ≤ MAX_ACTIVE_CORRECTIONS →
  total_tokens kept + tokens s ≤ budget →
  packed budget e0 (pre ++ [s])
    (MkPacking c (pk_used k + tokens s)
       (pk_included k ++ [include s (Z.of_nat (length (pk_included k)))]) (pk_excluded k))
    (kept ++ [s]) over.
Proof.
  intros [Hp Hk Hi He Hu Hb Hc Ht] Hc' Hs. pose proof (tokens_pos s).
  constructor; simpl; rewrite ?total_tokens_snoc; try done; try lia.
  - rewrite Hp. solve_Permutation.
  - by apply sublist_app.
  - rewrite Hi, imap_app. simpl. by rewrite length_imap, Nat.add_0_r.
  - intros x Hx. destruct (Ht x Hx); [by left|right; lia].
Qed.

Lemma pack_packed budget e0 pre k kept over s :
  packed budget e0 pre k kept over →
  ∃ kept' over', packed budget e0 (pre ++ [s]) (pack budget k s) kept' over'.
Proof.
  intros Hpk. pose proof (pkd_corrections _ _ _ _ _ _ Hpk) as Hc.
  pose proof (pkd_used _ _ _ _ _ _ Hpk) as Hu. unfold pack. rewrite Hu.
  change (bool_decide (cs_tier s = active_corrections)) with (bool_decide (is_correction s)).
  pose proof (corrections_snoc kept s) as Hs.
  destruct (bool_decide (is_correction s)) eqn:Hcs; simpl.
  - apply bool_decide_eq_true in Hcs. destruct (_ <=? _) eqn:Hmax; simpl.
    + rewrite <- Hu. exists kept, (over ++ [s]). apply packed_over; [done|lia|by left].
    + apply Z.leb_gt in Hmax. destruct (_ <? _) eqn:Hb; rewrite <- Hu.
      * exists kept, (over ++ [s]). apply packed_over; [done|lia|by left].
      * apply Z.ltb_ge in Hb. exists (kept ++ [s]), over. apply packed_kept; [done|lia|lia].
  - destruct (_ <? _) eqn:Hb; rewrite <- Hu.
    + apply Z.ltb_lt in Hb. exists kept, (over ++ [s]). apply packed_over; [done|lia|right; lia].
    + apply Z.ltb_ge in Hb. exists (kept ++ [s]), over. apply packed_kept; [done|lia|lia].
Qed.

Lemma pack_fold budget e0 l :
  0 ≤ budget →
  ∃ kept over, packed budget e0 l (fold_left (pack budget) l (MkPacking 0 0 [] e0)) kept over.
Proof.
  intros Hb.
  apply (fold_left_prefix_invariant (λ pre k, ∃ kept over, packed budget e0 pre k kept over)).
  - exists [], []. constructor; simpl; rewrite ?app_nil_r; try done. intros s ?%elem_of_nil. done.
  - intros pre s k _ (kept & over & Hpk). by eapply pack_packed.
Qed.

Lemma filter_split (f : ContextSource → option ExclusionReason) l :
  l ≡ₚ filter (λ s, f s = None) l ++ filter (λ s, f s ≠ None) l.
Proof.
  induction l as [|s l IH]; [done|]. rewrite !filter_cons.
  destruct (f s) eqn:E; repeat case_decide; try congruence.
  - rewrite <- Permutation_middle. by constructor.
  - simpl. by constructor.
Qed.

(** What each reason says of a source, for a request whose role sees the
    revisions [seen]. *)
Definition violates (r : ContextRequest) (seen : list MemoryRevision) (s : ContextSource)
    (reason : ExclusionReason) : Prop :=
  match reason with
  | interviewer_excluded => cr_role r = interviewer
  | role_not_allowed => cs_tier s ∉ TIERS_BY_ROLE (cr_role r)
  | other_owner => cs_owner_id s ≠ cr_owner_id r
  | sensitivity_above_ceiling => SENSITIVITY_RANK (cr_ceiling r) < SENSITIVITY_RANK (cs_sensitivity s)
  | other_company => ∃ a b, cs_company_id s = Some a ∧ cr_company_id r = Some b ∧ a ≠ b
  | not_current => ∃ i, cs_revision_id s = Some i ∧ ∀ rev, rev ∈ seen → revision_id rev ≠ i
  | coach_current_answer_hidden => cr_role r = coach ∧ cs_is_current_answer s = true
  | over_budget => False
  end.

(** The positions of the hierarchy, and the identifier within a tier. *)
Definition before (a b : ContextSource) : Prop :=
  let i := tier_index HIERARCHY (cs_tier a) in let j := tier_index HIERARCHY (cs_tier b) in
  i < j ∨ i = j ∧ String.leb (cs_source_id a) (cs_source_id b) = true.

Lemma differs_spec a b : differs a b = true ↔ ∃ x y, a = Some x ∧ b = Some y ∧ x ≠ y.
Proof.
  unfold differs. destruct a as [x|], b as [y|]; try (split; [done|naive_solver]).
  rewrite negb_true_iff, Z.eqb_neq. naive_solver.
Qed.

(** A source that no rule excludes violates nothing; another violates what its
    reason says. *)
Lemma exclusion_spec s r seen :
  match exclusion s r (list_to_set (map revision_id seen)) with
  | Some reason => violates r seen s reason
  | None => ∀ reason, ¬ violates r seen s reason
  end.
Proof.
  unfold exclusion. case_bool_decide as Hi; [done|].
  destruct (negb (bool_decide (cs_tier s ∈ _))) eqn:Ht; [by bool_prop|].
  destruct (negb (cs_owner_id s =? _)) eqn:Ho; [by bool_prop|].
  destruct (_ <? _) eqn:Hs; [by apply Z.ltb_lt|].
  destruct (differs _ _) eqn:Hd; [by apply differs_spec|].
  destruct (match cs_revision_id s with Some _ => _ | None => false end) eqn:Hc.
  { destruct (cs_revision_id s) as [i|] eqn:Hi'; [|done]. bool_prop. exists i. split; [done|].
    intros rev Hrev Heq. apply Hc, elem_of_list_to_set, list_elem_of_fmap. by exists rev. }
  destruct (bool_decide (cr_role r = coach) && cs_is_current_answer s) eqn:Ha.
  { apply andb_true_iff in Ha as [Hco Ha]. by apply bool_decide_eq_true in Hco. }
  bool_prop. intros [] Hv; simpl in Hv; try done.
  - lia.
  - apply differs_spec in Hv. congruence.
  - destruct Hv as (i & Hi' & Hno). rewrite Hi' in Hc. bool_prop.
    apply elem_of_list_to_set, list_elem_of_fmap in Hc as (rev & -> & Hrev). by apply (Hno rev).
  - destruct Hv as [Hco Hv], Ha; congruence.
Qed.

(** The refused sources are listed with their reasons, in the order they came. *)
Definition refused (r : ContextRequest) (cur : gset Z) (s : ContextSource) : option Excluded :=
  exclude s <$> exclusion s r cur.

Lemma refused_reasons r seen sources :
  let cur := list_to_set (map revision_id seen) in
  ∃ reasons, omap (refused r cur) sources =
      zip_with exclude (filter (λ s, exclusion s r cur ≠ None) sources) reasons ∧
    Forall2 (violates r seen) (filter (λ s, exclusion s r cur ≠ None) sources) reasons.
Proof.
  intros cur. induction sources as [|s l (reasons & IH & Hall)]; [by exists []; split|].
  rewrite filter_cons. simpl. unfold refused at 1. pose proof (exclusion_spec s r seen) as Hs. fold cur in Hs.
  destruct (exclusion s r cur) as [reason|] eqn:E; case_decide; try congruence; simpl.
  - exists (reason :: reasons). split; [by f_equal|by constructor].
  - by exists reasons.
Qed.

(** C17. A packet decides every source, within its budget: for a request the code
    accepts, over a ledger whose times are aware, the sources split into the
    kept, the refused and those over the budget.  The kept are listed with
    their positions, in the order of the hierarchy and of their identifiers
    within a tier, use at most the budget and hold at most two active
    corrections; neither they nor those over the budget violate a rule.  Each
    refused source is listed, in the order it came, with a reason that is true
    of it, and those over the budget after them; such a source that is no
    correction would not fit beside the kept ones. *)
Theorem packet_decides_every_source sources r l :
  new_ContextRequest r = Ok r → Forall times_aware l → aware (cr_at r) = true →
  ∃ p seen kept denied over reasons,
    build_context sources r l = Ok p ∧
    visible l (cr_role r) (cr_at r) (cr_ceiling r) None None = Ok seen ∧
    sources ≡ₚ kept ++ denied ++ over ∧ sublist denied sources ∧
    (∀ s reason, s ∈ kept ++ over → ¬ violates r seen s reason) ∧
    Forall2 (violates r seen) denied reasons ∧
    cp_included p = imap (λ i s, include s (Z.of_nat i)) kept ∧
    cp_excluded p = zip_with exclude denied reasons ++ map (λ s, exclude s over_budget) over ∧
    StronglySorted before kept ∧
    cp_tokens_used p = total_tokens kept ∧ total_tokens kept ≤ cr_token_budget r ∧
    corrections kept ≤ 2 ∧
    (∀ s, s ∈ over → is_correction s ∨ cr_token_budget r < total_tokens kept + tokens s).
Proof.
  intros Hr Hl Hn.
  pose proof (visible_value l (cr_role r) (cr_at r) (cr_ceiling r) None None Hl Hn) as Hseen.
  set (seen := filter _ _) in Hseen.
  unfold build_context. rewrite Hseen. cbn [res_bind].
  destruct (refused_reasons r seen sources) as (reasons & Hreasons & Hviolates).
  set (cur := list_to_set (map revision_id seen) : gset Z) in *. rewrite sieve_fold.
  rewrite !app_nil_l. set (survivors := sort_by _ _).
  assert (0 ≤ cr_token_budget r) as Hb.
  { unfold new_ContextRequest in Hr. apply raise_if_bind_Ok in Hr as [_ [Hr _]%raise_if_bind_Ok]. lia. }
  destruct (pack_fold (cr_token_budget r) (omap (refused r cur) sources) survivors Hb) as (kept & over & Hpk).
  destruct Hpk as [Hp Hk Hi He Hu Hle Hc Ht].
  assert (filter (λ s, exclusion s r cur = None) sources ≡ₚ kept ++ over) as Hsurv.
  { rewrite <- Hp. unfold survivors. by rewrite sort_by_perm. }
  eexists _, seen, kept, _, over, reasons. split; [reflexivity|]. split; [done|]. simpl.
  split; [|split; [|split; [|split; [exact Hviolates|split; [exact Hi|split; [|split; [|]]]]]]].
  - rewrite (Permutation_app_comm _ over), app_assoc, <- Hsurv. apply filter_split.
  - apply sublist_filter.
  - intros s reason Hs. rewrite <- Hsurv in Hs. apply list_elem_of_filter in Hs as [Hs _].
    pose proof (exclusion_spec s r seen) as Hspec. fold cur in Hspec. rewrite Hs in Hspec. apply Hspec.
  - rewrite <- Hreasons. exact He.
  - eapply StronglySorted_sublist; [exact Hk|].
    eapply StronglySorted_impl; [|apply sort_by_sorted; [apply survivor_leb_total|apply survivor_leb_trans]].
    intros a b Hab. by apply survivor_leb_spec.
  - split; [exact Hu|]. split; [exact Hle|]. split; [|exact Ht]. unfold MAX_ACTIVE_CORRECTIONS in Hc. lia.
Qed.

(** ** Concrete reviews *)

Definition demo_now : datetime := utc (days 738000).
Definition demo_link : EvidenceLink := MkLink e_activity 1.
(** The coach infers something about the person from one conversation. *)
Definition demo_inference (k : MemoryKind) : MemoryProposal :=
  MkProposal k "prefers short answers" agent_inference (a_role coach) (Some 5) [e_conversation] 1
    routine None false true.
(** The learner says so, and is quoted. *)
Definition demo_statement : MemoryProposal :=
  MkProposal semantic "prefers worked examples" learner_statement a_learner None [e_user_statement] 1
    routine (Some "I like worked examples"%string) false false.
Definition demo_propose (p : MemoryProposal) : review_call := rc_propose p [demo_link] demo_now.
Definition demo_pending : MemoryReview := reviewed [demo_propose (demo_inference procedural)].
Definition demo_record (m : MemoryReview) : ProposalRecord :=
  default (MkRecord 0 demo_statement (reject_outcome no_evidence) st_rejected None demo_now None None)
    (records m !! 1).
Definition three_links : list EvidenceLink := [demo_link; demo_link; demo_link].
Definition demo_fact : MemoryRevision :=
  default (MkRevision 0 0 0 semantic s_global None "" 0 routine ∅ [] (MkProvenance p_learner None)
             demo_now None None None ∅ proposed demo_now)
    (head (ledger (reviewed [demo_propose demo_statement]))).

(** The learner approves the inference, which is written as a fact; the record
    still counts as a stored hypothesis, so promoting it writes the same claim
    a second time, as another memory, and the reviewer's name is lost. *)
Lemma approved_inference_promotes_again :
  let m := reviewed [demo_propose (demo_inference procedural); rc_approve 1 "ada" three_links demo_now;
                     rc_promote 1 three_links demo_now] in
  map (λ r, (memory_id r, mr_claim r, mr_approval r)) (ledger m) =
    [(1, "prefers short answers"%string, approved); (2, "prefers short answers"%string, approved)] ∧
  pr_status (demo_record m) = promoted ∧ pr_reviewed_by (demo_record m) = None.
Proof. vm_compute. done. Qed.

(** [expire] copies a revision without validating it: a memory can end before
    it starts, which the contract refuses on construction. *)
Lemma expiry_before_start_is_stored :
  let m := reviewed [demo_propose demo_statement; rc_expire 1 (utc (days 737000)) demo_now] in
  map (λ r, is_ok (new_MemoryRevision r)) (ledger m) = [true; false].
Proof. vm_compute. done. Qed.

(** The budget does not trim from the bottom: an assignment that does not fit
    is skipped and broader history is included. *)
Lemma oversized_assignment_is_skipped :
  let assignment := MkSource "a" current_assignment 1 "twelve chars" routine None None false in
  let history := MkSource "h" broader_history 1 "tiny" routine None None false in
  (λ p, (map in_source_id (cp_included p), map ex_reason (cp_excluded p))) <$>
    (match build_context [assignment; history] (MkRequest 1 planner routine demo_now 2 None) [] with
     | Ok p => Some p | Err _ => None end) = Some (["h"%string], [over_budget]).
Proof. vm_compute. done. Qed.

Lemma demo_fact_visible :
  Forall times_aware [demo_fact] ∧ aware demo_now = true.
Proof.
  split; [|done]. apply Forall_singleton. split; [vm_compute; done|].
  assert (valid_to demo_fact = None) as -> by (vm_compute; done).
  assert (expires_at demo_fact = Some (utc (days 738180))) as -> by (vm_compute; done).
  intros t [?|[= <-]]; done.
Qed.

Lemma visible_exact_witness :
  (Forall times_aware [demo_fact] ∧ aware demo_now = true) ∧
  ∃ out, visible [demo_fact] tutor demo_now routine None None = Ok out ∧
    NoDup (map memory_id out) ∧
    ∀ r, r ∈ out ↔
      current [demo_fact] (memory_id r) = Some r ∧ mr_approval r = approved ∧ tutor ∈ mr_visible_to r ∧
      SENSITIVITY_RANK (mr_sensitivity r) ≤ SENSITIVITY_RANK routine ∧
      holds_at r demo_now = true ∧ in_scope None None r = true.
Proof. split; [exact demo_fact_visible|]. apply visible_exact; apply demo_fact_visible. Defined.

Lemma approved_memory_is_warranted_witness :
  demo_fact ∈ ledger (reviewed [demo_propose demo_statement]) ∧ mr_approval demo_fact = approved ∧
  mr_kind demo_fact ≠ hypothesis ∧
  ∃ id rec root,
    records (reviewed [demo_propose demo_statement]) !! id = Some rec ∧
    root ∈ ledger (reviewed [demo_propose demo_statement]) ∧
    memory_id root = memory_id demo_fact ∧ mr_claim root = mp_claim (pr_proposal rec) ∧
    let o := decide (pr_proposal rec) in
    mr_visible_to demo_fact = po_visible_to o ∧ po_required_evidence o ≤ num (mr_evidence demo_fact) ∧
    (po_decision o = AUTO_ACCEPT
     ∨ po_decision o = REQUIRE_USER_APPROVAL ∧ pr_status rec ∈ [st_approved; promoted]
     ∨ po_decision o = STORE_HYPOTHESIS ∧ pr_status rec = promoted).
Proof.
  assert (demo_fact ∈ ledger (reviewed [demo_propose demo_statement])) as Hin.
  { apply list_elem_of_lookup. exists 0%nat. vm_compute. reflexivity. }
  assert (mr_approval demo_fact = approved) as Ha by (vm_compute; reflexivity).
  split; [exact Hin|]. split; [exact Ha|]. apply (approved_memory_is_warranted _ _ Hin Ha).
Defined.

Lemma pending_claim_is_never_stuck_witness :
  let rec := demo_record demo_pending in
  records demo_pending !! 1 = Some rec ∧ pr_status rec = pending_approval ∧
  (∃ rec', (reject 1 "ada" demo_now demo_pending).2 = Ok rec' ∧ pr_status rec' = st_rejected) ∧
  ∃ m' rec' r, approve 1 "ada" three_links demo_now demo_pending = (m', Ok rec') ∧
    pr_status rec' = st_approved ∧ pr_revision_id rec' = Some (revision_id r) ∧
    ledger m' = ledger demo_pending ++ [r] ∧
    mr_approval r = approved ∧ mr_claim r = mp_claim (pr_proposal rec) ∧
    mr_visible_to r = po_visible_to (decide (pr_proposal rec)).
Proof.
  assert (records demo_pending !! 1 = Some (demo_record demo_pending)) as Hrec by (vm_compute; reflexivity).
  assert (pr_status (demo_record demo_pending) = pending_approval) as Hst by (vm_compute; reflexivity).
  cbv zeta. split; [exact Hrec|]. split; [exact Hst|].
  destruct (pending_claim_is_never_stuck [demo_propose (demo_inference procedural)] 1 _ "ada" three_links
              demo_now Hrec Hst) as [Hrej Happ].
  split; [exact Hrej|]. apply Happ.
  - constructor; [vm_compute; reflexivity|vm_compute; discriminate|].
    intros i Hi. vm_compute in Hi. injection Hi as <-. reflexivity.
  - vm_compute. discriminate.
  - vm_compute. reflexivity.
  - intros [Hk _]. vm_compute in Hk. discriminate Hk.
Defined.

Definition demo_episode : MemoryReview := reviewed [demo_propose (demo_inference episodic)].

Lemma inferred_episode_is_never_approved_witness :
  let rec := demo_record demo_episode in
  records demo_episode !! 1 = Some rec ∧
  mp_kind (pr_proposal rec) = episodic ∧ po_stored_kind (pr_outcome rec) = Some hypothesis ∧
  (approve 1 "ada" three_links demo_now demo_episode).1 = demo_episode ∧
  is_ok (approve 1 "ada" three_links demo_now demo_episode).2 = false.
Proof.
  assert (records demo_episode !! 1 = Some (demo_record demo_episode)) as Hrec by (vm_compute; reflexivity).
  assert (mp_kind (pr_proposal (demo_record demo_episode)) = episodic) as Hk by (vm_compute; reflexivity).
  assert (po_stored_kind (pr_outcome (demo_record demo_episode)) = Some hypothesis) as Hh
    by (vm_compute; reflexivity).
  cbv zeta. split; [exact Hrec|]. split; [exact Hk|]. split; [exact Hh|].
  apply (inferred_episode_is_never_approved _ _ _ _ _ _ Hrec Hk Hh).
Defined.

Definition demo_request : ContextRequest := MkRequest 1 planner routine demo_now 100 None.
Definition demo_sources : list ContextSource :=
  [MkSource "history" broader_history 1 "an older attempt" routine None None false;
   MkSource "assignment" current_assignment 1 "today's task" routine None None false].

Lemma packet_decides_every_source_witness :
  new_ContextRequest demo_request = Ok demo_request ∧ Forall times_aware [demo_fact] ∧
  ∃ p kept denied over reasons,
    build_context demo_sources demo_request [demo_fact] = Ok p ∧
    demo_sources ≡ₚ kept ++ denied ++ over ∧ StronglySorted before kept ∧
    cp_included p = imap (λ i s, include s (Z.of_nat i)) kept ∧
    cp_excluded p = zip_with exclude denied reasons ++ map (λ s, exclude s over_budget) over ∧
    cp_tokens_used p = total_tokens kept ∧ total_tokens kept ≤ 100.
Proof.
  split; [reflexivity|]. split; [apply demo_fact_visible|].
  destruct (packet_decides_every_source demo_sources demo_request [demo_fact]) as
    (p & seen & kept & denied & over & reasons & Hb & _ & Hsplit & _ & _ & _ & Hi & He & Hs & Hu & Hle & _);
    [reflexivity|apply demo_fact_visible|reflexivity|].
  exists p, kept, denied, over, reasons. split; [exact Hb|]. split; [exact Hsplit|]. split; [exact Hs|].
  split; [exact Hi|]. split; [exact He|]. split; [exact Hu|exact Hle].
Defined.
